(* ===== verification/_CoqProject ===== *)
-Q . S2P
Prelude.v
CString.v
NameTree.v
FusedFs.v
FusedInv.v
FusedReach.v
FusedRun.v
FusedNames.v
FusedData.v
Proto.v
RpcServer.v
RpcThm.v
Paxos.v
PaxosThm.v
PaxosLive.v
PaxosCluster.v
PaxosAgree.v
Metadata.v
MetadataThm.v
MetadataPath.v
Replica.v
Network.v
NetworkThm.v
PaxosTypes.v
PaxosWire.v
Storage.v
StorageThm.v
TcpAdapter.v
TcpThm.v
Client.v
ClientThm.v
Frontend.v
FrontendCommit.v
FrontendPath.v
FrontendQuorum.v
FrontendInv.v
FrontendThm.v
FrontendLive.v
FrontendData.v
FrontendInit.v
FrontendDemo.v
FrontendConc.v
Lifecycle.v
System.v
