(* ===== verification/Prelude.v ===== *)
(** * Fused-Distributed-FS: a verification development

    The program is a distributed file store.  Clients call a gRPC service on one of
    several frontends.  A frontend keeps the name space in a metadata manager, agrees on
    changes of it with the other frontends through a Paxos node and a TCP message engine,
    and keeps file contents on storage nodes, which it reaches over a text protocol on
    TCP.  A storage node is a TCP adapter in front of an RPC server, whose handlers call
    the operations of a filesystem in memory with backing files on disk; the same
    operations can be mounted with FUSE.  This library translates the C and C++ sources
    into Rocq functions and proves what they do.

    ** Parts of the program and where they are modelled

    - [Prelude], [CString]: fixed-width integers, little-endian byte encodings, list
      lemmas and automation; the [string.h] and [stdio.h] functions the sources call
      ([strncpy], [strtok_r], [strrchr], [strcmp], the conversions of [snprintf] and
      [sscanf]).
    - [FusedFs]: [src/src/fused_ops.c] and [src/include/fused_fs.h], one definition
      per function.  The inode table is an array of [MAX_INODES] records and an inode
      pointer is an index of it, so aliasing is equality of indices.  [fused_oper]
      is the operation table of [src/src/fused_main.c]; [reachable] are the states
      of a mounted filesystem under any sequence of calls.
      [FusedInv], [FusedReach]: well-formedness of the table and its preservation.
      [NameTree]: resolution of paths in a directory graph, independent of inodes.
      [FusedNames]: the namespace operations on paths.  [FusedData]: file contents.
      [FusedRun]: concrete executions.
    - [Proto]: the messages of [src/proto/filesystem.proto] and the service as the class
      [FileSystemService], with its instances [rpc_service] and [frontend_service].
    - [RpcServer], [RpcThm]: [src/src/fused_rpc_server.cpp], handlers over [FusedFs].
    - [Paxos]: [src/distributed_core/src/paxos.c], [include/paxos.h].  The message
      handler is one function, since it runs under one lock.  [paxos_propose] is a
      thread with a program counter that stops where the code releases its locks or
      blocks, so other calls can run in between.  [PaxosThm]: one node.
      [PaxosLive]: one call of [paxos_propose].  [PaxosCluster]: several nodes that
      exchange messages over an abstract transport, where the invariants of the protocol
      are proved.  [PaxosAgree]: what the nodes agree on.  [PaxosTypes]: the ranges of all
      fields.  [PaxosWire]: the nodes joined by [paxos_broadcast_message] and
      [handle_network_message] of [src/src/distributed_frontend.cpp] and the codec and
      receive buffer of the network engine, with the bytes on the wire; while every frame
      is received whole its runs are runs of [PaxosCluster].
    - [Metadata], [MetadataThm]: [metadata_manager.c]: the hash map (entries in a
      heap, since map and callers share pointers), the log as its bytes, checksum and
      serialisation.  [MetadataPath]: lookups and scans by path.
    - [Replica]: the callbacks [persist_wal] and [apply_state_machine] of
      [distributed_frontend.cpp].  The class [StateMachine] says what the Paxos node
      expects of the component it drives; the metadata manager is an instance.
    - [Network], [NetworkThm]: [network_engine.c]: peer table, message codec, sending,
      and one iteration of the event loop.
    - [Storage], [StorageThm]: [storage_interface.c]: node registry, node selection,
      and the request/reply exchanges; the bytes sent on every connection are recorded.
    - [TcpAdapter], [TcpThm]: [src/src/storage_tcp_adapter.cpp], over any
      [FileSystemService]; a connection's sends and closes are a list of actions.  [TcpThm]
      joins [Storage], the adapter and [RpcServer].
    - [Client], [ClientThm]: [src/src/distributed_client.cpp] and
      [src/proto/grpc_client.cc], over any [FileSystemService].
    - [Frontend]: the path helpers, [commit_metadata_with_paxos] and the seven handlers
      of [src/src/distributed_frontend.cpp].  A handler is one step, which
      is how it behaves when its checks and the part under [g_coordinator_lock] are not
      separated by another handler; while it waits for consensus the node handles messages, which
      are the schedule of the proposal ([propose_with]).  [FrontendInit]:
      [initialize_distributed_system], and the states [fe_reachable] of the process.
      [FrontendCommit]: one commit.  [FrontendPath]: paths.  [FrontendQuorum]: the loops
      over replicas.  [FrontendInv]: the invariant, and the name space as a map from
      paths to entries ([resolve]).  [FrontendThm], [FrontendLive], [FrontendData]: the
      handlers.  [FrontendDemo]: a cluster of three from start-up through every handler.
      [FrontendConc]: several requests at once; Create and Mkdir are two steps there, the
      checks before and the part under [g_coordinator_lock], with any other steps in
      between.
    - [Lifecycle]: the [main] functions of frontend, RPC server and adapter, the accept
      loop of the adapter, [connect_to_storage_node], and what the destroy functions and
      [cleanup_distributed_system] release.
    - [System]: frontend, storage interface, adapter and RPC server together.

    The parts interact as in the code: the Paxos node reaches the network and the
    metadata manager only through callbacks, which appear as [effect]s in the order
    they are made; adapter and clients reach a server only through [FileSystemService].

    ** Conventions

    Integers are [Z]; wrap-around is written with [u8], [u16], [u32], [u64], [s32] and
    [s64] where a value is stored in or converted to the type.  What a call reads from
    its surroundings (clock, caller identity, [malloc], [stdio], sockets, the timed
    wait, uninitialised or stale buffer contents, environment variables, gRPC's transport)
    is an argument, and theorems hold for every value of it unless a hypothesis says
    otherwise.  A call that would dereference a null pointer, or that never returns,
    yields [None].  Locks appear as the granularity of the steps.  The
    operations of [fused_ops.c] and the handlers of the RPC server take no lock although
    libfuse and gRPC run them in several threads: their theorems are about calls one after
    the other.

    ** Theorems

    - Whole system (C3, [System]): when the storage nodes serve the bytes the frontend
      sends, what an acknowledged Write stored is what the next successful Get returns,
      through all components.
    - Frontend (C2, C5-C13, C33): a started frontend whose calls do not overlap and that
      learns no other proposer's entries has a well-formed map whose live paths form a
      tree; what remains true without
      these conditions ([FrontendConc], with the executions that lose the rest); when a
      commit is reported and what it changes; Create, Remove, Rmdir, Write and Get on
      every branch as operations on the map from paths to entries; a Create that a quorum
      answers succeeds; reads return the value of a majority of replicas and share a
      replica with every acknowledged write; listings.
    - Namespace of the filesystem (C1, C14-C19, [FusedNames]): every reachable inode table
      is well-formed; no inode has two paths; what create, mkdir, unlink, rmdir and
      rename do to every path; failed calls change no path.
    - File contents (C20-C22, [FusedData]): backing files only grow while their inode
      is live; read and write refine an append-only byte array.
    - Paxos (C4, C23-C29, C38, [PaxosThm], [PaxosLive], [PaxosCluster], [PaxosAgree],
      [PaxosTypes], [PaxosWire], [Replica]): one value per proposal number, and per sequence number
      when one node proposes; proposal numbers are increasing and distinct until the
      ballot field is exhausted; promises are kept as long; the commit rule; a proposal with
      enough answers succeeds; only proposed values are logged or applied; a replica
      implements the replicated map; an execution in which two proposers commit different
      values under one sequence number, since a proposer does not adopt the values
      reported in promises; the bytes on the wire carry the protocol, and all fields stay
      in their C types.
    - Metadata manager, network engine, storage interface (C30-C32): what a restart
      makes of the log; delivery of a message returned by one [recv]; node selection.
    - Storage node (C34-C36, C40, [RpcThm], [TcpThm], [Lifecycle]): what Create, Mkdir and
      Remove requests do to every path; what is written is read back; a write whose
      payload TCP cuts into pieces arrives whole; every accepted connection is closed once.
    - Clients (C37, [ClientThm]): the command line against a reference table.
    - Start-up and shutdown (C39, [Lifecycle]): from the arguments of [main] to the
      clean-up, which frees every entry of the map exactly once.
    Further theorems of the same files (open, unmount, short writes, recorded sizes, the
    learner, the checksum, peer removal, partial receives, replication, paths of the
    frontend, the states and listings of the RPC server, one storage node on its own, client commands, races between Creates
    and others) complete the specifications.

    ** Fuel

    Recursion is structural except in these loops.  [fill_gap] writes zeros in blocks
    of at most 4096 bytes and [gap_fuel] is one more than the number of full blocks;
    [fused_write_refines] shows the whole gap is written.  [wal_replay_loop] consumes
    at least one byte of the log per iteration and its fuel is one more than the
    length of the log ([replay_fuel] shows that more would change nothing).  [fmt_lx] prints at
    most 16 hexadecimal digits of a 64-bit value.  The selection loop of
    [storage_interface_select_nodes] makes at most twice as many attempts as there are
    nodes, which is the bound in the code.  [propose_with] and [recv_payload] recurse on what arrives
    and are [None] when that ends while the code still waits; [frontend_create_succeeds]
    and [adapter_connection_ends] say when they return.

    ** Not modelled

    Logging, usage texts and the destruction of mutexes have no observable result here.
    What socket options do, name resolution, gRPC's server, transport and wire encoding,
    and the signal that ends the frontend's loop are outside the sources; calls to them
    appear as arguments.  [main] of [fused_main.c] only calls libfuse.  The generated
    protocol code, the tests and the deployment scripts are left out.  Restarts of a Paxos
    node inside a cluster are not modelled (a restarted node starts from [paxos_init] and
    has forgotten its promises), nor are calls of the mounted filesystem that overlap.  A
    cluster in which [recv] cuts frames can be run ([PaxosWire.wire_run]), but its
    theorems assume whole frames; [paxos_cut_logs_unproposed] shows why.

    ** Order of work

    The local filesystem, Paxos, the metadata manager, the network engine, the storage
    interface, the RPC server, the adapter, the clients, one frontend with interleaved
    requests, agreement in the cluster, process start and exit, the path of a write
    through the whole system and the cluster on the wire are done, in this order.  Next: several frontends with their
    metadata joined by the cluster, and progress of the handlers other than Create. *)

From stdpp Require Import base gmap strings list fin_maps numbers sorting.
From Stdlib Require Import ZArith Lia.

#[local] Open Scope Z_scope.

(** ** C integers: values are kept in [Z], width is written out *)

Definition u8 (z : Z) : Z := z `mod` 2 ^ 8.

Definition u16 (z : Z) : Z := z `mod` 2 ^ 16.

Definition u32 (z : Z) : Z := z `mod` 2 ^ 32.

Definition u64 (z : Z) : Z := z `mod` 2 ^ 64.

(** Conversion to a signed two's-complement type of [w] bits. *)
Definition swrap (w z : Z) : Z :=
  (z + 2 ^ (w - 1)) `mod` 2 ^ w - 2 ^ (w - 1).

Definition s32 (z : Z) : Z := swrap 32 z.

Definition s64 (z : Z) : Z := swrap 64 z.

Declare Scope cint_scope.
Delimit Scope cint_scope with C.
Notation "x +u64 y" := (u64 (x + y)) (at level 50, left associativity) : cint_scope.
Notation "x +u32 y" := (u32 (x + y)) (at level 50, left associativity) : cint_scope.
Notation "x -u64 y" := (u64 (x - y)) (at level 50, left associativity) : cint_scope.
Notation "x -u32 y" := (u32 (x - y)) (at level 50, left associativity) : cint_scope.

Definition UINT64_MAX : Z := 2 ^ 64 - 1.

Definition UINT32_MAX : Z := 2 ^ 32 - 1.

(** ** Little-endian object representation (x86-64) *)

(** The [n] low-order bytes of [z], least significant first. *)
Fixpoint le_bytes (n : nat) (z : Z) : list Z :=
  match n with
  | O => []
  | S n' => z `mod` 256 :: le_bytes n' (z `div` 256)
  end.

Fixpoint le_val (bs : list Z) : Z :=
  match bs with
  | [] => 0
  | b :: bs' => b + 256 * le_val bs'
  end.

Definition is_byte (b : Z) : Prop := 0 <= b < 256.

(** [memcpy] of [n] bytes at offset [off] of a buffer; [None] when the read
    leaves the buffer. *)
Definition read_bytes (off n : nat) (buf : list Z) : option (list Z) :=
  if decide (off + n <= length buf)%nat then Some (take n (drop off buf)) else None.

(** The same, decoded as a little-endian unsigned integer. *)
Definition read_le (off n : nat) (buf : list Z) : option Z :=
  le_val <$> read_bytes off n buf.

(** ** Array loops shared by several source files *)

(** [for (j = i; j + 1 < n; j++) a[j] = a[j + 1];] *)
Fixpoint shift_loop {A} (fuel : nat) (j : nat) (n : nat) (a : list A) : list A :=
  match fuel with
  | O => a
  | S fuel' =>
      if decide (S j < n)%nat then
        match a !! S j with
        | Some x => shift_loop fuel' (S j) n (<[j := x]> a)
        | None => a
        end
      else a
  end.

Definition shift_left {A} (i n : nat) (a : list A) : list A :=
  shift_loop (n - i) i n a.

(** The first index below [n] whose cell satisfies [P]: the shape of every
    linear search of the sources ([for (i = 0; i < n; i++) if (P(a[i])) ...]). *)
Definition first_idx {A} (P : A -> Prop) `{!forall x, Decision (P x)} (n : nat)
    (a : list A) : option nat :=
  fst <$> list_find P (take n a).

(** ** Tactics *)

(** Splits conjunctions, existentials and pairs in the context. *)
Ltac deconj :=
  repeat match goal with
         | H : _ /\ _ |- _ => destruct H
         | H : exists _, _ |- _ => destruct H
         | p : _ * _ |- _ => destruct p
         end.

(** Cases on the scrutinees of the goal, closing what [simplify_eq] closes. *)
Ltac split_matches :=
  repeat (case_match; simplify_eq/=; try done).

Create HintDb cfs discriminated.

(** ** Machine integers: lemmas *)

Lemma u64_range z : 0 <= u64 z < 2 ^ 64.
Proof. apply Z.mod_pos_bound. lia. Qed.

Lemma u32_range z : 0 <= u32 z < 2 ^ 32.
Proof. apply Z.mod_pos_bound. lia. Qed.

Lemma u64_small z : 0 <= z < 2 ^ 64 -> u64 z = z.
Proof. apply Z.mod_small. Qed.

Lemma u32_small z : 0 <= z < 2 ^ 32 -> u32 z = z.
Proof. apply Z.mod_small. Qed.

Lemma swrap_small w z : 0 < w -> - 2 ^ (w - 1) <= z < 2 ^ (w - 1) -> swrap w z = z.
Proof.
  intros Hw Hz. unfold swrap. rewrite Z.mod_small; [lia |].
  replace (2 ^ w) with (2 * 2 ^ (w - 1)); [lia |].
  rewrite <- Z.pow_succ_r by lia. f_equal. lia.
Qed.

Lemma s64_small z : - 2 ^ 63 <= z < 2 ^ 63 -> s64 z = z.
Proof. intros. apply swrap_small; [lia | done]. Qed.

Lemma s32_small z : - 2 ^ 31 <= z < 2 ^ 31 -> s32 z = z.
Proof. intros. apply swrap_small; [lia | done]. Qed.

#[export] Hint Resolve u64_range u32_range : cfs.

(** ** Little-endian codecs: lemmas *)

Lemma length_le_bytes n z : length (le_bytes n z) = n.
Proof. revert z. induction n; intros; simpl; auto. Qed.

Lemma le_bytes_is_byte n z : Forall is_byte (le_bytes n z).
Proof.
  revert z. induction n; intros z; simpl; constructor; auto.
  unfold is_byte. apply Z.mod_pos_bound. lia.
Qed.

Lemma le_val_bytes n z : le_val (le_bytes n z) = z `mod` 256 ^ Z.of_nat n.
Proof.
  revert z. induction n as [|n IH]; intros z.
  - simpl. by rewrite Z.mod_1_r.
  - rewrite Nat2Z.inj_succ, Z.pow_succ_r by lia. cbn [le_bytes le_val].
    rewrite IH, Z.rem_mul_r by lia. done.
Qed.

Lemma le_val_bytes_small n z :
  0 <= z < 256 ^ Z.of_nat n -> le_val (le_bytes n z) = z.
Proof. intros. rewrite le_val_bytes. by apply Z.mod_small. Qed.

Lemma le_val_bound bs : Forall is_byte bs -> 0 <= le_val bs < 256 ^ Z.of_nat (length bs).
Proof.
  induction 1 as [|b bs Hb _ IH]; [simpl; lia |]. cbn [length le_val].
  unfold is_byte in Hb. rewrite Nat2Z.inj_succ, Z.pow_succ_r by lia. lia.
Qed.

Lemma le_bytes_val bs : Forall is_byte bs -> le_bytes (length bs) (le_val bs) = bs.
Proof.
  induction 1 as [|b bs Hb _ IH]; simpl; [done |].
  unfold is_byte in Hb.
  rewrite (Z.mul_comm 256), Z.mod_add, Z.mod_small by lia. f_equal.
  rewrite Z.div_add, Z.div_small by lia. by rewrite Z.add_0_l.
Qed.

Lemma read_bytes_app (a b c : list Z) :
  read_bytes (length a) (length b) (a ++ b ++ c) = Some b.
Proof.
  unfold read_bytes. rewrite decide_True by (rewrite !length_app; lia).
  by rewrite drop_app_length, take_app_length.
Qed.

(** Reading a field that sits between [a] and [c]. *)
Lemma read_le_field (a c : list Z) off n z :
  off = length a -> 0 <= z < 256 ^ Z.of_nat n ->
  read_le off n (a ++ le_bytes n z ++ c) = Some z.
Proof.
  intros -> Hz. unfold read_le.
  rewrite <- (length_le_bytes n z) at 1. rewrite read_bytes_app. simpl.
  by rewrite le_val_bytes_small.
Qed.

(** The same with the buffer split by the caller. *)
Lemma read_le_at (a c buf : list Z) off n z :
  buf = a ++ le_bytes n z ++ c -> off = length a -> 0 <= z < 256 ^ Z.of_nat n ->
  read_le off n buf = Some z.
Proof. intros ->. apply read_le_field. Qed.

Lemma read_bytes_field (a b c : list Z) off n :
  off = length a -> n = length b -> read_bytes off n (a ++ b ++ c) = Some b.
Proof. intros -> ->. apply read_bytes_app. Qed.

(** Reads a field of a buffer written as a right-nested [++], [a] being what precedes
    it; the lengths of the parts are in the context. *)
Ltac read_field a :=
  eapply (read_le_at a); [by rewrite <- ?app_assoc
                         | by rewrite ?length_app, ?length_le_bytes; simpl length; lia
                         | done].

(** ** Array loops: lemmas *)

Lemma length_shift_loop {A} fuel j n (a : list A) :
  length (shift_loop fuel j n a) = length a.
Proof.
  revert j a. induction fuel as [|fuel IH]; intros j a; simpl; [done |].
  case_decide; [| done]. case_match; [| done]. by rewrite IH, length_insert.
Qed.

Lemma length_shift_left {A} i n (a : list A) : length (shift_left i n a) = length a.
Proof. apply length_shift_loop. Qed.

Lemma shift_loop_lookup {A} fuel j n (a : list A) k :
  (n <= length a)%nat -> (n - j <= fuel)%nat ->
  shift_loop fuel j n a !! k =
    if decide (j <= k /\ S k < n)%nat then a !! S k else a !! k.
Proof.
  revert j a k. induction fuel as [|fuel IH]; intros j a k Hn Hf; simpl.
  { rewrite decide_False by lia. done. }
  destruct (decide (S j < n)%nat) as [Hj|Hj].
  2:{ rewrite decide_False by lia. done. }
  destruct (lookup_lt_is_Some_2 a (S j)) as [x Hx]; [lia |]. rewrite Hx.
  rewrite IH by (rewrite ?length_insert; lia).
  destruct (decide (j = k)) as [->|Hjk].
  - rewrite decide_False, decide_True by lia.
    rewrite list_lookup_insert_eq by lia. done.
  - destruct (decide (S j <= k /\ S k < n)%nat).
    + rewrite decide_True by lia. by rewrite list_lookup_insert_ne by lia.
    + rewrite decide_False by lia. by rewrite list_lookup_insert_ne by lia.
Qed.

(** The shift loop deletes cell [i] from the first [n] cells. *)
Lemma take_shift_left {A} i n (a : list A) :
  (i < n)%nat -> (n <= length a)%nat ->
  take (n - 1) (shift_left i n a) = delete i (take n a).
Proof.
  intros Hi Hn. apply list_eq. intros k. unfold shift_left.
  destruct (decide (k < n - 1)%nat) as [Hk|Hk].
  - rewrite lookup_take_lt by lia. rewrite shift_loop_lookup by lia.
    destruct (decide (i <= k)%nat) as [Hik|Hik].
    + rewrite decide_True by lia. rewrite list_lookup_delete_ge by lia.
      by rewrite lookup_take_lt by lia.
    + rewrite decide_False by lia. rewrite list_lookup_delete_lt by lia.
      by rewrite lookup_take_lt by lia.
  - rewrite lookup_take_ge by lia.
    symmetry. apply lookup_ge_None.
    rewrite length_delete by (apply lookup_lt_is_Some_2; rewrite length_take; lia).
    rewrite length_take. lia.
Qed.

Lemma first_idx_Some {A} (P : A -> Prop) `{!forall x, Decision (P x)} n (a : list A) i :
  first_idx P n a = Some i <->
    exists x, a !! i = Some x /\ (i < n)%nat /\ P x /\
      forall j y, (j < i)%nat -> a !! j = Some y -> ~ P y.
Proof.
  unfold first_idx. rewrite fmap_Some. split.
  - intros [[i' x] [Hf ->]]. apply list_find_Some in Hf as (Hl & HP & Hmin).
    simpl. apply lookup_take_Some in Hl as [Hl Hlt].
    exists x. split_and!; try done.
    intros j y Hj Hy. eapply Hmin; [| exact Hj]. apply lookup_take_Some. split; [done | lia].
  - intros (x & Hl & Hlt & HP & Hmin). exists (i, x). split; [| done].
    apply list_find_Some. split_and!; [by apply lookup_take_Some | done |].
    intros j y Hy Hj. apply lookup_take_Some in Hy as [Hy _]. eauto.
Qed.

Lemma first_idx_None {A} (P : A -> Prop) `{!forall x, Decision (P x)} n (a : list A) :
  first_idx P n a = None <->
    forall j y, (j < n)%nat -> a !! j = Some y -> ~ P y.
Proof.
  unfold first_idx. rewrite fmap_None, list_find_None, Forall_lookup. split.
  - intros Hn j y Hj Hy. apply (Hn j y). by apply lookup_take_Some.
  - intros Hn j y Hy. apply lookup_take_Some in Hy as [??]. eauto.
Qed.

(** ** Evaluating concrete calls *)

(** Only the result code of a call is computed. *)
Lemma by_fst {A B} (x : A * B) a : x.1 = a -> x = (a, x.2).
Proof. destruct x. by intros <-. Qed.

Lemma by_fst_Some {A B} (x : option (A * B)) a b :
  fst <$> x = Some a -> x = Some (a, default b (snd <$> x)).
Proof. destruct x as [[??]|]; [| done]. by intros [= <-]. Qed.

Lemma some_default {A} (x : option A) d :
  (match x with Some _ => true | None => false end) = true -> x = Some (default d x).
Proof. by destruct x. Qed.
