(* ===== verification/CString.v ===== *)
(** * C strings: what the sources use of [string.h]

    A NUL-terminated string is a [string] without its terminator.  [strncpy] into
    a zeroed or explicitly terminated buffer of [n + 1] bytes keeps the first [n]
    characters; [strtok_r] over a one-character separator set yields the non-empty
    maximal pieces; [strrchr] is the index of the last occurrence. *)

From stdpp Require Import base strings list pretty.
From Stdlib Require Import Ascii String.
From S2P Require Import Prelude.

#[local] Open Scope string_scope.

Fixpoint str_take (n : nat) (s : string) : string :=
  match n, s with
  | O, _ => EmptyString
  | _, EmptyString => EmptyString
  | S n', String a s' => String a (str_take n' s')
  end.

Fixpoint str_drop (n : nat) (s : string) : string :=
  match n, s with
  | O, _ => s
  | _, EmptyString => EmptyString
  | S n', String _ s' => str_drop n' s'
  end.

(** [strncpy(dst, src, n)] followed by (or over a zeroed buffer implying)
    [dst[n] = 0]. *)
Definition strncpy (n : nat) (src : string) : string := str_take n src.

(** Index of the last [c] in [s]. *)
Fixpoint strrchr (c : ascii) (s : string) : option nat :=
  match s with
  | EmptyString => None
  | String a s' =>
      match strrchr c s' with
      | Some k => Some (S k)
      | None => if decide (a = c) then Some O else None
      end
  end.

(** All pieces between separators, empty ones included. *)
Fixpoint str_split (c : ascii) (s : string) : list string :=
  match s with
  | EmptyString => [EmptyString]
  | String a s' =>
      if decide (a = c) then EmptyString :: str_split c s'
      else match str_split c s' with
           | p :: ps => String a p :: ps
           | [] => [String a EmptyString]
           end
  end.

(** The successive results of [strtok_r] until it returns NULL. *)
Definition strtok (c : ascii) (s : string) : list string :=
  filter (fun p => p <> EmptyString) (str_split c s).

Fixpoint str_in (c : ascii) (s : string) : Prop :=
  match s with
  | EmptyString => False
  | String a s' => a = c \/ str_in c s'
  end.

#[export] Instance str_in_dec c s : Decision (str_in c s).
Proof. induction s; simpl; apply _. Defined.

Definition slash : ascii := "/"%char.

(** ["%lu"] and ["%u"] for a non-negative value. *)
Definition fmt_u (z : Z) : string := pretty (Z.to_N z).

(** The bytes of a string, as [char] cells read by byte-wise code. *)
Fixpoint str_bytes (s : string) : list Z :=
  match s with
  | EmptyString => []
  | String a s' => Z.of_N (N_of_ascii a) :: str_bytes s'
  end.

(** The C string at the start of a buffer. *)
Fixpoint dec_str (bs : list Z) : string :=
  match bs with
  | [] => EmptyString
  | b :: bs' => if decide (b = 0%Z) then EmptyString
                else String (ascii_of_N (Z.to_N b)) (dec_str bs')
  end.

(** Contains no NUL. *)
Fixpoint no_nul (s : string) : Prop :=
  match s with
  | EmptyString => True
  | String a s' => N_of_ascii a <> 0%N /\ no_nul s'
  end.

(** [s.c_str()] read as a C string: the characters before the first NUL. *)
Fixpoint c_str (s : string) : string :=
  match s with
  | EmptyString => EmptyString
  | String a s' => if decide (N_of_ascii a = 0%N) then EmptyString else String a (c_str s')
  end.

(** [s.find(p) == 0], [s.rfind(p, 0) == 0], [strncmp(s, p, strlen(p)) == 0]. *)
Definition starts_with (p s : string) : bool := bool_decide (str_take (String.length p) s = p).

(** ** Lemmas *)

Lemma str_app_cons a s1 s2 : String a s1 +:+ s2 = String a (s1 +:+ s2).
Proof. done. Qed.

Lemma str_app_nil_l s : EmptyString +:+ s = s.
Proof. done. Qed.

Lemma str_take_drop n s : str_take n s +:+ str_drop n s = s.
Proof.
  revert s. induction n as [|n IH]; intros [|a s]; try done.
  cbn [str_take str_drop]. by rewrite str_app_cons, IH.
Qed.

Lemma str_length_app s1 s2 :
  String.length (s1 +:+ s2) = (String.length s1 + String.length s2)%nat.
Proof. induction s1; [done |]. rewrite str_app_cons. simpl. auto. Qed.

Lemma str_length_take n s : String.length (str_take n s) = Nat.min n (String.length s).
Proof. revert s. induction n as [|n IH]; intros [|a s]; simpl; auto. Qed.

Lemma str_take_ge n s : (String.length s <= n)%nat -> str_take n s = s.
Proof.
  revert s. induction n as [|n IH]; intros [|a s] Hl; simpl in *; try done; [lia |].
  rewrite IH; [done | lia].
Qed.

Lemma str_app_assoc s1 s2 s3 : (s1 +:+ s2) +:+ s3 = s1 +:+ (s2 +:+ s3).
Proof. induction s1 as [|a s1 IH]; [done |]. by rewrite !str_app_cons, IH. Qed.

Lemma str_app_nil_r s : s +:+ EmptyString = s.
Proof. induction s as [|a s IH]; [done |]. by rewrite str_app_cons, IH. Qed.

Lemma str_app_inj_l s s1 s2 : s +:+ s1 = s +:+ s2 -> s1 = s2.
Proof.
  induction s as [|a s IH]; [by rewrite !str_app_nil_l |].
  rewrite !str_app_cons. intros H. simplify_eq. auto.
Qed.

Lemma strrchr_None c s : strrchr c s = None <-> ~ str_in c s.
Proof.
  induction s as [|a s IH]; simpl; [naive_solver |].
  destruct (strrchr c s) as [k|].
  - split; [done |]. intros Hn. exfalso. apply Hn. right.
    destruct IH as [_ IH]. destruct (decide (str_in c s)) as [|Hs]; [done |].
    by specialize (IH Hs).
  - destruct IH as [IH _]. specialize (IH eq_refl). case_decide; [| tauto].
    split; [done | tauto].
Qed.

(** [strrchr] splits the string around the last separator. *)
Lemma strrchr_Some c s k :
  strrchr c s = Some k ->
  s = str_take k s +:+ String c (str_drop (S k) s) /\
  ~ str_in c (str_drop (S k) s) /\ String.length (str_take k s) = k.
Proof.
  revert k. induction s as [|a s IH]; intros k; simpl; [done |].
  destruct (strrchr c s) as [k'|] eqn:E; intros ?; simplify_eq/=.
  - destruct (IH k' eq_refl) as (H1 & H2 & H3). split_and!; [| done | lia].
    rewrite str_app_cons. by rewrite <- H1.
  - case_decide; simplify_eq/=. split_and!; [done | | done].
    by apply strrchr_None.
Qed.

Lemma str_split_nil c s : str_split c s <> [].
Proof. induction s; simpl; [done |]. by repeat case_match. Qed.

Lemma str_split_app c s1 s2 :
  str_split c (s1 +:+ String c s2) = (str_split c s1 ++ str_split c s2)%list.
Proof.
  induction s1 as [|a s1 IH].
  - rewrite str_app_nil_l. cbn [str_split]. by rewrite decide_True.
  - rewrite str_app_cons. cbn [str_split]. rewrite IH. case_decide; [done |].
    destruct (str_split c s1) eqn:E; [by destruct (str_split_nil c s1) | done].
Qed.

Lemma str_split_single c s : ~ str_in c s -> str_split c s = [s].
Proof.
  induction s as [|a s IH]; simpl; intros Hn; [done |].
  rewrite decide_False by naive_solver. rewrite IH by naive_solver. done.
Qed.

Lemma strtok_app c s1 s2 :
  strtok c (s1 +:+ String c s2) = (strtok c s1 ++ strtok c s2)%list.
Proof. unfold strtok. by rewrite str_split_app, filter_app. Qed.

Lemma strtok_single c s :
  ~ str_in c s -> strtok c s = if decide (s = EmptyString) then [] else [s].
Proof.
  intros Hn. unfold strtok. rewrite str_split_single by done.
  rewrite filter_cons, filter_nil.
  destruct (decide (s = EmptyString)); [by rewrite decide_False by tauto |].
  by rewrite decide_True.
Qed.

Lemma strtok_nonempty c s t : t ∈ strtok c s -> t <> EmptyString.
Proof. unfold strtok. rewrite list_elem_of_filter. tauto. Qed.

Lemma str_split_notin c s t : t ∈ str_split c s -> ~ str_in c t.
Proof.
  revert t. induction s as [|a s IH]; intros t; simpl.
  - intros Ht. apply list_elem_of_singleton in Ht. subst. simpl. tauto.
  - case_decide.
    + rewrite elem_of_cons. intros [->|Ht]; [simpl; tauto | auto].
    + destruct (str_split c s) as [|p ps] eqn:E; [by destruct (str_split_nil c s) |].
      rewrite elem_of_cons. intros [->|Ht].
      * simpl. intros [?|?]; [done |]. eapply IH; [left | done].
      * apply IH. by right.
Qed.

Lemma strtok_notin c s t : t ∈ strtok c s -> ~ str_in c t.
Proof. unfold strtok. rewrite list_elem_of_filter. intros [_ ?]. by eapply str_split_notin. Qed.

Lemma str_drop_app_1 s1 s2 :
  s1 <> EmptyString -> str_drop 1 (s1 +:+ s2) = str_drop 1 s1 +:+ s2.
Proof. destruct s1; [done |]. intros _. by rewrite str_app_cons. Qed.

Lemma str_length_drop n s : String.length (str_drop n s) = (String.length s - n)%nat.
Proof. revert s. induction n as [|n IH]; intros [|a s]; simpl; auto. Qed.

Lemma str_bytes_length s : Datatypes.length (str_bytes s) = String.length s.
Proof. induction s as [|a s IH]; simpl; [done | by rewrite IH]. Qed.

Lemma str_length_nil s : String.length s = O -> s = EmptyString.
Proof. by destruct s. Qed.

Lemma dec_str_app s bs : no_nul s -> dec_str (str_bytes s ++ bs)%list = s +:+ dec_str bs.
Proof.
  induction s as [|a s IH]; [done |]. intros [Ha Hs]. cbn [str_bytes app dec_str].
  rewrite decide_False by lia. rewrite N2Z.id, ascii_N_embedding, str_app_cons. f_equal. by apply IH.
Qed.

Lemma dec_str_bytes s : no_nul s -> dec_str (str_bytes s) = s.
Proof. intros Hs. rewrite <- (app_nil_r (str_bytes s)), dec_str_app by done. apply str_app_nil_r. Qed.

Lemma c_str_id s : no_nul s -> c_str s = s.
Proof. induction s as [|a s IH]; [done |]. intros [Ha Hs]. cbn [c_str]. rewrite decide_False by done. by rewrite IH. Qed.

Lemma str_bytes_app s1 s2 : str_bytes (s1 +:+ s2) = (str_bytes s1 ++ str_bytes s2)%list.
Proof. induction s1 as [|a s1 IH]; [done |]. rewrite str_app_cons. cbn [str_bytes app]. by rewrite IH. Qed.

Lemma no_nul_app s1 s2 : no_nul (s1 +:+ s2) <-> no_nul s1 /\ no_nul s2.
Proof. induction s1 as [|a s1 IH]; [by rewrite str_app_nil_l; simpl; tauto |]. rewrite str_app_cons. simpl. tauto. Qed.

Lemma str_in_app c s1 s2 : str_in c (s1 +:+ s2) <-> str_in c s1 \/ str_in c s2.
Proof. induction s1 as [|a s1 IH]; [rewrite str_app_nil_l; simpl; tauto |]. rewrite str_app_cons. simpl. tauto. Qed.

Lemma starts_with_app p s : starts_with p s = true <-> exists t, s = (p +:+ t)%string.
Proof.
  unfold starts_with. rewrite bool_decide_eq_true. split.
  - intros H. exists (str_drop (String.length p) s). rewrite <- H at 1. by rewrite str_take_drop.
  - intros [t ->]. induction p as [|a p IH]; [done |]. rewrite str_app_cons. cbn [String.length str_take].
    by rewrite IH.
Qed.

Lemma str_drop_app p t : str_drop (String.length p) (p +:+ t) = t.
Proof. induction p as [|a p IH]; [done |]. by rewrite str_app_cons. Qed.

Lemma str_take_app p t : str_take (String.length p) (p +:+ t) = p.
Proof. induction p as [|a p IH]; [done |]. rewrite str_app_cons. cbn [String.length str_take]. by rewrite IH. Qed.
