(* ===== verification/NameTree.v ===== *)
(** * Path resolution in a directory graph

    A directory graph is a partial successor function [f]: [f d t] is the node the
    entry named [t] of directory [d] points to.  Resolution of a path is the walk
    of its components from the root.  The lemmas say how adding, removing and
    moving one entry changes resolution of every path, when each node is entered
    by at most one entry and the root by none.  They are instantiated with the
    inode table in [FusedNames]. *)

From stdpp Require Import base strings list.
From S2P Require Import Prelude.

Definition graph := nat -> string -> option nat.

Fixpoint walk (f : graph) (cur : nat) (ts : list string) : option nat :=
  match ts with
  | [] => Some cur
  | t :: ts' => match f cur t with
                | Some nx => walk f nx ts'
                | None => None
                end
  end.

(** Each node has at most one incoming entry, and the root [r] none. *)
Record tree_like (f : graph) (r : nat) : Prop := {
  tl_once : forall i t i' t' j, f i t = Some j -> f i' t' = Some j -> i = i' /\ t = t';
  tl_root : forall i t, f i t <> Some r;
}.

(** [g] is [f] with the entry [(p, nm)] added. *)
Definition adds_edge (f g : graph) (p : nat) (nm : string) (n : nat) : Prop :=
  forall i t, g i t = if decide (i = p /\ t = nm) then Some n else f i t.

(** [g] is [f] without the entry [(p, nm)] and without the entries of node [j]. *)
Definition drops_edge (f g : graph) (p : nat) (nm : string) (j : nat) : Prop :=
  forall i t, g i t = if decide (i = p /\ t = nm \/ i = j) then None else f i t.

(** [g] is [f] with the entry [(sp, sn)] renamed to [(dp, dn)]. *)
Definition moves_edge (f g : graph) (sp : nat) (sn : string) (dp : nat) (dn : string)
    (j : nat) : Prop :=
  forall i t, g i t =
    if decide (i = dp /\ t = dn) then Some j
    else if decide (i = sp /\ t = sn) then None else f i t.

(** ** Walks *)

Lemma walk_app f cur ts us : walk f cur (ts ++ us) = walk f cur ts ≫= fun m => walk f m us.
Proof.
  revert cur. induction ts as [|t ts IH]; intros cur; simpl; [done |].
  destruct (f cur t); simpl; auto.
Qed.

Lemma walk_snoc f cur ts t : walk f cur (ts ++ [t]) = walk f cur ts ≫= fun m => f m t.
Proof.
  rewrite walk_app. destruct (walk f cur ts); simpl; [| done]. by case_match.
Qed.

Lemma walk_ext f g cur ts : (forall i t, f i t = g i t) -> walk f cur ts = walk g cur ts.
Proof.
  intros Hfg. revert cur. induction ts as [|t ts IH]; intros cur; simpl; [done |].
  rewrite Hfg. destruct (g cur t); auto.
Qed.

Lemma snoc_inj {A} (l1 l2 : list A) x y : l1 ++ [x] = l2 ++ [y] -> l1 = l2 /\ x = y.
Proof. intros H. apply app_inj_2 in H as [-> Hxy]; [| done]. by simplify_eq. Qed.

Lemma prefix_snoc_inv {A} (l k : list A) x :
  l `prefix_of` k ++ [x] -> l = k ++ [x] \/ l `prefix_of` k.
Proof.
  intros [m Hm]. destruct m as [|y m _] using rev_ind.
  - left. by rewrite app_nil_r in Hm.
  - right. rewrite app_assoc in Hm. apply snoc_inj in Hm as [-> _]. by exists m.
Qed.

Lemma prefix_None f r ts us :
  walk f r ts = None -> ts `prefix_of` us -> walk f r us = None.
Proof. intros Hn [k ->]. by rewrite walk_app, Hn. Qed.

Section Tree.
Context (f : graph) (r : nat) (Hf : tree_like f r).

(** Paths are unique: two paths that resolve to the same node are equal. *)
Lemma walk_inj ts us j : walk f r ts = Some j -> walk f r us = Some j -> ts = us.
Proof.
  revert us j. induction ts as [|t ts IH] using rev_ind; intros us j.
  - simpl. intros [= <-]. destruct us as [|u us _] using rev_ind; [done |].
    rewrite walk_snoc. intros (m & _ & Hu)%bind_Some. by destruct (tl_root _ _ Hf m u).
  - rewrite walk_snoc. intros (m & Hm & Ht)%bind_Some.
    destruct us as [|u us _] using rev_ind.
    + simpl. intros [= <-]. by destruct (tl_root _ _ Hf m t).
    + rewrite walk_snoc. intros (m' & Hm' & Hu)%bind_Some.
      destruct (tl_once _ _ Hf _ _ _ _ _ Ht Hu) as [-> ->].
      by rewrite (IH us m').
Qed.

Section Add.
Context (g : graph) (p n : nat) (nm : string) (tp : list string).
Context (Hg : adds_edge f g p nm n) (Hp : walk f r tp = Some p) (Hfree : f p nm = None).
Context (Hleaf : forall t, f n t = None) (Hnp : n <> p).

(** Adding a fresh leaf [n] as [tp/nm] changes the resolution of that path only. *)
Lemma walk_add ts :
  walk g r ts = if decide (ts = tp ++ [nm]) then Some n else walk f r ts.
Proof.
  induction ts as [|t ts IH] using rev_ind.
  { rewrite decide_False; [done |]. by destruct tp. }
  rewrite !walk_snoc, IH. case_decide as Hts; simpl.
  - subst ts. rewrite Hg, decide_False by (intros [? _]; done). rewrite Hleaf.
    rewrite decide_False by (intros [Ht _]%snoc_inj; apply (f_equal length) in Ht;
                             rewrite length_app in Ht; simpl in Ht; lia).
    by rewrite walk_snoc, Hp; simpl; rewrite Hfree.
  - destruct (walk f r ts) as [m|] eqn:Hm; simpl.
    + rewrite Hg. case_decide as Hpt.
      * destruct Hpt as [-> ->]. by rewrite (walk_inj _ _ _ Hm Hp), decide_True.
      * rewrite decide_False; [done |]. intros [-> ->]%snoc_inj. naive_solver.
    + rewrite decide_False; [done |]. intros [-> ->]%snoc_inj. naive_solver.
Qed.

End Add.

Section Drop.
Context (g : graph) (p j : nat) (nm : string) (tp : list string).
Context (Hg : drops_edge f g p nm j) (Hp : walk f r tp = Some p) (Hj : f p nm = Some j).

(** Removing [tp/nm] makes exactly that path and the paths below it fail. *)
Lemma walk_drop ts :
  walk g r ts = if decide (tp ++ [nm] `prefix_of` ts) then None else walk f r ts.
Proof.
  assert (Hdst : walk f r (tp ++ [nm]) = Some j) by (by rewrite walk_snoc, Hp).
  induction ts as [|t ts IH] using rev_ind.
  { rewrite decide_False; [done |]. intros [k Hk]. by destruct tp. }
  rewrite walk_snoc, IH. case_decide as Hts; simpl.
  - rewrite decide_True; [done |]. by apply prefix_app_r.
  - rewrite walk_snoc. destruct (walk f r ts) as [m|] eqn:Hm; simpl.
    + rewrite Hg. case_decide as Hpt.
      * destruct Hpt as [[-> ->]| ->].
        -- by rewrite (walk_inj _ _ _ Hm Hp), decide_True.
        -- destruct Hts. by rewrite (walk_inj _ _ _ Hm Hdst).
      * rewrite decide_False; [done |].
        intros [[<- <-]%snoc_inj|?]%prefix_snoc_inv; [naive_solver | done].
    + by case_decide.
Qed.

End Drop.

Section Move.
Context (g : graph) (sp dp j : nat) (sn dn : string) (ts td : list string).
Context (Hg : moves_edge f g sp sn dp dn j).
Context (Hs : walk f r ts = Some sp) (Hsj : f sp sn = Some j).
Context (Hd : walk f r td = Some dp) (Hfree : f dp dn = None).
Context (Hout : ~ (ts ++ [sn] `prefix_of` td)).

Lemma move_below us m : walk f j us = Some m -> walk f r (ts ++ [sn] ++ us) = Some m.
Proof. intros. by rewrite walk_app, Hs; simpl; rewrite Hsj. Qed.

(** The moved subtree itself resolves as before. *)
Lemma walk_move_sub us : walk g j us = walk f j us.
Proof.
  induction us as [|u us IH] using rev_ind; [done |].
  rewrite !walk_snoc, IH. destruct (walk f j us) as [m|] eqn:Hm; simpl; [| done].
  apply move_below in Hm. rewrite Hg.
  rewrite decide_False, decide_False; [done | |].
  - intros [-> _]. pose proof (walk_inj _ _ _ Hm Hs) as He.
    apply (f_equal length) in He. rewrite !length_app in He. simpl in He. lia.
  - intros [-> _]. apply Hout. rewrite <- (walk_inj _ _ _ Hm Hd).
    rewrite app_assoc. by apply prefix_app_r.
Qed.

Lemma walk_move_other us :
  ~ (ts ++ [sn] `prefix_of` us) -> ~ (td ++ [dn] `prefix_of` us) ->
  walk g r us = walk f r us.
Proof.
  induction us as [|u us IH] using rev_ind; [done |]. intros Hns Hnd.
  rewrite !walk_snoc, IH; [| by intros ?; destruct Hns; apply prefix_app_r
                           | by intros ?; destruct Hnd; apply prefix_app_r].
  destruct (walk f r us) as [m|] eqn:Hm; simpl; [| done]. rewrite Hg.
  rewrite decide_False, decide_False; [done | |].
  - intros [-> ->]. apply Hns. by rewrite (walk_inj _ _ _ Hm Hs).
  - intros [-> ->]. apply Hnd. by rewrite (walk_inj _ _ _ Hm Hd).
Qed.

Lemma walk_move_dst us : walk g r (td ++ [dn] ++ us) = walk f r (ts ++ [sn] ++ us).
Proof.
  rewrite !walk_app. rewrite walk_move_other; [| done |].
  - rewrite Hd, Hs. simpl. rewrite Hg, decide_True, Hsj by done. apply walk_move_sub.
  - intros [k Hk]. apply (f_equal length) in Hk. rewrite !length_app in Hk. simpl in Hk. lia.
Qed.

Lemma walk_move_src us : walk g r (ts ++ [sn] ++ us) = None.
Proof.
  rewrite walk_app. rewrite walk_move_other.
  - rewrite Hs. simpl. rewrite Hg, decide_False, decide_True; [done | done |].
    intros [<- <-]. congruence.
  - intros [k Hk]. apply (f_equal length) in Hk. rewrite !length_app in Hk. simpl in Hk. lia.
  - intros Hpre. apply (prefix_None f r) in Hpre; [congruence |].
    by rewrite walk_snoc, Hd.
Qed.

End Move.
End Tree.
