(* ===== verification/FusedFs.v ===== *)
(** * The local FUSE filesystem: [src/src/fused_ops.c], [src/include/fused_fs.h]

    One definition per function of [fused_ops.c].  The inode table is an array of
    [MAX_INODES] records; a [fused_inode_t *] is an index of that array, so two
    pointers alias exactly when the indices are equal.  The backing files live in a
    map from path to contents.  What a call reads from its surroundings (clock,
    caller identity, outcomes of [stdio] calls) is an argument of type [env]. *)

From stdpp Require Import base gmap strings list pretty.
From Stdlib Require Import Ascii.
From S2P Require Import Prelude CString.

#[local] Open Scope Z_scope.

(** ** Constants ([fused_fs.h], [errno.h], [sys/stat.h], [fcntl.h]) *)

Definition MAX_PATH : nat := 256.
Definition MAX_CHILDREN : nat := 256.
Definition MAX_INODES : nat := 1024.
Definition MAX_NAME : nat := 256.
Definition FUSE_ROOT_ID : Z := 1.

Definition EPERM : Z := 1.
Definition ENOENT : Z := 2.
Definition EIO : Z := 5.
Definition ENOMEM : Z := 12.
Definition EBUSY : Z := 16.
Definition EEXIST : Z := 17.
Definition ENOTDIR : Z := 20.
Definition EISDIR : Z := 21.
Definition ENOSPC : Z := 28.
Definition ENOTEMPTY : Z := 39.

(** [0170000], [0040000], [0100000], [0777], [0755] in octal. *)
Definition S_IFMT : Z := 61440.
Definition S_IFDIR : Z := 16384.
Definition S_IFREG : Z := 32768.
Definition O_0777 : Z := 511.
Definition O_0755 : Z := 493.

Definition S_ISDIR (m : Z) : bool := Z.land m S_IFMT =? S_IFDIR.

Definition O_ACCMODE : Z := 3.
Definition O_WRONLY : Z := 1.
Definition O_RDWR : Z := 2.
Definition O_APPEND : Z := 1024.

Definition UTIME_NOW : Z := 1073741823.
Definition UTIME_OMIT : Z := 1073741822.

(** ** Data *)

Record fused_inode := MkInode {
  ino : Z;
  mode : Z;
  uid : Z;
  gid : Z;
  size : Z;
  atime : Z;
  mtime : Z;
  ctime : Z;
  n_children : nat;
  child_names : list string;
  child_inodes : list Z;
  backing_path : string;
}.

Record fused_state := MkState {
  inodes : list fused_inode;
  n_inodes : nat;
  backing_dir : string;
}.

(** The state of a mounted filesystem: the table and the backing files. *)
Record world := MkWorld {
  g_state : fused_state;
  disk : gmap string (list Z);
}.

(** What one call observes: [time] gives the successive readings of the clock
    during the call, [fopen_ok] the outcome of its [fopen], [fwrite_short k] a
    short count for its [k]-th [fwrite] ([None]: everything is written),
    [fread_short] the same for [fread], [unlink_ok] the outcome of [unlink]. *)
Record env := MkEnv {
  time : nat -> Z;
  fuse_context : option (Z * Z);
  getuid : Z;
  getgid : Z;
  fopen_ok : bool;
  fread_short : option nat;
  fwrite_short : nat -> option nat;
  unlink_ok : bool;
}.

(** [memset(inode, 0, sizeof(fused_inode_t))] *)
Definition zero_inode : fused_inode :=
  MkInode 0 0 0 0 0 0 0 0 0
    (replicate MAX_CHILDREN EmptyString) (replicate MAX_CHILDREN 0) EmptyString.

(** ** Field assignments *)

Definition set_times (a m c : Z) (x : fused_inode) : fused_inode :=
  MkInode (ino x) (mode x) (uid x) (gid x) (size x) a m c
    (n_children x) (child_names x) (child_inodes x) (backing_path x).

Definition set_atime (a : Z) (x : fused_inode) : fused_inode :=
  set_times a (mtime x) (ctime x) x.

Definition set_mtime (m : Z) (x : fused_inode) : fused_inode :=
  set_times (atime x) m (ctime x) x.

Definition set_ctime (c : Z) (x : fused_inode) : fused_inode :=
  set_times (atime x) (mtime x) c x.

Definition set_size (s : Z) (x : fused_inode) : fused_inode :=
  MkInode (ino x) (mode x) (uid x) (gid x) s (atime x) (mtime x) (ctime x)
    (n_children x) (child_names x) (child_inodes x) (backing_path x).

Definition set_owner (u g : Z) (x : fused_inode) : fused_inode :=
  MkInode (ino x) (mode x) u g (size x) (atime x) (mtime x) (ctime x)
    (n_children x) (child_names x) (child_inodes x) (backing_path x).

Definition set_mode (m : Z) (x : fused_inode) : fused_inode :=
  MkInode (ino x) m (uid x) (gid x) (size x) (atime x) (mtime x) (ctime x)
    (n_children x) (child_names x) (child_inodes x) (backing_path x).

Definition set_children (n : nat) (names : list string) (inos : list Z)
    (x : fused_inode) : fused_inode :=
  MkInode (ino x) (mode x) (uid x) (gid x) (size x) (atime x) (mtime x) (ctime x)
    n names inos (backing_path x).

(** [f] applied to the record behind pointer [i]. *)
Definition upd (i : nat) (f : fused_inode -> fused_inode) (st : fused_state) : fused_state :=
  MkState (alter f i (inodes st)) (n_inodes st) (backing_dir st).

Definition set_g (st : fused_state) (w : world) : world := MkWorld st (disk w).

(** The record behind pointer [i] (pointers produced by the code are in range). *)
Definition deref (st : fused_state) (i : nat) : fused_inode :=
  default zero_inode (inodes st !! i).

(** ** Helpers of [fused_ops.c] *)

Definition lookup_inode (st : fused_state) (k : Z) : option nat :=
  first_idx (fun x => ino x = k) (n_inodes st) (inodes st).

Definition generate_backing_path (dir : string) (k : Z) : string :=
  strncpy (MAX_PATH - 1) (dir +:+ ("/inode_" +:+ fmt_u k))%string.

(** The inner [for] loop of [path_to_inode]: the entry called [token]. *)
Definition find_child (x : fused_inode) (token : string) : option nat :=
  first_idx (fun nm => nm = token) (n_children x) (child_names x).

(** One iteration of its [while] loop. *)
Definition walk_step (st : fused_state) (cur : nat) (token : string) : option nat :=
  let x := deref st cur in
  if S_ISDIR (mode x) then
    match find_child x token with
    | Some i => lookup_inode st (child_inodes x !!! i)
    | None => None
    end
  else None.

Fixpoint walk_tokens (st : fused_state) (cur : nat) (tokens : list string) : option nat :=
  match tokens with
  | [] => Some cur
  | t :: ts =>
      match walk_step st cur t with
      | Some nx => walk_tokens st nx ts
      | None => None
      end
  end.

Definition path_tokens (path : string) : list string :=
  strtok slash (str_drop 1 (strncpy (MAX_PATH - 1) path)).

Definition path_to_inode (st : fused_state) (path : string) : option nat :=
  if decide (path = "/"%string) then lookup_inode st FUSE_ROOT_ID
  else
    match lookup_inode st FUSE_ROOT_ID with
    | None => None
    | Some current => walk_tokens st current (path_tokens path)
    end.

(** Returns the new pointer; [None] when the table is full. *)
Definition alloc_inode (st : fused_state) : option (nat * fused_state) :=
  if decide (MAX_INODES <= n_inodes st)%nat then None
  else
    let i := n_inodes st in
    let k := Z.of_nat i + 1 in
    let inode :=
      MkInode k 0 0 0 0 0 0 0 0 (child_names zero_inode) (child_inodes zero_inode)
        (generate_backing_path (backing_dir st) k) in
    Some (i, MkState (<[i := inode]> (inodes st)) (S i) (backing_dir st)).

(** [unlink(path)]; its result is ignored by every caller. *)
Definition unlink (e : env) (path : string) (d : gmap string (list Z))
  : gmap string (list Z) :=
  if unlink_ok e then delete path d else d.

Definition free_inode (e : env) (i : nat) (w : world) : world :=
  let st := g_state w in
  let inode := deref st i in
  let d := if decide (backing_path inode = EmptyString) then disk w
           else unlink e (backing_path inode) (disk w) in
  let n := if decide (i = n_inodes st - 1)%nat then (n_inodes st - 1)%nat
           else n_inodes st in
  MkWorld (MkState (<[i := zero_inode]> (inodes st)) n (backing_dir st)) d.

(** (parent_path, child_name) *)
Definition split_path (path : string) : string * string :=
  if decide (path = "/"%string) then ("/"%string, EmptyString)
  else
    let temp := strncpy (MAX_PATH - 1) path in
    match strrchr slash temp with
    | None => ("/"%string, temp)
    | Some O => ("/"%string, str_drop 1 temp)
    | Some k => (str_take k temp, str_drop (S k) temp)
    end.

(** Writing the new entry in cell [n_children] of both parallel arrays. *)
Definition add_child (name : string) (k : Z) (x : fused_inode) : fused_inode :=
  let n := n_children x in
  set_children (S n) (<[n := strncpy (MAX_NAME - 1) name]> (child_names x))
    (<[n := k]> (child_inodes x)) x.

(** [t] is the clock reading the function makes on success. *)
Definition dir_add_entry (t : Z) (dir : option nat) (name : string) (child : nat)
    (st : fused_state) : Z * fused_state :=
  match dir with
  | None => (- ENOTDIR, st)
  | Some d =>
      let x := deref st d in
      if negb (S_ISDIR (mode x)) then (- ENOTDIR, st)
      else if decide (MAX_CHILDREN <= n_children x)%nat then (- ENOSPC, st)
      else
        match find_child x name with
        | Some _ => (- EEXIST, st)
        | None =>
            (0, upd d (fun x => set_times (atime x) t t
                                 (add_child name (ino (deref st child)) x)) st)
        end
  end.

(** The loop that closes the gap of a removed entry, on both parallel arrays. *)
Definition remove_child (i : nat) (x : fused_inode) : fused_inode :=
  let n := n_children x in
  set_children (n - 1) (shift_left i n (child_names x)) (shift_left i n (child_inodes x)) x.

Definition dir_rm_entry (t : Z) (dir : option nat) (name : string) (child : nat)
    (st : fused_state) : Z * fused_state :=
  match dir with
  | None => (- ENOTDIR, st)
  | Some d =>
      let x := deref st d in
      if negb (S_ISDIR (mode x)) then (- ENOTDIR, st)
      else
        match first_idx (fun p => p.1 = name /\ p.2 = ino (deref st child))
                (n_children x) (zip (child_names x) (child_inodes x)) with
        | Some i => (0, upd d (fun x => set_times (atime x) t t (remove_child i x)) st)
        | None => (- ENOENT, st)
        end
  end.

(** ** Initialisation and teardown *)

Definition init_root_inode (e : env) (st : fused_state) : fused_state :=
  let t := time e 0 in
  MkState
    (alter (fun x => MkInode FUSE_ROOT_ID (Z.lor S_IFDIR O_0755) (getuid e) (getgid e) 4096
                       t t t 0 (child_names x) (child_inodes x) (backing_path x))
       0%nat (inodes st))
    1 (backing_dir st).

(** [d] holds whatever files exist before the mount; [calloc] succeeded. *)
Definition fused_init (e : env) (d : gmap string (list Z)) : world :=
  let st := MkState (replicate MAX_INODES zero_inode) 0
              (strncpy (MAX_PATH - 1) "/tmp/fused_backing") in
  MkWorld (init_root_inode e st) d.

(** The files left on disk; [g_state] is freed. *)
Definition fused_destroy (e : env) (w : world) : gmap string (list Z) :=
  foldl (fun d x => if decide (backing_path x = EmptyString) then d
                    else unlink e (backing_path x) d)
    (disk w) (take (n_inodes (g_state w)) (inodes (g_state w))).

(** ** Operations *)

Record stat := MkStat {
  st_ino : Z; st_mode : Z; st_nlink : Z; st_uid : Z; st_gid : Z; st_size : Z;
  st_atime : Z; st_mtime : Z; st_ctime : Z; st_blksize : Z; st_blocks : Z;
}.

Definition zero_stat : stat := MkStat 0 0 0 0 0 0 0 0 0 0 0.

Definition fused_getattr (path : string) (w : world) : Z * stat :=
  match path_to_inode (g_state w) path with
  | None => (- ENOENT, zero_stat)
  | Some i =>
      let x := deref (g_state w) i in
      (0, MkStat (ino x) (mode x) (if S_ISDIR (mode x) then 2 else 1) (uid x) (gid x)
            (size x) (atime x) (mtime x) (ctime x) 4096 (Z.quot (size x + 511) 512))
  end.

(** The names handed to [filler], in order. *)
Definition fused_readdir (path : string) (w : world) : Z * list string :=
  match path_to_inode (g_state w) path with
  | None => (- ENOENT, [])
  | Some i =>
      let dir := deref (g_state w) i in
      if negb (S_ISDIR (mode dir)) then (- ENOTDIR, [])
      else (0, ["."; ".."]%string ++ take (n_children dir) (child_names dir))
  end.

(** Returns (rc, new [fi->fh] if assigned, state). *)
Definition fused_open (e : env) (path : string) (flags : Z) (w : world)
  : Z * option Z * world :=
  let st := g_state w in
  match path_to_inode st path with
  | None => (- ENOENT, None, w)
  | Some i =>
      let x := deref st i in
      if S_ISDIR (mode x) then (- EISDIR, None, w)
      else
        let accmode := Z.land flags O_ACCMODE in
        if ((accmode =? O_WRONLY) || (accmode =? O_RDWR)) && (Z.land flags O_APPEND =? 0)
        then (- EPERM, None, w)
        else (0, Some (ino x), set_g (upd i (set_atime (time e 0)) st) w)
  end.

(** [n] bytes of [l] from [off]. *)
Definition slice {A} (off n : Z) (l : list A) : list A :=
  take (Z.to_nat (Z.min n (Z.of_nat (length l)))) (drop (Z.to_nat off) l).

(** [fopen(path, "rb")]: the contents, or NULL. *)
Definition fopen_rb (e : env) (path : string) (d : gmap string (list Z)) : option (list Z) :=
  if fopen_ok e && negb (bool_decide (path = EmptyString)) then d !! path else None.

(** [fopen(path, "ab")]: created empty when missing. *)
Definition fopen_ab (e : env) (path : string) (d : gmap string (list Z)) : option (list Z) :=
  if fopen_ok e && negb (bool_decide (path = EmptyString))
  then Some (default [] (d !! path)) else None.

(** [fopen(path, "wb")]: created or truncated. *)
Definition fopen_wb (e : env) (path : string) (d : gmap string (list Z))
  : option (gmap string (list Z)) :=
  if fopen_ok e && negb (bool_decide (path = EmptyString))
  then Some (<[path := []]> d) else None.

(** The [k]-th [fwrite] of the call, on a file opened for appending: the count it
    returns and the contents afterwards. *)
Definition fwrite (e : env) (k : nat) (data content : list Z) : Z * list Z :=
  match fwrite_short e k with
  | None => (Z.of_nat (length data), content ++ data)
  | Some m => let m' := Nat.min m (length data) in (Z.of_nat m', content ++ take m' data)
  end.

(** Returns (rc, bytes stored in [buf], state). *)
Definition fused_read (e : env) (fh : Z) (sz : Z) (offset : Z) (w : world)
  : Z * list Z * world :=
  let st := g_state w in
  match lookup_inode st fh with
  | None => (- ENOENT, [], w)
  | Some i =>
      let x := deref st i in
      if decide (size x <= offset) then (0, [], w)
      else
        let to_read :=
          if decide (u64 (size x) < u64 (offset + sz)) then u64 (size x - offset) else sz in
        match fopen_rb e (backing_path x) (disk w) with
        | None => (- EIO, [], w)
        | Some content =>
            if decide (offset < 0) then (- EIO, [], w)  (* fseek fails *)
            else
              let got := slice offset to_read content in
              let got := match fread_short e with
                         | None => got
                         | Some m => take m got
                         end in
              (s32 (Z.of_nat (length got)), got,
               set_g (upd i (set_atime (time e 0)) st) w)
        end
  end.

(** [while (gap > 0)] of [fused_write]: zero-fills in blocks of 4096 bytes, from the
    [k]-th [fwrite] on; returns the number of calls made so far and the contents. *)
Fixpoint fill_gap (fuel : nat) (e : env) (k : nat) (gap : Z) (content : list Z)
  : nat * list Z :=
  match fuel with
  | O => (k, content)
  | S fuel' =>
      if decide (0 < gap) then
        let write_size := if decide (4096 < gap) then 4096 else gap in
        let content' := (fwrite e k (replicate (Z.to_nat write_size) 0) content).2 in
        fill_gap fuel' e (S k) (gap - write_size) content'
      else (k, content)
  end.

Definition gap_fuel (gap : Z) : nat := Z.to_nat (gap `div` 4096 + 1).

Definition fused_write (e : env) (fh : Z) (buf : list Z) (offset : Z) (w : world)
  : Z * world :=
  let st := g_state w in
  match lookup_inode st fh with
  | None => (- ENOENT, w)
  | Some i =>
      let x := deref st i in
      if decide (offset < size x) then (- EPERM, w)
      else
        match fopen_ab e (backing_path x) (disk w) with
        | None => (- EIO, w)
        | Some content =>
            let '(k, content) :=
              if decide (size x < offset)
              then let gap := u64 (offset - size x) in fill_gap (gap_fuel gap) e 0 gap content
              else (O, content) in
            let '(bytes_written, content) := fwrite e k buf content in
            let d := <[backing_path x := content]> (disk w) in
            if decide (bytes_written <> Z.of_nat (length buf)) then (- EIO, MkWorld st d)
            else
              let st' := upd i (fun x => set_times (atime x) (time e 0) (time e 1)
                                 (set_size (s64 (offset + bytes_written)) x)) st in
              (s32 bytes_written, MkWorld st' d)
        end
  end.

(** Owner of a new inode: the FUSE caller, or the process. *)
Definition new_owner (e : env) : Z * Z :=
  match fuse_context e with
  | Some ug => ug
  | None => (getuid e, getgid e)
  end.

(** Returns (rc, new [fi->fh] if assigned, state). *)
Definition fused_create (e : env) (path : string) (md : Z) (w : world)
  : Z * option Z * world :=
  let st := g_state w in
  match path_to_inode st path with
  | Some _ => (- EEXIST, None, w)
  | None =>
      let '(parent_path, child_name) := split_path path in
      match path_to_inode st parent_path with
      | None => (- ENOENT, None, w)
      | Some parent =>
          if negb (S_ISDIR (mode (deref st parent))) then (- ENOENT, None, w)
          else
            match alloc_inode st with
            | None => (- ENOMEM, None, w)
            | Some (i, st1) =>
                let '(u, g) := new_owner e in
                let t := time e 0 in
                let st2 := upd i (fun x =>
                    set_times t t t (set_size 0 (set_owner u g
                      (set_mode (Z.lor S_IFREG (Z.land md O_0777)) x)))) st1 in
                match fopen_wb e (backing_path (deref st2 i)) (disk w) with
                | None => (- EIO, None, free_inode e i (MkWorld st2 (disk w)))
                | Some d =>
                    let '(rc, st3) := dir_add_entry (time e 1) (Some parent) child_name i st2 in
                    if decide (rc <> 0) then (rc, None, free_inode e i (MkWorld st3 d))
                    else (0, Some (ino (deref st3 i)), MkWorld st3 d)
                end
            end
      end
  end.

(** [tv] is ((sec, nsec), (sec, nsec)). *)
Definition fused_utimens (e : env) (path : string) (tv : (Z * Z) * (Z * Z)) (w : world)
  : Z * world :=
  let st := g_state w in
  match path_to_inode st path with
  | None => (- ENOENT, w)
  | Some i =>
      let '((s0, ns0), (s1, ns1)) := tv in
      let x := deref st i in
      let '(k, a) := if decide (ns0 = UTIME_NOW) then (1%nat, time e 0)
                     else if decide (ns0 = UTIME_OMIT) then (O, atime x) else (O, s0) in
      let '(k, m) := if decide (ns1 = UTIME_NOW) then (S k, time e k)
                     else if decide (ns1 = UTIME_OMIT) then (k, mtime x) else (k, s1) in
      (0, set_g (upd i (set_times a m (time e k)) st) w)
  end.

Definition fused_mkdir (e : env) (path : string) (md : Z) (w : world) : Z * world :=
  let st := g_state w in
  match path_to_inode st path with
  | Some _ => (- EEXIST, w)
  | None =>
      let '(parent_path, dir_name) := split_path path in
      match path_to_inode st parent_path with
      | None => (- ENOENT, w)
      | Some parent =>
          if negb (S_ISDIR (mode (deref st parent))) then (- ENOENT, w)
          else
            match alloc_inode st with
            | None => (- ENOMEM, w)
            | Some (i, st1) =>
                let '(u, g) := new_owner e in
                let t := time e 0 in
                let st2 := upd i (fun x =>
                    set_children 0 (child_names x) (child_inodes x)
                      (set_times t t t (set_size 4096 (set_owner u g
                        (set_mode (Z.lor S_IFDIR (Z.land md O_0777)) x))))) st1 in
                let '(rc, st3) := dir_add_entry (time e 1) (Some parent) dir_name i st2 in
                if decide (rc <> 0) then (rc, free_inode e i (MkWorld st3 (disk w)))
                else (0, MkWorld st3 (disk w))
            end
      end
  end.

(** [None]: the path has no ['/'], and the code writes through a null pointer. *)
Definition fused_rmdir (e : env) (path : string) (w : world) : option (Z * world) :=
  let st := g_state w in
  if decide (path = "/"%string) then Some (- EBUSY, w)
  else
    match path_to_inode st path with
    | None => Some (- ENOENT, w)
    | Some i =>
        let x := deref st i in
        if negb (S_ISDIR (mode x)) then Some (- ENOTDIR, w)
        else if decide (0 < n_children x)%nat then Some (- ENOTEMPTY, w)
        else
          let path_copy := strncpy (MAX_PATH - 1) path in
          match strrchr slash path_copy with
          | None => None
          | Some k =>
              let parent_path := if decide (k = O) then "/"%string else str_take k path_copy in
              let dir_name := str_drop (S k) path_copy in
              match path_to_inode st parent_path with
              | None => Some (- ENOENT, w)
              | Some p =>
                  match find_child (deref st p) dir_name with
                  | None => Some (- ENOENT, w)
                  | Some c =>
                      let t := time e 0 in
                      let st1 := upd p (fun x => set_times (atime x) t t (remove_child c x)) st in
                      Some (0, set_g (upd i (fun _ => zero_inode) st1) w)
                  end
              end
          end
    end.

Definition fused_rename (e : env) (from to : string) (w : world) : Z * world :=
  let st := g_state w in
  if decide (from = to) then (0, w)
  else
    match path_to_inode st from with
    | None => (- ENOENT, w)
    | Some i =>
        match path_to_inode st to with
        | Some _ => (- EEXIST, w)
        | None =>
            let '(src_path, src_name) := split_path from in
            let '(dest_path, dest_name) := split_path to in
            let src_parent := path_to_inode st src_path in
            let dest_parent := path_to_inode st dest_path in
            let '(rc, st1) := dir_add_entry (time e 0) dest_parent dest_name i st in
            if decide (rc <> 0) then (rc, set_g st1 w)
            else
              let '(rc, st2) := dir_rm_entry (time e 1) src_parent src_name i st1 in
              if decide (rc <> 0) then
                (rc, set_g (dir_rm_entry (time e 1) dest_parent dest_name i st2).2 w)
              else
                let t := time e 2 in
                (0, set_g (upd i (fun x => set_times t t (ctime x) x) st2) w)
        end
    end.

Definition fused_unlink (e : env) (path : string) (w : world) : Z * world :=
  let st := g_state w in
  match path_to_inode st path with
  | None => (- ENOENT, w)
  | Some i =>
      let '(parent_path, child_name) := split_path path in
      match path_to_inode st parent_path with
      | None => (- ENOENT, w)
      | Some parent =>
          if negb (S_ISDIR (mode (deref st parent))) then (- ENOENT, w)
          else
            let '(rc, st1) := dir_rm_entry (time e 0) (Some parent) child_name i st in
            if decide (rc = 0) then (rc, free_inode e i (set_g st1 w))
            else (rc, set_g st1 w)
      end
  end.

(** ** The operation table ([src/src/fused_main.c]) and executions *)

Inductive fs_op :=
| OpGetattr (path : string)
| OpReaddir (path : string)
| OpOpen (path : string) (flags : Z)
| OpRead (fh sz offset : Z)
| OpWrite (fh : Z) (buf : list Z) (offset : Z)
| OpCreate (path : string) (md : Z)
| OpMkdir (path : string) (md : Z)
| OpRmdir (path : string)
| OpRename (from to : string)
| OpUtimens (path : string) (tv : (Z * Z) * (Z * Z))
| OpUnlink (path : string).

(** One call through the operation table; [None] when the process crashes. *)
Definition fused_oper (e : env) (o : fs_op) (w : world) : option (Z * world) :=
  match o with
  | OpGetattr p => Some ((fused_getattr p w).1, w)
  | OpReaddir p => Some ((fused_readdir p w).1, w)
  | OpOpen p fl => let '(rc, _, w') := fused_open e p fl w in Some (rc, w')
  | OpRead fh sz off => let '(rc, _, w') := fused_read e fh sz off w in Some (rc, w')
  | OpWrite fh buf off => Some (fused_write e fh buf off w)
  | OpCreate p md => let '(rc, _, w') := fused_create e p md w in Some (rc, w')
  | OpMkdir p md => Some (fused_mkdir e p md w)
  | OpRmdir p => fused_rmdir e p w
  | OpRename a b => Some (fused_rename e a b w)
  | OpUtimens p tv => Some (fused_utimens e p tv w)
  | OpUnlink p => Some (fused_unlink e p w)
  end.

(** States of a mounted filesystem after any sequence of calls. *)
Inductive reachable : world -> Prop :=
| reach_init e d : reachable (fused_init e d)
| reach_step e o w rc w' :
    reachable w -> fused_oper e o w = Some (rc, w') -> reachable w'.
