(* ===== verification/FusedInv.v ===== *)
(** * Well-formedness of the inode table, and that every operation keeps it

    [link st d nm c]: directory slot [d] has an entry named [nm] for inode number
    [c].  [wf_base] holds at every program point; [wf] adds that every inode is
    entered at most once and the root never, which rename breaks between its two
    directory updates and restores at its end. *)

From stdpp Require Import base gmap strings list.
From Stdlib Require Import Ascii.
From S2P Require Import Prelude CString NameTree FusedFs.

#[local] Open Scope Z_scope.

(** ** Definitions *)

(** The directory entries, as a list. *)
Definition entries (x : fused_inode) : list (string * Z) :=
  zip (take (n_children x) (child_names x)) (take (n_children x) (child_inodes x)).

Definition good_name (nm : string) : Prop :=
  nm <> EmptyString /\ ~ str_in slash nm /\ (String.length nm <= MAX_NAME - 1)%nat.

Record inode_ok (x : fused_inode) : Prop := {
  ok_names : length (child_names x) = MAX_CHILDREN;
  ok_inos : length (child_inodes x) = MAX_CHILDREN;
  ok_n : (n_children x <= MAX_CHILDREN)%nat;
  ok_nodup : NoDup (take (n_children x) (child_names x));
  ok_good : Forall good_name (take (n_children x) (child_names x));
  ok_file : n_children x <> O -> S_ISDIR (mode x) = true;
}.

Definition the_backing_dir : string := "/tmp/fused_backing".

(** Root has no backing file; every other inode has the path made from its number. *)
Definition backing_ok (x : fused_inode) : Prop :=
  if decide (ino x = FUSE_ROOT_ID) then backing_path x = EmptyString
  else backing_path x = generate_backing_path the_backing_dir (ino x).

Definition link (st : fused_state) (d : nat) (nm : string) (c : Z) : Prop :=
  exists x, inodes st !! d = Some x /\ (nm, c) ∈ entries x.

Definition live (st : fused_state) (i : nat) : Prop :=
  exists x, inodes st !! i = Some x /\ ino x = Z.of_nat i + 1.

Record wf_base (st : fused_state) : Prop := {
  wf_len : length (inodes st) = MAX_INODES;
  wf_n : (1 <= n_inodes st <= MAX_INODES)%nat;
  wf_bdir : backing_dir st = the_backing_dir;
  wf_slot : forall i x, inodes st !! i = Some x ->
    x = zero_inode \/
    ((i < n_inodes st)%nat /\ ino x = Z.of_nat i + 1 /\ inode_ok x /\ backing_ok x);
  wf_root : live st 0 /\ S_ISDIR (mode (deref st 0)) = true;
  wf_target : forall d nm c, link st d nm c -> exists j, c = Z.of_nat j + 1 /\ live st j;
}.

Record wf (st : fused_state) : Prop := {
  wf_wfb :> wf_base st;
  wf_once : forall d nm d' nm' c, link st d nm c -> link st d' nm' c -> d = d' /\ nm = nm';
  wf_noroot : forall d nm, ~ link st d nm FUSE_ROOT_ID;
}.

(** Two records that differ only in owner, size and times. *)
Definition same_shape (x y : fused_inode) : Prop :=
  ino x = ino y /\ mode x = mode y /\ n_children x = n_children y /\
  child_names x = child_names y /\ child_inodes x = child_inodes y /\
  backing_path x = backing_path y.

(** ** Entries *)

Lemma entries_lookup x k nm c :
  entries x !! k = Some (nm, c) <->
    (k < n_children x)%nat /\ child_names x !! k = Some nm /\ child_inodes x !! k = Some c.
Proof.
  unfold entries. rewrite lookup_zip_with_Some. split.
  - intros (nm' & c' & Heq & Hx%lookup_take_Some & Hy%lookup_take_Some).
    simplify_eq. tauto.
  - intros (? & ? & ?). exists nm, c. rewrite !lookup_take_Some. tauto.
Qed.

Lemma entries_elem x nm c :
  (nm, c) ∈ entries x <->
    exists k, (k < n_children x)%nat /\ child_names x !! k = Some nm /\
              child_inodes x !! k = Some c.
Proof. rewrite list_elem_of_lookup. by setoid_rewrite entries_lookup. Qed.

Lemma entries_zero : entries zero_inode = [].
Proof. done. Qed.

Lemma entries_fst x : inode_ok x -> (entries x).*1 = take (n_children x) (child_names x).
Proof.
  intros [H1 H2 H3 _ _ _]. unfold entries. apply fst_zip.
  rewrite !length_take. lia.
Qed.

Lemma entries_shape x y : same_shape x y -> entries x = entries y.
Proof. intros (_ & _ & Hn & Hnm & Hi & _). unfold entries. by rewrite Hn, Hnm, Hi. Qed.

Lemma inode_ok_shape x y : same_shape x y -> inode_ok x -> inode_ok y.
Proof.
  intros (_ & Hm & Hn & Hnm & Hi & _) [H1 H2 H3 H4 H5 H6].
  constructor; rewrite <- ?Hm, <- ?Hn, <- ?Hnm, <- ?Hi; done.
Qed.

Lemma backing_ok_shape x y : same_shape x y -> backing_ok x -> backing_ok y.
Proof. intros (Hi & _ & _ & _ & _ & Hb). unfold backing_ok. by rewrite Hi, Hb. Qed.

Lemma zip_delete {A B} (l : list A) (k : list B) i :
  zip (delete i l) (delete i k) = delete i (zip l k).
Proof.
  revert k i. induction l as [|a l IH]; intros [|b k] [|i]; simpl; try done.
  - by destruct l.
  - f_equal. apply IH.
Qed.

Lemma elem_of_delete_fst {A B} (l : list (A * B)) k a b y :
  NoDup l.*1 -> l !! k = Some (a, b) -> (y ∈ delete k l <-> y ∈ l /\ y.1 <> a).
Proof.
  intros Hnd Hk. rewrite delete_take_drop.
  rewrite <- (take_drop_middle l k (a, b) Hk) in Hnd |- * at 3.
  rewrite fmap_app, fmap_cons, NoDup_app, NoDup_cons in Hnd. simpl in Hnd.
  destruct Hnd as (_ & Hdisj & Ha & _).
  rewrite !elem_of_app, elem_of_cons. split.
  - intros [Hy|Hy]; (split; [tauto |]); intros <-.
    + apply (Hdisj y.1); [by apply list_elem_of_fmap_2 | left].
    + apply Ha. by apply list_elem_of_fmap_2.
  - intros [[?|[->|?]] Hne]; simpl in *; tauto.
Qed.

(** ** Slots and lookups *)

Lemma deref_Some st i x : inodes st !! i = Some x -> deref st i = x.
Proof. unfold deref. by intros ->. Qed.

Lemma live_deref st i : live st i <-> inodes st !! i = Some (deref st i) /\ ino (deref st i) = Z.of_nat i + 1.
Proof.
  unfold live, deref. destruct (inodes st !! i) as [y|]; simpl.
  - split; [by intros (x & [= ->] & ?) |]. intros [_ ?]. by exists y.
  - split; [by intros (x & ? & _) | by intros [? _]].
Qed.

Lemma isdir_zero : S_ISDIR (mode zero_inode) = false.
Proof. done. Qed.

Lemma wf_live_slot st i x :
  wf_base st -> inodes st !! i = Some x -> ino x = Z.of_nat i + 1 ->
  (i < n_inodes st)%nat /\ inode_ok x /\ backing_ok x.
Proof.
  intros Hwf Hi Hino. destruct (wf_slot _ Hwf i x Hi) as [->|]; [simpl in Hino; lia | tauto].
Qed.

Lemma wf_slot_live st i x :
  wf_base st -> inodes st !! i = Some x -> x <> zero_inode -> live st i.
Proof. intros Hwf Hi Hz. destruct (wf_slot _ Hwf i x Hi); [done |]. exists x. tauto. Qed.

Lemma lookup_inode_live st j :
  wf_base st -> live st j -> lookup_inode st (Z.of_nat j + 1) = Some j.
Proof.
  intros Hwf (x & Hx & Hino). apply first_idx_Some. exists x.
  destruct (wf_live_slot _ _ _ Hwf Hx Hino) as (? & _ & _).
  split_and!; try done. intros i y Hi Hy Hyi.
  destruct (wf_slot _ Hwf i y Hy) as [->|(_ & Hy' & _)]; [simpl in Hyi; lia | lia].
Qed.

Lemma lookup_inode_Some st k i :
  wf_base st -> lookup_inode st k = Some i -> k <> 0 -> live st i /\ k = Z.of_nat i + 1.
Proof.
  intros Hwf Hk Hnz. apply first_idx_Some in Hk as (x & Hx & _ & Hino & _).
  destruct (wf_slot _ Hwf i x Hx) as [->|(_ & Hxi & _)]; [by simpl in Hino |].
  split; [by exists x | congruence].
Qed.

Lemma lookup_root st : wf_base st -> lookup_inode st FUSE_ROOT_ID = Some O.
Proof. intros Hwf. by apply (lookup_inode_live st 0 Hwf), wf_root. Qed.

Lemma link_dir st d nm c :
  wf_base st -> link st d nm c ->
  live st d /\ S_ISDIR (mode (deref st d)) = true /\ inode_ok (deref st d) /\
  (nm, c) ∈ entries (deref st d).
Proof.
  intros Hwf (x & Hx & Hin). rewrite (deref_Some _ _ _ Hx).
  destruct (wf_slot _ Hwf d x Hx) as [->|(_ & ? & Hok & _)].
  { rewrite entries_zero in Hin. by apply not_elem_of_nil in Hin. }
  split_and!; [by exists x | | done | done].
  apply (ok_file _ Hok). apply entries_elem in Hin as (k & ? & _). lia.
Qed.

Lemma find_child_Some x nm i :
  find_child x nm = Some i -> (i < n_children x)%nat /\ child_names x !! i = Some nm.
Proof. intros (y & ? & ? & -> & _)%first_idx_Some. done. Qed.

Lemma find_child_entry x nm k :
  inode_ok x -> (k < n_children x)%nat -> child_names x !! k = Some nm ->
  find_child x nm = Some k.
Proof.
  intros Hok Hk Hnm. apply first_idx_Some. exists nm. split_and!; try done.
  intros j y Hj Hy ->. pose proof (ok_nodup _ Hok) as Hnd.
  rewrite NoDup_alt in Hnd. enough (j = k) by lia.
  apply (Hnd j k nm); apply lookup_take_Some; split; auto with lia.
Qed.

Lemma find_child_None_entry x nm c :
  find_child x nm = None -> (nm, c) ∉ entries x.
Proof.
  intros Hn (k & Hk & Hnm & _)%entries_elem.
  by apply (proj1 (first_idx_None _ _ _) Hn k nm Hk Hnm).
Qed.

(** One resolution step is one directory entry. *)
Lemma walk_step_link st i t j :
  wf_base st -> walk_step st i t = Some j <-> link st i t (Z.of_nat j + 1).
Proof.
  intros Hwf. unfold walk_step. split.
  - destruct (S_ISDIR (mode (deref st i))) eqn:Hdir; [| done].
    destruct (find_child (deref st i) t) as [k|] eqn:Hf; [| done]. intros Hl.
    destruct (inodes st !! i) as [x|] eqn:Hx.
    2:{ unfold deref in Hdir. by rewrite Hx in Hdir. }
    rewrite (deref_Some _ _ _ Hx) in *. apply find_child_Some in Hf as [Hk Hnm].
    destruct (wf_slot _ Hwf i x Hx) as [->|(_ & _ & Hok & _)]; [done |].
    destruct (lookup_lt_is_Some_2 (child_inodes x) k) as [c Hc].
    { rewrite (ok_inos _ Hok), <- (ok_names _ Hok). by eapply lookup_lt_Some. }
    assert (Hlink : link st i t c).
    { exists x. split; [done |]. apply entries_elem. by exists k. }
    erewrite list_lookup_total_correct in Hl by exact Hc.
    destruct (wf_target _ Hwf _ _ _ Hlink) as (j' & -> & Hj').
    apply lookup_inode_Some in Hl as [_ Hl]; [| done | lia].
    by replace j with j' by lia.
  - intros Hlink. destruct (link_dir _ _ _ _ Hwf Hlink) as (_ & -> & Hok & Hin).
    apply entries_elem in Hin as (k & Hk & Hnm & Hc).
    rewrite (find_child_entry _ _ _ Hok Hk Hnm).
    erewrite list_lookup_total_correct by exact Hc.
    destruct (wf_target _ Hwf _ _ _ Hlink) as (j' & ? & Hj').
    replace j with j' by lia. by apply lookup_inode_live.
Qed.

(** ** Replacing one slot *)

(** [st] with slot [i] set to [x] and the allocation mark set to [n]. *)
Definition put (i : nat) (x : fused_inode) (n : nat) (st : fused_state) : fused_state :=
  MkState (<[i := x]> (inodes st)) n (backing_dir st).

Lemma upd_put st i f x :
  inodes st !! i = Some x -> upd i f st = put i (f x) (n_inodes st) st.
Proof.
  intros Hx. unfold upd, put. f_equal. apply list_eq. intros k.
  destruct (decide (i = k)) as [->|Hne].
  - rewrite list_lookup_alter_eq, Hx, list_lookup_insert_eq by (by eapply lookup_lt_Some).
    done.
  - by rewrite list_lookup_alter_ne, list_lookup_insert_ne by done.
Qed.

Lemma put_lookup st i x n k :
  (i < length (inodes st))%nat ->
  inodes (put i x n st) !! k = if decide (k = i) then Some x else inodes st !! k.
Proof.
  intros Hi. simpl. case_decide; subst.
  - by apply list_lookup_insert_eq.
  - by rewrite list_lookup_insert_ne by done.
Qed.

Lemma link_put st i x n d nm c :
  (i < length (inodes st))%nat ->
  link (put i x n st) d nm c <-> if decide (d = i) then (nm, c) ∈ entries x else link st d nm c.
Proof.
  intros Hi. unfold link. setoid_rewrite put_lookup; [| done]. case_decide; [| done].
  split; [by intros (? & [= ->] & ?) | by exists x].
Qed.

Lemma live_put st i x n j :
  (i < length (inodes st))%nat ->
  live (put i x n st) j <-> if decide (j = i) then ino x = Z.of_nat i + 1 else live st j.
Proof.
  intros Hi. unfold live. setoid_rewrite put_lookup; [| done]. case_decide; [| done].
  subst. split; [by intros (? & [= ->] & ?) | by exists x].
Qed.

Lemma deref_put st i x n j :
  (i < length (inodes st))%nat ->
  deref (put i x n st) j = if decide (j = i) then x else deref st j.
Proof. intros Hi. unfold deref. rewrite put_lookup by done. by case_decide. Qed.

(** What a slot write has to respect; the rest of [wf_base] then follows. *)
Lemma wf_base_put st i x n :
  wf_base st -> (i < MAX_INODES)%nat -> (1 <= n <= MAX_INODES)%nat ->
  x = zero_inode \/ ((i < n)%nat /\ ino x = Z.of_nat i + 1 /\ inode_ok x /\ backing_ok x) ->
  (forall j y, j <> i -> inodes st !! j = Some y -> y <> zero_inode -> (j < n)%nat) ->
  (i = O -> ino x = FUSE_ROOT_ID /\ S_ISDIR (mode x) = true) ->
  (forall nm c, (nm, c) ∈ entries x -> exists j, c = Z.of_nat j + 1 /\ live (put i x n st) j) ->
  (x = zero_inode -> forall d nm, d <> i -> ~ link st d nm (Z.of_nat i + 1)) ->
  wf_base (put i x n st).
Proof.
  intros Hwf Hi Hn Hx Hlt Hroot Htgt Hzero. pose proof (wf_len _ Hwf) as Hlen.
  assert (Hil : (i < length (inodes st))%nat) by lia.
  constructor.
  - simpl. by rewrite length_insert.
  - done.
  - apply (wf_bdir _ Hwf).
  - intros j y. rewrite put_lookup by done. case_decide as Hj; [by intros [= ->]; subst |].
    intros Hy. destruct (wf_slot _ Hwf j y Hy) as [|(? & Hyi & Hok)]; [by left | right].
    split; [| done]. apply (Hlt j y Hj Hy). intros ->. simpl in Hyi. lia.
  - rewrite live_put, deref_put by done. destruct (wf_root _ Hwf) as [Hr1 Hr2].
    case_decide as Hi0; [| done]. subst. destruct (Hroot eq_refl). done.
  - intros d nm c. rewrite link_put by done. case_decide as Hd; [apply Htgt |].
    intros Hlink. destruct (wf_target _ Hwf _ _ _ Hlink) as (j & -> & Hj).
    exists j. split; [done |]. rewrite live_put by done. case_decide as Hji; [| done].
    subst j. destruct Hx as [->|]; [| tauto]. by destruct (Hzero eq_refl d nm Hd).
Qed.

(** Changing owner, size or times of a live inode. *)
Lemma wf_base_shape st i f :
  wf_base st -> live st i -> (forall x, same_shape x (f x)) ->
  wf_base (upd i f st) /\ forall d nm c, link (upd i f st) d nm c <-> link st d nm c.
Proof.
  intros Hwf Hlive Hsh. pose proof Hlive as (x & Hx & Hino).
  rewrite (upd_put _ _ _ _ Hx). pose proof (Hsh x) as Hshx.
  destruct (wf_live_slot _ _ _ Hwf Hx Hino) as (Hlt & Hok & Hbk).
  pose proof (wf_n _ Hwf). pose proof (lookup_lt_Some _ _ _ Hx) as Hil.
  assert (Hlv : forall j, live st j -> live (put i (f x) (n_inodes st) st) j).
  { intros j Hj. rewrite live_put by done. case_decide; [| done].
    by rewrite <- (proj1 Hshx). }
  split.
  - apply wf_base_put; try done.
    + lia.
    + right. rewrite <- (proj1 Hshx). split_and!; try done.
      * by eapply inode_ok_shape.
      * by eapply backing_ok_shape.
    + intros j y _ Hy Hz. destruct (wf_slot _ Hwf j y Hy); [done | tauto].
    + intros ->. destruct (wf_root _ Hwf) as [_ Hd]. rewrite (deref_Some _ _ _ Hx) in Hd.
      destruct Hshx as (<- & <- & _). done.
    + intros nm c Hin. rewrite <- (entries_shape _ _ Hshx) in Hin.
      destruct (wf_target _ Hwf i nm c) as (j & -> & Hj); [by exists x |]. eauto.
    + intros Hz. destruct Hshx as (Hi' & _). rewrite Hz in Hi'. simpl in Hi'. lia.
  - intros d nm c. rewrite link_put by done. case_decide; [| done]. subst.
    rewrite <- (entries_shape _ _ Hshx). unfold link. rewrite Hx. split; [by exists x |].
    by intros (? & [= ->] & ?).
Qed.

(** Clearing an inode that no entry refers to. *)
Lemma wf_base_clear st i n :
  wf_base st -> (0 < i < MAX_INODES)%nat ->
  n = n_inodes st \/ (i = n_inodes st - 1)%nat /\ (n = n_inodes st - 1)%nat ->
  (forall d nm, d <> i -> ~ link st d nm (Z.of_nat i + 1)) ->
  wf_base (put i zero_inode n st) /\
  forall d nm c, link (put i zero_inode n st) d nm c <-> link st d nm c /\ d <> i.
Proof.
  intros Hwf Hi Hn Hun. pose proof (wf_n _ Hwf). pose proof (wf_len _ Hwf).
  split.
  - apply wf_base_put; try done; try lia.
    + by left.
    + intros j y Hj Hy Hz. destruct (wf_slot _ Hwf j y Hy) as [|[? _]]; [done | lia].
    + intros nm c. rewrite entries_zero. by intros ?%not_elem_of_nil.
  - intros d nm c. rewrite link_put by lia. case_decide; [| tauto].
    rewrite entries_zero. split; [by intros ?%not_elem_of_nil | tauto].
Qed.

(** ** Adding and removing a directory entry *)

Lemma take_insert_snoc {A} (l : list A) n v :
  (n < length l)%nat -> take (S n) (<[n := v]> l) = take n l ++ [v].
Proof.
  intros Hn. rewrite (take_S_r _ _ v) by (by apply list_lookup_insert_eq).
  by rewrite take_insert_ge.
Qed.

Lemma entries_add nm k x :
  inode_ok x -> (n_children x < MAX_CHILDREN)%nat -> good_name nm ->
  entries (add_child nm k x) = entries x ++ [(nm, k)].
Proof.
  intros Hok Hn (_ & _ & Hl). unfold entries. cbn [n_children child_names child_inodes
    add_child set_children]. unfold strncpy. rewrite str_take_ge by done.
  rewrite !take_insert_snoc by (rewrite ?(ok_names _ Hok), ?(ok_inos _ Hok); done).
  rewrite zip_with_app; [done |].
  rewrite !length_take, (ok_names _ Hok), (ok_inos _ Hok). done.
Qed.

Lemma inode_ok_add nm k t x :
  inode_ok x -> S_ISDIR (mode x) = true -> (n_children x < MAX_CHILDREN)%nat ->
  find_child x nm = None -> good_name nm ->
  inode_ok (set_times (atime x) t t (add_child nm k x)).
Proof.
  intros Hok Hd Hn Hfree Hgood. pose proof Hgood as (_ & _ & Hl).
  constructor; cbn [n_children child_names child_inodes mode set_times add_child set_children];
    unfold strncpy; rewrite ?length_insert, ?(str_take_ge _ _ Hl).
  - apply (ok_names _ Hok).
  - apply (ok_inos _ Hok).
  - lia.
  - rewrite take_insert_snoc by (by rewrite (ok_names _ Hok)).
    apply NoDup_app. split_and!; [apply (ok_nodup _ Hok) | | apply NoDup_singleton].
    intros nm' Hin ->%list_elem_of_singleton.
    apply list_elem_of_lookup in Hin as (j & Hj). apply lookup_take_Some in Hj as [Hj Hlt].
    by apply (proj1 (first_idx_None _ _ _) Hfree j nm Hlt Hj).
  - rewrite take_insert_snoc by (by rewrite (ok_names _ Hok)).
    apply Forall_app. split; [apply (ok_good _ Hok) | by apply Forall_singleton].
  - done.
Qed.

Lemma entries_remove i x :
  inode_ok x -> (i < n_children x)%nat -> entries (remove_child i x) = delete i (entries x).
Proof.
  intros Hok Hi. unfold entries. cbn [n_children child_names child_inodes remove_child set_children].
  pose proof (ok_n _ Hok).
  rewrite !take_shift_left by (rewrite ?(ok_names _ Hok), ?(ok_inos _ Hok); lia).
  apply zip_delete.
Qed.

Lemma inode_ok_remove i t x :
  inode_ok x -> (i < n_children x)%nat ->
  inode_ok (set_times (atime x) t t (remove_child i x)).
Proof.
  intros Hok Hi. pose proof (ok_n _ Hok).
  assert (Hsub : sublist (take (n_children x - 1) (shift_left i (n_children x) (child_names x)))
                   (take (n_children x) (child_names x))).
  { rewrite take_shift_left by (rewrite ?(ok_names _ Hok); lia). apply sublist_delete. }
  constructor; cbn [n_children child_names child_inodes mode set_times remove_child set_children];
    rewrite ?length_shift_left.
  - apply (ok_names _ Hok).
  - apply (ok_inos _ Hok).
  - lia.
  - eapply sublist_NoDup; [apply (ok_nodup _ Hok) | exact Hsub].
  - apply Forall_forall. intros nm Hin. eapply Forall_forall; [apply (ok_good _ Hok) |].
    by eapply elem_of_sublist.
  - intros _. apply (ok_file _ Hok). lia.
Qed.

(** [put] of a live inode that stays live. *)
Lemma wf_base_put_live st d x x' :
  wf_base st -> inodes st !! d = Some x -> ino x = Z.of_nat d + 1 ->
  ino x' = ino x -> mode x' = mode x -> backing_path x' = backing_path x -> inode_ok x' ->
  (forall nm c, (nm, c) ∈ entries x' -> exists j, c = Z.of_nat j + 1 /\ live st j) ->
  wf_base (put d x' (n_inodes st) st).
Proof.
  intros Hwf Hx Hino Hi Hm Hb Hok Htgt. pose proof (lookup_lt_Some _ _ _ Hx) as Hl.
  rewrite (wf_len _ Hwf) in Hl. destruct (wf_live_slot _ _ _ Hwf Hx Hino) as (Hlt & _ & Hbk).
  apply wf_base_put; try done.
  - apply (wf_n _ Hwf).
  - right. rewrite Hi. split_and!; try done. unfold backing_ok in *. by rewrite Hi, Hb.
  - intros j y _ Hy Hz. destruct (wf_slot _ Hwf j y Hy); [done | tauto].
  - intros ->. rewrite Hi, Hm. destruct (wf_root _ Hwf) as [_ Hd].
    by rewrite (deref_Some _ _ _ Hx) in Hd.
  - intros nm c Hin. destruct (Htgt nm c Hin) as (j & -> & Hj). exists j. split; [done |].
    rewrite live_put by (by eapply lookup_lt_Some). case_decide; [congruence | done].
  - intros Hz. rewrite Hz in Hi. simpl in Hi. lia.
Qed.

(** The two outcomes of [dir_add_entry]. *)
Lemma dir_add_entry_cases t dir nm child st rc st' :
  dir_add_entry t dir nm child st = (rc, st') ->
  (rc < 0 /\ st' = st) \/
  (rc = 0 /\ exists d x, dir = Some d /\ inodes st !! d = Some x /\
     S_ISDIR (mode x) = true /\ (n_children x < MAX_CHILDREN)%nat /\
     find_child x nm = None /\
     st' = put d (set_times (atime x) t t (add_child nm (ino (deref st child)) x))
             (n_inodes st) st).
Proof.
  unfold dir_add_entry. destruct dir as [d|]; [| intros [= <- <-]; by left].
  destruct (S_ISDIR (mode (deref st d))) eqn:Hd; simpl; [| intros [= <- <-]; by left].
  case_decide as Hn; [intros [= <- <-]; by left |].
  destruct (find_child _ _) eqn:Hf; [intros [= <- <-]; by left |].
  intros [= <- <-]. right. split; [done |].
  destruct (inodes st !! d) as [x|] eqn:Hx.
  2:{ unfold deref in Hd. by rewrite Hx in Hd. }
  rewrite (deref_Some _ _ _ Hx) in *. exists d, x. split_and!; try done; [lia |].
  by rewrite (upd_put _ _ _ _ Hx).
Qed.

(** The two outcomes of [dir_rm_entry]. *)
Lemma dir_rm_entry_cases t dir nm child st rc st' :
  dir_rm_entry t dir nm child st = (rc, st') ->
  (rc < 0 /\ st' = st /\
     forall d, dir = Some d -> wf_base st -> ~ link st d nm (ino (deref st child))) \/
  (rc = 0 /\ exists d x i, dir = Some d /\ inodes st !! d = Some x /\
     entries x !! i = Some (nm, ino (deref st child)) /\
     st' = put d (set_times (atime x) t t (remove_child i x)) (n_inodes st) st).
Proof.
  unfold dir_rm_entry. destruct dir as [d|]; [| intros [= <- <-]; left; by split_and!].
  destruct (S_ISDIR (mode (deref st d))) eqn:Hd; simpl.
  2:{ intros [= <- <-]. left. split_and!; try done. intros ? [= <-] Hwf Hlink.
      apply link_dir in Hlink as (_ & Hd' & _); [congruence | done]. }
  destruct (inodes st !! d) as [x|] eqn:Hx.
  2:{ unfold deref in Hd. by rewrite Hx in Hd. }
  rewrite (deref_Some _ _ _ Hx) in *.
  destruct (first_idx _ _ _) as [i|] eqn:Hf; intros [= <- <-].
  - right. split; [done |]. exists d, x, i.
    apply first_idx_Some in Hf as ([nm' c'] & Hz & Hlt & [Hn Hc] & _). simpl in *. subst.
    split_and!; try done.
    + apply lookup_zip_with_Some in Hz as (? & ? & ? & ? & ?). simplify_eq.
      by apply entries_lookup.
    + by rewrite (upd_put _ _ _ _ Hx).
  - left. split_and!; try done. intros ? [= <-] _ (x' & Hx' & Hin). simplify_eq.
    apply entries_elem in Hin as (k & Hk & Hnm & Hc).
    refine (proj1 (first_idx_None _ _ _) Hf k (nm, ino (deref st child)) Hk _ _); [| done].
    apply lookup_zip_with_Some. eauto.
Qed.

Lemma wf_base_add st d x nm k t :
  wf_base st -> inodes st !! d = Some x -> S_ISDIR (mode x) = true ->
  (n_children x < MAX_CHILDREN)%nat -> find_child x nm = None -> good_name nm ->
  (exists j, k = Z.of_nat j + 1 /\ live st j) ->
  let st' := put d (set_times (atime x) t t (add_child nm k x)) (n_inodes st) st in
  wf_base st' /\
  forall d' nm' c, link st' d' nm' c <-> link st d' nm' c \/ (d' = d /\ nm' = nm /\ c = k).
Proof.
  intros Hwf Hx Hd Hn Hfree Hgood Hk.
  destruct (wf_slot _ Hwf d x Hx) as [->|(_ & Hino & Hok & _)]; [done |].
  assert (He : entries (set_times (atime x) t t (add_child nm k x)) = entries x ++ [(nm, k)]).
  { rewrite <- (entries_add nm k x) by done. done. }
  split.
  - apply wf_base_put_live with x; try done; [by apply inode_ok_add |].
    rewrite He. intros nm' c [Hin|Hin]%elem_of_app.
    + apply (wf_target _ Hwf d nm'). by exists x.
    + apply list_elem_of_singleton in Hin. by simplify_eq.
  - intros d' nm' c. rewrite link_put by (by eapply lookup_lt_Some).
    case_decide as Hdd; [| tauto]. subst. rewrite He, elem_of_app, list_elem_of_singleton.
    unfold link. rewrite Hx. split.
    + intros [?|[= -> ->]]; [left; eauto | by right].
    + intros [(? & [= ->] & ?)|(_ & -> & ->)]; [by left | by right].
Qed.

Lemma wf_base_rm st d x i nm k t :
  wf_base st -> inodes st !! d = Some x -> entries x !! i = Some (nm, k) ->
  let st' := put d (set_times (atime x) t t (remove_child i x)) (n_inodes st) st in
  wf_base st' /\
  forall d' nm' c, link st' d' nm' c <-> link st d' nm' c /\ ~ (d' = d /\ nm' = nm).
Proof.
  intros Hwf Hx Hi. pose proof Hi as (Hlt & _ & _)%entries_lookup.
  destruct (wf_slot _ Hwf d x Hx) as [->|(_ & Hino & Hok & _)]; [done |].
  assert (He : entries (set_times (atime x) t t (remove_child i x)) = delete i (entries x)).
  { rewrite <- entries_remove by done. done. }
  assert (Hin : forall y, y ∈ delete i (entries x) <-> y ∈ entries x /\ y.1 <> nm).
  { intros y. apply (elem_of_delete_fst _ _ _ k); [| done].
    rewrite entries_fst by done. apply (ok_nodup _ Hok). }
  split.
  - apply wf_base_put_live with x; try done; [by apply inode_ok_remove |].
    rewrite He. intros nm' c [Hc _]%Hin. apply (wf_target _ Hwf d nm'). by exists x.
  - intros d' nm' c. rewrite link_put by (by eapply lookup_lt_Some).
    case_decide as Hdd; [| tauto]. subst. rewrite He, Hin. unfold link. rewrite Hx. simpl.
    split; [intros [? ?]; split; [eauto | tauto] |].
    intros [(? & [= ->] & ?) ?]. tauto.
Qed.

(** ** Allocation *)

(** The inode [alloc_inode] hands out, before its caller fills it in. *)
Definition fresh_inode (i : nat) : fused_inode :=
  MkInode (Z.of_nat i + 1) 0 0 0 0 0 0 0 0 (child_names zero_inode) (child_inodes zero_inode)
    (generate_backing_path the_backing_dir (Z.of_nat i + 1)).

Lemma alloc_inode_Some st i st1 :
  wf_base st -> alloc_inode st = Some (i, st1) ->
  i = n_inodes st /\ (0 < i < MAX_INODES)%nat /\ st1 = put i (fresh_inode i) (S i) st /\
  inodes st !! i = Some zero_inode.
Proof.
  intros Hwf. unfold alloc_inode. case_decide as Hn; [done |].
  intros [= <- <-]. pose proof (wf_n _ Hwf). split_and!; try done; try lia.
  - unfold put, fresh_inode. by rewrite (wf_bdir _ Hwf).
  - destruct (lookup_lt_is_Some_2 (inodes st) (n_inodes st)) as [x Hx].
    { rewrite (wf_len _ Hwf). lia. }
    destruct (wf_slot _ Hwf _ _ Hx) as [->|[? _]]; [done | lia].
Qed.

(** A fresh slot is not referred to. *)
Lemma fresh_unlinked st d nm :
  wf_base st -> inodes st !! n_inodes st = Some zero_inode ->
  ~ link st d nm (Z.of_nat (n_inodes st) + 1).
Proof.
  intros Hwf Hz Hlink. destruct (wf_target _ Hwf _ _ _ Hlink) as (j & Hj & (y & Hy & Hyi)).
  replace j with (n_inodes st) in * by lia. rewrite Hz in Hy. simplify_eq. simpl in Hyi. lia.
Qed.

(** Allocating and filling in an inode without entries. *)
Lemma wf_base_alloc st x :
  wf_base st -> (n_inodes st < MAX_INODES)%nat -> same_shape (fresh_inode (n_inodes st)) (set_mode 0 x) ->
  let st' := put (n_inodes st) x (S (n_inodes st)) st in
  wf_base st' /\ forall d nm c, link st' d nm c <-> link st d nm c.
Proof.
  intros Hwf Hn (Hi & _ & Hc & Hnm & Hci & Hb). simpl in *.
  pose proof (wf_n _ Hwf). pose proof (wf_len _ Hwf).
  assert (He : entries x = []) by (unfold entries; by rewrite <- Hc).
  split.
  - apply wf_base_put; try done; try lia.
    + right. split_and!; [lia | done | |].
      * constructor; rewrite <- ?Hc, <- ?Hnm, <- ?Hci;
          first [done | by constructor | unfold MAX_CHILDREN; lia].
      * unfold backing_ok, FUSE_ROOT_ID. rewrite decide_False by lia. by rewrite <- Hb, <- Hi.
    + intros j y _ Hy Hz. destruct (wf_slot _ Hwf j y Hy) as [|[? _]]; [done | lia].
    + intros nm c. rewrite He. by intros ?%not_elem_of_nil.
    + intros ->. simpl in Hi. lia.
  - intros d nm c. rewrite link_put by lia. case_decide as Hd; [| done]. subst. rewrite He.
    split; [by intros ?%not_elem_of_nil |]. intros Hlink.
    apply link_dir in Hlink as ((y & Hy & Hyi) & _); [| done].
    destruct (wf_slot _ Hwf _ _ Hy) as [->|[? _]]; [simpl in Hyi |]; lia.
Qed.
