(* ===== verification/FusedReach.v ===== *)
(** * Every operation of [fused_ops.c] keeps the inode table well-formed

    For each operation that changes the table: its effect on directory entries
    ([link]) and that [wf] survives; then, by induction on executions, that every
    reachable state is well-formed. *)

From stdpp Require Import base gmap strings list.
From Stdlib Require Import Ascii.
From S2P Require Import Prelude CString NameTree FusedFs FusedInv.

#[local] Open Scope Z_scope.

(** The buffer the path is copied to contains a ['/']; true of absolute paths. *)
Definition has_slash (path : string) : Prop := str_in slash (strncpy (MAX_PATH - 1) path).

(** ** Paths *)

Lemma walk_tokens_walk st cur ts : walk_tokens st cur ts = walk (walk_step st) cur ts.
Proof.
  revert cur. induction ts as [|t ts IH]; intros cur; simpl; [done |].
  by destruct (walk_step st cur t).
Qed.

Lemma path_to_inode_walk st p :
  wf_base st -> path_to_inode st p = walk (walk_step st) 0 (path_tokens p).
Proof.
  intros Hwf. unfold path_to_inode. rewrite !lookup_root by done. case_decide as Hp.
  - by subst.
  - apply walk_tokens_walk.
Qed.

Lemma strncpy_length n s : (String.length (strncpy n s) <= n)%nat.
Proof. unfold strncpy. rewrite str_length_take. lia. Qed.

Lemma strncpy_id n s : (String.length s <= n)%nat -> strncpy n s = s.
Proof. apply str_take_ge. Qed.

(** [split_path]: the name is the last component, the parent the others. *)
Lemma split_path_spec path pp nm :
  split_path path = (pp, nm) ->
  ~ str_in slash nm /\ (String.length nm <= MAX_PATH - 1)%nat /\
  (has_slash path ->
     path_tokens path = path_tokens pp ++ (if decide (nm = EmptyString) then [] else [nm])) /\
  (~ has_slash path -> pp = "/"%string /\ nm = strncpy (MAX_PATH - 1) path).
Proof.
  unfold split_path, has_slash. case_decide as Hp.
  { intros [= <- <-]. subst. split_and!; [simpl; tauto | simpl; lia | done |].
    intros Hn. destruct Hn. by left. }
  assert (Hlen := strncpy_length (MAX_PATH - 1) path).
  set (temp := strncpy (MAX_PATH - 1) path) in *.
  destruct (strrchr slash temp) as [k|] eqn:Hk.
  2:{ apply strrchr_None in Hk. intros [= <- <-]. split_and!; try done. }
  destruct (strrchr_Some _ _ _ Hk) as (Heq & Hno & Hlk).
  assert (Hnm : (String.length (str_drop (S k) temp) <= MAX_PATH - 1)%nat).
  { rewrite str_length_drop. lia. }
  assert (Hin : str_in slash temp).
  { destruct (decide (str_in slash temp)) as [|Hn]; [done |].
    apply strrchr_None in Hn. congruence. }
  destruct k as [|k]; intros [<- <-]%pair_equal_spec; (split_and!; [done | done | | tauto]); intros _.
  - unfold path_tokens at 1. fold temp. by rewrite strtok_single.
  - unfold path_tokens. fold temp. rewrite (strncpy_id _ (str_take _ _)) by (rewrite str_length_take; lia).
    rewrite Heq at 1. rewrite str_drop_app_1, strtok_app,
      (strtok_single _ (str_drop (S (S k)) temp) Hno); [done |].
    intros Hnil. rewrite Hnil in Hlk. done.
Qed.

(** A path whose parent resolves but which does not itself has a proper last name. *)
Lemma split_path_good st path pp nm parent :
  wf_base st -> split_path path = (pp, nm) ->
  path_to_inode st path = None -> path_to_inode st pp = Some parent -> good_name nm.
Proof.
  intros Hwf Hs Hnone Hpp. rewrite !path_to_inode_walk in * by done.
  destruct (split_path_spec _ _ _ Hs) as (Hno & Hlen & Hyes & Hrel).
  split_and!; try done. intros ->.
  destruct (decide (has_slash path)) as [Hh|Hh].
  - rewrite (Hyes Hh), decide_True, app_nil_r in Hnone by done. congruence.
  - destruct (Hrel Hh) as [_ He]. unfold path_tokens in Hnone. by rewrite <- He in Hnone.
Qed.

(** Resolution yields live inodes. *)
Lemma walk_live st ts i :
  wf_base st -> walk (walk_step st) 0 ts = Some i -> live st i.
Proof.
  intros Hwf. destruct ts as [|t ts _] using rev_ind.
  - intros [= <-]. by apply wf_root.
  - rewrite walk_snoc. intros (m & _ & Hs)%bind_Some.
    apply walk_step_link in Hs; [| done].
    destruct (wf_target _ Hwf _ _ _ Hs) as (j & Hj & Hl). by replace i with j by lia.
Qed.

Lemma path_live st p i : wf_base st -> path_to_inode st p = Some i -> live st i.
Proof. intros Hwf. rewrite path_to_inode_walk by done. by apply walk_live. Qed.

(** Resolution makes the table a tree below the root. *)
Lemma wf_tree st : wf st -> tree_like (walk_step st) 0.
Proof.
  intros Hwf. constructor.
  - intros i t i' t' j Hi Hi'. apply walk_step_link in Hi, Hi'; [| apply Hwf..].
    by eapply (wf_once _ Hwf).
  - intros i t Hi. apply walk_step_link in Hi; [| apply Hwf]. by apply (wf_noroot _ Hwf) in Hi.
Qed.

(** ** Links decide [wf] *)

Lemma wf_same_links st st' :
  wf st -> wf_base st' -> (forall d nm c, link st' d nm c <-> link st d nm c) -> wf st'.
Proof.
  intros Hwf Hb Hl. constructor; [done | |].
  - intros d nm d' nm' c. rewrite !Hl. apply (wf_once _ Hwf).
  - intros d nm. rewrite Hl. apply (wf_noroot _ Hwf).
Qed.

Lemma wf_fewer_links st st' :
  wf st -> wf_base st' -> (forall d nm c, link st' d nm c -> link st d nm c) -> wf st'.
Proof.
  intros Hwf Hb Hl. constructor; [done | |].
  - intros d nm d' nm' c ?%Hl ?%Hl. by eapply (wf_once _ Hwf).
  - intros d nm ?%Hl. by eapply (wf_noroot _ Hwf).
Qed.

Lemma wf_upd_shape st i f :
  wf st -> live st i -> (forall x, same_shape x (f x)) ->
  wf (upd i f st) /\ forall d nm c, link (upd i f st) d nm c <-> link st d nm c.
Proof.
  intros Hwf Hl Hs. destruct (wf_base_shape st i f (wf_wfb _ Hwf) Hl Hs) as [Hb Hlk].
  split; [by eapply wf_same_links | done].
Qed.

(** ** Creating an entry: the common part of create and mkdir *)

Lemma put_put st i x n y m :
  put i y m (put i x n st) = put i y m st.
Proof. unfold put. simpl. by rewrite list_insert_insert_eq. Qed.

Lemma put_id st i x :
  inodes st !! i = Some x -> put i x (n_inodes st) st = st.
Proof. intros Hx. unfold put. rewrite list_insert_id by done. by destruct st. Qed.

(** [free_inode] right after [alloc_inode] is a full rollback of the table. *)
Lemma free_fresh e st i x d :
  inodes st !! i = Some zero_inode -> i = n_inodes st ->
  g_state (free_inode e i (MkWorld (put i x (S i) st) d)) = st.
Proof.
  intros Hz Hi. unfold free_inode. simpl.
  rewrite decide_True by lia. replace (i - 0)%nat with i by lia.
  rewrite list_insert_insert_eq, list_insert_id by done. subst i. by destruct st.
Qed.

Lemma new_entry_spec e st i st1 f t parent nm rc st3 :
  wf st -> alloc_inode st = Some (i, st1) ->
  same_shape (set_mode 0 (fresh_inode i)) (set_mode 0 (f (fresh_inode i))) ->
  good_name nm -> live st parent ->
  dir_add_entry t (Some parent) nm i (upd i f st1) = (rc, st3) ->
  (rc < 0 /\ st3 = upd i f st1 /\ forall d, g_state (free_inode e i (MkWorld st3 d)) = st) \/
  (rc = 0 /\ wf st3 /\
   (forall d n c, link st3 d n c <->
      link st d n c \/ (d = parent /\ n = nm /\ c = Z.of_nat i + 1)) /\
   (forall c, ~ link st parent nm c) /\ i = n_inodes st /\ deref st3 i = f (fresh_inode i)).
Proof.
  intros Hwf Hal Hf Hnm Hpar Hadd. pose proof (wf_wfb _ Hwf) as Hb.
  destruct (alloc_inode_Some _ _ _ Hb Hal) as (Hi & Hrng & -> & Hz).
  assert (Hil : (i < length (inodes st))%nat) by (by eapply lookup_lt_Some).
  assert (He : upd i f (put i (fresh_inode i) (S i) st) = put i (f (fresh_inode i)) (S i) st).
  { erewrite upd_put by (rewrite put_lookup by done; by rewrite decide_True).
    by rewrite put_put. }
  rewrite He in *. clear He.
  destruct (wf_base_alloc st (f (fresh_inode i)) Hb) as [Hb2 Hl2]; [lia | |].
  { rewrite <- Hi. destruct Hf as (? & ? & ? & ? & ? & ?). by split_and!. }
  rewrite <- Hi in Hb2, Hl2. set (st2 := put i (f (fresh_inode i)) (S i) st) in *.
  assert (Hder : deref st2 i = f (fresh_inode i)).
  { unfold st2. rewrite deref_put by done. by rewrite decide_True. }
  assert (Hino : ino (deref st2 i) = Z.of_nat i + 1).
  { rewrite Hder. destruct Hf as (Hii & _).
    simpl in Hii. by rewrite <- Hii. }
  assert (Hne : parent <> i).
  { intros ->. destruct Hpar as (y & Hy & Hyi). rewrite Hz in Hy. simplify_eq. simpl in Hyi. lia. }
  apply dir_add_entry_cases in Hadd as [(Hrc & ->)|(-> & d & x & [= <-] & Hx & Hd & Hn & Hfr & ->)].
  { left. split_and!; try done. intros d. by apply free_fresh. }
  right. rewrite Hino.
  assert (Hlive : live st2 i).
  { unfold st2. rewrite live_put, decide_True by done. by rewrite <- Hder. }
  destruct (wf_base_add st2 parent x nm (Z.of_nat i + 1) t Hb2 Hx Hd Hn Hfr Hnm) as [Hb3 Hl3].
  { eauto. }
  assert (Hiff : forall d n c, link (put parent (set_times (atime x) t t
      (add_child nm (Z.of_nat i + 1) x)) (n_inodes st2) st2) d n c <->
      link st d n c \/ (d = parent /\ n = nm /\ c = Z.of_nat i + 1)).
  { intros. by rewrite Hl3, Hl2. }
  assert (Hfresh : forall d n, ~ link st d n (Z.of_nat i + 1)).
  { intros d n. rewrite Hi. apply fresh_unlinked; [done | by rewrite <- Hi]. }
  split_and!; try done.
  - constructor; [done | |].
    + intros d n d' n' c. rewrite !Hiff.
      intros [H1|(-> & -> & ->)] [H2|(H2 & H3 & H4)]; subst; try done.
      * by eapply (wf_once _ Hwf).
      * by destruct (Hfresh d n).
      * by destruct (Hfresh d' n').
    + intros d n. rewrite Hiff. unfold FUSE_ROOT_ID.
      intros [H1|(_ & _ & ?)]; [by apply (wf_noroot _ Hwf) in H1 | lia].
  - intros c (y & Hy & Hin). assert (y = x) as ->.
    { unfold st2 in Hx. rewrite put_lookup, decide_False in Hx by done. congruence. }
    by eapply find_child_None_entry.
  - rewrite deref_put by (unfold st2; simpl; by eapply lookup_lt_Some).
    by rewrite decide_False by done.
Qed.

(** ** Initial state *)

Lemma init_wf e d : wf (g_state (fused_init e d)).
Proof.
  set (st := g_state (fused_init e d)).
  assert (Hlk : forall i x, inodes st !! i = Some x ->
            (i = O /\ ino x = 1 /\ mode x = Z.lor S_IFDIR O_0755 /\ n_children x = O /\
             child_names x = child_names zero_inode /\
             child_inodes x = child_inodes zero_inode /\ backing_path x = EmptyString) \/
            x = zero_inode).
  { intros [|i] x; [by intros [= <-]; left |]. intros Hx. right.
    change (replicate 1023 zero_inode !! i = Some x) in Hx.
    by apply lookup_replicate in Hx as [-> _]. }
  assert (Hno : forall dd nm c, ~ link st dd nm c).
  { intros dd nm c (x & Hx & Hin). apply Hlk in Hx as [(_ & _ & _ & Hn & _)| ->].
    - apply entries_elem in Hin as (k & Hk & _). lia.
    - rewrite entries_zero in Hin. by apply not_elem_of_nil in Hin. }
  constructor.
  - constructor.
    + done.
    + unfold MAX_INODES. simpl. lia.
    + done.
    + intros i x Hx. apply Hlk in Hx as [(-> & Hi & Hm & Hn & Hnm & Hci & Hb)|]; [right | by left].
      split_and!; [simpl; lia | done | | unfold backing_ok; by rewrite decide_True].
      constructor; rewrite ?Hn, ?Hnm, ?Hci;
        first [done | by constructor | unfold MAX_CHILDREN; lia].
    + split; [| done]. by eexists.
    + intros dd nm c Hl. by destruct (Hno dd nm c).
  - intros dd nm d' nm' c Hl. by destruct (Hno dd nm c).
  - intros dd nm Hl. by destruct (Hno dd nm FUSE_ROOT_ID).
Qed.

(** ** Operations that touch one record only *)

(** [st'] has the same directory entries as [st]. *)
Definition same_links (st st' : fused_state) : Prop :=
  forall d nm c, link st' d nm c <-> link st d nm c.

#[export] Instance same_links_equiv : Equivalence same_links.
Proof.
  split.
  - done.
  - intros st st' Hl d nm c. by rewrite (Hl d nm c).
  - intros st1 st2 st3 H12 H23 d nm c. by rewrite (H23 d nm c).
Qed.

#[export] Instance link_proper : Proper (same_links ==> eq ==> eq ==> eq ==> iff) link.
Proof. intros st st' Hl d ? <- nm ? <- c ? <-. by rewrite (Hl d nm c). Qed.

Lemma same_links_refl st : same_links st st.
Proof. reflexivity. Qed.

Lemma shape_set_times a m c x : same_shape x (set_times a m c x).
Proof. by split_and!. Qed.

Lemma shape_set_times_size a m c s x : same_shape x (set_times a m c (set_size s x)).
Proof. by split_and!. Qed.

#[export] Hint Resolve same_links_refl shape_set_times shape_set_times_size : cfs.

Lemma open_wf e p fl w rc fh w' :
  wf (g_state w) -> fused_open e p fl w = (rc, fh, w') ->
  wf (g_state w') /\ same_links (g_state w) (g_state w').
Proof.
  intros Hwf. unfold fused_open. destruct (path_to_inode _ p) as [i|] eqn:Hp.
  2:{ intros [= <- <- <-]. by auto with cfs. }
  apply path_live in Hp; [| apply Hwf].
  repeat case_match; intros [= <- <- <-]; auto with cfs.
  apply wf_upd_shape; auto. intros. apply shape_set_times.
Qed.

Lemma utimens_wf e p tv w rc w' :
  wf (g_state w) -> fused_utimens e p tv w = (rc, w') ->
  wf (g_state w') /\ same_links (g_state w) (g_state w').
Proof.
  intros Hwf. unfold fused_utimens. destruct (path_to_inode _ p) as [i|] eqn:Hp.
  2:{ intros [= <- <-]. by auto with cfs. }
  apply path_live in Hp; [| apply Hwf].
  repeat case_match; intros [= <- <-]; apply wf_upd_shape; auto with cfs.
Qed.

(** A handle whose inode has a backing file is live. *)
Lemma handle_live st fh i :
  wf_base st -> lookup_inode st fh = Some i -> backing_path (deref st i) <> EmptyString ->
  live st i.
Proof.
  intros Hwf (x & Hx & _)%first_idx_Some Hb. rewrite (deref_Some _ _ _ Hx) in Hb.
  eapply wf_slot_live; [done | done |]. by intros ->.
Qed.

Lemma fopen_nonempty e (b : string) {A} (o : option A) r :
  (if fopen_ok e && negb (bool_decide (b = EmptyString)) then o else None) = Some r ->
  b <> EmptyString.
Proof. intros Hr ->. by rewrite bool_decide_eq_true_2, andb_false_r in Hr. Qed.

Lemma read_wf e fh sz off w rc buf w' :
  wf (g_state w) -> fused_read e fh sz off w = (rc, buf, w') ->
  wf (g_state w') /\ same_links (g_state w) (g_state w').
Proof.
  intros Hwf. unfold fused_read. destruct (lookup_inode _ fh) as [i|] eqn:Hl.
  2:{ intros [= <- <- <-]. by auto with cfs. }
  case_decide; [intros [= <- <- <-]; by auto with cfs |].
  destruct (fopen_rb _ _ _) as [content|] eqn:Ho; [| intros [= <- <- <-]; by auto with cfs].
  apply fopen_nonempty in Ho. apply handle_live in Hl; [| apply Hwf | done].
  case_decide; intros [= <- <- <-]; [by auto with cfs |].
  apply wf_upd_shape; auto. intros. apply shape_set_times.
Qed.

Lemma write_wf e fh buf off w rc w' :
  wf (g_state w) -> fused_write e fh buf off w = (rc, w') ->
  wf (g_state w') /\ same_links (g_state w) (g_state w').
Proof.
  intros Hwf. unfold fused_write. destruct (lookup_inode _ fh) as [i|] eqn:Hl.
  2:{ intros [= <- <-]. by auto with cfs. }
  case_decide; [intros [= <- <-]; by auto with cfs |].
  destruct (fopen_ab _ _ _) as [content|] eqn:Ho; [| intros [= <- <-]; by auto with cfs].
  apply fopen_nonempty in Ho. apply handle_live in Hl; [| apply Hwf | done].
  repeat case_match; intros [= <- <-]; try (by auto with cfs);
    apply wf_upd_shape; auto; intros; apply shape_set_times_size.
Qed.

(** ** create and mkdir *)

(** [st'] is [st] with one new leaf: slot [i], entry [nm] of directory [p]. *)
Definition grows (st st' : fused_state) (p : nat) (nm : string) (i : nat) : Prop :=
  wf st' /\ i = n_inodes st /\ (forall c, ~ link st p nm c) /\
  forall d n c, link st' d n c <-> link st d n c \/ (d = p /\ n = nm /\ c = Z.of_nat i + 1).

Lemma create_cases e p md w rc fh w' :
  wf (g_state w) -> fused_create e p md w = (rc, fh, w') ->
  (rc < 0 /\ fh = None /\ g_state w' = g_state w) \/
  (rc = 0 /\ path_to_inode (g_state w) p = None /\ exists pp nm parent i,
     split_path p = (pp, nm) /\ path_to_inode (g_state w) pp = Some parent /\
     S_ISDIR (mode (deref (g_state w) parent)) = true /\
     grows (g_state w) (g_state w') parent nm i /\ fh = Some (Z.of_nat i + 1) /\
     mode (deref (g_state w') i) = Z.lor S_IFREG (Z.land md O_0777) /\
     size (deref (g_state w') i) = 0 /\
     disk w' = <[generate_backing_path the_backing_dir (Z.of_nat i + 1) := []]> (disk w)).
Proof.
  intros Hwf. unfold fused_create.
  destruct (path_to_inode (g_state w) p) as [i|] eqn:Hp; [intros [= <- <- <-]; by left |].
  destruct (split_path p) as [pp nm] eqn:Hs.
  destruct (path_to_inode (g_state w) pp) as [parent|] eqn:Hpp; [| intros [= <- <- <-]; by left].
  destruct (S_ISDIR _) eqn:Hd; cbn [negb]; [| intros [= <- <- <-]; by left].
  destruct (alloc_inode (g_state w)) as [[i st1]|] eqn:Hal; [| intros [= <- <- <-]; by left].
  destruct (new_owner e) as [u g].
  pose proof (split_path_good _ _ _ _ _ (wf_wfb _ Hwf) Hs Hp Hpp) as Hgood.
  pose proof (path_live _ _ _ (wf_wfb _ Hwf) Hpp) as Hlive.
  set (f := fun x => set_times (time e 0) (time e 0) (time e 0) (set_size 0 (set_owner u g
                      (set_mode (Z.lor S_IFREG (Z.land md O_0777)) x)))).
  assert (Hf : same_shape (set_mode 0 (fresh_inode i)) (set_mode 0 (f (fresh_inode i))))
    by (by split_and!).
  destruct (alloc_inode_Some _ _ _ (wf_wfb _ Hwf) Hal) as (Hi & Hrng & Hst1 & Hz).
  assert (Hil : (i < length (inodes (g_state w)))%nat) by (by eapply lookup_lt_Some).
  assert (He : upd i f st1 = put i (f (fresh_inode i)) (S i) (g_state w)).
  { rewrite Hst1. erewrite upd_put by (rewrite put_lookup by done; by rewrite decide_True).
    by rewrite put_put. }
  destruct (fopen_wb _ _ _) as [d|] eqn:Ho.
  2:{ intros [= <- <- <-]. left. split_and!; try done.
      change (g_state (free_inode e i (MkWorld (upd i f st1) (disk w))) = g_state w).
      rewrite He. by apply free_fresh. }
  rewrite He, deref_put, decide_True in Ho by done.
  destruct (dir_add_entry (time e 1) (Some parent) nm i (upd i f st1)) as [rc' st3] eqn:Hadd.
  destruct (new_entry_spec e _ _ _ _ _ _ _ _ _ Hwf Hal Hf Hgood Hlive Hadd)
    as [(Hrc & -> & Hfree)|(-> & Hwf3 & Hlk & Hno & Hin & Hder)].
  - case_decide; [| lia]. intros [= <- <- <-]. left. by split_and!.
  - case_decide; [lia |]. intros [= <- <- <-]. right. split_and!; try done.
    assert (Hdk : d = <[generate_backing_path the_backing_dir (Z.of_nat i + 1) := []]> (disk w)).
    { unfold fopen_wb in Ho. case_match; [| done]. by injection Ho as <-. }
    exists pp, nm, parent, i. simpl. rewrite Hder. by split_and!.
Qed.

Lemma mkdir_cases e p md w rc w' :
  wf (g_state w) -> fused_mkdir e p md w = (rc, w') ->
  (rc < 0 /\ g_state w' = g_state w) \/
  (rc = 0 /\ path_to_inode (g_state w) p = None /\ exists pp nm parent i,
     split_path p = (pp, nm) /\ path_to_inode (g_state w) pp = Some parent /\
     S_ISDIR (mode (deref (g_state w) parent)) = true /\
     grows (g_state w) (g_state w') parent nm i /\
     mode (deref (g_state w') i) = Z.lor S_IFDIR (Z.land md O_0777) /\
     n_children (deref (g_state w') i) = O /\ disk w' = disk w).
Proof.
  intros Hwf. unfold fused_mkdir.
  destruct (path_to_inode (g_state w) p) as [i|] eqn:Hp; [intros [= <- <-]; by left |].
  destruct (split_path p) as [pp nm] eqn:Hs.
  destruct (path_to_inode (g_state w) pp) as [parent|] eqn:Hpp; [| intros [= <- <-]; by left].
  destruct (S_ISDIR _) eqn:Hd; cbn [negb]; [| intros [= <- <-]; by left].
  destruct (alloc_inode (g_state w)) as [[i st1]|] eqn:Hal; [| intros [= <- <-]; by left].
  destruct (new_owner e) as [u g].
  destruct (dir_add_entry _ _ _ _ _) as [rc' st3] eqn:Hadd.
  apply (new_entry_spec e (g_state w)) in Hadd; try done.
  2:{ eapply (split_path_good (g_state w)); [apply Hwf | done..]. }
  2:{ eapply path_live; [apply Hwf | done]. }
  destruct Hadd as [(Hrc & -> & Hfree)|(-> & Hwf3 & Hlk & Hno & Hin & Hder)].
  - case_decide; [| lia]. intros [= <- <-]. left. by split.
  - case_decide; [lia |]. intros [= <- <-]. right. split_and!; try done.
    exists pp, nm, parent, i. simpl. rewrite Hder. by split_and!.
Qed.

(** ** rmdir and unlink *)

(** [st'] is [st] without entry [(p, nm)], which led to inode slot [i], and with slot
    [i] cleared. *)
Definition shrinks (st st' : fused_state) (p : nat) (nm : string) (i : nat) : Prop :=
  wf st' /\ link st p nm (Z.of_nat i + 1) /\
  forall d n c, link st' d n c <-> link st d n c /\ ~ (d = p /\ n = nm) /\ d <> i.

(** Removing the only entry of an inode and clearing it. *)
Lemma remove_and_clear st d x k nm i t n :
  wf st -> inodes st !! d = Some x -> entries x !! k = Some (nm, Z.of_nat i + 1) ->
  n = n_inodes st \/ (i = n_inodes st - 1)%nat /\ (n = n_inodes st - 1)%nat ->
  shrinks st
    (put i zero_inode n (put d (set_times (atime x) t t (remove_child k x)) (n_inodes st) st))
    d nm i.
Proof.
  intros Hwf Hx Hk Hn. pose proof (wf_wfb _ Hwf) as Hb.
  assert (Hlink : link st d nm (Z.of_nat i + 1)).
  { exists x. split; [done |]. apply list_elem_of_lookup. eauto. }
  destruct (wf_target _ Hb _ _ _ Hlink) as (j & Hj & (y & Hy & Hyi)).
  replace j with i in * by lia. clear j Hj.
  assert (Hi0 : i <> O).
  { intros ->. by apply (wf_noroot _ Hwf d nm). }
  pose proof (lookup_lt_Some _ _ _ Hy) as Hil. rewrite (wf_len _ Hb) in Hil.
  destruct (wf_base_rm st d x k nm _ t Hb Hx Hk) as [Hb1 Hl1].
  set (st1 := put d _ _ _) in *.
  destruct (wf_base_clear st1 i n Hb1) as [Hb2 Hl2]; [lia | done | |].
  { intros d' nm' _ [Hl Hne]%Hl1. by apply Hne, (wf_once _ Hwf _ _ _ _ _ Hl Hlink). }
  assert (Hiff : forall d' n' c, link (put i zero_inode n st1) d' n' c <->
            link st d' n' c /\ ~ (d' = d /\ n' = nm) /\ d' <> i).
  { intros. rewrite Hl2, Hl1. tauto. }
  split_and!; try done. eapply wf_fewer_links; [done | done |]. intros d' n' c. rewrite Hiff. tauto.
Qed.

(** An existing path with a ['/'] and a non-empty last name goes through that entry. *)
Lemma path_last_link st path pp nm i :
  wf st -> has_slash path -> split_path path = (pp, nm) -> nm <> EmptyString ->
  path_to_inode st path = Some i ->
  exists p, path_to_inode st pp = Some p /\ link st p nm (Z.of_nat i + 1).
Proof.
  intros Hwf Hh Hs Hnm. rewrite !path_to_inode_walk by apply Hwf.
  destruct (split_path_spec _ _ _ Hs) as (_ & _ & Htok & _).
  rewrite (Htok Hh), decide_False, walk_snoc by done.
  intros (p & Hp & Hst)%bind_Some. exists p. split; [done |].
  by apply walk_step_link; [apply Hwf |].
Qed.

Lemma entry_good st d x k nm c :
  wf_base st -> inodes st !! d = Some x -> entries x !! k = Some (nm, c) -> good_name nm.
Proof.
  intros Hwf Hx (Hk & Hnm & _)%entries_lookup.
  destruct (wf_slot _ Hwf d x Hx) as [->|(_ & _ & Hok & _)]; [simpl in Hk; lia |].
  eapply Forall_lookup_1; [apply (ok_good _ Hok) |]. apply lookup_take_Some. eauto.
Qed.

Lemma find_child_link st d nm k c :
  wf_base st -> find_child (deref st d) nm = Some k -> link st d nm c ->
  exists x, inodes st !! d = Some x /\ deref st d = x /\ entries x !! k = Some (nm, c).
Proof.
  intros Hwf Hf Hlink. pose proof (link_dir _ _ _ _ Hwf Hlink) as (_ & _ & Hok & Hin).
  destruct Hlink as (x & Hx & _). rewrite (deref_Some _ _ _ Hx) in *.
  exists x. split_and!; try done. apply entries_elem in Hin as (k' & Hk' & Hnm' & Hc').
  rewrite (find_child_entry _ _ _ Hok Hk' Hnm') in Hf. simplify_eq. by apply entries_lookup.
Qed.

Lemma upd_zero st i :
  (i < length (inodes st))%nat ->
  upd i (fun _ => zero_inode) st = put i zero_inode (n_inodes st) st.
Proof.
  intros Hi. destruct (lookup_lt_is_Some_2 (inodes st) i Hi) as [x Hx].
  by rewrite (upd_put _ _ _ _ Hx).
Qed.

Lemma rmdir_split path k :
  path <> "/"%string -> strrchr slash (strncpy (MAX_PATH - 1) path) = Some k ->
  split_path path =
    (if decide (k = O) then "/"%string else str_take k (strncpy (MAX_PATH - 1) path),
     str_drop (S k) (strncpy (MAX_PATH - 1) path)) /\ has_slash path.
Proof.
  intros Hp Hk. unfold split_path, has_slash. rewrite decide_False, Hk by done. split.
  - destruct k; [by rewrite decide_True | by rewrite decide_False].
  - destruct (decide (str_in slash (strncpy (MAX_PATH - 1) path))) as [|Hn]; [done |].
    apply strrchr_None in Hn. congruence.
Qed.

Lemma rmdir_cases e path w rc w' :
  wf (g_state w) -> fused_rmdir e path w = Some (rc, w') ->
  (rc < 0 /\ w' = w) \/
  (rc = 0 /\ disk w' = disk w /\ exists pp nm p i,
     split_path path = (pp, nm) /\ has_slash path /\
     path_to_inode (g_state w) path = Some i /\ path_to_inode (g_state w) pp = Some p /\
     S_ISDIR (mode (deref (g_state w) i)) = true /\ n_children (deref (g_state w) i) = O /\
     shrinks (g_state w) (g_state w') p nm i).
Proof.
  intros Hwf. unfold fused_rmdir. case_decide as Hroot; [intros [= <- <-]; by left |].
  destruct (path_to_inode (g_state w) path) as [i|] eqn:Hp; [| intros [= <- <-]; by left].
  destruct (S_ISDIR _) eqn:Hd; cbn [negb]; [| intros [= <- <-]; by left].
  case_decide as Hn; [intros [= <- <-]; by left |].
  destruct (strrchr _ _) as [k|] eqn:Hk; [| done].
  destruct (rmdir_split _ _ Hroot Hk) as [Hs Hh].
  set (pp := if decide (k = O) then _ else _) in *. set (nm := str_drop (S k) _) in *.
  destruct (path_to_inode (g_state w) pp) as [p|] eqn:Hpp; [| intros [= <- <-]; by left].
  destruct (find_child _ nm) as [c|] eqn:Hf; intros [= <- <-]; [| by left].
  right. split_and!; try done. exists pp, nm, p, i.
  pose proof (path_live _ _ _ (wf_wfb _ Hwf) Hp) as (y & Hy & Hyi).
  assert (Hnm : nm <> EmptyString).
  { intros Hnil. apply find_child_Some in Hf as [Hc Hnmc].
    pose proof (path_live _ _ _ (wf_wfb _ Hwf) Hpp) as (x & Hx & Hxi).
    rewrite (deref_Some _ _ _ Hx) in *.
    destruct (wf_live_slot _ _ _ (wf_wfb _ Hwf) Hx Hxi) as (_ & Hok & _).
    pose proof (ok_good _ Hok) as Hg. rewrite Forall_lookup in Hg.
    destruct (Hg c nm) as (? & _); [apply lookup_take_Some; eauto | done]. }
  destruct (path_last_link _ _ _ _ _ Hwf Hh Hs Hnm Hp) as (p' & Hp' & Hlink).
  rewrite Hpp in Hp'. injection Hp' as <-.
  destruct (find_child_link _ _ _ _ _ (wf_wfb _ Hwf) Hf Hlink) as (x & Hx & _ & Hent).
  split_and!; try done; [lia |]. cbn [g_state set_g].
  rewrite (upd_put _ _ _ _ Hx), upd_zero by (simpl; rewrite length_insert; by eapply lookup_lt_Some).
  by apply remove_and_clear; [| | | left].
Qed.

Lemma unlink_cases e path w rc w' :
  wf (g_state w) -> fused_unlink e path w = (rc, w') ->
  (rc < 0 /\ w' = w) \/
  (rc = 0 /\ exists pp nm p i,
     split_path path = (pp, nm) /\ path_to_inode (g_state w) path = Some i /\
     path_to_inode (g_state w) pp = Some p /\
     shrinks (g_state w) (g_state w') p nm i).
Proof.
  intros Hwf. unfold fused_unlink.
  destruct (path_to_inode (g_state w) path) as [i|] eqn:Hp; [| intros [= <- <-]; by left].
  destruct (split_path path) as [pp nm] eqn:Hs.
  destruct (path_to_inode (g_state w) pp) as [p|] eqn:Hpp; [| intros [= <- <-]; by left].
  destruct (S_ISDIR _) eqn:Hd; cbn [negb]; [| intros [= <- <-]; by left].
  destruct (dir_rm_entry _ _ _ _ _) as [rc' st1] eqn:Hrm.
  pose proof (path_live _ _ _ (wf_wfb _ Hwf) Hp) as Hl. apply live_deref in Hl as [_ Hino].
  apply dir_rm_entry_cases in Hrm as [(Hrc & -> & _)|(-> & d & x & k & [= <-] & Hx & Hk & ->)].
  - case_decide; [lia |]. intros [= <- <-]. left. by destruct w.
  - case_decide; [| done]. intros [= <- <-]. right. split; [done |]. exists pp, nm, p, i.
    split_and!; try done. rewrite Hino in Hk. unfold free_inode. cbn [g_state set_g].
    apply remove_and_clear; [done | done | done |].
    cbn [n_inodes put]. case_decide; [by right | by left].
Qed.

(** ** rename *)

(** [st'] is [st] with entry [(sp, sn)], which led to slot [i], moved to [(dp, dn)]. *)
Definition moves (st st' : fused_state) (sp : nat) (sn : string) (dp : nat) (dn : string)
    (i : nat) : Prop :=
  wf st' /\ link st sp sn (Z.of_nat i + 1) /\ (forall c, ~ link st dp dn c) /\
  forall d n c, link st' d n c <->
    (link st d n c /\ ~ (d = sp /\ n = sn)) \/ (d = dp /\ n = dn /\ c = Z.of_nat i + 1).

(** The first half of rename: the new entry is in place, the old one still there. *)
Lemma rename_add st t dp dn i rc st1 :
  wf st -> live st i -> good_name dn ->
  dir_add_entry t (Some dp) dn i st = (rc, st1) ->
  (rc < 0 /\ st1 = st) \/
  (rc = 0 /\ wf_base st1 /\ live st1 i /\ (forall c, ~ link st dp dn c) /\
   forall d n c, link st1 d n c <-> link st d n c \/ (d = dp /\ n = dn /\ c = Z.of_nat i + 1)).
Proof.
  intros Hwf Hl Hg Hadd.
  apply dir_add_entry_cases in Hadd as [(? & ->)|(-> & d & x & [= <-] & Hx & Hd & Hn & Hf & ->)];
    [by left | right].
  pose proof Hl as [_ Hino]%live_deref. rewrite Hino.
  destruct (wf_base_add st dp x dn (Z.of_nat i + 1) t (wf_wfb _ Hwf) Hx Hd Hn Hf Hg) as [Hb1 Hl1];
    [eauto |].
  split_and!; try done.
  - rewrite live_put by (by eapply lookup_lt_Some). case_decide; [| done]. subst.
    by rewrite (deref_Some _ _ _ Hx) in Hino.
  - intros c (y & Hy & Hin). simplify_eq. by eapply find_child_None_entry.
Qed.

(** Taking an entry out again, whatever [wf_once] says of the intermediate state. *)
Lemma rename_rm st t dir nm i rc st1 :
  wf_base st -> live st i -> dir_rm_entry t dir nm i st = (rc, st1) ->
  (rc < 0 /\ st1 = st /\ forall d, dir = Some d -> ~ link st d nm (Z.of_nat i + 1)) \/
  (rc = 0 /\ wf_base st1 /\ live st1 i /\ exists d, dir = Some d /\
     link st d nm (Z.of_nat i + 1) /\
     forall d' n c, link st1 d' n c <-> link st d' n c /\ ~ (d' = d /\ n = nm)).
Proof.
  intros Hb Hl Hrm. pose proof Hl as [_ Hino]%live_deref.
  apply dir_rm_entry_cases in Hrm as [(Hrc & -> & Hno)|(-> & d & x & k & -> & Hx & Hk & ->)].
  - left. split_and!; try done. intros d Hd. rewrite <- Hino. auto.
  - right. rewrite Hino in Hk. destruct (wf_base_rm st d x k nm _ t Hb Hx Hk) as [Hb1 Hl1].
    split_and!; try done.
    + rewrite live_put by (by eapply lookup_lt_Some). case_decide; [| done]. subst.
      by rewrite (deref_Some _ _ _ Hx) in Hino.
    + exists d. split_and!; try done. exists x. split; [done |].
      apply list_elem_of_lookup. eauto.
Qed.

(** Link sets after a complete move, or after adding an entry and taking it out again. *)
Lemma rename_links st st2 sp sn dp dn i :
  wf st -> wf_base st2 -> (forall c, ~ link st dp dn c) ->
  (forall d n c, link st2 d n c <->
     (link st d n c \/ (d = dp /\ n = dn /\ c = Z.of_nat i + 1)) /\ ~ (d = sp /\ n = sn)) ->
  (link st sp sn (Z.of_nat i + 1) \/ (sp = dp /\ sn = dn)) ->
  (wf st2 /\ same_links st st2) \/ moves st st2 sp sn dp dn i.
Proof.
  intros Hwf Hb2 Hfree Hl2 [Hold|[-> ->]].
  - assert (Hne : ~ (dp = sp /\ dn = sn)) by (intros [-> ->]; by eapply Hfree).
    right. assert (Hiff : forall d n c, link st2 d n c <->
      (link st d n c /\ ~ (d = sp /\ n = sn)) \/ (d = dp /\ n = dn /\ c = Z.of_nat i + 1)).
    { intros d n c. rewrite Hl2. split; [tauto |]. intros [?|(-> & -> & ->)]; tauto. }
    split_and!; try done. constructor; [done | |].
    + intros d n d' n' c. rewrite !Hiff.
      intros [[H1 N1]|(-> & -> & ->)] [[H2 N2]|(H2 & H3 & H4)]; subst; try done.
      * by eapply (wf_once _ Hwf).
      * destruct N1. by apply (wf_once _ Hwf _ _ _ _ _ H1 Hold).
      * destruct N2. by apply (wf_once _ Hwf _ _ _ _ _ H2 Hold).
    + intros d n. rewrite Hiff. intros [[H1 _]|(_ & _ & H1)].
      * by apply (wf_noroot _ Hwf) in H1.
      * rewrite <- H1 in Hold. by apply (wf_noroot _ Hwf) in Hold.
  - left. assert (Hs : same_links st st2).
    { intros d n c. rewrite Hl2. split; [tauto |]. intros Hl. split; [by left |].
      intros [-> ->]. by eapply Hfree. }
    split; [| done]. by eapply wf_same_links.
Qed.

Lemma rename_cases e from to w rc w' :
  wf (g_state w) -> fused_rename e from to w = (rc, w') ->
  disk w' = disk w /\
  ((wf (g_state w') /\ same_links (g_state w) (g_state w') /\
      (rc < 0 \/ rc = 0 /\ (from = to \/ ~ has_slash from))) \/
   (rc = 0 /\ path_to_inode (g_state w) to = None /\ exists spath sn dpath dn sp dp i,
      split_path from = (spath, sn) /\ split_path to = (dpath, dn) /\
      path_to_inode (g_state w) from = Some i /\
      path_to_inode (g_state w) spath = Some sp /\ path_to_inode (g_state w) dpath = Some dp /\
      moves (g_state w) (g_state w') sp sn dp dn i)).
Proof.
  intros Hwf. unfold fused_rename. pose proof (wf_wfb _ Hwf) as Hb.
  case_decide as Heq; [intros [= <- <-]; split; [done |]; left; by auto 6 with cfs |].
  destruct (path_to_inode (g_state w) from) as [i|] eqn:Hf.
  2:{ intros [= <- <-]. split; [done |]. left. split_and!; try done. by left. }
  destruct (path_to_inode (g_state w) to) as [j|] eqn:Ht.
  { intros [= <- <-]. split; [done |]. left. split_and!; try done. by left. }
  destruct (split_path from) as [spath sn] eqn:Hsf, (split_path to) as [dpath dn] eqn:Hst.
  pose proof (path_live _ _ _ Hb Hf) as Hl.
  destruct (dir_add_entry _ _ _ _ _) as [rc1 st1] eqn:Hadd.
  destruct (path_to_inode (g_state w) dpath) as [dp|] eqn:Hdp.
  2:{ simpl in Hadd. injection Hadd as <- <-. intros [= <- <-]. split; [done |].
      left. split_and!; try done. by left. }
  apply rename_add in Hadd as [(Hrc & ->)|(-> & Hb1 & Hlv1 & Hfree & Hl1)];
    [..| done | done | by eapply split_path_good].
  { case_decide; [| lia]. intros [= <- <-]. split; [done |]. left.
    split_and!; try done. by left. }
  destruct (decide (0 <> 0)) as [|_]; [done |].
  destruct (dir_rm_entry _ _ sn _ _) as [rc2 st2] eqn:Hrm.
  apply rename_rm in Hrm as [(Hrc & -> & Hno)|(-> & Hb2 & Hlv2 & sp & Hsp & Hold & Hl2)]; try done.
  - case_decide; [| lia]. intros [<- <-]%pair_equal_spec. split; [done |]. left.
    cbn [g_state set_g]. destruct (dir_rm_entry _ _ dn _ _) as [rc3 st3] eqn:Hrb.
    apply rename_rm in Hrb as [(_ & _ & Hbad)|(-> & Hb3 & _ & d & [= <-] & _ & Hl3)]; try done.
    { destruct (Hbad dp eq_refl). apply Hl1. by right. }
    destruct (rename_links (g_state w) st3 dp dn dp dn i) as [[? ?]|Hm]; try done.
    + intros. rewrite Hl3, Hl1. done.
    + by right.
    + split_and!; try done. by left.
    + destruct Hm as (_ & Hm & _). by destruct (Hfree _ Hm).
  - destruct (decide (0 <> 0)) as [|_]; [done |]. intros [= <- <-]. split; [done |].
    cbn [g_state set_g].
    destruct (rename_links (g_state w) st2 sp sn dp dn i) as [[Hw2 Hs2]|Hm]; try done.
    + intros. rewrite Hl2, Hl1. tauto.
    + apply Hl1 in Hold as [?|(? & ? & _)]; [by left | by right].
    + left. destruct (wf_upd_shape st2 i (fun x => set_times (time e 2) (time e 2) (ctime x) x))
        as [Hw3 Hl3]; auto with cfs.
      split_and!; [done | by transitivity st2 |]. right. split; [done |]. right.
      intros Hh. apply Hl1 in Hold as [Hold|(-> & -> & _)].
      * apply Hs2 in Hold. apply Hl2 in Hold as [_ Hn]. tauto.
      * destruct (decide (dn = EmptyString)) as [->|Hnm].
        -- by destruct (split_path_good _ _ _ _ _ Hb Hst Ht Hdp) as (? & _).
        -- destruct (path_last_link _ _ _ _ _ Hwf Hh Hsf Hnm Hf) as (p' & Hp' & Hlk).
           rewrite Hsp in Hp'. injection Hp' as <-. by destruct (Hfree _ Hlk).
    + right. split_and!; try done. exists spath, sn, dpath, dn, sp, dp, i.
      split_and!; try done. destruct Hm as (Hw2 & Ho & _ & Hl3).
      destruct (wf_upd_shape st2 i (fun x => set_times (time e 2) (time e 2) (ctime x) x))
        as [Hw3 Hl4]; auto with cfs.
      split_and!; try done. intros d n c. rewrite (Hl4 d n c). apply Hl3.
Qed.

(** ** Executions *)

Lemma oper_wf e o w rc w' :
  wf (g_state w) -> fused_oper e o w = Some (rc, w') -> wf (g_state w').
Proof.
  intros Hwf. destruct o; simpl.
  - by intros [= <- <-].
  - by intros [= <- <-].
  - destruct (fused_open _ _ _ _) as [[??]?] eqn:E. intros [= <- <-]. by eapply open_wf.
  - destruct (fused_read _ _ _ _ _) as [[??]?] eqn:E. intros [= <- <-]. by eapply read_wf.
  - intros [= E]. by eapply write_wf.
  - destruct (fused_create _ _ _ _) as [[??]?] eqn:E. intros [= <- <-].
    apply create_cases in E as [(_ & _ & ->)|(_ & _ & ? & ? & ? & ? & _ & _ & _ & [? _] & _)]; done.
  - intros [= E].
    apply mkdir_cases in E as [(_ & ->)|(_ & _ & ? & ? & ? & ? & _ & _ & _ & [? _] & _)]; done.
  - intros E. apply rmdir_cases in E as
      [(_ & ->)|(_ & _ & ? & ? & ? & ? & _ & _ & _ & _ & _ & _ & [? _])]; done.
  - intros [= E].
    apply rename_cases in E as (_ & [[? _]|(_ & _ & ?&?&?&?&?&?&?&_&_&_&_&_&[? _])]); done.
  - intros [= E]. by eapply utimens_wf.
  - intros [= E]. apply unlink_cases in E as [(_ & ->)|(_ & ?&?&?&?&_&_&_&[? _])]; done.
Qed.

Lemma reachable_wf w : reachable w -> wf (g_state w).
Proof. induction 1; [apply init_wf | by eapply oper_wf]. Qed.
