(* ===== verification/FusedRun.v ===== *)
(** * Concrete executions of the filesystem

    A fault-free environment, runs of operation sequences through the operation
    table, and the states the theorems are instantiated at. *)

From stdpp Require Import base gmap strings list.
From Stdlib Require Import Ascii.
From S2P Require Import Prelude CString NameTree FusedFs FusedInv FusedReach.

#[local] Open Scope Z_scope.

(** Calls in sequence; a call that crashes ends the run. *)
Fixpoint run (e : env) (os : list fs_op) (w : world) : world :=
  match os with
  | [] => w
  | o :: os' =>
      match fused_oper e o w with
      | Some (_, w') => run e os' w'
      | None => w
      end
  end.

Lemma run_reachable e os w : reachable w -> reachable (run e os w).
Proof.
  revert w. induction os as [|o os IH]; intros w Hw; simpl; [done |].
  destruct (fused_oper e o w) as [[rc w']|] eqn:Ho; [| done].
  apply IH. by eapply reach_step.
Qed.

(** No faults; the clock advances by one second per reading. *)
Definition demo_env : env :=
  MkEnv (fun n => 100 + Z.of_nat n) None 7 8 true None (fun _ => None) true.

(** The first [fwrite] of a call stores two bytes and fails. *)
Definition short_env : env :=
  MkEnv (fun n => 100 + Z.of_nat n) None 7 8 true None
    (fun k => if decide (k = O) then Some 2%nat else None) true.

Definition w_empty : world := fused_init demo_env ∅.

Definition w_dir : world := run demo_env [OpMkdir "/a" 493] w_empty.

Definition w_file : world := run demo_env [OpCreate "/a/f" 420] w_dir.

Definition w_data : world := run demo_env [OpWrite 3 [10; 20; 30] 0] w_file.

Lemma w_empty_reach : reachable w_empty.
Proof. apply reach_init. Qed.

Lemma w_dir_reach : reachable w_dir.
Proof. apply run_reachable, w_empty_reach. Qed.

Lemma w_file_reach : reachable w_file.
Proof. apply run_reachable, w_dir_reach. Qed.

Lemma w_data_reach : reachable w_data.
Proof. apply run_reachable, w_file_reach. Qed.
