(* ===== verification/FusedNames.v ===== *)
(** * What the namespace operations do to every path

    The functional specification of create, mkdir, unlink, rmdir and rename, stated
    on path resolution: which paths change and to what, and that all others keep
    resolving to the same inode.  Also: failed calls change no path, and the
    inode table reachable from the root is a tree. *)

From stdpp Require Import base gmap strings list.
From Stdlib Require Import Ascii.
From S2P Require Import Prelude CString NameTree FusedFs FusedInv FusedReach FusedRun.

#[local] Open Scope Z_scope.

(** ** From entries to graph edges *)

Lemma walk_step_ext st st' :
  wf_base st -> wf_base st' -> same_links st st' ->
  forall i t, walk_step st' i t = walk_step st i t.
Proof.
  intros Hb Hb' Hs i t. apply option_eq. intros j. by rewrite !walk_step_link, (Hs i t).
Qed.

Lemma same_links_paths st st' q :
  wf_base st -> wf_base st' -> same_links st st' -> path_to_inode st' q = path_to_inode st q.
Proof.
  intros Hb Hb' Hs. rewrite !path_to_inode_walk by done. by apply walk_ext, walk_step_ext.
Qed.

Lemma grows_adds st st' p nm i :
  wf st -> grows st st' p nm i -> adds_edge (walk_step st) (walk_step st') p nm i.
Proof.
  intros Hwf (Hwf' & _ & Hno & Hl) d t. apply option_eq. intros j.
  rewrite walk_step_link, Hl by apply Hwf'. case_decide as Hd.
  - destruct Hd as [-> ->]. split; [| intros [= <-]; by right].
    intros [Hlk|(_ & _ & ?)]; [by destruct (Hno _ Hlk) | f_equal; lia].
  - rewrite walk_step_link by apply Hwf. tauto.
Qed.

Lemma shrinks_drops st st' p nm i :
  wf st -> shrinks st st' p nm i -> drops_edge (walk_step st) (walk_step st') p nm i.
Proof.
  intros Hwf (Hwf' & _ & Hl) d t. apply option_eq. intros j.
  rewrite walk_step_link, Hl by apply Hwf'. case_decide as Hd.
  - split; [tauto | done].
  - rewrite walk_step_link by apply Hwf. tauto.
Qed.

Lemma moves_moves st st' sp sn dp dn i :
  wf st -> moves st st' sp sn dp dn i ->
  moves_edge (walk_step st) (walk_step st') sp sn dp dn i.
Proof.
  intros Hwf (Hwf' & _ & Hno & Hl) d t. apply option_eq. intros j.
  rewrite walk_step_link, Hl by apply Hwf'. case_decide as Hd.
  - destruct Hd as [-> ->]. split; [| intros [= <-]; by right].
    intros [[Hlk _]|(_ & _ & ?)]; [by destruct (Hno _ Hlk) | f_equal; lia].
  - case_decide as Hs; [split; [tauto | done] |].
    rewrite walk_step_link by apply Hwf. tauto.
Qed.

Lemma no_link_no_step st p nm :
  wf_base st -> (forall c, ~ link st p nm c) -> walk_step st p nm = None.
Proof.
  intros Hb Hno. destruct (walk_step st p nm) as [j|] eqn:Hs; [| done].
  apply walk_step_link in Hs; [| done]. by destruct (Hno _ Hs).
Qed.

(** A slot that is not live has no entries. *)
Lemma fresh_leaf st t :
  wf_base st -> walk_step st (n_inodes st) t = None.
Proof.
  intros Hb. apply no_link_no_step; [done |]. intros c Hlk.
  apply link_dir in Hlk as ((x & Hx & Hxi) & _); [| done].
  destruct (wf_live_slot _ _ _ Hb Hx Hxi) as (? & _). lia.
Qed.

(** Effect of [grows] on paths. *)
Lemma grows_paths st st' path pp nm p i q :
  wf st -> has_slash path -> split_path path = (pp, nm) -> good_name nm ->
  path_to_inode st pp = Some p -> grows st st' p nm i ->
  path_to_inode st' q =
    if decide (path_tokens q = path_tokens path) then Some i else path_to_inode st q.
Proof.
  intros Hwf Hh Hs (Hnm & _) Hpp Hg. pose proof (grows_adds _ _ _ _ _ Hwf Hg) as Hadd.
  destruct Hg as (Hwf' & -> & Hno & _).
  destruct (split_path_spec _ _ _ Hs) as (_ & _ & Htok & _).
  rewrite (Htok Hh), (decide_False (P := nm = EmptyString)) by done.
  pose proof (path_live _ _ _ (wf_wfb _ Hwf) Hpp) as (x & Hx & Hxi).
  destruct (wf_live_slot _ _ _ (wf_wfb _ Hwf) Hx Hxi) as (Hlt & _).
  rewrite !path_to_inode_walk in * by first [apply Hwf | apply Hwf'].
  rewrite (walk_add _ _ (wf_tree _ Hwf) _ _ _ _ _ Hadd Hpp); [done | | | lia].
  - apply no_link_no_step; [apply Hwf | done].
  - intros t. by apply fresh_leaf, Hwf.
Qed.

(** Effect of [shrinks] on paths. *)
Lemma shrinks_paths st st' path pp nm p i q :
  wf st -> has_slash path -> split_path path = (pp, nm) -> nm <> EmptyString ->
  path_to_inode st pp = Some p -> shrinks st st' p nm i ->
  path_to_inode st' q =
    if decide (path_tokens path `prefix_of` path_tokens q) then None else path_to_inode st q.
Proof.
  intros Hwf Hh Hs Hnm Hpp Hsh. pose proof (shrinks_drops _ _ _ _ _ Hwf Hsh) as Hdrop.
  destruct Hsh as (Hwf' & Hlk & _).
  destruct (split_path_spec _ _ _ Hs) as (_ & _ & Htok & _).
  rewrite (Htok Hh), (decide_False (P := nm = EmptyString)) by done.
  rewrite !path_to_inode_walk in * by first [apply Hwf | apply Hwf'].
  apply (walk_drop _ _ (wf_tree _ Hwf) _ _ _ _ _ Hdrop Hpp).
  by apply walk_step_link; [apply Hwf |].
Qed.

(** An entry that exists has a non-empty name. *)
Lemma link_good st d nm c : wf_base st -> link st d nm c -> good_name nm.
Proof.
  intros Hb (x & Hx & Hin). apply list_elem_of_lookup in Hin as [k Hk].
  by eapply entry_good.
Qed.

Lemma abs_has_slash s : has_slash (String slash s).
Proof. by left. Qed.

Lemma isdir_mkdir m : S_ISDIR (Z.lor S_IFDIR (Z.land m O_0777)) = true.
Proof.
  unfold S_ISDIR. rewrite Z.land_lor_distr_l, <- Z.land_assoc.
  change (Z.land O_0777 S_IFMT) with 0. by rewrite Z.land_0_r.
Qed.

Lemma isdir_create m : S_ISDIR (Z.lor S_IFREG (Z.land m O_0777)) = false.
Proof.
  unfold S_ISDIR. rewrite Z.land_lor_distr_l, <- Z.land_assoc.
  change (Z.land O_0777 S_IFMT) with 0. by rewrite Z.land_0_r.
Qed.

(** ** Theorems *)

(** C1: in every state a mounted filesystem can reach by calls that do not overlap, and
    whatever the clock and [stdio] did, the inode table is well-formed: slot [i]
    holds inode [i + 1] or is clear, entry names are distinct, non-empty, without
    ['/'] and fit their field, every entry leads to a live inode, no inode has two
    entries and the root has none. *)
Theorem fused_reachable_invariant w : reachable w -> wf (g_state w).
Proof. apply reachable_wf. Qed.

(** C14: two paths that resolve to the same inode have the same components: there
    are no hard links and no cycles below the root. *)
Theorem fused_paths_unique w p q i :
  reachable w ->
  path_to_inode (g_state w) p = Some i -> path_to_inode (g_state w) q = Some i ->
  path_tokens p = path_tokens q.
Proof.
  intros Hwf%reachable_wf. rewrite !path_to_inode_walk by apply Hwf.
  apply walk_inj, wf_tree, Hwf.
Qed.

Lemma create_spec e path md w fh w' :
  reachable w -> has_slash path -> fused_create e path md w = (0, fh, w') ->
  path_to_inode (g_state w) path = None /\
  exists i, fh = Some (Z.of_nat i + 1) /\
    mode (deref (g_state w') i) = Z.lor S_IFREG (Z.land md O_0777) /\
    size (deref (g_state w') i) = 0 /\
    disk w' !! backing_path (deref (g_state w') i) = Some [] /\
    forall q, path_to_inode (g_state w') q =
      if decide (path_tokens q = path_tokens path) then Some i else path_to_inode (g_state w) q.
Proof.
  intros Hwf%reachable_wf Hh Hc.
  apply create_cases in Hc as [(? & _)|(_ & Hp & pp & nm & p & i & Hs & Hpp & _ & Hg & -> & Hm & Hsz & Hdk)];
    [lia | | done].
  split; [done |]. exists i. pose proof (wf_wfb _ Hwf) as Hb.
  pose proof (split_path_good _ _ _ _ _ Hb Hs Hp Hpp) as Hgood.
  assert (Hpath : forall q, path_to_inode (g_state w') q =
      if decide (path_tokens q = path_tokens path) then Some i else path_to_inode (g_state w) q).
  { intros q. by eapply grows_paths. }
  split_and!; try done.
  destruct Hg as (Hwf' & _). pose proof (Hpath path) as Hi. rewrite decide_True in Hi by done.
  apply path_live in Hi as (x & Hx & Hxi); [| apply Hwf'].
  destruct (wf_live_slot _ _ _ (wf_wfb _ Hwf') Hx Hxi) as (_ & _ & Hbk).
  rewrite (deref_Some _ _ _ Hx) in *. unfold backing_ok in Hbk.
  case_decide as Hr; [| by rewrite Hbk, Hxi, Hdk, lookup_insert_eq].
  destruct (wf_root _ Hwf') as [_ Hdir]. rewrite Hxi in Hr. unfold FUSE_ROOT_ID in Hr.
  replace i with O in * by lia. by rewrite (deref_Some _ _ _ Hx), Hm, isdir_create in Hdir.
Qed.

(** C15: a successful create makes exactly its own path resolve, to the inode of the
    returned handle, an empty regular file with the requested permission bits, and
    leaves every other path as it was. *)
Theorem fused_create_spec e path md w fh w' :
  reachable w -> has_slash path -> fused_create e path md w = (0, fh, w') ->
  path_to_inode (g_state w) path = None /\
  exists i, fh = Some (Z.of_nat i + 1) /\
    mode (deref (g_state w') i) = Z.lor S_IFREG (Z.land md O_0777) /\
    size (deref (g_state w') i) = 0 /\
    disk w' !! backing_path (deref (g_state w') i) = Some [] /\
    forall q, path_to_inode (g_state w') q =
      if decide (path_tokens q = path_tokens path) then Some i else path_to_inode (g_state w) q.
Proof. apply create_spec. Qed.

(** A successful mkdir makes exactly its own path resolve, to an empty directory
    with the requested permission bits, and leaves every other path as it was. *)
Theorem fused_mkdir_spec e path md w w' :
  reachable w -> has_slash path -> fused_mkdir e path md w = (0, w') ->
  path_to_inode (g_state w) path = None /\ disk w' = disk w /\
  exists i, mode (deref (g_state w') i) = Z.lor S_IFDIR (Z.land md O_0777) /\
    (fused_readdir path w').2 = ["."; ".."]%string /\
    forall q, path_to_inode (g_state w') q =
      if decide (path_tokens q = path_tokens path) then Some i else path_to_inode (g_state w) q.
Proof.
  intros Hwf%reachable_wf Hh Hc.
  apply mkdir_cases in Hc as [(? & _)|(_ & Hp & pp & nm & p & i & Hs & Hpp & _ & Hg & Hm & Hn & Hdk)];
    [lia | | done].
  split_and!; try done. exists i. pose proof (wf_wfb _ Hwf) as Hb.
  pose proof (split_path_good _ _ _ _ _ Hb Hs Hp Hpp) as Hgood.
  assert (Hpath : forall q, path_to_inode (g_state w') q =
      if decide (path_tokens q = path_tokens path) then Some i else path_to_inode (g_state w) q).
  { intros q. by eapply grows_paths. }
  split_and!; try done. unfold fused_readdir. rewrite Hpath, decide_True by done.
  by rewrite Hm, isdir_mkdir, Hn.
Qed.

Lemma unlink_spec e path w w' :
  reachable w -> has_slash path -> fused_unlink e path w = (0, w') ->
  (exists i, path_to_inode (g_state w) path = Some i /\ deref (g_state w') i = zero_inode) /\
  forall q, path_to_inode (g_state w') q =
    if decide (path_tokens path `prefix_of` path_tokens q) then None
    else path_to_inode (g_state w) q.
Proof.
  intros Hwf%reachable_wf Hh Hc. pose proof Hc as Hcl.
  apply unlink_cases in Hc as [(? & _)|(_ & pp & nm & p & i & Hs & Hp & Hpp & Hsh)];
    [lia | | done].
  pose proof Hsh as (Hwf' & Hlk & _). split.
  - exists i. split; [done |]. revert Hcl. unfold fused_unlink. rewrite Hp, Hs, Hpp.
    destruct (negb _); [done |]. destruct (dir_rm_entry _ _ _ _ _) as [rc st1] eqn:Hrm.
    case_decide; intros [= ? <-]; [| done]. cbn [g_state free_inode].
    apply deref_Some. simpl. apply list_lookup_insert_eq.
    apply path_live in Hp as (x & Hx & _); [| apply Hwf]. apply lookup_lt_Some in Hx.
    apply dir_rm_entry_cases in Hrm as [(_ & -> & _)|(_ & ? & ? & ? & _ & _ & _ & ->)]; [done |].
    simpl. by rewrite length_insert.
  - intros q. eapply shrinks_paths; try done. apply (link_good _ _ _ _ (wf_wfb _ Hwf) Hlk).
Qed.

(** C16: a successful unlink removes exactly its own path and the paths below it, and
    every other path keeps resolving to the same inode. *)
Theorem fused_unlink_spec e path w w' :
  reachable w -> has_slash path -> fused_unlink e path w = (0, w') ->
  (exists i, path_to_inode (g_state w) path = Some i /\ deref (g_state w') i = zero_inode) /\
  forall q, path_to_inode (g_state w') q =
    if decide (path_tokens path `prefix_of` path_tokens q) then None
    else path_to_inode (g_state w) q.
Proof. apply unlink_spec. Qed.

(** C17: a successful rmdir was asked to remove an existing empty directory, removes
    exactly its path, and every other path keeps resolving to the same inode. *)
Theorem fused_rmdir_spec e path w w' :
  reachable w -> fused_rmdir e path w = Some (0, w') ->
  (exists i, path_to_inode (g_state w) path = Some i /\
     S_ISDIR (mode (deref (g_state w) i)) = true /\ n_children (deref (g_state w) i) = O) /\
  forall q, path_to_inode (g_state w') q =
    if decide (path_tokens q = path_tokens path) then None else path_to_inode (g_state w) q.
Proof.
  intros Hwf%reachable_wf Hc.
  apply rmdir_cases in Hc as
    [(? & _)|(_ & _ & pp & nm & p & i & Hs & Hh & Hp & Hpp & Hd & Hn & Hsh)]; [lia | | done].
  split; [by exists i |]. intros q. pose proof Hsh as (Hwf' & Hlk & _).
  rewrite (shrinks_paths _ _ _ _ _ _ _ q Hwf Hh Hs
             (proj1 (link_good _ _ _ _ (wf_wfb _ Hwf) Hlk)) Hpp Hsh).
  destruct (decide (path_tokens q = path_tokens path)) as [->|Hne].
  { by rewrite decide_True. }
  case_decide as Hpre; [| done]. destruct Hpre as [us Hus].
  rewrite path_to_inode_walk in Hp |- * by apply Hwf. rewrite Hus, walk_app, Hp.
  destruct us as [|u us]; [by rewrite app_nil_r in Hus |]. simpl.
  rewrite no_link_no_step; [done | apply Hwf |]. intros c Hl.
  apply link_dir in Hl as (_ & _ & _ & Hin); [| apply Hwf].
  apply entries_elem in Hin as (k & Hk & _). lia.
Qed.

(** Parameters of a rename that really moved an entry. *)
Lemma rename_moved e from to w w' :
  wf (g_state w) -> has_slash from -> has_slash to -> from <> to ->
  fused_rename e from to w = (0, w') ->
  exists sp sn dp dn i ts td,
    path_tokens from = ts ++ [sn] /\ path_tokens to = td ++ [dn] /\
    walk (walk_step (g_state w)) 0 ts = Some sp /\ walk (walk_step (g_state w)) 0 td = Some dp /\
    walk_step (g_state w) sp sn = Some i /\ walk_step (g_state w) dp dn = None /\
    moves_edge (walk_step (g_state w)) (walk_step (g_state w')) sp sn dp dn i /\
    wf (g_state w').
Proof.
  intros Hwf Hf Ht Hne Hc. pose proof (wf_wfb _ Hwf) as Hb.
  apply rename_cases in Hc as (_ & [(_ & _ & [?|[_ [?|?]]])|(_ & Hto & spath & sn & dpath & dn &
    sp & dp & i & Hsf & Hst & Hpf & Hsp & Hdp & Hm)]); try done.
  pose proof (moves_moves _ _ _ _ _ _ _ Hwf Hm) as Hedge.
  pose proof Hm as (Hwf' & Hlk & Hno & _).
  destruct (split_path_spec _ _ _ Hsf) as (_ & _ & Htf & _).
  destruct (split_path_spec _ _ _ Hst) as (_ & _ & Htt & _).
  destruct (link_good _ _ _ _ Hb Hlk) as (Hsn & _).
  destruct (split_path_good _ _ _ _ _ Hb Hst Hto Hdp) as (Hdn & _).
  rewrite !path_to_inode_walk in * by done.
  exists sp, sn, dp, dn, i, (path_tokens spath), (path_tokens dpath).
  rewrite (Htf Hf), (Htt Ht), !decide_False by done. split_and!; try done.
  - by apply walk_step_link.
  - by apply no_link_no_step.
Qed.

(** C18: renaming to a place outside the renamed subtree moves the whole subtree: what
    was below [from] is now below [to], nothing is left below [from], and every other
    path keeps resolving to the same inode. *)
Theorem fused_rename_spec e from to w w' :
  reachable w -> has_slash from -> has_slash to -> from <> to ->
  fused_rename e from to w = (0, w') ->
  ~ (path_tokens from `prefix_of` path_tokens to) ->
  forall q, path_to_inode (g_state w') q =
    match decide (path_tokens to `prefix_of` path_tokens q) with
    | left _ => walk_tokens (g_state w) 0
                  (path_tokens from ++ drop (length (path_tokens to)) (path_tokens q))
    | right _ => if decide (path_tokens from `prefix_of` path_tokens q) then None
                 else path_to_inode (g_state w) q
    end.
Proof.
  intros Hwf%reachable_wf Hf Ht Hne Hc Hout q.
  destruct (rename_moved _ _ _ _ _ Hwf Hf Ht Hne Hc) as
    (sp & sn & dp & dn & i & ts & td & Hts & Htd & Hs & Hd & Hsi & Hfree & Hg & Hwf').
  rewrite Hts, Htd in Hout |- *. pose proof (wf_tree _ Hwf) as Htree.
  assert (Hout' : ~ (ts ++ [sn] `prefix_of` td)).
  { intros Hp. apply Hout. by apply prefix_app_r. }
  rewrite walk_tokens_walk, !path_to_inode_walk by first [apply Hwf | apply Hwf'].
  case_decide as Hpt.
  - destruct Hpt as [us Hus]. rewrite Hus, drop_app_length, <- !app_assoc.
    by eapply walk_move_dst.
  - case_decide as Hpf.
    + destruct Hpf as [us ->]. rewrite <- app_assoc. by eapply walk_move_src.
    + by eapply walk_move_other.
Qed.

Lemma errors_change_no_path e o w rc w' :
  reachable w -> fused_oper e o w = Some (rc, w') -> rc < 0 ->
  forall q, path_to_inode (g_state w') q = path_to_inode (g_state w) q.
Proof.
  intros Hr Hc Hrc q. pose proof (reachable_wf _ Hr) as Hwf.
  pose proof (oper_wf _ _ _ _ _ Hwf Hc) as Hwf'.
  enough (same_links (g_state w) (g_state w')) as Hs
    by (apply same_links_paths; [apply Hwf | apply Hwf' | done]).
  clear q Hr. destruct o; simpl in Hc.
  - by simplify_eq.
  - by simplify_eq.
  - destruct (fused_open _ _ _ _) as [[??]?] eqn:E. simplify_eq. by eapply open_wf.
  - destruct (fused_read _ _ _ _ _) as [[??]?] eqn:E. simplify_eq. by eapply read_wf.
  - injection Hc as E. by eapply write_wf.
  - destruct (fused_create _ _ _ _) as [[??]?] eqn:E. simplify_eq.
    apply create_cases in E as [(_ & _ & ->)|(? & _)]; [done | lia | done].
  - injection Hc as E. apply mkdir_cases in E as [(_ & ->)|(? & _)]; [done | lia | done].
  - apply rmdir_cases in Hc as [(_ & ->)|(? & _)]; [done | lia | done].
  - injection Hc as E. apply rename_cases in E as (_ & [(_ & ? & _)|(? & _)]); [done | lia | done].
  - injection Hc as E. by eapply utimens_wf.
  - injection Hc as E. apply unlink_cases in E as [(_ & ->)|(? & _)]; [done | lia | done].
Qed.

(** C19: a call that fails changes no path, whatever the failure. *)
Theorem fused_errors_change_no_path e o w rc w' :
  reachable w -> fused_oper e o w = Some (rc, w') -> rc < 0 ->
  forall q, path_to_inode (g_state w') q = path_to_inode (g_state w) q.
Proof. apply errors_change_no_path. Qed.

(** Renaming a directory to a path inside itself succeeds and detaches it: neither
    the old nor the new path resolves any more. *)
Theorem fused_rename_into_itself e from to w w' :
  reachable w -> has_slash from -> has_slash to -> from <> to ->
  fused_rename e from to w = (0, w') ->
  path_tokens from `prefix_of` path_tokens to ->
  forall q, path_tokens from `prefix_of` path_tokens q -> path_to_inode (g_state w') q = None.
Proof.
  intros Hwf%reachable_wf Hf Ht Hne Hc Hpre q [us Hq].
  destruct (rename_moved _ _ _ _ _ Hwf Hf Ht Hne Hc) as
    (sp & sn & dp & dn & i & ts & td & Hts & Htd & Hs & Hd & Hsi & Hfree & Hg & Hwf').
  rewrite path_to_inode_walk, Hq, Hts, <- app_assoc by apply Hwf'.
  eapply walk_move_src; try done. by apply wf_tree.
Qed.

(** ** The theorems at concrete states *)

Lemma fused_reachable_invariant_witness : wf (g_state w_data).
Proof. exact (fused_reachable_invariant w_data w_data_reach). Defined.

Lemma fused_paths_unique_witness :
  path_tokens "/a/f" = path_tokens "//a///f" /\
  path_to_inode (g_state w_data) "/a/f" = Some 2%nat.
Proof.
  split; [| vm_compute; reflexivity].
  apply (fused_paths_unique w_data "/a/f" "//a///f" 2 w_data_reach);
    vm_compute; reflexivity.
Defined.

Lemma fused_create_spec_witness :
  let w' := (fused_create demo_env "/a/f" 420 w_dir).2 in
  path_to_inode (g_state w_dir) "/a/f" = None /\
  exists i, Some 3 = Some (Z.of_nat i + 1) /\
    mode (deref (g_state w') i) = Z.lor S_IFREG (Z.land 420 O_0777) /\
    size (deref (g_state w') i) = 0 /\
    disk w' !! backing_path (deref (g_state w') i) = Some [] /\
    forall q, path_to_inode (g_state w') q =
      if decide (path_tokens q = path_tokens "/a/f") then Some i
      else path_to_inode (g_state w_dir) q.
Proof.
  apply (fused_create_spec demo_env "/a/f" 420 w_dir (Some 3));
    [apply w_dir_reach | apply abs_has_slash | apply by_fst; vm_compute; reflexivity].
Defined.

Lemma fused_mkdir_spec_witness :
  let w' := (fused_mkdir demo_env "/a" 493 w_empty).2 in
  path_to_inode (g_state w_empty) "/a" = None /\ disk w' = disk w_empty /\
  exists i, mode (deref (g_state w') i) = Z.lor S_IFDIR (Z.land 493 O_0777) /\
    (fused_readdir "/a" w').2 = ["."; ".."]%string /\
    forall q, path_to_inode (g_state w') q =
      if decide (path_tokens q = path_tokens "/a") then Some i
      else path_to_inode (g_state w_empty) q.
Proof.
  apply (fused_mkdir_spec demo_env "/a" 493 w_empty);
    [apply w_empty_reach | apply abs_has_slash | apply by_fst; vm_compute; reflexivity].
Defined.

Lemma fused_unlink_spec_witness :
  let w' := (fused_unlink demo_env "/a/f" w_data).2 in
  (exists i, path_to_inode (g_state w_data) "/a/f" = Some i /\
             deref (g_state w') i = zero_inode) /\
  forall q, path_to_inode (g_state w') q =
    if decide (path_tokens "/a/f" `prefix_of` path_tokens q) then None
    else path_to_inode (g_state w_data) q.
Proof.
  apply (fused_unlink_spec demo_env "/a/f" w_data);
    [apply w_data_reach | apply abs_has_slash | apply by_fst; vm_compute; reflexivity].
Defined.

Lemma fused_rmdir_spec_witness :
  let w' := default w_dir (snd <$> fused_rmdir demo_env "/a" w_dir) in
  path_to_inode (g_state w') "/a" = None.
Proof.
  intros w'. unfold w'.
  assert (Hok : fst <$> fused_rmdir demo_env "/a" w_dir = Some 0) by (vm_compute; reflexivity).
  rewrite (proj2 (fused_rmdir_spec demo_env "/a" w_dir _ w_dir_reach
                    (by_fst_Some _ 0 w_dir Hok)) "/a"%string).
  vm_compute. reflexivity.
Defined.

Lemma fused_rename_spec_witness :
  let w' := (fused_rename demo_env "/a" "/b" w_data).2 in
  path_to_inode (g_state w') "/b/f" = Some 2%nat.
Proof.
  intros w'. unfold w'.
  rewrite (fused_rename_spec demo_env "/a" "/b" w_data (fused_rename demo_env "/a" "/b" w_data).2);
    [vm_compute; reflexivity | apply w_data_reach | apply abs_has_slash | apply abs_has_slash
     | discriminate | apply by_fst; vm_compute; reflexivity |].
  apply (bool_decide_eq_false_1 (path_tokens "/a" `prefix_of` path_tokens "/b")).
  vm_compute. reflexivity.
Defined.

Lemma fused_errors_change_no_path_witness :
  let w' := (fused_rename demo_env "/a" "/a/f/x" w_data).2 in
  path_to_inode (g_state w') "/a/f" = path_to_inode (g_state w_data) "/a/f".
Proof.
  apply (fused_errors_change_no_path demo_env (OpRename "/a" "/a/f/x") w_data (- ENOTDIR)
           (fused_rename demo_env "/a" "/a/f/x" w_data).2 w_data_reach);
    [apply (f_equal Some), by_fst; vm_compute; reflexivity | vm_compute; reflexivity].
Defined.

Lemma fused_rename_into_itself_witness :
  let w' := (fused_rename demo_env "/a" "/a/b" w_data).2 in
  path_to_inode (g_state w') "/a/f" = None /\ path_to_inode (g_state w') "/a/b" = None.
Proof.
  split; apply (fused_rename_into_itself demo_env "/a" "/a/b" w_data _ w_data_reach
                  (abs_has_slash _) (abs_has_slash _) ltac:(discriminate)
                  (by_fst _ _ ltac:(vm_compute; reflexivity)));
    apply (bool_decide_unpack _); vm_compute; exact I.
Defined.
