(* ===== verification/FusedData.v ===== *)
(** * What the operations do to file contents

    Backing files are append-only while their inode is live; sizes equal the
    length of the backing file as long as [stdio] does not fail; read and write
    implement a byte-array specification; a short [fwrite] breaks the alignment
    of a retry.  The proofs go through [data_step], a summary of every operation's
    effect on the attribute table and the files. *)

From stdpp Require Import base gmap strings list pretty.
From Stdlib Require Import Ascii.
From S2P Require Import Prelude CString NameTree FusedFs FusedInv FusedReach FusedRun.

#[local] Open Scope Z_scope.

(** ** Backing paths *)

Lemma str_app_inj_r s1 s2 t : s1 +:+ t = s2 +:+ t -> s1 = s2.
Proof.
  revert s2. induction s1 as [|a s1 IH]; intros [|b s2]; try done;
    rewrite ?str_app_nil_l, ?str_app_cons; intros H.
  - apply (f_equal String.length) in H. simpl in H. rewrite str_length_app in H. lia.
  - apply (f_equal String.length) in H. simpl in H. rewrite str_length_app in H. lia.
  - injection H as -> H. f_equal. auto.
Qed.

(** Inode numbers of the table are short, so no backing path is truncated. *)
Lemma fmt_u_short i :
  (i < MAX_INODES)%nat -> (String.length (fmt_u (Z.of_nat i + 1)) <= 200)%nat.
Proof.
  intros Hi.
  assert (Hall : Forall (fun i => (String.length (fmt_u (Z.of_nat i + 1)) <= 200)%nat)
                   (seq 0 MAX_INODES)).
  { apply (bool_decide_unpack _). vm_compute. exact I. }
  rewrite Forall_forall in Hall. apply Hall, elem_of_seq. lia.
Qed.

(** Distinct inodes have distinct backing files. *)
Lemma generate_backing_path_inj i j :
  (i < MAX_INODES)%nat -> (j < MAX_INODES)%nat ->
  generate_backing_path the_backing_dir (Z.of_nat i + 1) =
    generate_backing_path the_backing_dir (Z.of_nat j + 1) -> i = j.
Proof.
  intros Hi Hj. unfold generate_backing_path.
  rewrite !strncpy_id; [| rewrite !str_length_app ..].
  - intros H%str_app_inj_l%str_app_inj_l. unfold fmt_u in H. apply (inj pretty) in H. lia.
  - pose proof (fmt_u_short j Hj). simpl. unfold MAX_PATH. lia.
  - pose proof (fmt_u_short i Hi). simpl. unfold MAX_PATH. lia.
Qed.

Lemma generate_backing_path_nonempty k :
  generate_backing_path the_backing_dir k <> EmptyString.
Proof. done. Qed.

Lemma live_bound st i : wf_base st -> live st i -> (i < MAX_INODES)%nat.
Proof. intros Hb (x & Hx & _). rewrite <- (wf_len _ Hb). by eapply lookup_lt_Some. Qed.

Lemma live_backing st i :
  wf_base st -> live st i ->
  backing_path (deref st i) =
    if decide (i = O) then EmptyString else generate_backing_path the_backing_dir (Z.of_nat i + 1).
Proof.
  intros Hb (x & Hx & Hi). destruct (wf_live_slot _ _ _ Hb Hx Hi) as (_ & _ & Hbk).
  rewrite (deref_Some _ _ _ Hx). unfold backing_ok, FUSE_ROOT_ID in Hbk. rewrite Hi in Hbk.
  repeat case_decide; try done; lia.
Qed.

Lemma live_backing_inj st i j :
  wf_base st -> live st i -> live st j ->
  backing_path (deref st i) = backing_path (deref st j) -> i = j.
Proof.
  intros Hb Hi Hj. pose proof (live_bound _ _ Hb Hi). pose proof (live_bound _ _ Hb Hj).
  rewrite !live_backing by done. repeat case_decide; subst; try done.
  by apply generate_backing_path_inj.
Qed.

(** ** Attributes *)

Definition attrs (x : fused_inode) : Z * Z * Z * string :=
  (ino x, mode x, size x, backing_path x).

(** The attributes of the inodes in [P] are those of before. *)
Definition frame (P : nat -> Prop) (st st' : fused_state) : Prop :=
  forall j, P j -> attrs (deref st' j) = attrs (deref st j).

Definition all : nat -> Prop := fun _ => True.

Definition but (i : nat) : nat -> Prop := fun j => j <> i.

Lemma live_attrs st i : live st i <-> ino (deref st i) = Z.of_nat i + 1.
Proof.
  rewrite live_deref. unfold deref. destruct (inodes st !! i); simpl; [tauto |].
  split; [tauto | lia].
Qed.

Lemma deref_upd st i f j :
  f zero_inode = zero_inode \/ (i < length (inodes st))%nat ->
  deref (upd i f st) j = if decide (j = i) then f (deref st i) else deref st j.
Proof.
  intros Hf. unfold deref, upd. simpl. case_decide as Hj.
  - subst. rewrite list_lookup_alter_eq. destruct (inodes st !! i) eqn:Hi; simpl; [done |].
    destruct Hf as [Hf|Hf]; [done |]. apply lookup_ge_None in Hi. lia.
  - by rewrite list_lookup_alter_ne.
Qed.

Lemma frame_upd st i f : (forall x, attrs (f x) = attrs x) -> frame all st (upd i f st).
Proof.
  intros Hf j _. unfold deref, upd. simpl. destruct (decide (i = j)) as [->|Hne].
  - rewrite list_lookup_alter_eq. by destruct (inodes st !! j); simpl.
  - by rewrite list_lookup_alter_ne.
Qed.

Lemma frame_refl P st : frame P st st.
Proof. by intros j _. Qed.

Lemma frame_trans P st1 st2 st3 : frame all st1 st2 -> frame P st2 st3 -> frame P st1 st3.
Proof. intros H12 H23 j Hj. by rewrite H23, H12. Qed.

Lemma frame_put st i x n : frame (but i) st (put i x n st).
Proof. intros j Hj. unfold deref, put. simpl. by rewrite list_lookup_insert_ne. Qed.

Lemma frame_dir_add t d nm i st : frame all st (dir_add_entry t d nm i st).2.
Proof.
  unfold dir_add_entry. repeat case_match; try apply frame_refl.
  by apply frame_upd.
Qed.

Lemma frame_dir_rm t d nm i st : frame all st (dir_rm_entry t d nm i st).2.
Proof.
  unfold dir_rm_entry. repeat case_match; try apply frame_refl.
  by apply frame_upd.
Qed.

#[export] Hint Resolve frame_refl frame_put frame_dir_add frame_dir_rm : cfs.

(** Equal attributes: same liveness, same file. *)
Lemma attrs_eq x y :
  attrs x = attrs y ->
  ino x = ino y /\ mode x = mode y /\ size x = size y /\ backing_path x = backing_path y.
Proof. unfold attrs. intros H. simplify_eq. done. Qed.

(** ** Summary of one call *)

(** No [stdio] call of the operation fails. *)
Definition quiet (e : env) : Prop :=
  fopen_ok e = true /\ (forall k, fwrite_short e k = None) /\ fread_short e = None.

(** File offsets stay within [off_t]. *)
Definition op_small (o : fs_op) : Prop :=
  match o with
  | OpWrite _ buf off => off + Z.of_nat (length buf) < 2 ^ 63
  | _ => True
  end.

Definition gen (i : nat) : string := generate_backing_path the_backing_dir (Z.of_nat i + 1).

Inductive data_step (ok : Prop) (w w' : world) : Prop :=
| ds_same :
    frame all (g_state w) (g_state w') -> disk w' = disk w -> data_step ok w w'
| ds_clear i :
    live (g_state w) i -> frame (but i) (g_state w) (g_state w') ->
    deref (g_state w') i = zero_inode ->
    disk w' = disk w \/ disk w' = delete (backing_path (deref (g_state w) i)) (disk w) ->
    data_step ok w w'
| ds_undo i :
    ~ live (g_state w) i -> (0 < i < MAX_INODES)%nat ->
    frame all (g_state w) (g_state w') ->
    (forall p, p <> gen i -> disk w' !! p = disk w !! p) -> data_step ok w w'
| ds_fresh i m s :
    ~ live (g_state w) i -> (0 < i < MAX_INODES)%nat ->
    frame (but i) (g_state w) (g_state w') ->
    attrs (deref (g_state w') i) = (Z.of_nat i + 1, m, s, gen i) ->
    (forall p, p <> gen i -> disk w' !! p = disk w !! p) ->
    (S_ISDIR m = false -> s = 0 /\ disk w' !! gen i = Some []) -> data_step ok w w'
| ds_write i b c t s :
    live (g_state w) i -> b = backing_path (deref (g_state w) i) -> b <> EmptyString ->
    c = default [] (disk w !! b) -> disk w' = <[b := c ++ t]> (disk w) ->
    frame (but i) (g_state w) (g_state w') ->
    attrs (deref (g_state w') i) = (Z.of_nat i + 1, mode (deref (g_state w) i), s, b) ->
    (ok -> Z.of_nat (length c) = size (deref (g_state w) i) ->
       Z.of_nat (length (c ++ t)) = s) -> data_step ok w w'.

(** ** [fwrite] and the gap-filling loop *)

Lemma fwrite_extends e k data c : exists t, (fwrite e k data c).2 = c ++ t.
Proof. unfold fwrite. case_match; simpl; eauto. Qed.

Lemma fwrite_quiet e k data c :
  quiet e -> fwrite e k data c = (Z.of_nat (length data), c ++ data).
Proof. intros (_ & Hq & _). unfold fwrite. by rewrite Hq. Qed.

Lemma fill_gap_extends fuel e k gap c : exists t, (fill_gap fuel e k gap c).2 = c ++ t.
Proof.
  revert k gap c. induction fuel as [|fuel IH]; intros k gap c; simpl.
  { exists []. by rewrite app_nil_r. }
  case_decide; [| exists []; by rewrite app_nil_r].
  set (ws := if decide (4096 < gap) then 4096 else gap).
  destruct (fwrite_extends e k (replicate (Z.to_nat ws) 0) c) as [t1 ->].
  destruct (IH (S k) (gap - ws) (c ++ t1)) as [t2 ->]. exists (t1 ++ t2).
  by rewrite app_assoc.
Qed.

Lemma fill_gap_zero fuel e k gap c : gap <= 0 -> fill_gap fuel e k gap c = (k, c).
Proof. intros Hg. destruct fuel; simpl; [done |]. by rewrite decide_False by lia. Qed.

(** The loop ends within its fuel and has appended [gap] zero bytes. *)
Lemma fill_gap_quiet fuel e k gap c :
  quiet e -> 0 <= gap <= 4096 * Z.of_nat fuel ->
  (fill_gap fuel e k gap c).2 = c ++ replicate (Z.to_nat gap) 0.
Proof.
  intros Hq. revert k gap c. induction fuel as [|fuel IH]; intros k gap c Hg.
  { simpl. replace gap with 0 by lia. by rewrite app_nil_r. }
  cbn [fill_gap]. case_decide as Hpos.
  2:{ replace gap with 0 by lia. by rewrite app_nil_r. }
  rewrite fwrite_quiet by done. cbn [snd]. case_decide as H4.
  - rewrite IH by lia. rewrite <- app_assoc, <- replicate_add. do 3 f_equal. lia.
  - by rewrite fill_gap_zero by lia.
Qed.

Lemma gap_fuel_enough gap : 0 <= gap -> 0 <= gap <= 4096 * Z.of_nat (gap_fuel gap).
Proof.
  intros Hg. unfold gap_fuel. pose proof (Z.div_mod gap 4096). pose proof (Z.mod_pos_bound gap 4096).
  pose proof (Z.div_pos gap 4096). lia.
Qed.

(** ** Every operation is a [data_step] *)

Lemma attrs_set_times a m c x : attrs (set_times a m c x) = attrs x.
Proof. done. Qed.

Lemma ds_attrs ok w i f :
  (forall x, attrs (f x) = attrs x) -> data_step ok w (set_g (upd i f (g_state w)) w).
Proof. intros Hf. apply ds_same; [by apply frame_upd | done]. Qed.

Lemma ds_refl ok w : data_step ok w w.
Proof. apply ds_same; auto with cfs. Qed.

#[export] Hint Resolve ds_refl ds_attrs attrs_set_times : cfs.

Lemma open_data ok e p fl w : data_step ok w (fused_open e p fl w).2.
Proof. unfold fused_open. repeat case_match; simpl; auto with cfs. Qed.

Lemma read_data ok e fh sz off w : data_step ok w (fused_read e fh sz off w).2.
Proof. unfold fused_read. repeat case_match; simpl; auto with cfs. Qed.

Lemma utimens_data ok e p tv w : data_step ok w (fused_utimens e p tv w).2.
Proof. unfold fused_utimens. repeat case_match; simpl; auto with cfs. Qed.

Lemma rename_data ok e a b w : data_step ok w (fused_rename e a b w).2.
Proof.
  unfold fused_rename. case_decide; [simpl; auto with cfs |].
  destruct (path_to_inode _ a) as [i|]; [| simpl; auto with cfs].
  destruct (path_to_inode _ b) as [|]; [simpl; auto with cfs |].
  destruct (split_path a) as [sp sn], (split_path b) as [dp dn].
  pose proof (frame_dir_add (time e 0) (path_to_inode (g_state w) dp) dn i (g_state w)) as H1.
  destruct (dir_add_entry _ _ _ _ _) as [rc st1]. simpl in H1.
  case_decide; [by apply ds_same |].
  pose proof (frame_dir_rm (time e 1) (path_to_inode (g_state w) sp) sn i st1) as H2.
  destruct (dir_rm_entry _ _ _ _ _) as [rc2 st2]. simpl in H2.
  pose proof (frame_trans _ _ _ _ H1 H2) as H12.
  case_decide; apply ds_same; try done; (eapply frame_trans; [exact H12 |]).
  - apply frame_dir_rm.
  - by apply frame_upd.
Qed.

Lemma frame_clear st st1 st2 i n :
  frame all st st1 -> st2 = put i zero_inode n st1 -> frame (but i) st st2.
Proof. intros H1 ->. eapply frame_trans; eauto with cfs. Qed.

Lemma deref_put_eq st i x n : (i < length (inodes st))%nat -> deref (put i x n st) i = x.
Proof. intros. rewrite deref_put by done. by rewrite decide_True. Qed.

Lemma unlink_data ok e p w : wf (g_state w) -> data_step ok w (fused_unlink e p w).2.
Proof.
  intros Hwf. unfold fused_unlink.
  destruct (path_to_inode _ p) as [i|] eqn:Hp; [| simpl; auto with cfs].
  pose proof (path_live _ _ _ (wf_wfb _ Hwf) Hp) as Hl.
  pose proof (live_bound _ _ (wf_wfb _ Hwf) Hl) as Hi.
  destruct (split_path p) as [pp nm]. destruct (path_to_inode _ pp) as [d|]; [| simpl; auto with cfs].
  destruct (negb _); [simpl; auto with cfs |].
  pose proof (frame_dir_rm (time e 0) (Some d) nm i (g_state w)) as H1.
  destruct (dir_rm_entry _ _ _ _ _) as [rc st1] eqn:Hrm. simpl in H1.
  case_decide; [| by apply ds_same].
  assert (Hlen : length (inodes st1) = MAX_INODES).
  { rewrite <- (wf_len _ (wf_wfb _ Hwf)).
    apply dir_rm_entry_cases in Hrm as [(_ & -> & _)|(_ & ? & ? & ? & _ & _ & _ & ->)]; [done |].
    simpl. by rewrite length_insert. }
  destruct (attrs_eq _ _ (H1 i I)) as (_ & _ & _ & Hb).
  unfold free_inode. simpl. apply (ds_clear _ _ _ i); simpl; [done | | |].
  - by eapply frame_clear.
  - apply (deref_put_eq st1 i zero_inode). by rewrite Hlen.
  - rewrite Hb. unfold unlink. repeat case_match; auto.
Qed.

Lemma rmdir_data ok e p w rc w' :
  wf (g_state w) -> fused_rmdir e p w = Some (rc, w') -> data_step ok w w'.
Proof.
  intros Hwf. unfold fused_rmdir. case_decide; [intros [= <- <-]; auto with cfs |].
  destruct (path_to_inode _ p) as [i|] eqn:Hp; [| intros [= <- <-]; auto with cfs].
  pose proof (path_live _ _ _ (wf_wfb _ Hwf) Hp) as Hl.
  pose proof (live_bound _ _ (wf_wfb _ Hwf) Hl) as Hi.
  destruct (negb _); [intros [= <- <-]; auto with cfs |].
  case_decide; [intros [= <- <-]; auto with cfs |].
  destruct (strrchr _ _) as [k|]; [| done].
  destruct (path_to_inode _ (if decide _ then _ else _)); [| intros [= <- <-]; auto with cfs].
  destruct (find_child _ _); intros [= <- <-]; [| auto with cfs].
  match goal with |- context [upd i (fun _ => zero_inode) ?s] => set (st1 := s) end.
  assert (Hlen : (i < length (inodes st1))%nat).
  { unfold st1. simpl. rewrite length_alter, (wf_len _ (wf_wfb _ Hwf)). done. }
  rewrite (upd_zero st1 i Hlen).
  apply (ds_clear _ _ _ i); simpl; [done | | by apply deref_put_eq | by left].
  eapply frame_clear; [| done]. by apply frame_upd.
Qed.

Section NewInode.
Context (ok : Prop) (e : env) (w : world) (i : nat) (st1 : fused_state).
Context (f : fused_inode -> fused_inode) (m s : Z).
Context (Hwf : wf (g_state w)) (Hal : alloc_inode (g_state w) = Some (i, st1)).
Context (Hf : attrs (f (fresh_inode i)) = (Z.of_nat i + 1, m, s, gen i)).

Lemma alloc_upd : upd i f st1 = put i (f (fresh_inode i)) (S i) (g_state w).
Proof.
  destruct (alloc_inode_Some _ _ _ (wf_wfb _ Hwf) Hal) as (_ & Hi & -> & Hz).
  rewrite (upd_put _ _ _ (fresh_inode i)); [by rewrite put_put |].
  rewrite put_lookup by (by eapply lookup_lt_Some). by rewrite decide_True.
Qed.

Lemma alloc_not_live : ~ live (g_state w) i.
Proof.
  destruct (alloc_inode_Some _ _ _ (wf_wfb _ Hwf) Hal) as (_ & _ & _ & Hz).
  rewrite live_attrs, (deref_Some _ _ _ Hz). simpl. lia.
Qed.

Lemma alloc_deref : deref (upd i f st1) i = f (fresh_inode i).
Proof.
  rewrite alloc_upd. apply deref_put_eq.
  destruct (alloc_inode_Some _ _ _ (wf_wfb _ Hwf) Hal) as (_ & _ & _ & Hz).
  by eapply lookup_lt_Some.
Qed.

Lemma undo_data d :
  (forall p, p <> gen i -> d !! p = disk w !! p) ->
  data_step ok w (free_inode e i (MkWorld (upd i f st1) d)).
Proof.
  intros Hd. destruct (alloc_inode_Some _ _ _ (wf_wfb _ Hwf) Hal) as (Hn & Hi & _ & Hz).
  apply (ds_undo _ _ _ i); [apply alloc_not_live | done | |].
  - rewrite alloc_upd, free_fresh by done. apply frame_refl.
  - intros p Hp. unfold free_inode. simpl. rewrite alloc_deref.
    assert (Hb : backing_path (f (fresh_inode i)) = gen i) by (injection Hf; auto).
    rewrite Hb, decide_False by apply generate_backing_path_nonempty. unfold unlink.
    case_match; [rewrite lookup_delete_ne by done |]; auto.
Qed.

Lemma new_data t p nm rc st3 d :
  dir_add_entry t (Some p) nm i (upd i f st1) = (rc, st3) ->
  (forall p, p <> gen i -> d !! p = disk w !! p) ->
  (S_ISDIR m = false -> s = 0 /\ d !! gen i = Some []) ->
  (rc <> 0 -> data_step ok w (free_inode e i (MkWorld st3 d))) /\
  (rc = 0 -> data_step ok w (MkWorld st3 d)).
Proof.
  intros Hadd Hd Hreg. pose proof (frame_dir_add t (Some p) nm i (upd i f st1)) as Hfr.
  destruct (alloc_inode_Some _ _ _ (wf_wfb _ Hwf) Hal) as (Hn & Hi & _ & _).
  rewrite Hadd in Hfr. simpl in Hfr. split; intros Hrc.
  - apply dir_add_entry_cases in Hadd as [(_ & ->)|(? & _)]; [| done]. by apply undo_data.
  - apply (ds_fresh _ _ _ i m s); simpl; try done; [apply alloc_not_live | |].
    + intros j Hj. rewrite Hfr by done. rewrite alloc_upd. by apply frame_put.
    + by rewrite Hfr, alloc_deref.
Qed.
End NewInode.

Lemma create_data ok e p md w : wf (g_state w) -> data_step ok w (fused_create e p md w).2.
Proof.
  intros Hwf. unfold fused_create. destruct (path_to_inode _ p); [simpl; auto with cfs |].
  destruct (split_path p) as [pp nm]. destruct (path_to_inode _ pp); [| simpl; auto with cfs].
  destruct (negb _); [simpl; auto with cfs |].
  destruct (alloc_inode _) as [[i st1]|] eqn:Hal; [| simpl; auto with cfs].
  destruct (new_owner e) as [u g].
  match goal with |- context [upd i ?f st1] => set (ff := f) end.
  assert (Hf : attrs (ff (fresh_inode i)) =
    (Z.of_nat i + 1, Z.lor S_IFREG (Z.land md O_0777), 0, gen i)) by done.
  rewrite (alloc_deref w i st1 ff Hwf Hal).
  destruct (fopen_wb _ _ _) as [d|] eqn:Ho; [| by apply (undo_data ok e w i st1 ff _ 0 Hwf Hal Hf)].
  assert (Hd : d = <[gen i := []]> (disk w)).
  { unfold fopen_wb in Ho. case_match; [| done]. by injection Ho as <-. }
  destruct (dir_add_entry _ _ _ _ _) as [rc st3] eqn:Hadd.
  destruct (new_data ok e w i st1 ff _ 0 Hwf Hal Hf _ _ _ _ _ d Hadd) as [H1 H2].
  - intros q Hq. subst d. by rewrite lookup_insert_ne.
  - intros _. subst d. by rewrite lookup_insert_eq.
  - case_decide; [by apply H1 | apply H2; lia].
Qed.

Lemma mkdir_data ok e p md w : wf (g_state w) -> data_step ok w (fused_mkdir e p md w).2.
Proof.
  intros Hwf. unfold fused_mkdir. destruct (path_to_inode _ p); [simpl; auto with cfs |].
  destruct (split_path p) as [pp nm]. destruct (path_to_inode _ pp); [| simpl; auto with cfs].
  destruct (negb _); [simpl; auto with cfs |].
  destruct (alloc_inode _) as [[i st1]|] eqn:Hal; [| simpl; auto with cfs].
  destruct (new_owner e) as [u g].
  match goal with |- context [upd i ?f st1] => set (ff := f) end.
  assert (Hf : attrs (ff (fresh_inode i)) =
    (Z.of_nat i + 1, Z.lor S_IFDIR (Z.land md O_0777), 4096, gen i)) by done.
  destruct (dir_add_entry _ _ _ _ _) as [rc st3] eqn:Hadd.
  destruct (new_data ok e w i st1 ff _ 4096 Hwf Hal Hf _ _ _ _ _ (disk w) Hadd) as [H1 H2].
  - done.
  - unfold S_ISDIR. rewrite Z.land_lor_distr_l, <- Z.land_assoc.
    change (Z.land O_0777 S_IFMT) with 0. by rewrite Z.land_0_r.
  - case_decide; [by apply H1 | apply H2; lia].
Qed.

(** The bytes a fault-free write at [off] appends to a file of size [sz]. *)
Definition appended (sz off : Z) (buf : list Z) : list Z :=
  replicate (Z.to_nat (off - sz)) 0 ++ buf.

Lemma write_cases e fh buf off w rc w' :
  wf (g_state w) -> fused_write e fh buf off w = (rc, w') ->
  (rc < 0 /\ w' = w /\ forall i, lookup_inode (g_state w) fh = Some i -> fopen_ok e = true ->
     off < size (deref (g_state w) i) \/ backing_path (deref (g_state w) i) = EmptyString) \/
  exists i x c t, lookup_inode (g_state w) fh = Some i /\ live (g_state w) i /\
    x = deref (g_state w) i /\ backing_path x <> EmptyString /\ size x <= off /\
    c = default [] (disk w !! backing_path x) /\
    disk w' = <[backing_path x := c ++ t]> (disk w) /\
    (rc = - EIO /\ g_state w' = g_state w /\ ~ quiet e \/
     rc = s32 (Z.of_nat (length buf)) /\
     g_state w' = upd i (fun x => set_times (atime x) (time e 0) (time e 1)
        (set_size (s64 (off + Z.of_nat (length buf))) x)) (g_state w)) /\
    (quiet e -> 0 <= size x -> off < 2 ^ 64 -> t = appended (size x) off buf).
Proof.
  intros Hwf. unfold fused_write.
  destruct (lookup_inode _ fh) as [i|] eqn:Hl; [| intros [= <- <-]; by left].
  case_decide as Hoff.
  { intros [= <- <-]. left. split_and!; [done | done |]. intros i' [= <-] _. by left. }
  destruct (fopen_ab _ _ _) as [c|] eqn:Ho.
  2:{ intros [= <- <-]. left. split_and!; [done | done |]. intros i' [= <-] Hok. right.
      unfold fopen_ab in Ho. rewrite Hok in Ho. by case_bool_decide. }
  pose proof (fopen_nonempty _ _ _ _ Ho) as Hb.
  pose proof (handle_live _ _ _ (wf_wfb _ Hwf) Hl Hb) as Hlive.
  assert (Hc : c = default [] (disk w !! backing_path (deref (g_state w) i))).
  { unfold fopen_ab in Ho. case_match; [| done]. congruence. }
  set (x := deref (g_state w) i) in *. set (gap := u64 (off - size x)).
  destruct (if decide (size x < off) then _ else _) as [k c1] eqn:Hgap.
  assert (Hc1 : exists t, c1 = c ++ t /\
    (quiet e -> 0 <= size x -> off < 2 ^ 64 -> t = replicate (Z.to_nat (off - size x)) 0)).
  { case_decide as Hlt.
    - destruct (fill_gap_extends (gap_fuel gap) e 0 gap c) as [t Ht].
      rewrite Hgap in Ht. exists t. split; [done |]. intros Hq Hsz H64.
      assert (Hg : gap = off - size x) by (unfold gap; apply u64_small; lia).
      rewrite <- Hg. pose proof (fill_gap_quiet (gap_fuel gap) e 0 gap c Hq
        (gap_fuel_enough gap ltac:(lia))) as Hf.
      rewrite Hgap in Hf. rewrite Ht in Hf. by apply app_inv_head in Hf.
    - injection Hgap as <- <-. exists []. rewrite app_nil_r. split; [done |].
      intros _ _ _. by replace (off - size x) with 0 by lia. }
  destruct Hc1 as (t1 & -> & Ht1).
  destruct (fwrite_extends e k buf (c ++ t1)) as [t2 Ht2].
  destruct (fwrite e k buf (c ++ t1)) as [bw c2] eqn:Hfw. simpl in Ht2. subst c2.
  assert (Hq2 : quiet e -> bw = Z.of_nat (length buf) /\ t2 = buf).
  { intros Hq. rewrite fwrite_quiet in Hfw by done. injection Hfw as <- H2.
    by apply app_inv_head in H2. }
  intros Hres. right. exists i, x, c, (t1 ++ t2). rewrite (app_assoc c t1 t2).
  case_decide as Hbw; injection Hres as <- <-; simpl; split_and!; try done; try lia.
  - left. split_and!; try done. by intros [? _]%Hq2.
  - intros Hq ??. by destruct (Hq2 Hq).
  - right. by replace bw with (Z.of_nat (length buf)) by lia.
  - intros Hq ??. destruct (Hq2 Hq) as [_ ->]. by rewrite Ht1.
Qed.

Lemma length_appended sz off buf :
  sz <= off -> Z.of_nat (length (appended sz off buf)) = off - sz + Z.of_nat (length buf).
Proof. intros. unfold appended. rewrite length_app, length_replicate. lia. Qed.

Lemma write_data e fh buf off w :
  wf (g_state w) ->
  data_step (quiet e /\ op_small (OpWrite fh buf off)) w (fused_write e fh buf off w).2.
Proof.
  intros Hwf. destruct (fused_write e fh buf off w) as [rc w'] eqn:Hw. simpl.
  apply write_cases in Hw as [(_ & -> & _)|(i & x & c & t & _ & Hl & -> & Hb & Hoff & Hc & Hd & Hrc & Ht)];
    [apply ds_refl | | done].
  pose proof Hl as Hino%live_attrs.
  assert (Hlen : quiet e /\ off + Z.of_nat (length buf) < 2 ^ 63 ->
    Z.of_nat (length c) = size (deref (g_state w) i) ->
    Z.of_nat (length (c ++ t)) = off + Z.of_nat (length buf)).
  { intros [Hq Hs] Hsz. rewrite (Ht Hq) by lia. rewrite length_app, Nat2Z.inj_add,
      length_appended by done. lia. }
  destruct Hrc as [(_ & Hg & Hnq)|(_ & Hg)].
  - apply (ds_write _ _ _ i (backing_path (deref (g_state w) i)) c t (size (deref (g_state w) i))); rewrite ?Hg; auto with cfs.
    + unfold attrs. by rewrite Hino.
    + by intros [? _].
  - apply (ds_write _ _ _ i (backing_path (deref (g_state w) i)) c t (s64 (off + Z.of_nat (length buf)))); rewrite ?Hg; auto.
    + intros j Hj. rewrite deref_upd by (right; by apply live_deref, proj1, lookup_lt_Some in Hl).
      by rewrite decide_False.
    + rewrite deref_upd by (right; by apply live_deref, proj1, lookup_lt_Some in Hl).
      rewrite decide_True by done. unfold attrs. simpl. by rewrite Hino.
    + intros Hok Hsz. rewrite (Hlen Hok Hsz). rewrite s64_small; [done |].
      destruct Hok as [_ ?]. lia.
Qed.

Lemma oper_data e o w rc w' :
  wf (g_state w) -> fused_oper e o w = Some (rc, w') -> data_step (quiet e /\ op_small o) w w'.
Proof.
  intros Hwf. destruct o as [p|p|p fl|fh sz off|fh buf off|p md|p md|p|a b|p tv|p]; simpl.
  - intros [= <- <-]. apply ds_refl.
  - intros [= <- <-]. apply ds_refl.
  - pose proof (open_data (quiet e /\ True) e p fl w).
    destruct (fused_open _ _ _ _) as [[??]?]. by intros [= <- <-].
  - pose proof (read_data (quiet e /\ True) e fh sz off w).
    destruct (fused_read _ _ _ _ _) as [[??]?]. by intros [= <- <-].
  - intros [= Hw]. pose proof (write_data e fh buf off w Hwf) as H. by rewrite Hw in H.
  - pose proof (create_data (quiet e /\ True) e p md w Hwf).
    destruct (fused_create _ _ _ _) as [[??]?]. by intros [= <- <-].
  - intros [= Hw]. pose proof (mkdir_data (quiet e /\ True) e p md w Hwf) as H. by rewrite Hw in H.
  - by apply rmdir_data.
  - intros [= Hw]. pose proof (rename_data (quiet e /\ True) e a b w) as H. by rewrite Hw in H.
  - intros [= Hw]. pose proof (utimens_data (quiet e /\ True) e p tv w) as H. by rewrite Hw in H.
  - intros [= Hw]. pose proof (unlink_data (quiet e /\ True) e p w Hwf) as H. by rewrite Hw in H.
Qed.

(** ** Theorems *)

Lemma gen_nonroot st i j :
  wf_base st -> ~ live st i -> (0 < i < MAX_INODES)%nat -> live st j ->
  backing_path (deref st j) <> gen i.
Proof.
  intros Hb Hi Hrng Hj. rewrite live_backing by done. pose proof (live_bound _ _ Hb Hj).
  case_decide; [done |]. intros Heq. apply generate_backing_path_inj in Heq; [| lia..].
  by subst.
Qed.

(** C20: files are append-only. Whatever call is made and however [stdio] fails, the
    backing file of an inode that is live before and after the call keeps its
    contents as a prefix. *)
Theorem fused_append_only e o w rc w' j c :
  reachable w -> fused_oper e o w = Some (rc, w') ->
  live (g_state w) j -> live (g_state w') j ->
  disk w !! backing_path (deref (g_state w) j) = Some c ->
  exists t, disk w' !! backing_path (deref (g_state w') j) = Some (c ++ t).
Proof.
  intros Hwf%reachable_wf Ho Hj Hj' Hc. pose proof (wf_wfb _ Hwf) as Hb.
  assert (Hkeep : forall P, frame P (g_state w) (g_state w') -> P j ->
    backing_path (deref (g_state w') j) = backing_path (deref (g_state w) j)).
  { intros P Hf HP. by apply attrs_eq, Hf. }
  destruct (oper_data _ _ _ _ _ Hwf Ho) as
    [Hf Hd|i Hi Hf Hz Hd|i Hi Hr Hf Hd|i m s Hi Hr Hf _ Hd _|i b c0 t s Hi -> Hne -> Hd Hf Ha _].
  - exists []. by rewrite (Hkeep _ Hf I), Hd, app_nil_r.
  - apply live_attrs in Hj'. destruct (decide (j = i)) as [->|Hne].
    { rewrite Hz in Hj'. simpl in Hj'. lia. }
    exists []. rewrite (Hkeep _ Hf Hne), app_nil_r. destruct Hd as [-> | ->]; [done |].
    rewrite lookup_delete_ne; [done |]. intros Heq. by apply live_backing_inj in Heq.
  - exists []. rewrite (Hkeep _ Hf I), Hd, app_nil_r; [done |]. by apply gen_nonroot.
  - assert (Hne : j <> i) by (intros ->; done). exists [].
    rewrite (Hkeep _ Hf Hne), Hd, app_nil_r; [done |]. by apply gen_nonroot.
  - destruct (decide (j = i)) as [->|Hji].
    + exists t. assert (Hbb : backing_path (deref (g_state w') i) =
        backing_path (deref (g_state w) i)) by (injection Ha; auto).
      by rewrite Hbb, Hd, lookup_insert_eq, Hc.
    + exists []. rewrite (Hkeep _ Hf Hji), Hd, app_nil_r, lookup_insert_ne; [done |].
      intros Heq. by apply live_backing_inj in Heq.
Qed.

(** Executions in which no [stdio] call fails and offsets stay within [off_t]. *)
Inductive quiet_reachable : world -> Prop :=
| quiet_init e d : quiet_reachable (fused_init e d)
| quiet_step e o w rc w' :
    quiet_reachable w -> quiet e -> op_small o -> fused_oper e o w = Some (rc, w') ->
    quiet_reachable w'.

Lemma quiet_reachable_reachable w : quiet_reachable w -> reachable w.
Proof. induction 1; [apply reach_init | by eapply reach_step]. Qed.

(** Regular files have a backing file of their recorded size. *)
Definition sizes_match (w : world) : Prop :=
  forall i, live (g_state w) i -> S_ISDIR (mode (deref (g_state w) i)) = false ->
  exists c, disk w !! backing_path (deref (g_state w) i) = Some c /\
            Z.of_nat (length c) = size (deref (g_state w) i).

Lemma sizes_match_step ok w w' :
  wf (g_state w) -> sizes_match w -> ok -> data_step ok w w' -> sizes_match w'.
Proof.
  intros Hwf Hm Hok Hs j Hj Hreg. pose proof (wf_wfb _ Hwf) as Hb.
  assert (Hold : forall P, frame P (g_state w) (g_state w') -> P j ->
    live (g_state w) j /\
    exists c, disk w !! backing_path (deref (g_state w') j) = Some c /\
              Z.of_nat (length c) = size (deref (g_state w') j) /\
              backing_path (deref (g_state w') j) = backing_path (deref (g_state w) j)).
  { intros P Hf HP. apply Hf, attrs_eq in HP as (Hi & Hmd & Hsz & Hbk).
    rewrite live_attrs, Hi in Hj. apply live_attrs in Hj. rewrite Hmd in Hreg.
    split_and!; try done. rewrite Hsz, Hbk. by destruct (Hm j Hj Hreg) as (c & ? & ?); exists c. }
  destruct Hs as [Hf Hd|i Hi Hf Hz Hd|i Hi Hr Hf Hd|i m s Hi Hr Hf Ha Hd Hnew
    |i b c0 t s Hi -> Hne -> Hd Hf Ha Hs].
  - destruct (Hold _ Hf I) as (_ & c & ? & ? & _). exists c. by rewrite Hd.
  - destruct (decide (j = i)) as [->|Hne].
    { rewrite live_attrs, Hz in Hj. simpl in Hj. lia. }
    destruct (Hold _ Hf Hne) as (Hj0 & c & ? & ? & Hbk). exists c.
    destruct Hd as [-> | ->]; [done |]. rewrite lookup_delete_ne; [done |].
    intros Heq. rewrite Hbk in Heq. by apply live_backing_inj in Heq.
  - destruct (Hold _ Hf I) as (Hj0 & c & ? & ? & Hbk). exists c.
    rewrite Hd; [done |]. rewrite Hbk. by apply gen_nonroot.
  - destruct (decide (j = i)) as [->|Hne].
    + injection Ha as _ Hmd Hsz Hbk. rewrite Hmd in Hreg. destruct (Hnew Hreg) as [-> Hdk].
      exists []. by rewrite Hbk, Hsz.
    + destruct (Hold _ Hf Hne) as (Hj0 & c & ? & ? & Hbk). exists c.
      rewrite Hd; [done |]. rewrite Hbk. by apply gen_nonroot.
  - destruct (decide (j = i)) as [->|Hji].
    + injection Ha as _ Hmd Hsz Hbk. rewrite Hmd in Hreg. destruct (Hm i Hi Hreg) as (c & Hc & Hlen).
      rewrite Hc in Hs. simpl in Hs. eexists. rewrite Hbk, Hsz, Hd, lookup_insert_eq.
      split; [done |]. rewrite Hc. by apply Hs.
    + destruct (Hold _ Hf Hji) as (Hj0 & c & ? & ? & Hbk). exists c.
      rewrite Hd, lookup_insert_ne; [done |]. rewrite Hbk. intros Heq.
      by apply live_backing_inj in Heq.
Qed.

Lemma quiet_sizes w : quiet_reachable w -> sizes_match w.
Proof.
  induction 1 as [e d|e o w rc w' Hw IH Hq Hs Ho].
  - intros i Hi Hreg. exfalso. pose proof (init_wf e d) as Hwf.
    destruct Hi as (x & Hx & Hxi). destruct (wf_live_slot _ _ _ (wf_wfb _ Hwf) Hx Hxi) as (Hlt & _).
    simpl in Hlt. replace i with O in * by lia.
    destruct (wf_root _ (wf_wfb _ Hwf)) as [_ Hdir]. congruence.
  - apply quiet_reachable_reachable, reachable_wf in Hw.
    eapply sizes_match_step; [done | done | | by eapply oper_data]. done.
Qed.

(** As long as [stdio] does not fail, the size of every regular file is the
    length of its backing file, after any sequence of calls. *)
Theorem fused_sizes_match w : quiet_reachable w -> sizes_match w.
Proof. apply quiet_sizes. Qed.

(** ** Read and write as a byte array *)

(** The bytes behind a handle. *)
Definition contents (w : world) (fh : Z) : option (list Z) :=
  i ← lookup_inode (g_state w) fh; disk w !! backing_path (deref (g_state w) i).

(** [fh] is the handle of a regular file, inode slot [i]. *)
Definition is_file (w : world) (fh : Z) (i : nat) : Prop :=
  lookup_inode (g_state w) fh = Some i /\ live (g_state w) i /\
  S_ISDIR (mode (deref (g_state w) i)) = false.

(** What a write at [off] makes of the bytes [c]: an error below the end. *)
Definition abs_write (c buf : list Z) (off : Z) : option (list Z) :=
  if decide (off < Z.of_nat (length c)) then None
  else Some (c ++ appended (Z.of_nat (length c)) off buf).

Definition abs_read (c : list Z) (sz off : Z) : list Z :=
  take (Z.to_nat sz) (drop (Z.to_nat off) c).

Lemma is_file_backing w fh i :
  wf (g_state w) -> is_file w fh i -> backing_path (deref (g_state w) i) <> EmptyString.
Proof.
  intros Hwf (_ & Hl & Hreg). rewrite live_backing; [| apply Hwf | done].
  case_decide; [| done]. subst. by rewrite (proj2 (wf_root _ (wf_wfb _ Hwf))) in Hreg.
Qed.

Lemma lookup_inode_upd st i f fh :
  (forall x, ino (f x) = ino x) -> lookup_inode (upd i f st) fh = lookup_inode st fh.
Proof.
  intros Hf. unfold lookup_inode, upd. simpl.
  apply option_eq. intros j. rewrite !first_idx_Some.
  assert (Hiff : forall k, (exists x, alter f i (inodes st) !! k = Some x /\ ino x = fh) <->
                           (exists x, inodes st !! k = Some x /\ ino x = fh)).
  { intros k. destruct (decide (i = k)) as [->|Hne]; [| by rewrite list_lookup_alter_ne].
    rewrite list_lookup_alter_eq. destruct (inodes st !! k) as [x|]; simpl.
    - split; intros (y & [= <-] & Hy); eexists; (split; [done |]); by rewrite Hf in *.
    - split; by intros (? & ? & _). }
  split; intros (x & Hx & Hlt & Hi & Hmin).
  - destruct (proj1 (Hiff j)) as (y & Hy & Hyi); [eauto |]. exists y. split_and!; try done.
    intros k z Hk Hz Hzi. destruct (proj2 (Hiff k)) as (u & Hu & Hui); [eauto |].
    by apply (Hmin k u Hk Hu).
  - destruct (proj2 (Hiff j)) as (y & Hy & Hyi); [eauto |]. exists y. split_and!; try done.
    intros k z Hk Hz Hzi. destruct (proj1 (Hiff k)) as (u & Hu & Hui); [eauto |].
    by apply (Hmin k u Hk Hu).
Qed.

(** The slot behind a handle whose file is [b] is the slot with backing file [b]. *)
Lemma handle_backing_inj w fh i fh' j :
  wf (g_state w) -> is_file w fh i -> lookup_inode (g_state w) fh' = Some j ->
  backing_path (deref (g_state w) j) = backing_path (deref (g_state w) i) -> fh' = fh.
Proof.
  intros Hwf Hf Hj Heq. pose proof (wf_wfb _ Hwf) as Hb.
  pose proof (is_file_backing _ _ _ Hwf Hf) as Hne. destruct Hf as (Hi & Hl & _).
  assert (Hlj : live (g_state w) j) by (eapply handle_live; [done | done | congruence]).
  assert (j = i) as -> by (by eapply live_backing_inj).
  apply first_idx_Some in Hi as (x & Hx & _ & <- & _), Hj as (y & Hy & _ & <- & _). congruence.
Qed.

Lemma write_quiet e fh buf off w i :
  wf (g_state w) -> is_file w fh i -> quiet e ->
  0 <= size (deref (g_state w) i) <= off -> off + Z.of_nat (length buf) < 2 ^ 63 ->
  exists f, (forall x, ino (f x) = ino x /\ mode (f x) = mode x /\ backing_path (f x) = backing_path x
                       /\ size (f x) = off + Z.of_nat (length buf)) /\
  fused_write e fh buf off w =
    (s32 (Z.of_nat (length buf)),
     MkWorld (upd i f (g_state w))
       (<[backing_path (deref (g_state w) i) :=
            default [] (disk w !! backing_path (deref (g_state w) i)) ++
            appended (size (deref (g_state w) i)) off buf]> (disk w))).
Proof.
  intros Hwf Hf Hq Hsz Hoff. pose proof (is_file_backing _ _ _ Hwf Hf) as Hb.
  pose proof Hf as (Hi & Hl & Hreg).
  destruct (fused_write e fh buf off w) as [rc w'] eqn:Hw. pose proof Hw as Hw'.
  apply write_cases in Hw as [(_ & _ & Hno)|(i' & x & c & t & Hi' & _ & -> & _ & _ & Hc & Hd & Hrc & Ht)];
    [| | done].
  - destruct (Hno i Hi (proj1 Hq)); [lia | done].
  - rewrite Hi in Hi'. injection Hi' as <-. destruct Hrc as [(_ & _ & ?)|(-> & Hg)]; [done |].
    eexists. split; [| f_equal; destruct w' as [g' d']; simpl in *; subst g' d'; f_equal].
    + intros y. simpl. rewrite s64_small by lia. done.
    + by rewrite Hc, Ht by (done || lia).
Qed.

(** A file's size and contents after updating its record and its file. *)
Lemma contents_upd w fh i f c fh' :
  wf (g_state w) -> is_file w fh i ->
  (forall x, ino (f x) = ino x /\ backing_path (f x) = backing_path x) ->
  contents (MkWorld (upd i f (g_state w)) (<[backing_path (deref (g_state w) i) := c]> (disk w))) fh'
  = if decide (fh' = fh) then Some c else contents w fh'.
Proof.
  intros Hwf Hf Hsame. unfold contents. cbn [g_state disk].
  rewrite lookup_inode_upd by apply Hsame.
  assert (Hbk : forall j, backing_path (deref (upd i f (g_state w)) j) =
                          backing_path (deref (g_state w) j)).
  { intros j. unfold deref, upd. simpl. destruct (decide (i = j)) as [->|Hne].
    - rewrite list_lookup_alter_eq. destruct (inodes (g_state w) !! j); simpl; [apply Hsame | done].
    - by rewrite list_lookup_alter_ne. }
  case_decide as Hfh.
  - subst fh'. destruct Hf as (-> & _ & _). simpl. by rewrite Hbk, lookup_insert_eq.
  - destruct (lookup_inode _ fh') as [j|] eqn:Hj; simpl; [| done].
    rewrite Hbk, lookup_insert_ne; [done |]. intros Heq. apply Hfh.
    by eapply handle_backing_inj.
Qed.

Lemma contents_size w fh i c :
  sizes_match w -> is_file w fh i -> contents w fh = Some c ->
  disk w !! backing_path (deref (g_state w) i) = Some c /\
  size (deref (g_state w) i) = Z.of_nat (length c).
Proof.
  intros Hm (Hi & Hl & Hreg) Hc. unfold contents in Hc. rewrite Hi in Hc. simpl in Hc.
  destruct (Hm i Hl Hreg) as (c' & Hc' & <-). by simplify_eq.
Qed.

Lemma write_refines e fh i c buf off w :
  quiet_reachable w -> quiet e -> is_file w fh i -> contents w fh = Some c ->
  off + Z.of_nat (length buf) < 2 ^ 63 -> Z.of_nat (length buf) < 2 ^ 31 ->
  match abs_write c buf off with
  | None => fused_write e fh buf off w = (- EPERM, w)
  | Some c' =>
      exists w', fused_write e fh buf off w = (Z.of_nat (length buf), w') /\
        size (deref (g_state w') i) = Z.of_nat (length c') /\
        forall fh', contents w' fh' = if decide (fh' = fh) then Some c' else contents w fh'
  end.
Proof.
  intros Hqr Hq Hf Hc Hoff Hlen. pose proof (quiet_sizes _ Hqr) as Hm.
  apply quiet_reachable_reachable, reachable_wf in Hqr as Hwf.
  destruct (contents_size _ _ _ _ Hm Hf Hc) as [Hdk Hsz]. unfold abs_write. case_decide as Hlt.
  - unfold fused_write. destruct Hf as (-> & _ & _). by rewrite decide_True by lia.
  - destruct (write_quiet e fh buf off w i Hwf Hf Hq) as (f & Hfs & ->); [lia | done |].
    rewrite s32_small, Hdk, Hsz by lia. simpl. eexists. split; [done |]. split.
    + cbn [g_state]. rewrite deref_upd, decide_True by
        (try done; right; destruct Hf as (_ & Hl & _); by apply live_deref, proj1, lookup_lt_Some in Hl).
      destruct (Hfs (deref (g_state w) i)) as (_ & _ & _ & ->).
      rewrite length_app, Nat2Z.inj_add, length_appended by lia. lia.
    + intros fh'. apply contents_upd; try done. intros x. by destruct (Hfs x) as (? & ? & ? & ?).
Qed.

(** C21: write implements the append-only byte array. On a file with bytes [c], a
    write below the end fails with EPERM and changes nothing; at or past the end it
    returns the full count, the file then holds [c], zeros up to the offset and the
    data, and no other handle's contents change. Neither this call nor one before it met
    a fault. *)
Theorem fused_write_refines e fh i c buf off w :
  quiet_reachable w -> quiet e -> is_file w fh i -> contents w fh = Some c ->
  off + Z.of_nat (length buf) < 2 ^ 63 -> Z.of_nat (length buf) < 2 ^ 31 ->
  match abs_write c buf off with
  | None => fused_write e fh buf off w = (- EPERM, w)
  | Some c' =>
      exists w', fused_write e fh buf off w = (Z.of_nat (length buf), w') /\
        size (deref (g_state w') i) = Z.of_nat (length c') /\
        forall fh', contents w' fh' = if decide (fh' = fh) then Some c' else contents w fh'
  end.
Proof. apply write_refines. Qed.

Lemma read_quiet e fh sz off w i c :
  wf (g_state w) -> is_file w fh i -> quiet e -> contents w fh = Some c ->
  0 <= off -> 0 <= sz < 2 ^ 31 -> size (deref (g_state w) i) < 2 ^ 63 -> off + sz < 2 ^ 64 ->
  (fused_read e fh sz off w).1 =
    let got := if decide (size (deref (g_state w) i) <= off) then []
               else abs_read c (Z.min sz (size (deref (g_state w) i) - off)) off in
    (Z.of_nat (length got), got).
Proof.
  intros Hwf Hf Hq Hc Hoff Hsz Hmax H64. pose proof (is_file_backing _ _ _ Hwf Hf) as Hb.
  destruct Hf as (Hi & Hl & _). unfold contents in Hc. rewrite Hi in Hc. simpl in Hc.
  unfold fused_read. rewrite Hi. case_decide as Hend; [done |]. unfold fopen_rb.
  destruct Hq as (-> & _ & ->). rewrite bool_decide_eq_false_2 by done. simpl. rewrite Hc.
  rewrite decide_False by lia.
  replace (if decide (u64 (size (deref (g_state w) i)) < u64 (off + sz)) then _ else sz)
    with (Z.min sz (size (deref (g_state w) i) - off)).
  2:{ rewrite !u64_small by lia. case_decide; lia. }
  set (n := Z.min sz _). simpl.
  replace (slice off n c) with (abs_read c n off).
  2:{ unfold slice, abs_read. destruct (decide (n <= Z.of_nat (length c))).
      - by rewrite Z.min_l by lia.
      - rewrite Z.min_r by lia. rewrite !take_ge; [done | rewrite length_drop; lia..]. }
  rewrite s32_small; [done |]. unfold abs_read. rewrite length_take. lia.
Qed.

Lemma abs_read_clip c sz off :
  0 <= off -> 0 <= sz ->
  (if decide (Z.of_nat (length c) <= off) then []
   else abs_read c (Z.min sz (Z.of_nat (length c) - off)) off) = abs_read c sz off.
Proof.
  intros Hoff Hsz. unfold abs_read. case_decide.
  - rewrite drop_ge by lia. by rewrite take_nil.
  - destruct (decide (sz <= Z.of_nat (length c) - off)); [by rewrite Z.min_l by lia |].
    rewrite Z.min_r by lia. rewrite !take_ge; [done | rewrite length_drop; lia..].
Qed.

(** C22: read implements the byte array. It returns the requested slice of the
    file's bytes, clipped at the end of the file, its length as the count, and
    changes no contents. Neither this call nor one before it met a fault. *)
Theorem fused_read_refines e fh i c sz off w :
  quiet_reachable w -> quiet e -> is_file w fh i -> contents w fh = Some c ->
  0 <= off -> 0 <= sz < 2 ^ 31 -> Z.of_nat (length c) < 2 ^ 63 -> off + sz < 2 ^ 64 ->
  (fused_read e fh sz off w).1 = (Z.of_nat (length (abs_read c sz off)), abs_read c sz off) /\
  forall fh', contents (fused_read e fh sz off w).2 fh' = contents w fh'.
Proof.
  intros Hqr Hq Hf Hc Hoff Hsz Hmax H64. pose proof (quiet_sizes _ Hqr) as Hm.
  apply quiet_reachable_reachable, reachable_wf in Hqr as Hwf.
  destruct (contents_size _ _ _ _ Hm Hf Hc) as [Hdk Hs]. split.
  - rewrite (read_quiet _ _ _ _ _ i c) by (done || lia). cbv zeta.
    by rewrite Hs, abs_read_clip by lia.
  - intros fh'. destruct (fused_read e fh sz off w) as [[rc buf] w'] eqn:Hr. simpl.
    revert Hr. unfold fused_read. destruct Hf as (Hi & _). rewrite Hi.
    case_decide; [by intros [= _ _ <-] |]. destruct (fopen_rb _ _ _); [| by intros [= _ _ <-]].
    case_decide; intros [= _ _ <-]; [done |]. unfold contents, set_g. cbn [g_state disk].
    rewrite lookup_inode_upd by done. destruct (lookup_inode _ fh') as [j|]; simpl; [| done].
    by destruct (attrs_eq _ _ (frame_upd (g_state w) i (set_atime (time e 0))
                                 (fun x => eq_refl) j I)) as (_ & _ & _ & ->).
Qed.

Lemma is_file_upd w i f d fh :
  is_file w fh i -> (forall x, ino (f x) = ino x /\ mode (f x) = mode x) ->
  is_file (MkWorld (upd i f (g_state w)) d) fh i.
Proof.
  intros (Hi & Hl & Hreg) Hf.
  assert (Hlt : (i < length (inodes (g_state w)))%nat)
    by (by apply live_deref, proj1, lookup_lt_Some in Hl).
  split_and!; cbn [g_state].
  - by rewrite lookup_inode_upd by apply Hf.
  - apply live_attrs. apply live_attrs in Hl. rewrite deref_upd, decide_True by auto.
    by rewrite (proj1 (Hf _)).
  - rewrite deref_upd, decide_True by auto. by rewrite (proj2 (Hf _)).
Qed.

Lemma drop_appended c off buf :
  Z.of_nat (length c) <= off ->
  drop (Z.to_nat off) (c ++ appended (Z.of_nat (length c)) off buf) = buf.
Proof.
  intros Hoff. unfold appended. rewrite app_assoc, drop_app_ge;
    rewrite length_app, length_replicate; [| lia].
  by replace (_ - _)%nat with O by lia.
Qed.

Lemma write_then_read e e' fh i c buf off w :
  quiet_reachable w -> quiet e -> quiet e' -> is_file w fh i -> contents w fh = Some c ->
  Z.of_nat (length c) <= off ->
  off + Z.of_nat (length buf) < 2 ^ 63 -> Z.of_nat (length buf) < 2 ^ 31 ->
  (fused_read e' fh (Z.of_nat (length buf)) off (fused_write e fh buf off w).2).1
  = (Z.of_nat (length buf), buf).
Proof.
  intros Hqr Hq Hq' Hf Hc Hend Hoff Hlen. pose proof (quiet_sizes _ Hqr) as Hm.
  apply quiet_reachable_reachable, reachable_wf in Hqr as Hwf.
  destruct (contents_size _ _ _ _ Hm Hf Hc) as [Hdk Hs].
  destruct (write_quiet e fh buf off w i Hwf Hf Hq) as (f & Hfs & Hw); [lia | done |].
  pose proof (write_wf _ _ _ _ _ _ _ Hwf Hw) as [Hwf' _]. rewrite Hw. cbn [snd].
  set (c' := _ ++ _) in *.
  assert (Hlt : (i < length (inodes (g_state w)))%nat)
    by (destruct Hf as (_ & Hl & _); by apply live_deref, proj1, lookup_lt_Some in Hl).
  assert (Hf' : is_file (MkWorld (upd i f (g_state w))
    (<[backing_path (deref (g_state w) i):=c']> (disk w))) fh i).
  { apply is_file_upd; [done |]. intros x. by destruct (Hfs x) as (? & ? & ? & ?). }
  assert (Hsz : size (deref (upd i f (g_state w)) i) = off + Z.of_nat (length buf)).
  { rewrite deref_upd, decide_True by auto. by destruct (Hfs (deref (g_state w) i)) as (_ & _ & _ & ->). }
  rewrite (read_quiet e' fh _ off _ i c' Hwf' Hf' Hq'); cbn [g_state]; try lia.
  2:{ rewrite (contents_upd w fh i f c' fh), decide_True by
        (try done; intros x; by destruct (Hfs x) as (? & ? & ? & ?)). done. }
  assert (Hgot : abs_read c' (Z.of_nat (length buf)) off = buf).
  { unfold abs_read, c'. rewrite Hdk, Hs. simpl. rewrite drop_appended by done. by rewrite take_ge by lia. }
  rewrite Hsz. cbv zeta. case_decide.
  - destruct buf; [done | simpl in *; lia].
  - rewrite Z.min_l by lia. by rewrite Hgot.
Qed.

(** What was written at or past the end of a file is read back unchanged. *)
Theorem fused_write_then_read e e' fh i c buf off w :
  quiet_reachable w -> quiet e -> quiet e' -> is_file w fh i -> contents w fh = Some c ->
  Z.of_nat (length c) <= off ->
  off + Z.of_nat (length buf) < 2 ^ 63 -> Z.of_nat (length buf) < 2 ^ 31 ->
  (fused_read e' fh (Z.of_nat (length buf)) off (fused_write e fh buf off w).2).1
  = (Z.of_nat (length buf), buf).
Proof. apply write_then_read. Qed.

(** Opening never grants write access without O_APPEND, never opens a
    directory, hands out the inode number as handle, and changes no file and no
    path; every other open of an existing file succeeds. *)
Theorem fused_open_spec e path flags w :
  let '(rc, fh, w') := fused_open e path flags w in
  disk w' = disk w /\
  match path_to_inode (g_state w) path with
  | None => rc = - ENOENT /\ fh = None /\ w' = w
  | Some i =>
      let x := deref (g_state w) i in
      (S_ISDIR (mode x) = true /\ rc = - EISDIR /\ fh = None /\ w' = w) \/
      (S_ISDIR (mode x) = false /\ Z.land flags O_ACCMODE ∈ [O_WRONLY; O_RDWR] /\
         Z.land flags O_APPEND = 0 /\ rc = - EPERM /\ fh = None /\ w' = w) \/
      (S_ISDIR (mode x) = false /\
         (Z.land flags O_ACCMODE ∈ [O_WRONLY; O_RDWR] -> Z.land flags O_APPEND <> 0) /\
         rc = 0 /\ fh = Some (ino x) /\
         g_state w' = upd i (set_atime (time e 0)) (g_state w))
  end.
Proof.
  unfold fused_open. destruct (path_to_inode (g_state w) path) as [i|]; [| by split_and!].
  destruct (S_ISDIR _) eqn:Hd; [split; [done |]; left; by split_and!|].
  destruct (_ && _) eqn:Hacc; (split; [done |]); right.
  - apply andb_true_iff in Hacc as [Ha Hap]. left. split_and!; try done; [| lia].
    rewrite !elem_of_cons. apply orb_true_iff in Ha. lia.
  - right. split_and!; try done. rewrite !elem_of_cons, elem_of_nil. intros Ha.
    apply andb_false_iff in Hacc as [Hno|Hno]; [| lia].
    apply orb_false_iff in Hno. lia.
Qed.

(** A short [fwrite] makes write fail with EIO without recording the bytes that
    did reach the file; a retry of the same write then succeeds, but the data is not
    at its offset: reading it back yields the leftover bytes first. *)
Theorem fused_short_write_misaligns e e' fh i c buf m w :
  quiet_reachable w -> is_file w fh i -> contents w fh = Some c ->
  fopen_ok e = true -> fwrite_short e 0 = Some m -> (m < length buf)%nat -> quiet e' ->
  Z.of_nat (length c) + Z.of_nat (length buf) < 2 ^ 63 -> Z.of_nat (length buf) < 2 ^ 31 ->
  let off := Z.of_nat (length c) in
  let '(rc1, w1) := fused_write e fh buf off w in
  let '(rc2, w2) := fused_write e' fh buf off w1 in
  rc1 = - EIO /\ g_state w1 = g_state w /\ contents w1 fh = Some (c ++ take m buf) /\
  rc2 = Z.of_nat (length buf) /\
  (fused_read e' fh (Z.of_nat (length buf)) off w2).1.2 = take (length buf) (take m buf ++ buf).
Proof.
  intros Hqr Hf Hc Hop Hsh Hm' Hq' Hoff Hlen off. pose proof (quiet_sizes _ Hqr) as Hm.
  apply quiet_reachable_reachable, reachable_wf in Hqr as Hwf.
  destruct (contents_size _ _ _ _ Hm Hf Hc) as [Hdk Hs].
  pose proof (is_file_backing _ _ _ Hwf Hf) as Hb. pose proof Hf as (Hi & Hl & Hreg).
  set (b := backing_path (deref (g_state w) i)) in *.
  set (w1 := MkWorld (g_state w) (<[b := c ++ take m buf]> (disk w))).
  assert (Hw1 : fused_write e fh buf off w = (- EIO, w1)).
  { unfold fused_write, fopen_ab, off. rewrite Hi, Hop, decide_False by lia.
    fold b. rewrite bool_decide_eq_false_2 by done. simpl.
    rewrite decide_False, Hdk by lia. unfold fwrite. rewrite Hsh. simpl.
    rewrite decide_True by lia. by rewrite Nat.min_l by lia. }
  assert (Hf1 : is_file w1 fh i) by done.
  assert (Hwf1 : wf (g_state w1)) by done.
  destruct (write_quiet e' fh buf off w1 i Hwf1 Hf1 Hq') as (f & Hfs & Hw2);
    [simpl; lia | unfold off; lia |].
  pose proof (write_wf _ _ _ _ _ _ _ Hwf1 Hw2) as [Hwf2 _].
  rewrite Hw1, Hw2. split_and!; try done.
  - unfold contents, w1. cbn [g_state disk]. rewrite Hi. simpl. fold b. by rewrite lookup_insert_eq.
  - by rewrite s32_small by lia.
  - assert (Hlt : (i < length (inodes (g_state w)))%nat)
      by (by apply live_deref, proj1, lookup_lt_Some in Hl).
    assert (Hsz : size (deref (upd i f (g_state w1)) i) = off + Z.of_nat (length buf)).
    { rewrite deref_upd, decide_True by auto. by destruct (Hfs (deref (g_state w1) i)) as (_ & _ & _ & ->). }
    match goal with |- context [<[_ := ?c]> (disk w1)] => set (c2 := c) end.
    assert (Hc2 : c2 = c ++ take m buf ++ buf).
    { unfold c2. cbn [disk g_state w1]. fold b. rewrite lookup_insert_eq, Hs. unfold appended, off.
      rewrite Z.sub_diag. simpl. by rewrite app_assoc. }
    rewrite (read_quiet e' fh _ off _ i c2 Hwf2); cbn [g_state]; try (unfold off; lia).
    + rewrite Hsz. simpl. rewrite decide_False by lia. rewrite Z.min_l by lia. unfold abs_read.
      rewrite Hc2. unfold off. rewrite !Nat2Z.id. by rewrite drop_app_length.
    + apply is_file_upd; [done |]. intros x. by destruct (Hfs x) as (? & ? & ? & ?).
    + done.
    + etransitivity; [apply (contents_upd w1 fh i f c2 fh) | by rewrite decide_True]; try done.
      intros x. by destruct (Hfs x) as (? & ? & ? & ?).
Qed.

Lemma unlink_all e l d p :
  unlink_ok e = true ->
  foldl (fun d x => if decide (backing_path x = EmptyString) then d
                    else unlink e (backing_path x) d) d l !! p
  = if decide (p <> EmptyString /\ p ∈ backing_path <$> l) then None else d !! p.
Proof.
  intros Hu. revert d. induction l as [|x l IH]; intros d; simpl.
  { rewrite decide_False; [done |]. rewrite elem_of_nil. tauto. }
  rewrite IH. unfold unlink. rewrite Hu.
  pose proof (elem_of_cons (backing_path <$> l) p (backing_path x)) as Hcons.
  destruct (decide (p <> EmptyString /\ p ∈ backing_path <$> l)) as [Hl|Hl].
  { rewrite decide_True by tauto. done. }
  case_decide as Hx.
  - rewrite decide_False; [done |]. rewrite Hcons. intros [Hp [->|?]]; tauto.
  - destruct (decide (p = backing_path x)) as [->|Hne].
    + rewrite decide_True by (rewrite Hcons; tauto). by rewrite lookup_delete_eq.
    + rewrite decide_False by (rewrite Hcons; tauto). by rewrite lookup_delete_ne.
Qed.

(** Unmounting removes the backing file of every live inode and leaves all other
    files alone. *)
Theorem fused_destroy_spec e w p :
  reachable w -> unlink_ok e = true ->
  ((exists i, live (g_state w) i /\ i <> O /\ p = backing_path (deref (g_state w) i)) ->
     fused_destroy e w !! p = None) /\
  ((forall i, live (g_state w) i -> i <> O -> p <> backing_path (deref (g_state w) i)) ->
     fused_destroy e w !! p = disk w !! p).
Proof.
  intros Hwf%reachable_wf Hu. unfold fused_destroy. rewrite unlink_all by done.
  pose proof (wf_wfb _ Hwf) as Hb. split.
  - intros (i & (x & Hx & Hxi) & H0 & ->). rewrite decide_True; [done |].
    pose proof (live_backing _ i Hb ltac:(by exists x)) as Hbk. rewrite decide_False in Hbk by done.
    split; [by rewrite Hbk |]. rewrite (deref_Some _ _ _ Hx).
    destruct (wf_live_slot _ _ _ Hb Hx Hxi) as (Hlt & _). apply list_elem_of_fmap.
    exists x. split; [done |]. apply list_elem_of_lookup. exists i. by apply lookup_take_Some.
  - intros Hno. rewrite decide_False; [done |]. intros [Hp Hin].
    apply list_elem_of_fmap in Hin as (x & -> & Hin). apply list_elem_of_lookup in Hin as [i Hi].
    apply lookup_take_Some in Hi as [Hi Hlt].
    destruct (wf_slot _ Hb i x Hi) as [->|(_ & Hxi & _ & Hbk)]; [done |].
    apply (Hno i); [by exists x | | by rewrite (deref_Some _ _ _ Hi)].
    intros ->. unfold backing_ok in Hbk. by rewrite Hxi, decide_True in Hbk.
Qed.

(** ** The theorems at concrete states *)

Lemma demo_quiet : quiet demo_env.
Proof. by split_and!. Qed.

Lemma run_quiet e os w :
  quiet e -> Forall op_small os -> quiet_reachable w -> quiet_reachable (run e os w).
Proof.
  intros Hq. revert w. induction os as [|o os IH]; intros w Hs Hw; simpl; [done |].
  apply Forall_cons in Hs as [Ho Hs].
  destruct (fused_oper e o w) as [[rc w']|] eqn:Hop; [| done].
  apply IH; [done |]. by eapply quiet_step.
Qed.

Lemma w_file_quiet : quiet_reachable w_file.
Proof.
  unfold w_file, w_dir, w_empty. repeat (apply run_quiet; [apply demo_quiet | by repeat constructor |]).
  apply quiet_init.
Qed.

Lemma w_data_quiet : quiet_reachable w_data.
Proof.
  apply run_quiet; [apply demo_quiet | | apply w_file_quiet]. constructor; [| done].
  simpl. lia.
Qed.

Lemma live_by_ino st i x : inodes st !! i = Some x -> ino x = Z.of_nat i + 1 -> live st i.
Proof. intros. by exists x. Qed.

Lemma w_data_file : is_file w_data 3 2.
Proof.
  split_and!; [vm_compute; reflexivity | | vm_compute; reflexivity].
  apply live_attrs. vm_compute. reflexivity.
Qed.

Lemma fused_append_only_witness :
  let w' := (fused_write short_env 3 [40; 50; 60] 3 w_data).2 in
  exists t, disk w' !! backing_path (deref (g_state w') 2) = Some ([10; 20; 30] ++ t).
Proof.
  apply (fused_append_only short_env (OpWrite 3 [40; 50; 60] 3) w_data (- EIO)
           (fused_write short_env 3 [40; 50; 60] 3 w_data).2 2 [10; 20; 30] w_data_reach);
    [apply (f_equal Some), by_fst; vm_compute; reflexivity
    | apply live_attrs; vm_compute; reflexivity | apply live_attrs; vm_compute; reflexivity
    | vm_compute; reflexivity].
Defined.

Lemma fused_sizes_match_witness : sizes_match w_data.
Proof. exact (fused_sizes_match w_data w_data_quiet). Defined.

Lemma fused_write_refines_witness :
  exists w', fused_write demo_env 3 [40; 50] 5 w_data = (2, w') /\
    contents w' 3 = Some [10; 20; 30; 0; 0; 40; 50].
Proof.
  destruct (fused_write_refines demo_env 3 2 [10; 20; 30] [40; 50] 5 w_data
    w_data_quiet demo_quiet w_data_file) as (w' & Hw & _ & Hc);
    [vm_compute; reflexivity | simpl; lia | simpl; lia |].
  exists w'. split; [exact Hw |]. rewrite Hc. reflexivity.
Defined.

Lemma fused_read_refines_witness :
  (fused_read demo_env 3 10 1 w_data).1 = (2, [20; 30]).
Proof.
  apply (fused_read_refines demo_env 3 2 [10; 20; 30] 10 1 w_data w_data_quiet demo_quiet
           w_data_file); [vm_compute; reflexivity | simpl; lia ..].
Defined.

Lemma fused_write_then_read_witness :
  (fused_read demo_env 3 2 5 (fused_write demo_env 3 [40; 50] 5 w_data).2).1 = (2, [40; 50]).
Proof.
  apply (fused_write_then_read demo_env demo_env 3 2 [10; 20; 30] [40; 50] 5 w_data
           w_data_quiet demo_quiet demo_quiet w_data_file);
    [vm_compute; reflexivity | simpl; lia ..].
Defined.

Lemma fused_short_write_misaligns_witness :
  let '(rc1, w1) := fused_write short_env 3 [40; 50; 60] 3 w_data in
  let '(rc2, w2) := fused_write demo_env 3 [40; 50; 60] 3 w1 in
  rc1 = - EIO /\ g_state w1 = g_state w_data /\ contents w1 3 = Some [10; 20; 30; 40; 50] /\
  rc2 = 3 /\ (fused_read demo_env 3 3 3 w2).1.2 = [40; 50; 40].
Proof.
  apply (fused_short_write_misaligns short_env demo_env 3 2 [10; 20; 30] [40; 50; 60] 2 w_data
           w_data_quiet w_data_file);
    [vm_compute; reflexivity | reflexivity | reflexivity | simpl; lia | apply demo_quiet
    | simpl; lia | simpl; lia].
Defined.

Lemma fused_destroy_spec_witness :
  fused_destroy demo_env w_data !! backing_path (deref (g_state w_data) 2) = None.
Proof.
  apply (fused_destroy_spec demo_env w_data _ w_data_reach eq_refl).
  exists 2%nat. split; [| split; [discriminate | reflexivity]].
  apply live_attrs. vm_compute. reflexivity.
Defined.
