(* ===== verification/Proto.v ===== *)
(** * The gRPC service: [src/proto/filesystem.proto]

    The messages of [FileSystemService] and the service as an interface.  Two servers
    implement it ([fused_rpc_server.cpp], [distributed_frontend.cpp]) and the clients
    ([storage_tcp_adapter.cpp], [distributed_client.cpp], [grpc_client.cc]) are written
    against it.  A [string] or [bytes] field may contain any byte. *)

From stdpp Require Import base strings list numbers.
From S2P Require Import Prelude CString.

#[local] Open Scope Z_scope.

(** ** Messages *)

Record CreateRequest := MkCreateReq { create_pathname : string; filename : string; create_mode : Z }.

Record MkdirRequest := MkMkdirReq { mkdir_pathname : string; dirname : string; mkdir_mode : Z }.

Record RemoveRequest := MkRemoveReq { remove_pathname : string }.

Record RmdirRequest := MkRmdirReq { rmdir_pathname : string }.

Record WriteRequest := MkWriteReq { write_pathname : string; write_data : list Z; write_offset : Z }.

Record GetRequest := MkGetReq { get_pathname : string; get_offset : Z; get_size : Z }.

Record ReadDirectoryRequest := MkReaddirReq { readdir_pathname : string }.

(** [CreateResponse], [MkdirResponse], [RemoveResponse] and [RmdirResponse]. *)
Record StatusResponse := MkStatus { status_code : Z; error_message : string }.

Record WriteResponse := MkWriteResp { written : Z; write_status : Z; write_error : string }.

Record GetResponse := MkGetResp { got : list Z; read_count : Z; get_status : Z; get_error : string }.

Record FileEntry := MkFileEntry { entry_name : string; is_directory : bool; entry_size : Z; entry_mtime : Z }.

Record ReadDirectoryResponse :=
  MkReaddirResp { listing : list FileEntry; readdir_status : Z; readdir_error : string }.

(** ** The service *)

(** [S] is the server's state and [E] what a handler observes.  [None]: there is no
    response, because the call ends with a gRPC status other than OK or does not return. *)
Class FileSystemService (S E : Type) := {
  Create : E -> CreateRequest -> S -> option StatusResponse * S;
  Mkdir : E -> MkdirRequest -> S -> option StatusResponse * S;
  Remove : E -> RemoveRequest -> S -> option StatusResponse * S;
  Rmdir : E -> RmdirRequest -> S -> option StatusResponse * S;
  Write : E -> WriteRequest -> S -> option WriteResponse * S;
  Get : E -> GetRequest -> S -> option GetResponse * S;
  ReadDirectory : E -> ReadDirectoryRequest -> S -> option ReadDirectoryResponse * S;
}.
