(* ===== verification/RpcServer.v ===== *)
(** * The RPC server of a storage node: [src/src/fused_rpc_server.cpp]

    gRPC handlers over the operations of [FusedFs], without FUSE.  A handler is one
    step: the server takes no lock, so this is its behaviour when calls do not
    overlap.  [strerror] is the C library's. *)

From stdpp Require Import base gmap strings list numbers.
From Stdlib Require Import Ascii.
From S2P Require Import Prelude CString FusedFs Proto.

#[local] Open Scope Z_scope.

Definition mount_prefix : string := "/mnt/fused".

Definition normalize_path (path : string) : string :=
  if starts_with mount_prefix path then
    let normalized := str_drop (String.length mount_prefix) path in
    if decide (normalized = EmptyString) then "/"%string else normalized
  else
    match path with
    | EmptyString => "/"%string
    | String a _ => if decide (a <> slash) then String slash path else path
    end.

(** [parent], a ['/'] unless it ends in one, [name]. *)
Definition full_path (parent name : string) : string :=
  if decide (strrchr slash parent = Some (String.length parent - 1)%nat)
  then (parent +:+ name)%string else (parent +:+ String slash name)%string.

(** What one handler call observes: the calls it makes into [fused_ops.c], and whether a
    buffer of a given size can be allocated. *)
Record rpc_env := MkRpcEnv { create_env : env; io_env : env; buffer_ok : Z -> bool }.

Section Handlers.
Context (strerror : Z -> string).

(** The write once the inode is known. *)
Definition write_at (e : env) (i : nat) (data : list Z) (offset : Z) (w : world)
  : option WriteResponse * world :=
  let '(result, w') := fused_write e (ino (deref (g_state w) i)) data offset w in
  if decide (result < 0) then (Some (MkWriteResp 0 result (strerror (- result))), w')
  else (Some (MkWriteResp result 0 EmptyString), w').

Definition rpc_Write (e : rpc_env) (req : WriteRequest) (w : world) : option WriteResponse * world :=
  let path := c_str (normalize_path (write_pathname req)) in
  match path_to_inode (g_state w) path with
  | Some i => write_at (io_env e) i (write_data req) (write_offset req) w
  | None =>
      let '(create_result, _, w1) := fused_create (create_env e) path 420 w in
      if decide (create_result < 0)
      then (Some (MkWriteResp 0 create_result "Failed to create file"), w1)
      else
        match path_to_inode (g_state w1) path with
        | None => (Some (MkWriteResp 0 (- EIO) "Failed to get inode after creation"), w1)
        | Some i => write_at (io_env e) i (write_data req) (write_offset req) w1
        end
  end.

(** An allocation failure is an exception, which ends the call with an error status. *)
Definition rpc_Get (e : rpc_env) (req : GetRequest) (w : world) : option GetResponse * world :=
  let path := c_str (normalize_path (get_pathname req)) in
  let offset := get_offset req in
  let sz := u64 (get_size req) in
  match path_to_inode (g_state w) path with
  | None => (Some (MkGetResp [] 0 (- ENOENT) "File not found"), w)
  | Some i =>
      let x := deref (g_state w) i in
      let sz := if decide (sz = 0) then
                  if decide (offset < size x) then u64 (size x - offset) else 0
                else sz in
      if negb (buffer_ok e sz) then (None, w)
      else
        let '(result, buffer, w') := fused_read (io_env e) (ino x) sz offset w in
        if decide (result < 0) then (Some (MkGetResp [] 0 result (strerror (- result))), w')
        else (Some (MkGetResp (take (Z.to_nat result) buffer) result 0 EmptyString), w')
  end.

(** The entry for one child, if its inode exists. *)
Definition list_child (st : fused_state) (c : string * Z) : option FileEntry :=
  j ← lookup_inode st c.2;
  let child := deref st j in
  Some (MkFileEntry c.1 (S_ISDIR (mode child)) (size child) (mtime child)).

Definition rpc_ReadDirectory (req : ReadDirectoryRequest) (w : world)
  : option ReadDirectoryResponse * world :=
  let path := c_str (normalize_path (readdir_pathname req)) in
  match path_to_inode (g_state w) path with
  | None => (Some (MkReaddirResp [] (- ENOENT) "Directory not found"), w)
  | Some i =>
      let dir := deref (g_state w) i in
      if negb (S_ISDIR (mode dir)) then (Some (MkReaddirResp [] (- ENOTDIR) "Not a directory"), w)
      else
        let children := zip (take (n_children dir) (child_names dir))
                            (take (n_children dir) (child_inodes dir)) in
        (Some (MkReaddirResp (omap (list_child (g_state w)) children) 0 EmptyString), w)
  end.

(** The response for the result of a filesystem call. *)
Definition status_of (res : Z) : option StatusResponse :=
  Some (MkStatus res (if decide (res < 0) then strerror (- res) else EmptyString)).

Definition rpc_Remove (e : rpc_env) (req : RemoveRequest) (w : world) : option StatusResponse * world :=
  let path := c_str (normalize_path (remove_pathname req)) in
  let '(res, w') := fused_unlink (io_env e) path w in (status_of res, w').

Definition rpc_Create (e : rpc_env) (req : CreateRequest) (w : world) : option StatusResponse * world :=
  let path := c_str (full_path (normalize_path (create_pathname req)) (filename req)) in
  let '(res, _, w') := fused_create (create_env e) path (create_mode req) w in (status_of res, w').

Definition rpc_Mkdir (e : rpc_env) (req : MkdirRequest) (w : world) : option StatusResponse * world :=
  let path := c_str (full_path (normalize_path (mkdir_pathname req)) (dirname req)) in
  let '(res, w') := fused_mkdir (io_env e) path (mkdir_mode req) w in (status_of res, w').

(** [Rmdir] is not overridden: the generated default answers UNIMPLEMENTED. *)
Definition rpc_service : FileSystemService world rpc_env := {|
  Create := rpc_Create;
  Mkdir := rpc_Mkdir;
  Remove := rpc_Remove;
  Rmdir := fun _ _ w => (None, w);
  Write := rpc_Write;
  Get := rpc_Get;
  ReadDirectory := fun _ => rpc_ReadDirectory;
|}.

End Handlers.

(** The state [RunServer] sets up before it listens; [None] when it gives up.  The files
    in [d] exist before. *)
Definition RunServer (e : env) (calloc_ok mkdir_ok : bool) (d : gmap string (list Z)) : option world :=
  if negb calloc_ok then None
  else
    let st := MkState (replicate MAX_INODES zero_inode) 0 (strncpy (MAX_PATH - 1) "/tmp/fused_backing") in
    if negb mkdir_ok then None
    else
      let t := time e 0 in
      let root x := MkInode FUSE_ROOT_ID (Z.lor S_IFDIR O_0755) (getuid e) (getgid e) 4096 t t t 0
                      (child_names x) (child_inodes x) (backing_path x) in
      Some (MkWorld (MkState (alter root 0%nat (inodes st)) 1 (backing_dir st)) d).

(** ** Executions *)

Inductive rpc_call :=
| CallCreate (req : CreateRequest)
| CallMkdir (req : MkdirRequest)
| CallRemove (req : RemoveRequest)
| CallRmdir (req : RmdirRequest)
| CallWrite (req : WriteRequest)
| CallGet (req : GetRequest)
| CallReadDirectory (req : ReadDirectoryRequest).

(** The server's state after a call. *)
Definition serve {S E} `{FileSystemService S E} (e : E) (c : rpc_call) (s : S) : S :=
  match c with
  | CallCreate r => (Create e r s).2
  | CallMkdir r => (Mkdir e r s).2
  | CallRemove r => (Remove e r s).2
  | CallRmdir r => (Rmdir e r s).2
  | CallWrite r => (Write e r s).2
  | CallGet r => (Get e r s).2
  | CallReadDirectory r => (ReadDirectory e r s).2
  end.

Inductive rpc_reachable (strerror : Z -> string) : world -> Prop :=
| rpc_start e d w : RunServer e true true d = Some w -> rpc_reachable strerror w
| rpc_serve e c w :
    rpc_reachable strerror w ->
    rpc_reachable strerror (serve (H := rpc_service strerror) e c w).
