(* ===== verification/RpcThm.v ===== *)
(** * The RPC server: theorems

    Every state of the server is a state of a mounted filesystem, so the invariants of
    the filesystem hold of it; what the naming requests do; what was written is read back; listings are the
    directory; which paths are normalised to absolute ones. *)

From stdpp Require Import base gmap strings list numbers.
From Stdlib Require Import Ascii.
From S2P Require Import Prelude CString NameTree FusedFs FusedInv FusedReach FusedRun.
From S2P Require Import FusedNames FusedData Proto RpcServer.

#[local] Open Scope Z_scope.

(** ** Simulation *)

(** The hand-written initialisation agrees with [fused_init]. *)
Lemma RunServer_init e c m d :
  RunServer e c m d = if c && m then Some (fused_init e d) else None.
Proof. by destruct c, m. Qed.

Lemma write_at_reach se e i data off w :
  reachable w -> reachable (write_at se e i data off w).2.
Proof.
  intros Hw. unfold write_at. destruct (fused_write _ _ _ _ w) as [rc w'] eqn:Hwr.
  assert (reachable w') by (eapply (reach_step e (OpWrite _ data off)); [exact Hw | simpl; by rewrite Hwr]).
  by case_decide.
Qed.

Lemma create_reach e p md w : reachable w -> reachable (fused_create e p md w).2.
Proof.
  intros Hw. apply (reach_step e (OpCreate p md) w (fused_create e p md w).1.1); [exact Hw |]. simpl.
  by destruct (fused_create e p md w) as [[??]?].
Qed.

Lemma serve_reach se e c w :
  reachable w -> reachable (serve (H := rpc_service se) e c w).
Proof.
  intros Hw. destruct c as [r|r|r|r|r|r|r]; cbn [serve rpc_service Create Mkdir Remove Rmdir Write Get ReadDirectory].
  - unfold rpc_Create. pose proof (create_reach (create_env e)
      (c_str (full_path (normalize_path (create_pathname r)) (filename r))) (create_mode r) w Hw).
    by destruct (fused_create _ _ _ w) as [[??]?].
  - unfold rpc_Mkdir. destruct (fused_mkdir _ _ _ w) as [rc w'] eqn:Hm.
    eapply (reach_step _ (OpMkdir _ _)); [exact Hw | simpl; by rewrite Hm].
  - unfold rpc_Remove. destruct (fused_unlink _ _ w) as [rc w'] eqn:Hm.
    eapply (reach_step _ (OpUnlink _)); [exact Hw | simpl; by rewrite Hm].
  - done.
  - unfold rpc_Write. destruct (path_to_inode (g_state w) _); [by apply write_at_reach |].
    pose proof (create_reach (create_env e) (c_str (normalize_path (write_pathname r))) 420 w Hw) as Hc.
    destruct (fused_create _ _ _ w) as [[rc fh] w1]. case_decide; [done |].
    destruct (path_to_inode (g_state w1) _); [by apply write_at_reach | done].
  - unfold rpc_Get. destruct (path_to_inode (g_state w) _) as [i|]; [| done].
    destruct (negb _); [done |]. set (sz := if decide (u64 (get_size r) = 0) then _ else _).
    destruct (fused_read _ _ _ _ w) as [[rc buf] w'] eqn:Hr.
    assert (reachable w')
      by (eapply (reach_step (io_env e) (OpRead _ sz (get_offset r))); [exact Hw | simpl; by rewrite Hr]).
    by case_decide.
  - unfold rpc_ReadDirectory. destruct (path_to_inode _ _); [| done]. by destruct (negb _).
Qed.

Lemma rpc_reach se w : rpc_reachable se w -> reachable w.
Proof.
  induction 1 as [e d w Hw|e c w _ IH]; [| by apply serve_reach].
  rewrite RunServer_init in Hw. injection Hw as <-. apply reach_init.
Qed.

(** The RPC server refines the filesystem. Whatever requests a storage node serves,
    in whatever order and with whatever failures, its state is one that a mounted
    filesystem can reach by calls of the operation table, so its inode table is
    well-formed. *)
Theorem rpc_server_refines se w : rpc_reachable se w -> reachable w /\ wf (g_state w).
Proof. intros Hr%rpc_reach. split; [done | by apply reachable_wf]. Qed.

(** ** Paths *)

(** Paths are made absolute, except where the mount prefix is followed directly by
    more of a name: then what is left has no leading ['/']. *)
Theorem rpc_normalize_path_spec p :
  (exists s, normalize_path p = String slash s) <->
  ~ exists a s, p = (mount_prefix +:+ String a s)%string /\ a <> slash.
Proof.
  unfold normalize_path. destruct (starts_with mount_prefix p) eqn:Hs.
  - apply starts_with_app in Hs as [t ->]. rewrite str_drop_app. case_decide as Ht.
    + subst. split; [| by eexists]. intros _ (a & s & Heq & _). by apply (str_app_inj_l mount_prefix EmptyString) in Heq.
    + destruct t as [|b t]; [done |]. split.
      * intros [s [= -> ->]] (a & s' & Heq & Ha). apply str_app_inj_l in Heq. congruence.
      * intros Hn. exists t. f_equal. destruct (decide (b = slash)) as [|Hb]; [done |].
        exfalso. apply Hn. by exists b, t.
  - split.
    + intros _ (a & s & -> & _). apply not_true_iff_false in Hs. apply Hs, starts_with_app. by eexists.
    + intros _. destruct p as [|a p]; [by eexists |]. case_decide as Ha; [by eexists |].
      exists p. f_equal. apply dec_stable. tauto.
Qed.

(** ** Names *)

(** The components a request's path names below the mount point. *)
Definition request_tokens (p : string) : list string :=
  strtok slash (if starts_with mount_prefix p then str_drop (String.length mount_prefix) p else p).

(** A path without NULs whose mount prefix, if it has one, is a whole component. *)
Definition request_ok (p : string) : Prop :=
  no_nul p /\ forall t, p = (mount_prefix +:+ t)%string -> t = EmptyString \/ exists s, t = String slash s.

(** A name of one component. *)
Definition name_ok (p name : string) : Prop :=
  no_nul name /\ name <> EmptyString /\ ~ str_in slash name /\
  (String.length p + String.length name + 2 < MAX_PATH)%nat.

Lemma strtok_slash s : strtok slash (String slash s) = strtok slash s.
Proof. exact (strtok_app slash EmptyString s). Qed.

Lemma normalize_tokens p :
  request_ok p ->
  exists s, normalize_path p = String slash s /\ strtok slash s = request_tokens p /\ no_nul s /\
    (String.length s <= String.length p)%nat.
Proof.
  intros [Hn Hm]. unfold normalize_path, request_tokens. destruct (starts_with mount_prefix p) eqn:Hs.
  - apply starts_with_app in Hs as [t ->]. rewrite str_drop_app. apply no_nul_app in Hn as [_ Hn].
    rewrite str_length_app. destruct (Hm t eq_refl) as [->|[s ->]].
    + exists EmptyString. rewrite decide_True by done. split_and!; try done. simpl. lia.
    + exists s. rewrite decide_False by done. rewrite strtok_slash. destruct Hn as [_ Hn].
      split_and!; try done. simpl. lia.
  - destruct p as [|a p]; [by exists EmptyString |]. case_decide as Ha; [by exists (String a p) |].
    subst a. exists p. rewrite strtok_slash. destruct Hn as [_ Hn].
    split_and!; try done. simpl. lia.
Qed.

Lemma ends_in_slash s :
  strrchr slash (String slash s) = Some (String.length (String slash s) - 1)%nat ->
  s = EmptyString \/ exists u, s = (u +:+ String slash EmptyString)%string.
Proof.
  intros (Hsp & _ & Hk)%strrchr_Some. set (k := (_ - 1)%nat) in *.
  assert (Hd : str_drop (S k) (String slash s) = EmptyString)
    by (apply str_length_nil; rewrite str_length_drop; unfold k; simpl; lia).
  rewrite Hd in Hsp. destruct (str_take k (String slash s)) as [|b u]; [left | right; exists u].
  - rewrite str_app_nil_l in Hsp. congruence.
  - rewrite str_app_cons in Hsp. congruence.
Qed.

Lemma full_path_tokens p name :
  request_ok p -> name_ok p name ->
  let path := c_str (full_path (normalize_path p) name) in
  path_tokens path = request_tokens p ++ [name] /\ has_slash path.
Proof.
  intros Hp (Hn & Hne & Hns & Hlen). destruct (normalize_tokens p Hp) as (s & -> & <- & Hs & Hl). cbv zeta.
  assert (Hone : strtok slash name = [name]) by (rewrite strtok_single, decide_False by done; done).
  assert (Hcase : exists t, full_path (String slash s) name = String slash t /\
    strtok slash t = strtok slash s ++ [name] /\ no_nul t /\
    (String.length t <= String.length s + String.length name + 1)%nat).
  { unfold full_path. case_decide as Hend.
    - exists (s +:+ name)%string. rewrite str_app_cons, str_length_app, no_nul_app. split_and!; try done; [| lia].
      apply ends_in_slash in Hend as [->|[u ->]]; [by rewrite str_app_nil_l, Hone |].
      rewrite str_app_assoc, str_app_cons, str_app_nil_l, !strtok_app, Hone.
      change (strtok slash EmptyString) with (@nil string). by rewrite app_nil_r.
    - exists (s +:+ String slash name)%string. rewrite str_app_cons, strtok_app, Hone, str_length_app, no_nul_app.
      split_and!; try done. simpl. lia. }
  destruct Hcase as (t & -> & Ht & Hnt & Hlt).
  rewrite c_str_id by (split; [done | exact Hnt]).
  assert (Hfit : strncpy (MAX_PATH - 1) (String slash t) = String slash t) by (apply strncpy_id; cbn [String.length]; lia).
  split; [| apply abs_has_slash]. unfold path_tokens. rewrite Hfit. exact Ht.
Qed.

(** What one request may do to the paths: bind one new component list to a fresh inode,
    remove one with everything below it, or nothing. *)
Definition binds_path (w w' : world) (ts : list string) (kind md : Z) : Prop :=
  walk_tokens (g_state w) 0 ts = None /\
  exists i, mode (deref (g_state w') i) = Z.lor kind (Z.land md O_0777) /\
    forall q, path_to_inode (g_state w') q =
      if decide (path_tokens q = ts) then Some i else path_to_inode (g_state w) q.

Definition drops_path (w w' : world) (ts : list string) : Prop :=
  is_Some (walk_tokens (g_state w) 0 ts) /\
  forall q, path_to_inode (g_state w') q =
    if decide (ts `prefix_of` path_tokens q) then None else path_to_inode (g_state w) q.

Definition keeps_paths (w w' : world) : Prop :=
  forall q, path_to_inode (g_state w') q = path_to_inode (g_state w) q.

Lemma path_walk w p : wf (g_state w) -> path_to_inode (g_state w) p = walk_tokens (g_state w) 0 (path_tokens p).
Proof. intros Hwf. rewrite walk_tokens_walk. apply path_to_inode_walk, Hwf. Qed.

(** Create, Mkdir and Remove. *)
Lemma create_names se e p name md w resp w' :
  reachable w -> request_ok p -> name_ok p name ->
  rpc_Create se e (MkCreateReq p name md) w = (Some resp, w') ->
  status_code resp = 0 /\ binds_path w w' (request_tokens p ++ [name]) S_IFREG md \/
  status_code resp < 0 /\ keeps_paths w w'.
Proof.
  intros Hr Hp Hname. destruct (full_path_tokens p name Hp Hname) as [Ht Hs].
  unfold rpc_Create. cbn [create_pathname filename create_mode]. set (path := c_str _) in *.
  destruct (fused_create (create_env e) path md w) as [[rc fh] w1] eqn:Hc. intros [= <- <-]. cbn [status_code].
  pose proof Hc as Hcc. apply create_cases in Hcc as [(Hneg & _)|(-> & _)]; [right | left | by apply reachable_wf].
  - split; [done |]. intros q. apply (errors_change_no_path (create_env e) (OpCreate path md) w rc w1 Hr); [| done].
    simpl. by rewrite Hc.
  - split; [done |]. destruct (create_spec _ _ _ _ _ _ Hr Hs Hc) as (Hnone & i & _ & Hm & _ & _ & Hq).
    rewrite path_walk in Hnone by (by apply reachable_wf). rewrite <- Ht. split; [done |]. by exists i.
Qed.

Lemma mkdir_names se e p name md w resp w' :
  reachable w -> request_ok p -> name_ok p name ->
  rpc_Mkdir se e (MkMkdirReq p name md) w = (Some resp, w') ->
  status_code resp = 0 /\ binds_path w w' (request_tokens p ++ [name]) S_IFDIR md \/
  status_code resp < 0 /\ keeps_paths w w'.
Proof.
  intros Hr Hp Hname. destruct (full_path_tokens p name Hp Hname) as [Ht Hs].
  unfold rpc_Mkdir. cbn [mkdir_pathname dirname mkdir_mode]. set (path := c_str _) in *.
  destruct (fused_mkdir (io_env e) path md w) as [rc w1] eqn:Hc. intros [= <- <-]. cbn [status_code].
  pose proof Hc as Hcc. apply mkdir_cases in Hcc as [(Hneg & _)|(-> & _)]; [right | left | by apply reachable_wf].
  - split; [done |]. intros q. apply (errors_change_no_path (io_env e) (OpMkdir path md) w rc w1 Hr); [| done].
    simpl. by rewrite Hc.
  - split; [done |]. destruct (fused_mkdir_spec _ _ _ _ _ Hr Hs Hc) as (Hnone & _ & i & Hm & _ & Hq).
    rewrite path_walk in Hnone by (by apply reachable_wf). rewrite <- Ht. split; [done |]. by exists i.
Qed.

Lemma remove_names se e p w resp w' :
  reachable w -> request_ok p -> (String.length p + 1 < MAX_PATH)%nat ->
  rpc_Remove se e (MkRemoveReq p) w = (Some resp, w') ->
  status_code resp = 0 /\ drops_path w w' (request_tokens p) \/
  status_code resp < 0 /\ keeps_paths w w'.
Proof.
  intros Hr Hp Hlen. destruct (normalize_tokens p Hp) as (s & Hn & Hts & Hnn & Hl).
  unfold rpc_Remove. cbn [remove_pathname]. rewrite Hn, c_str_id by (split; [done | exact Hnn]).
  assert (Ht : path_tokens (String slash s) = request_tokens p).
  { unfold path_tokens. rewrite strncpy_id by (cbn [String.length]; lia). exact Hts. }
  set (path := String slash s) in *.
  destruct (fused_unlink (io_env e) path w) as [rc w1] eqn:Hc. intros [= <- <-]. cbn [status_code].
  pose proof Hc as Hcc. apply unlink_cases in Hcc as [(Hneg & _)|(-> & _)]; [right | left | by apply reachable_wf].
  - split; [done |]. intros q. apply (errors_change_no_path (io_env e) (OpUnlink path) w rc w1 Hr); [| done].
    simpl. by rewrite Hc.
  - split; [done |]. destruct (unlink_spec _ _ _ _ Hr (abs_has_slash s) Hc) as ((i & Hi & _) & Hq).
    rewrite path_walk in Hi by (by apply reachable_wf). rewrite <- Ht. split; [by eexists | done].
Qed.

(** C34: what requests to a storage node do to names. In every state the RPC server can
    reach by handling requests one after the other, for paths and names that are free of
    NULs, fit the path buffer and are not glued to the mount prefix: a Create or Mkdir that
    reports 0 found nothing at the components of its path below the mount point followed
    by its name, binds exactly them, to a regular file or directory with the requested
    permission bits, and leaves every other path alone; a Remove that reports 0 removes
    exactly the components of its path and what is below them; any other answer is
    negative and changes no path. *)
Theorem rpc_names_spec se e w :
  rpc_reachable se w ->
  (forall p name md resp w', request_ok p -> name_ok p name ->
     rpc_Create se e (MkCreateReq p name md) w = (Some resp, w') ->
     status_code resp = 0 /\ binds_path w w' (request_tokens p ++ [name]) S_IFREG md \/
     status_code resp < 0 /\ keeps_paths w w') /\
  (forall p name md resp w', request_ok p -> name_ok p name ->
     rpc_Mkdir se e (MkMkdirReq p name md) w = (Some resp, w') ->
     status_code resp = 0 /\ binds_path w w' (request_tokens p ++ [name]) S_IFDIR md \/
     status_code resp < 0 /\ keeps_paths w w') /\
  (forall p resp w', request_ok p -> (String.length p + 1 < MAX_PATH)%nat ->
     rpc_Remove se e (MkRemoveReq p) w = (Some resp, w') ->
     status_code resp = 0 /\ drops_path w w' (request_tokens p) \/
     status_code resp < 0 /\ keeps_paths w w').
Proof.
  intros Hr%rpc_reach.
  split_and!; intros *; [by apply create_names | by apply mkdir_names | by apply remove_names].
Qed.

(** ** Write, then read *)

Lemma handle_is_file w i :
  wf (g_state w) -> live (g_state w) i -> S_ISDIR (mode (deref (g_state w) i)) = false ->
  is_file w (ino (deref (g_state w) i)) i.
Proof.
  intros Hwf Hl Hreg. split_and!; [| done | done].
  apply live_attrs in Hl as Ho. rewrite Ho. by apply lookup_inode_live; [apply Hwf |].
Qed.

(** The same bytes come back through the inode a path resolves to. *)
Lemma write_at_read se e e' p i data off w n w' :
  quiet_reachable w -> quiet e -> quiet e' -> path_to_inode (g_state w) p = Some i ->
  S_ISDIR (mode (deref (g_state w) i)) = false ->
  off + Z.of_nat (length data) < 2 ^ 63 -> Z.of_nat (length data) < 2 ^ 31 ->
  write_at se e i data off w = (Some (MkWriteResp n 0 EmptyString), w') ->
  n = Z.of_nat (length data) /\ path_to_inode (g_state w') p = Some i /\
  (fused_read e' (ino (deref (g_state w') i)) n off w').1 = (n, data).
Proof.
  intros Hqr Hq Hq' Hp Hreg Hoff Hlen Hw.
  pose proof (quiet_reachable_reachable _ Hqr) as Hwf%reachable_wf.
  pose proof (path_live _ _ _ (wf_wfb _ Hwf) Hp) as Hl.
  pose proof (handle_is_file w i Hwf Hl Hreg) as Hf.
  destruct (quiet_sizes _ Hqr i Hl Hreg) as (c & Hc & Hsz).
  assert (Hcont : contents w (ino (deref (g_state w) i)) = Some c)
    by (unfold contents; destruct Hf as (-> & _); exact Hc).
  unfold write_at in Hw. destruct (fused_write e _ data off w) as [rc w1] eqn:Hfw.
  pose proof (write_refines e _ i c data off w Hqr Hq Hf Hcont Hoff Hlen) as Href.
  unfold abs_write in Href. destruct (decide (off < Z.of_nat (length c))) as [|Hend].
  { rewrite Hfw in Href. injection Href as -> ->. rewrite decide_True in Hw by (unfold EPERM; lia). done. }
  destruct Href as (w2 & Heq & _). rewrite Hfw in Heq. injection Heq as -> <-.
  rewrite decide_False in Hw by lia. injection Hw as <- <-.
  pose proof (write_wf _ _ _ _ _ _ _ Hwf Hfw) as [Hwf' Hlinks].
  assert (Hp' : path_to_inode (g_state w1) p = Some i).
  { rewrite (same_links_paths (g_state w)); [done | apply Hwf | apply Hwf' | done]. }
  split_and!; [done | done |].
  pose proof (path_live _ _ _ (wf_wfb _ Hwf') Hp') as Hl'.
  apply live_attrs in Hl, Hl'. rewrite Hl', <- Hl.
  pose proof (write_then_read e e' _ i c data off w Hqr Hq Hq' Hf Hcont ltac:(lia) Hoff Hlen) as Hr.
  by rewrite Hfw in Hr.
Qed.

Lemma get_known se e p i off n data w :
  path_to_inode (g_state w) (c_str (normalize_path p)) = Some i ->
  0 < n < 2 ^ 31 -> buffer_ok e n = true -> n = Z.of_nat (length data) ->
  (fused_read (io_env e) (ino (deref (g_state w) i)) n off w).1 = (n, data) ->
  (rpc_Get se e (MkGetReq p off n) w).1 = Some (MkGetResp data n 0 EmptyString).
Proof.
  intros Hp Hn Hb Hlen Hr. unfold rpc_Get. cbn [get_pathname get_offset get_size].
  rewrite Hp, u64_small, (decide_False (P := n = 0)), Hb by lia. cbn [negb].
  destruct (fused_read _ _ _ _ w) as [[rc buf] w']. cbn [fst] in Hr. injection Hr as -> ->.
  rewrite decide_False by lia. cbn [fst]. by rewrite take_ge by lia.
Qed.

Lemma write_then_get se e e' p data off w n w' :
  let path := c_str (normalize_path p) in
  quiet_reachable w -> quiet (create_env e) -> quiet (io_env e) -> quiet (io_env e') ->
  has_slash path ->
  (forall i, path_to_inode (g_state w) path = Some i -> S_ISDIR (mode (deref (g_state w) i)) = false) ->
  data <> [] -> off + Z.of_nat (length data) < 2 ^ 63 -> Z.of_nat (length data) < 2 ^ 31 ->
  buffer_ok e' (Z.of_nat (length data)) = true ->
  rpc_Write se e (MkWriteReq p data off) w = (Some (MkWriteResp n 0 EmptyString), w') ->
  n = Z.of_nat (length data) /\
  (rpc_Get se e' (MkGetReq p off n) w').1 = Some (MkGetResp data n 0 EmptyString).
Proof.
  intros path Hqr Hqc Hq Hq' Hh Hreg Hne Hoff Hlen Hb Hw.
  assert (Hpos : 0 < Z.of_nat (length data)) by (destruct data; [done | simpl; lia]).
  enough (exists i, n = Z.of_nat (length data) /\ path_to_inode (g_state w') path = Some i /\
    (fused_read (io_env e') (ino (deref (g_state w') i)) n off w').1 = (n, data)) as (i & Hn & Hp & Hr).
  { split; [done |]. eapply get_known; [done | lia | by rewrite Hn | done | done]. }
  unfold rpc_Write in Hw. cbn [write_pathname write_data write_offset] in Hw. fold path in Hw.
  destruct (path_to_inode (g_state w) path) as [i|] eqn:Hp.
  { exists i. apply (write_at_read se (io_env e) (io_env e') path i data off w n w'); auto. }
  destruct (fused_create (create_env e) path 420 w) as [[rc fh] w1] eqn:Hc.
  case_decide as Hrc; [congruence |]. destruct (path_to_inode (g_state w1) path) as [i|] eqn:Hp1; [| done].
  exists i. pose proof (quiet_reachable_reachable _ Hqr) as Hr.
  assert (Hqr1 : quiet_reachable w1).
  { eapply (quiet_step (create_env e) (OpCreate path 420)); [done | done | done |]. simpl. by rewrite Hc. }
  assert (rc = 0) as ->.
  { pose proof Hc as Hcc. apply create_cases in Hcc as [(? & _)|(? & _)]; [lia | done | by apply reachable_wf]. }
  destruct (create_spec _ _ _ _ _ _ Hr Hh Hc) as (_ & j & _ & Hm & _ & _ & Hpaths).
  pose proof (Hpaths path) as Hj. rewrite decide_True, Hp1 in Hj by done. injection Hj as ->.
  apply (write_at_read se (io_env e) (io_env e') path j data off w1 n w'); auto.
  by rewrite Hm, isdir_create.
Qed.

(** C35: what a client writes through the RPC server it reads back. If Write reports
    success on a path with a slash that is new or names a regular file, it wrote all bytes
    and the next Get of that range returns them. No call met a fault. *)
Theorem rpc_write_then_get se e e' p data off w n w' :
  let path := c_str (normalize_path p) in
  quiet_reachable w -> quiet (create_env e) -> quiet (io_env e) -> quiet (io_env e') ->
  has_slash path ->
  (forall i, path_to_inode (g_state w) path = Some i -> S_ISDIR (mode (deref (g_state w) i)) = false) ->
  data <> [] -> off + Z.of_nat (length data) < 2 ^ 63 -> Z.of_nat (length data) < 2 ^ 31 ->
  buffer_ok e' (Z.of_nat (length data)) = true ->
  rpc_Write se e (MkWriteReq p data off) w = (Some (MkWriteResp n 0 EmptyString), w') ->
  n = Z.of_nat (length data) /\
  (rpc_Get se e' (MkGetReq p off n) w').1 = Some (MkGetResp data n 0 EmptyString).
Proof. apply write_then_get. Qed.

(** A write that reports status 0 carries no error text. *)
Lemma write_ok_shape se e req w r w' :
  rpc_Write se e req w = (Some r, w') -> write_status r = 0 -> r = MkWriteResp (written r) 0 EmptyString.
Proof.
  assert (Hat : forall i d off w0, (write_at se (io_env e) i d off w0) = (Some r, w') -> write_status r = 0 ->
    r = MkWriteResp (written r) 0 EmptyString).
  { intros i d off w0. unfold write_at. destruct (fused_write _ _ _ _ _) as [rc w1].
    case_decide; intros [= <- <-] H0; simpl in H0; [lia | done]. }
  unfold rpc_Write. destruct (path_to_inode (g_state w) _); [apply Hat |].
  destruct (fused_create _ _ _ _) as [[rc fh] w1]. case_decide; [intros [= <- <-] H0; simpl in H0; lia |].
  destruct (path_to_inode (g_state w1) _); [apply Hat |]. by intros [= <- <-].
Qed.

(** ** Listings *)

(** Every entry of a well-formed directory is listed, under its name. *)
Lemma list_children st i x :
  wf st -> inodes st !! i = Some x ->
  entry_name <$> omap (list_child st) (entries x) = (entries x).*1 /\
  forall fe, fe ∈ omap (list_child st) (entries x) <->
    exists j, link st i (entry_name fe) (Z.of_nat j + 1) /\ live st j /\
      fe = MkFileEntry (entry_name fe) (S_ISDIR (mode (deref st j))) (size (deref st j)) (mtime (deref st j)).
Proof.
  intros Hwf Hx.
  assert (Hall : forall nm c, (nm, c) ∈ entries x -> exists j, c = Z.of_nat j + 1 /\ live st j /\
    list_child st (nm, c) =
      Some (MkFileEntry nm (S_ISDIR (mode (deref st j))) (size (deref st j)) (mtime (deref st j)))).
  { intros nm c Hin. destruct (wf_target _ (wf_wfb _ Hwf) i nm c) as (j & -> & Hj); [by exists x |].
    exists j. split_and!; try done. unfold list_child. cbn [fst snd].
    by rewrite (lookup_inode_live _ _ (wf_wfb _ Hwf) Hj). }
  split.
  - clear Hx. induction (entries x) as [|[nm c] l IH]; [done |]. cbn [omap list_omap].
    destruct (Hall nm c) as (j & _ & _ & Hl); [by left |]. rewrite Hl. cbn [fmap list_fmap entry_name fst].
    f_equal. apply IH. intros nm' c' Hin. apply Hall. by right.
  - intros fe. rewrite list_elem_of_omap. split.
    + intros ([nm c] & Hin & Hl). destruct (Hall nm c Hin) as (j & -> & Hj & Hl'). rewrite Hl' in Hl.
      injection Hl as <-. exists j. split_and!; try done. by exists x.
    + intros (j & (y & Hy & Hin) & Hj & ->). rewrite Hx in Hy. injection Hy as <-. cbn [entry_name] in *.
      exists (entry_name fe, Z.of_nat j + 1). split; [done |].
      destruct (Hall _ _ Hin) as (j' & Heq & _ & Hl). assert (j' = j) as -> by lia. done.
Qed.

(** A listing is the directory. ReadDirectory fails exactly on paths that do not
    resolve or are not directories; otherwise it lists each name once, exactly the names
    that resolve one step below the directory, with the attributes of their inodes. *)
Theorem rpc_readdir_spec p w :
  let st := g_state w in
  reachable w ->
  match path_to_inode st (c_str (normalize_path p)) with
  | None => readdir_status <$> (rpc_ReadDirectory (MkReaddirReq p) w).1 = Some (- ENOENT)
  | Some i =>
      if S_ISDIR (mode (deref st i)) then
        exists l, rpc_ReadDirectory (MkReaddirReq p) w = (Some (MkReaddirResp l 0 EmptyString), w) /\
          NoDup (entry_name <$> l) /\
          forall fe, fe ∈ l <-> exists j, walk_step st i (entry_name fe) = Some j /\
            fe = MkFileEntry (entry_name fe) (S_ISDIR (mode (deref st j))) (size (deref st j))
                   (mtime (deref st j))
      else readdir_status <$> (rpc_ReadDirectory (MkReaddirReq p) w).1 = Some (- ENOTDIR)
  end.
Proof.
  intros st Hwf%reachable_wf. fold st in Hwf. unfold rpc_ReadDirectory. cbn [readdir_pathname]. fold st.
  destruct (path_to_inode st _) as [i|] eqn:Hp; [| done].
  destruct (S_ISDIR (mode (deref st i))) eqn:Hd; cbn [negb]; [| done].
  apply path_live in Hp as (x & Hx & Hxi); [| apply Hwf]. rewrite (deref_Some _ _ _ Hx) in *.
  destruct (wf_live_slot _ _ _ (wf_wfb _ Hwf) Hx Hxi) as (_ & Hok & _).
  destruct (list_children st i x Hwf Hx) as [Hnm Hel]. fold (entries x).
  eexists. split; [done |]. split; [rewrite Hnm, entries_fst by done; apply Hok |].
  intros fe. rewrite Hel. split; intros (j & Hj).
  - destruct Hj as (Hl & _ & Heq). exists j. split; [by apply walk_step_link; [apply Hwf |] | done].
  - destruct Hj as (Hl & Heq). apply walk_step_link in Hl; [| apply Hwf].
    exists j. split_and!; try done. destruct (wf_target _ (wf_wfb _ Hwf) _ _ _ Hl) as (j' & ? & Hj').
    by replace j with j' by lia.
Qed.

(** ** The theorems at concrete states *)

Definition no_text : Z -> string := fun _ => EmptyString.

Definition demo_rpc : rpc_env := MkRpcEnv demo_env demo_env (fun _ => true).

(** A server that made [/a], then wrote [/a/f]. *)
Definition w_rpc : world :=
  (rpc_Mkdir no_text demo_rpc (MkMkdirReq "" "a" 493) w_empty).2.

Definition w_rpc_data : world :=
  (rpc_Write no_text demo_rpc (MkWriteReq "/mnt/fused/a/f" [10; 20; 30] 0) w_rpc).2.

Lemma rpc_reach_write se e r w : rpc_reachable se w -> rpc_reachable se (rpc_Write se e r w).2.
Proof. exact (rpc_serve se e (CallWrite r) w). Qed.

Lemma rpc_reach_mkdir se e r w : rpc_reachable se w -> rpc_reachable se (rpc_Mkdir se e r w).2.
Proof. exact (rpc_serve se e (CallMkdir r) w). Qed.

Lemma w_rpc_data_reach : rpc_reachable no_text w_rpc_data.
Proof.
  unfold w_rpc_data. apply rpc_reach_write. unfold w_rpc. apply rpc_reach_mkdir.
  apply (rpc_start _ demo_env ∅). reflexivity.
Qed.

Lemma w_rpc_quiet : quiet_reachable w_rpc.
Proof.
  apply (quiet_step demo_env (OpMkdir "/a" 493) w_empty 0); [apply quiet_init | apply demo_quiet | done |].
  unfold w_rpc, rpc_Mkdir. change (c_str _) with "/a"%string. cbn [io_env demo_rpc mkdir_mode fused_oper].
  vm_compute. reflexivity.
Qed.

Lemma rpc_names_spec_witness :
  let '(resp, w') := rpc_Remove no_text demo_rpc (MkRemoveReq "/mnt/fused/a/f") w_rpc_data in
  drops_path w_rpc_data w' ["a"; "f"]%string.
Proof.
  pose proof (rpc_names_spec no_text demo_rpc w_rpc_data w_rpc_data_reach) as (_ & _ & Hrm).
  destruct (Hrm "/mnt/fused/a/f"%string (MkStatus 0 "")
    (rpc_Remove no_text demo_rpc (MkRemoveReq "/mnt/fused/a/f") w_rpc_data).2) as [[_ Hd]|[Hneg _]].
  - split; [vm_compute; repeat split; congruence |]. intros t Ht. right. exists "a/f"%string.
    apply (str_app_inj_l mount_prefix). rewrite <- Ht. reflexivity.
  - vm_compute. lia.
  - apply by_fst. vm_compute. reflexivity.
  - revert Hd. unfold rpc_Remove. by destruct (fused_unlink _ _ w_rpc_data).
  - simpl in Hneg. lia.
Defined.

Lemma rpc_server_refines_witness : reachable w_rpc_data /\ wf (g_state w_rpc_data).
Proof. exact (rpc_server_refines no_text w_rpc_data w_rpc_data_reach). Defined.

Lemma rpc_write_then_get_witness :
  3 = Z.of_nat (length [10; 20; 30]) /\
  (rpc_Get no_text demo_rpc (MkGetReq "/mnt/fused/a/f" 0 3) w_rpc_data).1 =
    Some (MkGetResp [10; 20; 30] 3 0 EmptyString).
Proof.
  apply (rpc_write_then_get no_text demo_rpc demo_rpc "/mnt/fused/a/f" [10; 20; 30] 0 w_rpc 3 w_rpc_data).
  - apply w_rpc_quiet.
  - apply demo_quiet.
  - apply demo_quiet.
  - apply demo_quiet.
  - apply (abs_has_slash "a/f").
  - intros i Hi. exfalso. revert Hi. vm_compute. discriminate.
  - discriminate.
  - vm_compute. reflexivity.
  - vm_compute. reflexivity.
  - reflexivity.
  - unfold w_rpc_data. apply by_fst. vm_compute. reflexivity.
Defined.

Lemma rpc_readdir_spec_witness :
  (rpc_ReadDirectory (MkReaddirReq "/a") w_rpc_data).1 =
    Some (MkReaddirResp [MkFileEntry "f" false 3 100] 0 EmptyString) /\
  exists l, rpc_ReadDirectory (MkReaddirReq "/a") w_rpc_data = (Some (MkReaddirResp l 0 EmptyString), w_rpc_data) /\
    NoDup (entry_name <$> l).
Proof.
  split; [vm_compute; reflexivity |].
  pose proof (rpc_readdir_spec "/a" w_rpc_data (rpc_reach _ _ w_rpc_data_reach)) as Hs.
  replace (path_to_inode (g_state w_rpc_data) (c_str (normalize_path "/a"))) with (Some 1%nat) in Hs
    by (vm_compute; reflexivity).
  replace (S_ISDIR (mode (deref (g_state w_rpc_data) 1))) with true in Hs by (vm_compute; reflexivity).
  destruct Hs as (l & Hl & Hn & _). exists l. exact (conj Hl Hn).
Defined.
