(* ===== verification/Paxos.v ===== *)
(** * The Paxos node: [src/distributed_core/src/paxos.c], [include/paxos.h]

    State, message handler, proposer and wire format.  [paxos_handle_message] runs
    under [state_lock] from start to end and is one function here.  [paxos_propose]
    releases its locks between its parts and blocks twice; it is a thread with a
    program counter, [propose_step] running it from one lock release to the next, so
    that handler calls and other proposers can run in between.  What a step does to
    its surroundings (callbacks) is returned as a list of effects; what it observes
    (results of [malloc], [persist_callback], [broadcast_callback] and of the timed
    wait) is an argument. *)

From stdpp Require Import base list numbers.
From S2P Require Import Prelude.

#[local] Open Scope Z_scope.

(** ** Data *)

(** [paxos_phase_t]; a received message can carry any 32-bit value. *)
Definition PAXOS_PHASE_PREPARE : Z := 1.
Definition PAXOS_PHASE_PROMISE : Z := 2.
Definition PAXOS_PHASE_ACCEPT : Z := 3.
Definition PAXOS_PHASE_ACCEPTED : Z := 4.
Definition PAXOS_PHASE_LEARN : Z := 5.

(** A [void *] value: [None] is NULL, otherwise the bytes it points to. *)
Definition cvalue : Type := option (list Z).

Record paxos_message := MkMsg {
  phase : Z;
  proposal_id : Z;
  sequence_number : Z;
  sender_id : Z;
  acceptor_id : Z;
  accepted_id : Z;
  value : cvalue;
  value_len : Z;
  is_noop : bool;
}.

#[export] Instance paxos_message_eq_dec : EqDecision paxos_message.
Proof. solve_decision. Defined.

(** [memset(&msg, 0, sizeof(msg))] and [calloc(1, sizeof(paxos_message_t))] *)
Definition zero_msg : paxos_message := MkMsg 0 0 0 0 0 0 None 0 false.

Record paxos_proposal := MkProp {
  p_id : Z;
  p_seq : Z;
  p_value : cvalue;
  p_len : Z;
  promise_count : Z;
  accept_count : Z;
  reject_count : Z;
  in_use : bool;
  completed : bool;
  committed : bool;
}.

#[export] Instance paxos_proposal_eq_dec : EqDecision paxos_proposal.
Proof. solve_decision. Defined.

Definition zero_proposal : paxos_proposal := MkProp 0 0 None 0 0 0 0 false false false.

(** Callbacks are present or NULL; what they do is an effect. *)
Record paxos_node := MkNode {
  node_id : Z;
  total_nodes : Z;
  quorum_size : Z;
  highest_proposal_seen : Z;
  highest_sequence_committed : Z;
  highest_sequence_persisted : Z;
  next_sequence_number : Z;
  last_accepted_proposal : Z;
  active_proposals : list paxos_proposal;
  max_proposals : nat;
  persist_callback : bool;
  apply_callback : bool;
  broadcast_callback : bool;
  proposal_timeout_ms : Z;
}.

(** Calls of the three callbacks, in order. *)
Inductive effect :=
| Persist (seq : Z) (v : cvalue) (len : Z)
| Apply (seq : Z) (v : cvalue) (len : Z)
| Broadcast (m : paxos_message).

#[export] Instance effect_eq_dec : EqDecision effect.
Proof. solve_decision. Defined.

(** ** Field assignments *)

Definition set_seen (z : Z) (n : paxos_node) : paxos_node :=
  MkNode (node_id n) (total_nodes n) (quorum_size n) z (highest_sequence_committed n)
    (highest_sequence_persisted n) (next_sequence_number n) (last_accepted_proposal n)
    (active_proposals n) (max_proposals n) (persist_callback n) (apply_callback n)
    (broadcast_callback n) (proposal_timeout_ms n).

Definition set_committed_seq (z : Z) (n : paxos_node) : paxos_node :=
  MkNode (node_id n) (total_nodes n) (quorum_size n) (highest_proposal_seen n) z
    (highest_sequence_persisted n) (next_sequence_number n) (last_accepted_proposal n)
    (active_proposals n) (max_proposals n) (persist_callback n) (apply_callback n)
    (broadcast_callback n) (proposal_timeout_ms n).

Definition set_persisted (z : Z) (n : paxos_node) : paxos_node :=
  MkNode (node_id n) (total_nodes n) (quorum_size n) (highest_proposal_seen n)
    (highest_sequence_committed n) z (next_sequence_number n) (last_accepted_proposal n)
    (active_proposals n) (max_proposals n) (persist_callback n) (apply_callback n)
    (broadcast_callback n) (proposal_timeout_ms n).

Definition set_next_seq (z : Z) (n : paxos_node) : paxos_node :=
  MkNode (node_id n) (total_nodes n) (quorum_size n) (highest_proposal_seen n)
    (highest_sequence_committed n) (highest_sequence_persisted n) z (last_accepted_proposal n)
    (active_proposals n) (max_proposals n) (persist_callback n) (apply_callback n)
    (broadcast_callback n) (proposal_timeout_ms n).

Definition set_last_accepted (z : Z) (n : paxos_node) : paxos_node :=
  MkNode (node_id n) (total_nodes n) (quorum_size n) (highest_proposal_seen n)
    (highest_sequence_committed n) (highest_sequence_persisted n) (next_sequence_number n) z
    (active_proposals n) (max_proposals n) (persist_callback n) (apply_callback n)
    (broadcast_callback n) (proposal_timeout_ms n).

Definition set_proposals (ps : list paxos_proposal) (n : paxos_node) : paxos_node :=
  MkNode (node_id n) (total_nodes n) (quorum_size n) (highest_proposal_seen n)
    (highest_sequence_committed n) (highest_sequence_persisted n) (next_sequence_number n)
    (last_accepted_proposal n) ps (max_proposals n) (persist_callback n) (apply_callback n)
    (broadcast_callback n) (proposal_timeout_ms n).

Definition slot (n : paxos_node) (i : nat) : paxos_proposal :=
  default zero_proposal (active_proposals n !! i).

Definition upd_slot (i : nat) (f : paxos_proposal -> paxos_proposal) (n : paxos_node) : paxos_node :=
  set_proposals (alter f i (active_proposals n)) n.

(** ** Initialisation and configuration *)

(** [None] for NULL; [alloc_ok] says whether both [calloc]s succeed. *)
Definition paxos_init (alloc_ok : bool) (id total : Z) (persist_cb apply_cb : bool)
  : option paxos_node :=
  if decide (total < 3 \/ total `mod` 2 = 0) then None
  else if alloc_ok then
    Some (MkNode id total (u32 (total `div` 2 + 1)) 0 0 0 1 0
            (replicate 256 zero_proposal) 256 persist_cb apply_cb false 3000)
  else None.

Definition paxos_set_broadcast_callback (cb : bool) (n : paxos_node) : paxos_node :=
  MkNode (node_id n) (total_nodes n) (quorum_size n) (highest_proposal_seen n)
    (highest_sequence_committed n) (highest_sequence_persisted n) (next_sequence_number n)
    (last_accepted_proposal n) (active_proposals n) (max_proposals n) (persist_callback n)
    (apply_callback n) cb (proposal_timeout_ms n).

Definition paxos_set_proposal_timeout (timeout_ms : Z) (n : paxos_node) : paxos_node :=
  if decide (timeout_ms = 0) then n
  else MkNode (node_id n) (total_nodes n) (quorum_size n) (highest_proposal_seen n)
    (highest_sequence_committed n) (highest_sequence_persisted n) (next_sequence_number n)
    (last_accepted_proposal n) (active_proposals n) (max_proposals n) (persist_callback n)
    (apply_callback n) (broadcast_callback n) timeout_ms.

Definition paxos_next_proposal_id (n : paxos_node) : Z * paxos_node :=
  let next_ballot := u64 (Z.shiftr (highest_proposal_seen n) 16 + 1) in
  let pid := Z.lor (u64 (Z.shiftl next_ballot 16)) (Z.land (node_id n) 65535) in
  let pid := if decide (next_ballot = 0) then UINT64_MAX else pid in
  (pid, set_seen pid n).

Definition paxos_check_quorum (n : paxos_node) (count : Z) : bool :=
  bool_decide (quorum_size n <= count).

Definition paxos_release_proposal_slot (p : paxos_proposal) : paxos_proposal := zero_proposal.

(** ** Message handler *)

(** The slot the PROMISE and ACCEPTED loops stop at. *)
Definition find_proposal (n : paxos_node) (pid : Z) : option nat :=
  first_idx (fun p => p_id p = pid /\ in_use p = true /\ completed p = false)
    (max_proposals n) (active_proposals n).

Definition add_promise (p : paxos_proposal) : paxos_proposal :=
  MkProp (p_id p) (p_seq p) (p_value p) (p_len p) (u32 (promise_count p + 1)) (accept_count p)
    (reject_count p) (in_use p) (completed p) (committed p).

Definition add_accept (p : paxos_proposal) : paxos_proposal :=
  MkProp (p_id p) (p_seq p) (p_value p) (p_len p) (promise_count p) (u32 (accept_count p + 1))
    (reject_count p) (in_use p) (completed p) (committed p).

Definition mark_committed (p : paxos_proposal) : paxos_proposal :=
  MkProp (p_id p) (p_seq p) (p_value p) (p_len p) (promise_count p) (accept_count p)
    (reject_count p) (in_use p) true true.

Definition handle_prepare (n : paxos_node) (msg : paxos_message)
  : Z * option paxos_message * paxos_node * list effect :=
  if decide (highest_proposal_seen n < proposal_id msg) then
    let n' := set_seen (proposal_id msg) n in
    (0, Some (MkMsg PAXOS_PHASE_PROMISE (proposal_id msg) (sequence_number msg) (node_id n)
                (node_id n) (last_accepted_proposal n) None 0 false), n', [])
  else (-1, None, n, []).

Definition handle_promise (n : paxos_node) (msg : paxos_message)
  : Z * option paxos_message * paxos_node * list effect :=
  match find_proposal n (proposal_id msg) with
  | Some i => (-1, None, upd_slot i add_promise n, [])
  | None => (-1, None, n, [])
  end.

(** [persist_rc]: what [persist_callback] returns if it is called. *)
Definition handle_accept (persist_rc : Z) (n : paxos_node) (msg : paxos_message)
  : Z * option paxos_message * paxos_node * list effect :=
  if decide (highest_proposal_seen n <= proposal_id msg) then
    let n1 := set_last_accepted (proposal_id msg) (set_seen (proposal_id msg) n) in
    let response :=
      MkMsg PAXOS_PHASE_ACCEPTED (proposal_id msg) (sequence_number msg) (node_id n)
        (node_id n) 0 None 0 false in
    if persist_callback n && bool_decide (highest_sequence_persisted n < sequence_number msg) then
      let eff := [Persist (sequence_number msg) (value msg) (value_len msg)] in
      if decide (persist_rc <> 0) then (-1, None, n1, eff)
      else (0, Some response, set_persisted (sequence_number msg) n1, eff)
    else (0, Some response, n1, [])
  else (-1, None, n, []).

Definition learn_msg (n : paxos_node) (p : paxos_proposal) : paxos_message :=
  MkMsg PAXOS_PHASE_LEARN (p_id p) (p_seq p) (node_id n) 0 (p_id p) (p_value p) (p_len p) false.

Definition handle_accepted (n : paxos_node) (msg : paxos_message)
  : Z * option paxos_message * paxos_node * list effect :=
  match find_proposal n (proposal_id msg) with
  | None => (-1, None, n, [])
  | Some i =>
      let n1 := upd_slot i add_accept n in
      let p := slot n1 i in
      if paxos_check_quorum n (accept_count p) then
        let n2 := upd_slot i mark_committed n1 in
        let n3 := if decide (highest_sequence_committed n < sequence_number msg)
                  then set_committed_seq (sequence_number msg) n2 else n2 in
        let eff := (if apply_callback n then [Apply (sequence_number msg) (p_value p) (p_len p)]
                    else []) ++
                   (if broadcast_callback n then [Broadcast (learn_msg n p)] else []) in
        (-1, None, n3, eff)
      else (-1, None, n1, [])
  end.

Definition handle_learn (n : paxos_node) (msg : paxos_message)
  : Z * option paxos_message * paxos_node * list effect :=
  if decide (highest_sequence_committed n < sequence_number msg) then
    let persists := persist_callback n &&
                    bool_decide (highest_sequence_persisted n < sequence_number msg) in
    let n1 := if persists then set_persisted (sequence_number msg) n else n in
    let eff := (if persists then [Persist (sequence_number msg) (value msg) (value_len msg)] else [])
            ++ (if apply_callback n then [Apply (sequence_number msg) (value msg) (value_len msg)]
                else []) in
    (-1, None, set_committed_seq (sequence_number msg) n1, eff)
  else (-1, None, n, []).

(** Result code, response, node, callbacks made. *)
Definition paxos_handle_message (persist_rc : Z) (n : paxos_node) (msg : paxos_message)
  : Z * option paxos_message * paxos_node * list effect :=
  if decide (phase msg = PAXOS_PHASE_PREPARE) then handle_prepare n msg
  else if decide (phase msg = PAXOS_PHASE_PROMISE) then handle_promise n msg
  else if decide (phase msg = PAXOS_PHASE_ACCEPT) then handle_accept persist_rc n msg
  else if decide (phase msg = PAXOS_PHASE_ACCEPTED) then handle_accepted n msg
  else if decide (phase msg = PAXOS_PHASE_LEARN) then handle_learn n msg
  else (-1, None, n, []).

(** ** The proposer thread *)

Inductive propose_pc :=
| PStart
| PSequence (pid : Z)
| PSlot (pid seq : Z)
| PPrepare (i : nat) (pid seq : Z)
| PWaitPromise (i : nat) (pid seq : Z)
| PAccept (i : nat) (pid seq : Z)
| PPersist (i : nat) (pid seq : Z)
| PPersisted (i : nat) (pid seq : Z)
| PCount (i : nat) (pid seq : Z)
| PBroadcast (i : nat) (pid seq : Z)
| PWaitCommit (i : nat) (pid seq : Z)
| PDone (rc : Z).

(** What [pthread_cond_timedwait] reports: woken up, deadline passed, or an error. *)
Inductive wake := Woken | TimedOut | WaitError.

(** What one step observes. *)
Record observation := MkObs {
  malloc_ok : bool;
  persist_rc : Z;
  broadcast_rc : Z;
  woken : wake;
}.

(** One turn of the loop of [paxos_wait_for_condition], from a return of the timed wait
    ([Woken] also on entry) to the next wait: [None] when it waits on, otherwise the
    function's result. *)
Definition paxos_wait_for_condition (w : wake) (n : paxos_node) (p : paxos_proposal)
    (wait_for_commit : bool) : option Z :=
  let satisfied := if wait_for_commit then committed p
                   else paxos_check_quorum n (promise_count p) in
  match w with
  | Woken => if negb (in_use p) then Some (-1) else if satisfied then Some 0 else None
  | TimedOut => Some (if satisfied then 0 else -1)
  | WaitError => Some (-1)
  end.

Definition claim_slot (pid seq : Z) (v : list Z) (p : paxos_proposal) : paxos_proposal :=
  MkProp pid seq (Some v) (Z.of_nat (length v)) 1 0 0 true false false.

(** The failed [malloc] leaves these fields behind. *)
Definition abandon_slot (pid seq : Z) (p : paxos_proposal) : paxos_proposal :=
  MkProp pid seq None (p_len p) (promise_count p) (accept_count p) (reject_count p)
    false false false.

Definition count_self (p : paxos_proposal) : paxos_proposal :=
  MkProp (p_id p) (p_seq p) (p_value p) (p_len p) (promise_count p) 1 (reject_count p)
    (in_use p) (completed p) (committed p).

Definition prepare_msg (n : paxos_node) (pid seq : Z) : paxos_message :=
  MkMsg PAXOS_PHASE_PREPARE pid seq (node_id n) 0 0 None 0 false.

Definition accept_msg (n : paxos_node) (pid seq : Z) (v : list Z) : paxos_message :=
  MkMsg PAXOS_PHASE_ACCEPT pid seq (node_id n) 0 0 (Some v) (Z.of_nat (length v)) false.

Definition propose_step (ob : observation) (v : list Z) (pc : propose_pc) (n : paxos_node)
  : propose_pc * paxos_node * list effect :=
  match pc with
  | PStart =>
      if decide (v = []) then (PDone (-1), n, [])
      else if negb (broadcast_callback n) then (PDone (-1), n, [])
      else let '(pid, n') := paxos_next_proposal_id n in (PSequence pid, n', [])
  | PSequence pid =>
      let seq := next_sequence_number n in
      (PSlot pid seq, set_next_seq (u64 (seq + 1)) n, [])
  | PSlot pid seq =>
      match first_idx (fun p => in_use p = false) (max_proposals n) (active_proposals n) with
      | None => (PDone (-1), n, [])
      | Some i =>
          if malloc_ok ob then (PPrepare i pid seq, upd_slot i (claim_slot pid seq v) n, [])
          else (PDone (-1), upd_slot i (abandon_slot pid seq) n, [])
      end
  | PPrepare i pid seq =>
      let eff := [Broadcast (prepare_msg n pid seq)] in
      if decide (broadcast_rc ob < 0)
      then (PDone (-1), upd_slot i paxos_release_proposal_slot n, eff)
      else (PWaitPromise i pid seq, n, eff)
  | PWaitPromise i pid seq =>
      match paxos_wait_for_condition (woken ob) n (slot n i) false with
      | None => (pc, n, [])
      | Some rc =>
          if decide (rc <> 0) then (PDone (-1), upd_slot i paxos_release_proposal_slot n, [])
          else (PAccept i pid seq, n, [])
      end
  | PAccept i pid seq =>
      let n' := if decide (highest_proposal_seen n <= pid)
                then set_last_accepted pid (set_seen pid n) else n in
      (PPersist i pid seq, n', [])
  | PPersist i pid seq =>
      if persist_callback n then
        let eff := [Persist seq (Some v) (Z.of_nat (length v))] in
        if decide (persist_rc ob <> 0)
        then (PDone (-1), upd_slot i paxos_release_proposal_slot n, eff)
        else (PPersisted i pid seq, n, eff)
      else (PPersisted i pid seq, n, [])
  | PPersisted i pid seq =>
      let n' := if decide (highest_sequence_persisted n < seq) then set_persisted seq n else n in
      (PCount i pid seq, n', [])
  | PCount i pid seq => (PBroadcast i pid seq, upd_slot i count_self n, [])
  | PBroadcast i pid seq =>
      let eff := [Broadcast (accept_msg n pid seq v)] in
      if decide (broadcast_rc ob < 0)
      then (PDone (-1), upd_slot i paxos_release_proposal_slot n, eff)
      else (PWaitCommit i pid seq, n, eff)
  | PWaitCommit i pid seq =>
      match paxos_wait_for_condition (woken ob) n (slot n i) true with
      | None => (pc, n, [])
      | Some rc =>
          let done := committed (slot n i) in
          (PDone (if decide (rc = 0 /\ done = true) then 0 else -1),
           upd_slot i paxos_release_proposal_slot n, [])
      end
  | PDone rc => (pc, n, [])
  end.

(** ** Wire format (x86-64: [sizeof(paxos_message_t)] is 64, [sizeof(void * )] is 8) *)

Definition header_len : nat := 56.

(** The object representation of the first 56 bytes: [pad] is the padding after
    [phase], [addr] the value pointer; [is_noop] lies beyond them. *)
Definition msg_header (pad : list Z) (addr : Z) (m : paxos_message) : list Z :=
  le_bytes 4 (phase m) ++ pad ++ le_bytes 8 (proposal_id m) ++ le_bytes 8 (sequence_number m) ++
  le_bytes 4 (sender_id m) ++ le_bytes 4 (acceptor_id m) ++ le_bytes 8 (accepted_id m) ++
  le_bytes 8 addr ++ le_bytes 8 (value_len m).

(** [junk] is what [malloc] left in the part that is not overwritten. *)
Definition paxos_serialize_message (pad : list Z) (addr : Z) (junk : list Z) (m : paxos_message)
  : list Z :=
  msg_header pad addr m ++
  match value m with
  | Some v => if decide (0 < value_len m) then take (Z.to_nat (value_len m)) v
              else take (Z.to_nat (value_len m)) junk
  | None => take (Z.to_nat (value_len m)) junk
  end.

(** [old] is the message the fields are written to.  [None]: the copy of the value
    reads past the end of the buffer. *)
Definition paxos_deserialize_message (malloc_ok : bool) (buffer : list Z) (old : paxos_message)
  : option (Z * paxos_message) :=
  if decide (length buffer < header_len)%nat then Some (-1, old)
  else
    ph ← read_le 0 4 buffer; pid ← read_le 8 8 buffer; seq ← read_le 16 8 buffer;
    snd ← read_le 24 4 buffer; acc ← read_le 28 4 buffer; aid ← read_le 32 8 buffer;
    len ← read_le 48 8 buffer;
    let with_value v := MkMsg ph pid seq snd acc aid v len (is_noop old) in
    if decide (0 < len) then
      if malloc_ok then
        v ← read_bytes header_len (Z.to_nat len) buffer; Some (0, with_value (Some v))
      else Some (-1, with_value None)
    else Some (0, with_value None).

Definition paxos_free_message (m : paxos_message) : paxos_message :=
  MkMsg (phase m) (proposal_id m) (sequence_number m) (sender_id m) (acceptor_id m)
    (accepted_id m) None (value_len m) (is_noop m).
