(* ===== verification/PaxosThm.v ===== *)
(** * The Paxos node: theorems

    Proposal numbers, promises, the commit rule, the learner, and the wire format of
    [Paxos].  The cluster is in [PaxosCluster]. *)

From stdpp Require Import base gmap list numbers sorting fin_sets.
From S2P Require Import Prelude Paxos.

#[local] Open Scope Z_scope.

(** ** Proposal numbers *)

Lemma lor_shift_add a b k :
  0 <= k -> 0 <= b < 2 ^ k -> Z.lor (a * 2 ^ k) b = a * 2 ^ k + b.
Proof.
  intros Hk Hb. rewrite <- Z.lxor_lor, <- Z.add_nocarry_lxor; [done | |];
    apply Z.bits_inj'; intros i Hi; rewrite Z.land_spec, Z.bits_0, <- Z.shiftl_mul_pow2 by done;
    rewrite Z.shiftl_spec by done; destruct (decide (i < k)).
  - rewrite Z.testbit_neg_r by lia. done.
  - rewrite (proj1 (Z.bounded_iff_bits_nonneg' k b Hk ltac:(lia)) ltac:(lia) i) by lia.
    by rewrite andb_false_r.
  - rewrite Z.testbit_neg_r by lia. done.
  - rewrite (proj1 (Z.bounded_iff_bits_nonneg' k b Hk ltac:(lia)) ltac:(lia) i) by lia.
    by rewrite andb_false_r.
Qed.

Lemma land_ffff z : Z.land z 65535 = z `mod` 2 ^ 16.
Proof. apply (Z.land_ones z 16). lia. Qed.

Lemma next_ballot_nonzero seen : 0 <= seen < 2 ^ 64 -> u64 (Z.shiftr seen 16 + 1) = seen / 2 ^ 16 + 1.
Proof.
  intros Hs. rewrite Z.shiftr_div_pow2 by lia. apply u64_small.
  assert (0 <= seen / 2 ^ 16 < 2 ^ 48); [| lia].
  split; [apply Z.div_pos; lia | apply Z.div_lt_upper_bound; lia].
Qed.

Lemma next_proposal_id_eq n :
  0 <= highest_proposal_seen n < 2 ^ 64 ->
  (paxos_next_proposal_id n).1 =
    u64 ((highest_proposal_seen n / 2 ^ 16 + 1) * 2 ^ 16) + node_id n `mod` 2 ^ 16.
Proof.
  intros Hs. unfold paxos_next_proposal_id. rewrite next_ballot_nonzero by done. simpl.
  pose proof (Z.div_pos (highest_proposal_seen n) (2 ^ 16) ltac:(lia) ltac:(lia)).
  rewrite decide_False by lia. rewrite land_ffff, Z.shiftl_mul_pow2 by lia.
  set (b := _ / _ + 1).
  assert (Hu : u64 (b * 2 ^ 16) = (b `mod` 2 ^ 48) * 2 ^ 16).
  { unfold u64. change (2 ^ 64) with (2 ^ 48 * 2 ^ 16). by rewrite Z.mul_mod_distr_r by lia. }
  rewrite Hu. apply lor_shift_add; [lia |]. apply Z.mod_pos_bound. lia.
Qed.

Lemma next_proposal_id_grows n :
  0 <= highest_proposal_seen n < 2 ^ 64 - 2 ^ 16 ->
  highest_proposal_seen n < (paxos_next_proposal_id n).1 < 2 ^ 64 /\
  (paxos_next_proposal_id n).1 `mod` 2 ^ 16 = node_id n `mod` 2 ^ 16.
Proof.
  intros Hs. rewrite next_proposal_id_eq by lia.
  pose proof (Z.div_mod (highest_proposal_seen n) (2 ^ 16) ltac:(lia)) as Hdm.
  pose proof (Z.mod_pos_bound (highest_proposal_seen n) (2 ^ 16) ltac:(lia)).
  pose proof (Z.mod_pos_bound (node_id n) (2 ^ 16) ltac:(lia)).
  assert (highest_proposal_seen n / 2 ^ 16 < 2 ^ 48 - 1)
    by (apply Z.div_lt_upper_bound; lia).
  pose proof (Z.div_pos (highest_proposal_seen n) (2 ^ 16) ltac:(lia) ltac:(lia)).
  rewrite u64_small by lia. split; [lia |].
  rewrite Z.add_comm, Z.mod_add, Z.mod_mod by lia. done.
Qed.

Lemma next_proposal_id_seen n :
  highest_proposal_seen (paxos_next_proposal_id n).2 = (paxos_next_proposal_id n).1.
Proof. reflexivity. Qed.

(** C23: proposal numbers are unique. A node's next number is above everything it has
    seen, so its own numbers strictly increase, and it carries the node's identity in
    its low 16 bits, so two nodes whose identities differ there never draw the same, as
    long as the ballot field is not exhausted. *)
Theorem paxos_next_proposal_id_spec n :
  0 <= highest_proposal_seen n < 2 ^ 64 - 2 ^ 16 ->
  let '(pid, n') := paxos_next_proposal_id n in
  highest_proposal_seen n < pid < 2 ^ 64 /\ highest_proposal_seen n' = pid /\
  forall n2, 0 <= highest_proposal_seen n2 < 2 ^ 64 - 2 ^ 16 ->
    node_id n2 `mod` 2 ^ 16 <> node_id n `mod` 2 ^ 16 -> (paxos_next_proposal_id n2).1 <> pid.
Proof.
  intros Hs. pose proof (next_proposal_id_grows n Hs) as [Hg Hm].
  destruct (paxos_next_proposal_id n) as [pid n'] eqn:Hn. cbn [fst] in Hg, Hm.
  assert (Hseen : highest_proposal_seen n' = pid).
  { pose proof (next_proposal_id_seen n) as H. by rewrite Hn in H. }
  split; [exact Hg |]. split; [exact Hseen |].
  intros n2 Hs2 Hne Heq. pose proof (next_proposal_id_grows n2 Hs2) as [_ Hm2]. congruence.
Qed.

(** The overflow guard never fires. Once the ballot field is exhausted the next
    number is the bare node identity, below what was seen, instead of UINT64_MAX. *)
Theorem paxos_next_proposal_id_wraps n :
  2 ^ 64 - 2 ^ 16 <= highest_proposal_seen n < 2 ^ 64 -> 0 <= node_id n < 2 ^ 16 ->
  (paxos_next_proposal_id n).1 = node_id n /\
  highest_proposal_seen (paxos_next_proposal_id n).2 < highest_proposal_seen n.
Proof.
  intros Hs Hid. assert (Heq : (paxos_next_proposal_id n).1 = node_id n).
  { rewrite next_proposal_id_eq by lia.
    assert (Hd : highest_proposal_seen n / 2 ^ 16 = 2 ^ 48 - 1).
    { symmetry. apply (Z.div_unique_pos _ _ _ (highest_proposal_seen n - (2 ^ 64 - 2 ^ 16))); lia. }
    rewrite Hd, (Z.mod_small (node_id n)) by lia. reflexivity. }
  split; [done |].
  change (highest_proposal_seen (paxos_next_proposal_id n).2) with (paxos_next_proposal_id n).1.
  lia.
Qed.

(** ** Runs of one node *)

(** What can happen to a node: a message is handled, or one of its proposer threads takes
    a step. *)
Inductive node_event :=
| Handling (rc : Z) (m : paxos_message)
| Proposing (ob : observation) (v : list Z) (pc : propose_pc).

Definition node_after (ev : node_event) (n : paxos_node) : paxos_node :=
  match ev with
  | Handling rc m => (paxos_handle_message rc n m).1.2
  | Proposing ob v pc => (propose_step ob v pc n).1.2
  end.

Fixpoint node_run (evs : list node_event) (n : paxos_node) : paxos_node :=
  match evs with
  | [] => n
  | ev :: evs' => node_run evs' (node_after ev n)
  end.

(** Whenever a proposer draws a number there is a ballot left above what was seen. *)
Fixpoint ballots_left (evs : list node_event) (n : paxos_node) : Prop :=
  match evs with
  | [] => True
  | ev :: evs' =>
      (forall ob v, ev = Proposing ob v PStart -> 0 <= highest_proposal_seen n < 2 ^ 64 - 2 ^ 16) /\
      ballots_left evs' (node_after ev n)
  end.

Lemma handle_seen rc n m :
  highest_proposal_seen n <= highest_proposal_seen (paxos_handle_message rc n m).1.2.
Proof.
  unfold paxos_handle_message, handle_prepare, handle_promise, handle_accept, handle_accepted,
    handle_learn.
  repeat (case_decide || case_match); simpl; try lia.
Qed.

Lemma propose_seen ob v pc n :
  (pc = PStart -> 0 <= highest_proposal_seen n < 2 ^ 64 - 2 ^ 16) ->
  highest_proposal_seen n <= highest_proposal_seen (propose_step ob v pc n).1.2.
Proof.
  intros Hs. destruct pc; cbn [propose_step].
  1: { case_decide; [done |]. case_match; [done |].
       pose proof (next_proposal_id_grows n (Hs eq_refl)) as [Hg _].
       pose proof (next_proposal_id_seen n) as Hn.
       destruct (paxos_next_proposal_id n) as [pid n']. cbn [fst snd] in *. lia. }
  all: clear Hs; repeat (case_decide || case_match); simpl; lia.
Qed.

Lemma run_seen evs n :
  ballots_left evs n -> highest_proposal_seen n <= highest_proposal_seen (node_run evs n).
Proof.
  revert n. induction evs as [|ev evs IH]; intros n; [done |]. intros [Hs Hl].
  etransitivity; [| exact (IH _ Hl)].
  destruct ev as [rc m|ob v pc]; [apply handle_seen |]. apply propose_seen. intros ->. by eapply Hs.
Qed.

(** C24: a promise is kept while ballots last. Once a node has answered PREPARE(n) with a
    PROMISE, then after any messages and proposer steps among which no number is drawn
    with the ballots exhausted, and without a restart, it refuses PREPARE and ACCEPT
    messages for lower numbers, without any effect. *)
Theorem paxos_promise_kept rc n m r n1 eff evs rc' m' :
  phase m = PAXOS_PHASE_PREPARE -> paxos_handle_message rc n m = (0, Some r, n1, eff) ->
  ballots_left evs n1 -> proposal_id m' < proposal_id m ->
  phase m' = PAXOS_PHASE_PREPARE \/ phase m' = PAXOS_PHASE_ACCEPT ->
  let n2 := node_run evs n1 in
  paxos_handle_message rc' n2 m' = (-1, None, n2, []).
Proof.
  intros Hp Hm Hrun Hlt Hph n2. apply run_seen in Hrun. fold n2 in Hrun.
  assert (Hseen : highest_proposal_seen n1 = proposal_id m).
  { revert Hm. unfold paxos_handle_message, handle_prepare. rewrite decide_True by done.
    case_decide; [| done]. intros [= _ <- _]. done. }
  unfold paxos_handle_message. destruct Hph as [Hph|Hph]; rewrite Hph.
  - rewrite decide_True by done. unfold handle_prepare. by rewrite decide_False by lia.
  - rewrite !decide_False, decide_True by done. unfold handle_accept. by rewrite decide_False by lia.
Qed.

(** What an acceptor does with ACCEPT(n, v). Below its promise it refuses, without
    effect. Otherwise, if the sequence number is above the highest persisted one, the
    value is handed to the log first and a log failure means no answer; if it is not,
    the message is acknowledged although its value is not handed to the log. *)
Theorem paxos_accept_spec rc n m :
  phase m = PAXOS_PHASE_ACCEPT -> persist_callback n = true ->
  let '(rc', r, n', eff) := paxos_handle_message rc n m in
  if decide (proposal_id m < highest_proposal_seen n)
  then rc' = -1 /\ r = None /\ n' = n /\ eff = []
  else
    highest_proposal_seen n' = proposal_id m /\ last_accepted_proposal n' = proposal_id m /\
    active_proposals n' = active_proposals n /\
    if decide (highest_sequence_persisted n < sequence_number m) then
      eff = [Persist (sequence_number m) (value m) (value_len m)] /\
      if decide (rc = 0)
      then rc' = 0 /\ phase <$> r = Some PAXOS_PHASE_ACCEPTED /\
           highest_sequence_persisted n' = sequence_number m
      else rc' = -1 /\ r = None /\ highest_sequence_persisted n' = highest_sequence_persisted n
    else rc' = 0 /\ phase <$> r = Some PAXOS_PHASE_ACCEPTED /\ eff = [] /\
         highest_sequence_persisted n' = highest_sequence_persisted n.
Proof.
  intros Hp Hcb. unfold paxos_handle_message. rewrite Hp, !decide_False, decide_True by done.
  unfold handle_accept. rewrite Hcb. simpl.
  destruct (decide (proposal_id m < highest_proposal_seen n)); [by rewrite decide_False by lia |].
  rewrite decide_True by lia.
  destruct (decide (highest_sequence_persisted n < sequence_number m)).
  - rewrite bool_decide_eq_true_2 by done. destruct (decide (rc = 0)) as [->|Hrc].
    + by rewrite decide_False by lia.
    + by rewrite decide_True by done.
  - by rewrite bool_decide_eq_false_2.
Qed.

(** ** The commit rule *)

Fixpoint handle_run (rc : Z) (ms : list paxos_message) (n : paxos_node)
  : paxos_node * list effect :=
  match ms with
  | [] => (n, [])
  | m :: ms' =>
      let '(_, _, n1, e1) := paxos_handle_message rc n m in
      let '(n2, e2) := handle_run rc ms' n1 in (n2, e1 ++ e2)
  end.

(** A slot the handler would count a message for. *)
Definition active (pid : Z) (p : paxos_proposal) : Prop :=
  p_id p = pid /\ in_use p = true /\ completed p = false.

#[export] Instance active_dec pid p : Decision (active pid p).
Proof. unfold active. apply _. Defined.

Definition node_ok (n : paxos_node) : Prop := max_proposals n = length (active_proposals n).

(** [i] is the only slot in which proposal [pid] is in progress. *)
Definition sole (n : paxos_node) (pid : Z) (i : nat) : Prop :=
  active pid (slot n i) /\ forall j, active pid (slot n j) -> j = i.

Definition finished (n : paxos_node) (pid : Z) : Prop := forall j, ~ active pid (slot n j).

Definition is_accepted (pid : Z) (m : paxos_message) : Prop :=
  phase m = PAXOS_PHASE_ACCEPTED /\ proposal_id m = pid.

Definition is_learn (pid : Z) (e : effect) : Prop :=
  match e with
  | Broadcast m => phase m = PAXOS_PHASE_LEARN /\ proposal_id m = pid
  | _ => False
  end.

#[export] Instance is_accepted_dec pid m : Decision (is_accepted pid m).
Proof. unfold is_accepted. apply _. Defined.

#[export] Instance is_learn_dec pid e : Decision (is_learn pid e).
Proof. destruct e; simpl; apply _. Defined.

Definition accepts (pid : Z) (ms : list paxos_message) : Z :=
  Z.of_nat (length (filter (is_accepted pid) ms)).

Definition learns (pid : Z) (eff : list effect) : nat := length (filter (is_learn pid) eff).

Lemma find_proposal_Some n pid i :
  find_proposal n pid = Some i -> active pid (slot n i).
Proof. intros (p & Hp & _ & Ha & _)%first_idx_Some. unfold slot. by rewrite Hp. Qed.

Lemma active_lookup n pid j :
  active pid (slot n j) -> active_proposals n !! j = Some (slot n j).
Proof. unfold slot. destruct (active_proposals n !! j); [done |]. by intros (_ & ? & _). Qed.

Lemma find_proposal_finished n pid : finished n pid -> find_proposal n pid = None.
Proof.
  intros Hf. destruct (find_proposal n pid) as [j|] eqn:Hj; [| done].
  by apply find_proposal_Some, Hf in Hj.
Qed.

Lemma find_proposal_sole n pid i : node_ok n -> sole n pid i -> find_proposal n pid = Some i.
Proof.
  intros Hok [Ha Hone]. pose proof (active_lookup _ _ _ Ha) as Hl.
  destruct (find_proposal n pid) as [j|] eqn:Hj.
  - f_equal. apply Hone. by apply find_proposal_Some.
  - apply first_idx_None with (j := i) (y := slot n i) in Hj; [done | | done].
    rewrite Hok. by eapply lookup_lt_Some.
Qed.

Lemma slot_upd n i f j :
  active_proposals n !! i <> None ->
  slot (upd_slot i f n) j = if decide (j = i) then f (slot n i) else slot n j.
Proof.
  intros Hi. unfold slot, upd_slot. simpl. case_decide as Hj.
  - subst. rewrite list_lookup_alter_eq. by destruct (active_proposals n !! i).
  - by rewrite list_lookup_alter_ne.
Qed.

Lemma learns_app pid e1 e2 : learns pid (e1 ++ e2) = (learns pid e1 + learns pid e2)%nat.
Proof. unfold learns. by rewrite filter_app, length_app. Qed.

Lemma learns_commit pid (b1 b2 : bool) s v l n p :
  learns pid ((if b1 then [Apply s v l] else []) ++ (if b2 then [Broadcast (learn_msg n p)] else []))
  = if decide (b2 = true /\ pid = p_id p) then 1%nat else O.
Proof.
  rewrite learns_app. replace (learns pid (if b1 then _ else _)) with O by (by destruct b1).
  unfold learns. destruct b2.
  - rewrite filter_cons, filter_nil. destruct (decide (pid = p_id p)) as [->|Hne].
    + by rewrite !decide_True.
    + rewrite !decide_False; [done | by intros [_ ?] | by intros [_ ?]].
  - rewrite decide_False by (by intros [? _]). done.
Qed.

Lemma set_committed_frame (b : bool) s n :
  let n' := if b then set_committed_seq s n else n in
  quorum_size n' = quorum_size n /\ broadcast_callback n' = broadcast_callback n /\
  active_proposals n' = active_proposals n /\ max_proposals n' = max_proposals n.
Proof. by destruct b. Qed.

(** What a handled message can do to the slots and how it announces commits. *)
Lemma handle_slots rc n m n' eff :
  (paxos_handle_message rc n m).1.2 = n' -> (paxos_handle_message rc n m).2 = eff ->
  quorum_size n' = quorum_size n /\ broadcast_callback n' = broadcast_callback n /\
  (node_ok n -> node_ok n') /\
  ((active_proposals n' = active_proposals n /\ (forall pid, learns pid eff = O) /\
    (phase m = PAXOS_PHASE_ACCEPTED -> find_proposal n (proposal_id m) = None)) \/
   exists i p, find_proposal n (proposal_id m) = Some i /\ p = slot n i /\
     ((phase m = PAXOS_PHASE_PROMISE /\
       active_proposals n' = alter add_promise i (active_proposals n) /\
       forall pid, learns pid eff = O) \/
      (phase m = PAXOS_PHASE_ACCEPTED /\
       if decide (quorum_size n <= u32 (accept_count p + 1)) then
         active_proposals n' = alter mark_committed i (alter add_accept i (active_proposals n)) /\
         forall pid, learns pid eff =
           if decide (broadcast_callback n = true /\ pid = p_id p) then 1%nat else O
       else active_proposals n' = alter add_accept i (active_proposals n) /\
            forall pid, learns pid eff = O))).
Proof.
  intros <- <-. unfold paxos_handle_message.
  case_decide as H1; [unfold handle_prepare; case_decide; simpl; split_and!; auto;
                      left; split_and!; auto; by rewrite H1 |].
  case_decide as H2.
  { unfold handle_promise. destruct (find_proposal _ _) as [i|] eqn:Hf; simpl; split_and!; auto.
    - unfold node_ok. simpl. by rewrite length_alter.
    - right. exists i, (slot n i). split_and!; try done. left. by split_and!. }
  case_decide as H3; [unfold handle_accept; repeat case_match; simpl; split_and!; auto;
                      left; split_and!; auto; by rewrite H3 |].
  case_decide as H4.
  { unfold handle_accepted. destruct (find_proposal _ _) as [i|] eqn:Hf; simpl; [| split_and!; auto].
    assert (Hp : slot (upd_slot i add_accept n) i = add_accept (slot n i)).
    { rewrite slot_upd; [by rewrite decide_True |].
      apply find_proposal_Some, active_lookup in Hf. by rewrite Hf. }
    rewrite Hp. unfold paxos_check_quorum. cbn [accept_count add_accept].
    destruct (decide (quorum_size n <= u32 (accept_count (slot n i) + 1))) as [Hq|Hq].
    - rewrite bool_decide_eq_true_2 by done. cbn [fst snd].
      destruct (set_committed_frame (bool_decide (highest_sequence_committed n < sequence_number m))
        (sequence_number m) (upd_slot i mark_committed (upd_slot i add_accept n))) as (Hq' & Hb & Ha & Hm).
      rewrite decide_bool_decide, Hq', Hb. split_and!; try done.
      { unfold node_ok. rewrite Ha, Hm. simpl. by rewrite !length_alter. }
      right. exists i, (slot n i). split_and!; try done. right. rewrite decide_True by done.
      rewrite Ha. split_and!; try done. intros pid. by rewrite learns_commit.
    - rewrite bool_decide_eq_false_2 by done. simpl. split_and!; auto.
      { unfold node_ok. simpl. by rewrite length_alter. }
      right. exists i, (slot n i). split_and!; try done. right. by rewrite decide_False. }
  case_decide as H5; [| simpl; split_and!; auto; left; by split_and!].
  unfold handle_learn. case_decide; simpl; [| split_and!; auto; left; by split_and!].
  destruct (_ && _); simpl; split_and!; auto; left; (split_and!; [done | | done]); intros pid;
    by destruct (apply_callback n).
Qed.

Lemma slot_eq n n' : active_proposals n' = active_proposals n -> forall j, slot n' j = slot n j.
Proof. intros H j. unfold slot. by rewrite H. Qed.

Lemma slot_alter n n' i f :
  active_proposals n' = alter f i (active_proposals n) -> active_proposals n !! i <> None ->
  forall j, slot n' j = if decide (j = i) then f (slot n i) else slot n j.
Proof. intros H Hi j. rewrite <- slot_upd by done. unfold slot, upd_slot. by rewrite H. Qed.

(** Once a proposal is finished, nothing more is counted or announced for it. *)
Lemma handle_finished rc n m pid i :
  finished n pid -> completed (slot n i) = true ->
  let n' := (paxos_handle_message rc n m).1.2 in
  finished n' pid /\ slot n' i = slot n i /\ learns pid (paxos_handle_message rc n m).2 = O.
Proof.
  intros Hfin Hc. simpl.
  destruct (handle_slots rc n m _ _ eq_refl eq_refl) as
    (_ & _ & _ & [(Ha & Hl & Hnf)|(k & p & Hk & -> & Hcase)]).
  { pose proof (slot_eq _ _ Ha) as Hs. split_and!; [| apply Hs | apply Hl].
    intros j. rewrite Hs. apply Hfin. }
  pose proof (find_proposal_Some _ _ _ Hk) as Hact.
  assert (Hlk : active_proposals n !! k <> None) by (by rewrite (active_lookup _ _ _ Hact)).
  assert (Hpid : p_id (slot n k) <> pid).
  { intros <-. apply (Hfin k). destruct Hact as (? & ? & ?). by split_and!. }
  assert (Hik : i <> k) by (intros ->; destruct Hact as (_ & _ & ?); congruence).
  assert (Hgen : forall n' f, active_proposals n' = alter f k (active_proposals n) ->
    (forall p, p_id (f p) = p_id p) -> finished n' pid /\ slot n' i = slot n i).
  { intros n' f Hn' Hf. pose proof (slot_alter _ _ _ _ Hn' Hlk) as Hs. split.
    - intros j. rewrite Hs. destruct (decide (j = k)); [| apply Hfin].
      intros (Hp & _). by rewrite Hf in Hp.
    - rewrite Hs. by rewrite decide_False. }
  destruct Hcase as [(_ & Ha & Hl)|(_ & Hcase)].
  { destruct (Hgen _ _ Ha) as [? ?]; [done |]. by split_and!. }
  case_decide; destruct Hcase as [Ha Hl].
  - rewrite list_alter_alter_eq in Ha. destruct (Hgen _ _ Ha) as [? ?]; [done |].
    split_and!; try done. rewrite Hl, decide_False; [done |]. by intros [_ ->].
  - destruct (Hgen _ _ Ha) as [? ?]; [done |]. by split_and!.
Qed.

(** One handled message, seen from the slot of a proposal in progress. *)
Lemma handle_sole rc n m pid i :
  node_ok n -> sole n pid i ->
  let n' := (paxos_handle_message rc n m).1.2 in
  let l := learns pid (paxos_handle_message rc n m).2 in
  if decide (is_accepted pid m) then
    if decide (quorum_size n <= u32 (accept_count (slot n i) + 1)) then
      finished n' pid /\ slot n' i = mark_committed (add_accept (slot n i)) /\
      l = (if broadcast_callback n then 1 else 0)%nat
    else sole n' pid i /\ slot n' i = add_accept (slot n i) /\ l = O
  else sole n' pid i /\ accept_count (slot n' i) = accept_count (slot n i) /\
       committed (slot n' i) = committed (slot n i) /\ l = O.
Proof.
  intros Hok Hsole. pose proof (find_proposal_sole _ _ _ Hok Hsole) as Hfind. simpl.
  destruct Hsole as [Hact Hone].
  destruct (handle_slots rc n m _ _ eq_refl eq_refl) as
    (_ & _ & _ & [(Ha & Hl & Hnf)|(k & p & Hk & -> & Hcase)]).
  { pose proof (slot_eq _ _ Ha) as Hs. rewrite decide_False.
    - split_and!; [| by rewrite Hs ..| apply Hl]. split; [by rewrite Hs |]. intros j. rewrite Hs. apply Hone.
    - intros [Hph Hp]. rewrite Hp, Hfind in Hnf. by specialize (Hnf Hph). }
  assert (Hlk : active_proposals n !! k <> None)
    by (by rewrite (active_lookup _ _ _ (find_proposal_Some _ _ _ Hk))).
  assert (Hgen : forall n' f, active_proposals n' = alter f k (active_proposals n) ->
    (forall p, p_id (f p) = p_id p /\ in_use (f p) = in_use p) ->
    (forall p, completed (f p) = completed p) -> sole n' pid i).
  { intros n' f Hn' Hf Hfc. pose proof (slot_alter _ _ _ _ Hn' Hlk) as Hs.
    assert (Hiff : forall j, active pid (slot n' j) <-> active pid (slot n j)).
    { intros j. rewrite Hs. destruct (decide (j = k)) as [->|]; [| done]. unfold active.
      destruct (Hf (slot n k)) as [-> ->]. by rewrite Hfc. }
    split; [by apply Hiff |]. intros j. rewrite Hiff. apply Hone. }
  destruct Hcase as [(Hph & Ha & Hl)|(Hph & Hcase)].
  { rewrite decide_False by (intros [Hx _]; by rewrite Hph in Hx).
    pose proof (slot_alter _ _ _ _ Ha Hlk i) as Hs. rewrite Hs.
    split_and!; [by eapply Hgen | by destruct (decide (i = k)) as [<-|] ..| apply Hl]. }
  destruct (decide (proposal_id m = pid)) as [Hp|Hp].
  - rewrite (decide_True (P := is_accepted pid m)) by done.
    rewrite Hp, Hfind in Hk. injection Hk as <-.
    destruct (decide (quorum_size n <= _)); destruct Hcase as [Ha Hl].
    + rewrite list_alter_alter_eq in Ha. pose proof (slot_alter _ _ _ _ Ha Hlk) as Hs.
      split_and!; [| by rewrite Hs, decide_True |].
      * intros j. rewrite Hs. destruct (decide (j = i)) as [->|Hji]; [by intros (_ & _ & ?) |].
        intros Hj. by apply Hji, Hone.
      * rewrite Hl. destruct Hact as (Hpi & _). destruct (broadcast_callback n);
          [by rewrite decide_True | by rewrite decide_False by (by intros [? _])].
    + pose proof (slot_alter _ _ _ _ Ha Hlk) as Hs.
      split_and!; [by eapply Hgen | by rewrite Hs, decide_True | apply Hl].
  - rewrite (decide_False (P := is_accepted pid m)) by (by intros [_ ?]).
    pose proof (find_proposal_Some _ _ _ Hk) as (Hkp & _).
    assert (Hik : i <> k) by (intros <-; destruct Hact as (? & _); congruence).
    destruct (decide (quorum_size n <= _)); destruct Hcase as [Ha Hl].
    + rewrite list_alter_alter_eq in Ha. pose proof (slot_alter _ _ _ _ Ha Hlk) as Hs.
      rewrite Hs, decide_False by done. split_and!; try done.
      * split; [by rewrite Hs, decide_False |]. intros j. rewrite Hs.
        destruct (decide (j = k)); [| apply Hone]. intros (Hq & _). simpl in Hq. congruence.
      * rewrite Hl, decide_False; [done |]. intros [_ ->]. congruence.
    + pose proof (slot_alter _ _ _ _ Ha Hlk) as Hs. rewrite Hs, decide_False by done.
      split_and!; [by eapply Hgen | done | done | apply Hl].
Qed.

Lemma run_cons rc m ms n :
  (handle_run rc (m :: ms) n).1 = (handle_run rc ms (paxos_handle_message rc n m).1.2).1 /\
  (handle_run rc (m :: ms) n).2 = (paxos_handle_message rc n m).2 ++
    (handle_run rc ms (paxos_handle_message rc n m).1.2).2.
Proof.
  simpl. destruct (paxos_handle_message rc n m) as [[[??] n1] e1]. simpl.
  by destruct (handle_run rc ms n1).
Qed.

Lemma run_finished rc ms n pid i :
  finished n pid -> completed (slot n i) = true ->
  slot (handle_run rc ms n).1 i = slot n i /\ learns pid (handle_run rc ms n).2 = O.
Proof.
  revert n. induction ms as [|m ms IH]; intros n Hf Hc; [done |].
  destruct (run_cons rc m ms n) as [-> ->].
  destruct (handle_finished rc n m pid i Hf Hc) as (Hf' & Hs & Hl).
  destruct (IH _ Hf') as [-> Hl']; [by rewrite Hs |]. by rewrite learns_app, Hl, Hl'.
Qed.

Lemma handle_config rc n m :
  let n' := (paxos_handle_message rc n m).1.2 in
  quorum_size n' = quorum_size n /\ broadcast_callback n' = broadcast_callback n /\
  (node_ok n -> node_ok n').
Proof. destruct (handle_slots rc n m _ _ eq_refl eq_refl) as (? & ? & ? & _). done. Qed.

Lemma accepts_cons pid m ms :
  accepts pid (m :: ms) = (if decide (is_accepted pid m) then 1 else 0) + accepts pid ms.
Proof. unfold accepts. rewrite filter_cons. case_decide; simpl; lia. Qed.

Lemma accepts_nonneg pid ms : 0 <= accepts pid ms.
Proof. unfold accepts. lia. Qed.

Lemma run_commit rc ms n pid i :
  node_ok n -> sole n pid i -> committed (slot n i) = false ->
  0 <= accept_count (slot n i) < quorum_size n ->
  accept_count (slot n i) + Z.of_nat (length ms) < 2 ^ 32 ->
  let c := bool_decide (quorum_size n <= accept_count (slot n i) + accepts pid ms) in
  committed (slot (handle_run rc ms n).1 i) = c /\
  learns pid (handle_run rc ms n).2 = (if c && broadcast_callback n then 1 else 0)%nat.
Proof.
  revert n. induction ms as [|m ms IH]; intros n Hok Hs Hc Hq Hlen.
  { simpl. rewrite Hc, bool_decide_eq_false_2; [done |]. unfold accepts. simpl. lia. }
  destruct (run_cons rc m ms n) as [-> ->]. rewrite learns_app, accepts_cons.
  destruct (handle_config rc n m) as (Hqs & Hbc & Hok'). specialize (Hok' Hok).
  pose proof (handle_sole rc n m pid i Hok Hs) as Hstep. cbv zeta in Hstep.
  set (n1 := (paxos_handle_message rc n m).1.2) in *. cbn [length] in Hlen.
  pose proof (accepts_nonneg pid ms). destruct (decide (is_accepted pid m)).
  - rewrite u32_small in Hstep by lia.
    destruct (decide (quorum_size n <= accept_count (slot n i) + 1)) as [Hge|Hlt];
      destruct Hstep as (Hs' & Hsl & Hl).
    + destruct (run_finished rc ms n1 pid i Hs') as [-> Hl']; [by rewrite Hsl |].
      rewrite Hsl, Hl, Hl', bool_decide_eq_true_2 by lia. simpl.
      by destruct (broadcast_callback n).
    + assert (Hac : accept_count (slot n1 i) = accept_count (slot n i) + 1)
        by (rewrite Hsl; simpl; apply u32_small; lia).
      destruct (IH n1) as [Hc' Hl']; rewrite ?Hac, ?Hqs; try done; try lia.
      { by rewrite Hsl. }
      rewrite Hl, Hl', Hc', Hac, Hqs, Hbc, <- Z.add_assoc. done.
  - destruct Hstep as (Hs' & Hac & Hcm & Hl).
    destruct (IH n1) as [Hc' Hl']; rewrite ?Hac, ?Hqs, ?Hcm; try done; try lia.
    by rewrite Hl, Hl', Hc', Hac, Hqs, Hbc, Z.add_0_l.
Qed.

(** C25: the commit rule. Whatever messages a node handles, a proposal in progress is
    committed exactly when the ACCEPTED messages for its number, added to those counted
    before, reach the quorum (messages are counted, copies from one acceptor included),
    and its LEARN is broadcast once if so and not otherwise. *)
Theorem paxos_commit_iff_quorum rc ms n pid i :
  node_ok n -> sole n pid i -> committed (slot n i) = false ->
  0 <= accept_count (slot n i) < quorum_size n ->
  accept_count (slot n i) + Z.of_nat (length ms) < 2 ^ 32 ->
  let '(n', eff) := handle_run rc ms n in
  (committed (slot n' i) = true <-> quorum_size n <= accept_count (slot n i) + accepts pid ms) /\
  (broadcast_callback n = true ->
     learns pid eff = if committed (slot n' i) then 1%nat else O).
Proof.
  intros Hok Hs Hc Hq Hlen. destruct (run_commit rc ms n pid i Hok Hs Hc Hq Hlen) as [Hcm Hl].
  destruct (handle_run rc ms n) as [n' eff]. cbn [fst snd] in *. rewrite Hcm, Hl. split.
  - by rewrite bool_decide_eq_true.
  - intros ->. by rewrite andb_true_r.
Qed.

(** Any two quorums of an initialised node's cluster share a member. *)
Theorem paxos_quorums_intersect alloc_ok id total pcb acb n (A B : gset nat) :
  paxos_init alloc_ok id total pcb acb = Some n -> total < 2 ^ 32 ->
  (forall x, x ∈ A ∪ B -> Z.of_nat x < total) ->
  paxos_check_quorum n (Z.of_nat (size A)) = true ->
  paxos_check_quorum n (Z.of_nat (size B)) = true ->
  exists x, x ∈ A ∩ B.
Proof.
  intros Hinit Htot Hsub HA HB. unfold paxos_init in Hinit.
  destruct (decide _) as [|Hodd]; [done |]. destruct alloc_ok; [| done]. injection Hinit as <-.
  unfold paxos_check_quorum in HA, HB. rewrite bool_decide_eq_true in HA, HB.
  cbn [quorum_size] in HA, HB.
  assert (Hq : u32 (total `div` 2 + 1) = total `div` 2 + 1).
  { apply u32_small. pose proof (Z.div_pos total 2 ltac:(lia) ltac:(lia)).
    pose proof (Z.div_le_upper_bound total 2 (2 ^ 31) ltac:(lia) ltac:(lia)). lia. }
  rewrite Hq in HA, HB.
  destruct (decide (A ∩ B = ∅)) as [Hemp|Hne]; [exfalso | by apply set_choose_L].
  assert (Hdisj : A ## B) by set_solver.
  assert (Hle : (size (A ∪ B) <= Z.to_nat total)%nat).
  { rewrite <- (size_set_seq (C := gset nat) 0 (Z.to_nat total)).
    apply subseteq_size. intros x Hx%Hsub. apply elem_of_set_seq. lia. }
  rewrite size_union in Hle by done.
  pose proof (Z.div_mod total 2 ltac:(lia)). pose proof (Z.mod_pos_bound total 2 ltac:(lia)). lia.
Qed.

(** ** The learner *)

(** The (sequence number, value) pairs handed to the state machine. *)
Definition applies (eff : list effect) : list (Z * cvalue) :=
  omap (fun e => match e with Apply s v _ => Some (s, v) | _ => None end) eff.

(** The messages above [c] and above everything before them. *)
Fixpoint newer (c : Z) (ms : list paxos_message) : list (Z * cvalue) :=
  match ms with
  | [] => []
  | m :: ms' =>
      if decide (c < sequence_number m)
      then (sequence_number m, value m) :: newer (sequence_number m) ms'
      else newer c ms'
  end.

Lemma learn_step rc n m :
  phase m = PAXOS_PHASE_LEARN -> apply_callback n = true ->
  let n' := (paxos_handle_message rc n m).1.2 in
  apply_callback n' = true /\
  if decide (highest_sequence_committed n < sequence_number m)
  then highest_sequence_committed n' = sequence_number m /\
       applies (paxos_handle_message rc n m).2 = [(sequence_number m, value m)]
  else n' = n /\ (paxos_handle_message rc n m).2 = [].
Proof.
  intros Hp Ha. unfold paxos_handle_message. rewrite Hp, !decide_False, decide_True by done.
  unfold handle_learn. case_decide; [| done]. rewrite Ha. by destruct (_ && _).
Qed.

Lemma learn_run rc ms n :
  Forall (fun m => phase m = PAXOS_PHASE_LEARN) ms -> apply_callback n = true ->
  applies (handle_run rc ms n).2 = newer (highest_sequence_committed n) ms.
Proof.
  intros Hms. revert n. induction Hms as [|m ms Hm _ IH]; intros n Ha; [done |].
  destruct (run_cons rc m ms n) as [_ ->]. unfold applies. rewrite omap_app.
  destruct (learn_step rc n m Hm Ha) as [Ha' Hstep]. cbn [newer]. case_decide.
  - destruct Hstep as [Hc He]. unfold applies in He, IH. rewrite He, IH by done. by rewrite Hc.
  - destruct Hstep as [-> ->]. by apply IH.
Qed.

Lemma newer_sorted c ms :
  StronglySorted Z.lt (newer c ms).*1 /\ Forall (fun s => c < s) (newer c ms).*1.
Proof.
  revert c. induction ms as [|m ms IH]; intros c; simpl; [repeat constructor |].
  case_decide; [| apply IH]. destruct (IH (sequence_number m)) as [Hs Hf]. simpl.
  split; constructor; try done. eapply Forall_impl; [exact Hf |]. simpl. lia.
Qed.

(** A learner applies values in strictly increasing sequence order, above what it
    had committed, so no sequence number twice, whatever LEARN messages arrive in
    whatever order. *)
Theorem paxos_learner_in_order rc ms n :
  Forall (fun m => phase m = PAXOS_PHASE_LEARN) ms -> apply_callback n = true ->
  let applied := applies (handle_run rc ms n).2 in
  StronglySorted Z.lt applied.*1 /\
  Forall (fun s => highest_sequence_committed n < s) applied.*1 /\
  forall s v, (s, v) ∈ applied -> exists m, m ∈ ms /\ sequence_number m = s /\ value m = v.
Proof.
  intros Hms Ha. cbv zeta. rewrite learn_run by done.
  destruct (newer_sorted (highest_sequence_committed n) ms) as [Hs Hf]. split_and!; try done.
  generalize (highest_sequence_committed n). clear. induction ms as [|m ms IH]; intros c s v; simpl.
  - by intros ?%not_elem_of_nil.
  - case_decide; [rewrite elem_of_cons; intros [[= -> ->]|Hin] | intros Hin].
    + exists m. by rewrite elem_of_cons; auto.
    + destruct (IH _ _ _ Hin) as (m' & ? & ?). exists m'. by rewrite elem_of_cons; auto.
    + destruct (IH _ _ _ Hin) as (m' & ? & ?). exists m'. by rewrite elem_of_cons; auto.
Qed.

Lemma newer_late c ms m :
  (exists m2, m2 ∈ ms /\ sequence_number m <= sequence_number m2) -> forall ms',
  newer c (ms ++ m :: ms') = newer c (ms ++ ms').
Proof.
  revert c. induction ms as [|m0 ms IH]; intros c (m2 & Hin & Hle) ms'.
  { by apply not_elem_of_nil in Hin. }
  apply elem_of_cons in Hin as [->|Hin].
  - assert (Hgen : forall c', sequence_number m <= c' ->
              newer c' (ms ++ m :: ms') = newer c' (ms ++ ms')).
    { clear IH. induction ms as [|m1 ms IH]; intros c' Hc; simpl.
      - by rewrite decide_False by lia.
      - case_decide; [f_equal |]; apply IH; lia. }
    simpl. case_decide; [f_equal |]; apply Hgen; lia.
  - simpl. case_decide; [f_equal |]; apply IH; eauto.
Qed.

(** A LEARN that arrives after one with a higher sequence number is lost: its
    value is never applied and the rest of the run is as if it had not been sent. *)
Theorem paxos_late_learn_is_lost rc ms m m2 ms' n :
  Forall (fun m => phase m = PAXOS_PHASE_LEARN) (ms ++ m :: ms') -> apply_callback n = true ->
  m2 ∈ ms -> sequence_number m <= sequence_number m2 ->
  applies (handle_run rc (ms ++ m :: ms') n).2 = applies (handle_run rc (ms ++ ms') n).2.
Proof.
  intros Hms Ha Hin Hle. rewrite !learn_run; try done; [by apply newer_late; eauto |].
  rewrite Forall_app, Forall_cons in Hms. rewrite Forall_app. tauto.
Qed.

(** ** The wire format *)

(** Fields within their C types, and a value that matches its length. *)
Definition msg_ok (m : paxos_message) : Prop :=
  0 <= phase m < 2 ^ 32 /\ 0 <= proposal_id m < 2 ^ 64 /\ 0 <= sequence_number m < 2 ^ 64 /\
  0 <= sender_id m < 2 ^ 32 /\ 0 <= acceptor_id m < 2 ^ 32 /\ 0 <= accepted_id m < 2 ^ 64 /\
  0 <= value_len m < 2 ^ 64 /\
  match value m with
  | Some v => v <> [] /\ Z.of_nat (length v) = value_len m
  | None => value_len m = 0
  end.

Definition set_noop (b : bool) (m : paxos_message) : paxos_message :=
  MkMsg (phase m) (proposal_id m) (sequence_number m) (sender_id m) (acceptor_id m)
    (accepted_id m) (value m) (value_len m) b.

Lemma length_msg_header pad addr m : length pad = 4%nat -> length (msg_header pad addr m) = header_len.
Proof. intros Hp. unfold msg_header. by rewrite !length_app, !length_le_bytes, Hp. Qed.

(** The seven fields read back from a buffer that starts with a header. *)
Lemma header_fields pad addr m rest :
  length pad = 4%nat -> msg_ok m ->
  let buf := msg_header pad addr m ++ rest in
  read_le 0 4 buf = Some (phase m) /\ read_le 8 8 buf = Some (proposal_id m) /\
  read_le 16 8 buf = Some (sequence_number m) /\ read_le 24 4 buf = Some (sender_id m) /\
  read_le 28 4 buf = Some (acceptor_id m) /\ read_le 32 8 buf = Some (accepted_id m) /\
  read_le 48 8 buf = Some (value_len m).
Proof.
  intros Hpad (H1 & H2 & H3 & H4 & H5 & H6 & H7 & _). cbv zeta. unfold msg_header.
  set (a1 := le_bytes 4 (phase m)). set (a2 := le_bytes 8 (proposal_id m)).
  set (a3 := le_bytes 8 (sequence_number m)). set (a4 := le_bytes 4 (sender_id m)).
  set (a5 := le_bytes 4 (acceptor_id m)). set (a6 := le_bytes 8 (accepted_id m)).
  set (a7 := le_bytes 8 addr). rewrite <- !app_assoc. unfold a1, a2, a3, a4, a5, a6, a7.
  split_and!.
  - read_field (@nil Z).
  - read_field (a1 ++ pad).
  - read_field (a1 ++ pad ++ a2).
  - read_field (a1 ++ pad ++ a2 ++ a3).
  - read_field (a1 ++ pad ++ a2 ++ a3 ++ a4).
  - read_field (a1 ++ pad ++ a2 ++ a3 ++ a4 ++ a5).
  - read_field (a1 ++ pad ++ a2 ++ a3 ++ a4 ++ a5 ++ a6 ++ a7).
Qed.

(** Decoding an encoded message yields the message, except for the no-op flag,
    which is not transmitted and keeps the receiver's value. *)
Theorem paxos_message_roundtrip pad addr junk m old :
  length pad = 4%nat -> msg_ok m ->
  paxos_deserialize_message true (paxos_serialize_message pad addr junk m) old
  = Some (0, set_noop (is_noop old) m).
Proof.
  intros Hpad Hm. pose proof (length_msg_header pad addr m Hpad) as Hlen.
  unfold paxos_deserialize_message, paxos_serialize_message.
  set (rest := match value m with Some _ => _ | None => _ end).
  rewrite decide_False by (rewrite length_app, Hlen; lia).
  destruct (header_fields pad addr m rest Hpad Hm) as (-> & -> & -> & -> & -> & -> & ->).
  cbn [mbind option_bind].
  destruct Hm as (_ & _ & _ & _ & _ & _ & Hl & Hv). unfold set_noop. subst rest.
  destruct (value m) as [v|].
  - destruct Hv as [Hne Hv]. assert (0 < value_len m) by (destruct v; simpl in *; [done | lia]).
    rewrite !decide_True by lia. rewrite take_ge by lia.
    assert (Hr : read_bytes header_len (Z.to_nat (value_len m)) (msg_header pad addr m ++ v) = Some v).
    { rewrite <- (app_nil_r v) at 1. apply read_bytes_field; lia. }
    by rewrite Hr.
  - rewrite decide_False by lia. done.
Qed.

(** The length field of a received message is not checked against the buffer: any
    header that announces more value bytes than follow it makes decoding read past the
    end. *)
Theorem paxos_deserialize_overreads pad addr m rest old :
  length pad = 4%nat -> msg_ok m -> Z.of_nat (length rest) < value_len m ->
  paxos_deserialize_message true (msg_header pad addr m ++ rest) old = None.
Proof.
  intros Hpad Hm Hshort. pose proof (length_msg_header pad addr m Hpad) as Hlen.
  unfold paxos_deserialize_message. rewrite decide_False by (rewrite length_app, Hlen; lia).
  destruct (header_fields pad addr m rest Hpad Hm) as (-> & -> & -> & -> & -> & -> & ->).
  cbn [mbind option_bind].
  rewrite decide_True by lia. unfold read_bytes.
  rewrite decide_False; [done |]. rewrite length_app, Hlen. lia.
Qed.

(** ** The theorems at concrete nodes *)

Definition demo_node : paxos_node :=
  paxos_set_broadcast_callback true
    (default (MkNode 0 0 0 0 0 0 0 0 [] 0 false false false 0) (paxos_init true 2 5 true true)).

Definition demo_pid : Z := 65538.

(** Node 2 of 5, waiting for votes on its first proposal. *)
Definition demo_proposer : paxos_node :=
  upd_slot 0 count_self (upd_slot 0 (claim_slot demo_pid 1 [7; 8]) (set_seen demo_pid demo_node)).

Definition demo_accepted : paxos_message :=
  MkMsg PAXOS_PHASE_ACCEPTED demo_pid 1 3 3 0 None 0 false.

Definition demo_learn (s : Z) : paxos_message :=
  MkMsg PAXOS_PHASE_LEARN demo_pid s 1 0 0 (Some [s]) 1 false.

Lemma demo_sole : sole demo_proposer demo_pid 0.
Proof.
  split; [by vm_compute |]. intros j Hj. pose proof (active_lookup _ _ _ Hj) as Hl.
  assert (Hall : Forall (fun p => p.1 = O \/ ~ active demo_pid p.2)
            (imap pair (active_proposals demo_proposer)))
    by (apply (bool_decide_unpack _); vm_compute; exact I).
  rewrite Forall_lookup in Hall.
  destruct (Hall j (j, slot demo_proposer j)) as [?|?]; [| done | done].
  rewrite list_lookup_imap, Hl. done.
Qed.

Lemma paxos_next_proposal_id_spec_witness :
  0 < demo_pid < 2 ^ 64 /\ (paxos_next_proposal_id demo_node).1 = demo_pid.
Proof.
  pose proof (paxos_next_proposal_id_spec demo_node ltac:(vm_compute; split; congruence))
    as (Hg & _ & _).
  split; [exact Hg | vm_compute; reflexivity].
Defined.

Lemma paxos_next_proposal_id_wraps_witness :
  (paxos_next_proposal_id (set_seen UINT64_MAX demo_node)).1 = 2.
Proof.
  apply (paxos_next_proposal_id_wraps (set_seen UINT64_MAX demo_node));
    vm_compute; split; congruence.
Defined.

Lemma paxos_promise_kept_witness :
  let m := MkMsg PAXOS_PHASE_PREPARE 131073 1 1 0 0 None 0 false in
  let n1 := (paxos_handle_message 0 demo_node m).1.2 in
  let n2 := node_run [Proposing (MkObs true 0 0 Woken) [1] PStart] n1 in
  paxos_handle_message 0 n2 (MkMsg PAXOS_PHASE_ACCEPT 65540 1 4 0 0 (Some [1]) 1 false)
  = (-1, None, n2, []).
Proof.
  intros m n1.
  apply (paxos_promise_kept 0 demo_node m
           (MkMsg PAXOS_PHASE_PROMISE 131073 1 2 2 0 None 0 false) n1 []).
  - reflexivity.
  - reflexivity.
  - split; [intros ob v _; vm_compute; split; congruence | exact I].
  - vm_compute. reflexivity.
  - right. reflexivity.
Defined.

Lemma paxos_accept_spec_witness :
  let m := MkMsg PAXOS_PHASE_ACCEPT 65540 1 4 0 0 (Some [1]) 1 false in
  (paxos_handle_message 0 demo_node m).2 = [Persist 1 (Some [1]) 1].
Proof.
  intros m. pose proof (paxos_accept_spec 0 demo_node m eq_refl eq_refl) as H.
  exact (proj1 (proj2 (proj2 (proj2 H)))).
Defined.

Lemma paxos_commit_iff_quorum_witness :
  committed (slot (handle_run 0 [demo_accepted; demo_learn 4; demo_accepted] demo_proposer).1 0)
    = true.
Proof.
  pose proof (paxos_commit_iff_quorum 0 [demo_accepted; demo_learn 4; demo_accepted]
    demo_proposer demo_pid 0 ltac:(vm_compute; reflexivity) demo_sole
    ltac:(vm_compute; reflexivity) ltac:(vm_compute; split; congruence)
    ltac:(vm_compute; congruence)) as H.
  destruct (handle_run 0 [demo_accepted; demo_learn 4; demo_accepted] demo_proposer) as [n' eff].
  apply H. vm_compute. congruence.
Defined.

Lemma paxos_quorums_intersect_witness :
  exists x, x ∈ ({[0; 1; 2]} ∩ {[2; 3; 4]} : gset nat)%nat.
Proof.
  apply (paxos_quorums_intersect true 2 5 true true
           (default demo_node (paxos_init true 2 5 true true)) {[0; 1; 2]}%nat {[2; 3; 4]}%nat).
  - reflexivity.
  - lia.
  - intros x Hx. assert (x <= 4)%nat by set_solver by lia. lia.
  - vm_compute. reflexivity.
  - vm_compute. reflexivity.
Defined.

Lemma paxos_learner_in_order_witness :
  StronglySorted Z.lt
    (applies (handle_run 0 [demo_learn 2; demo_learn 1; demo_learn 5] demo_node).2).*1.
Proof.
  apply (paxos_learner_in_order 0 [demo_learn 2; demo_learn 1; demo_learn 5] demo_node);
    [repeat constructor | reflexivity].
Defined.

Lemma paxos_late_learn_is_lost_witness :
  applies (handle_run 0 ([demo_learn 2] ++ demo_learn 1 :: [demo_learn 5]) demo_node).2
  = [(2, Some [2]); (5, Some [5])].
Proof.
  rewrite (paxos_late_learn_is_lost 0 [demo_learn 2] (demo_learn 1) (demo_learn 2) [demo_learn 5]
             demo_node);
    [vm_compute; reflexivity | repeat constructor | reflexivity | by constructor | simpl; lia].
Defined.

Definition demo_accept : paxos_message :=
  MkMsg PAXOS_PHASE_ACCEPT demo_pid 1 2 0 0 (Some [7; 8]) 2 false.

Lemma demo_accept_ok : msg_ok demo_accept.
Proof. repeat split; simpl; (lia || done). Qed.

Lemma paxos_message_roundtrip_witness :
  paxos_deserialize_message true (paxos_serialize_message [1; 2; 3; 4] 4096 [] demo_accept) zero_msg
  = Some (0, demo_accept).
Proof.
  exact (paxos_message_roundtrip [1; 2; 3; 4] 4096 [] demo_accept zero_msg eq_refl demo_accept_ok).
Defined.

Lemma paxos_deserialize_overreads_witness :
  paxos_deserialize_message true (msg_header [0; 0; 0; 0] 0 demo_accept ++ [7]) zero_msg = None.
Proof.
  apply (paxos_deserialize_overreads [0; 0; 0; 0] 0 demo_accept [7] zero_msg eq_refl
           demo_accept_ok).
  simpl. lia.
Defined.
