(* ===== verification/PaxosLive.v ===== *)
(** * The Paxos proposer: when a proposal succeeds

    A call of [paxos_propose] on one node, interleaved with the messages the node
    handles while the call waits.  If nothing fails locally and enough answers arrive,
    the call returns 0. *)

From stdpp Require Import base gmap list numbers.
From S2P Require Import Prelude Paxos PaxosThm.

#[local] Open Scope Z_scope.

(** ** Counting promises *)

Definition is_promise (pid : Z) (m : paxos_message) : Prop :=
  phase m = PAXOS_PHASE_PROMISE /\ proposal_id m = pid.

#[export] Instance is_promise_dec pid m : Decision (is_promise pid m).
Proof. unfold is_promise. apply _. Defined.

Definition promises (pid : Z) (ms : list paxos_message) : Z :=
  Z.of_nat (length (filter (is_promise pid) ms)).

Lemma promises_cons pid m ms :
  promises pid (m :: ms) = (if decide (is_promise pid m) then 1 else 0) + promises pid ms.
Proof. unfold promises. rewrite filter_cons. case_decide; simpl; lia. Qed.

Lemma promises_nonneg pid ms : 0 <= promises pid ms.
Proof. unfold promises. lia. Qed.

(** The handler never takes or frees a slot. *)
Lemma handle_in_use rc n m j :
  in_use (slot (paxos_handle_message rc n m).1.2 j) = in_use (slot n j).
Proof.
  destruct (handle_slots rc n m _ _ eq_refl eq_refl) as
    (_ & _ & _ & [(Ha & _)|(k & p & Hk & -> & Hcase)]); [by rewrite (slot_eq _ _ Ha) |].
  assert (Hlk : active_proposals n !! k <> None)
    by (by rewrite (active_lookup _ _ _ (find_proposal_Some _ _ _ Hk))).
  destruct Hcase as [(_ & Ha & _)|(_ & Hcase)].
  - rewrite (slot_alter _ _ _ _ Ha Hlk). by destruct (decide (j = k)) as [->|].
  - destruct (decide (quorum_size n <= _)); destruct Hcase as [Ha _];
      rewrite ?list_alter_alter_eq in Ha; rewrite (slot_alter _ _ _ _ Ha Hlk);
      by destruct (decide (j = k)) as [->|].
Qed.

Lemma run_in_use rc ms n j : in_use (slot (handle_run rc ms n).1 j) = in_use (slot n j).
Proof.
  revert n. induction ms as [|m ms IH]; intros n; [done |].
  destruct (run_cons rc m ms n) as [-> _]. by rewrite IH, handle_in_use.
Qed.

(** One message that is not an ACCEPTED for [pid], seen from its slot. *)
Lemma handle_promises rc n m pid i :
  node_ok n -> sole n pid i -> ~ is_accepted pid m ->
  promise_count (slot (paxos_handle_message rc n m).1.2 i) =
  if decide (is_promise pid m) then u32 (promise_count (slot n i) + 1)
  else promise_count (slot n i).
Proof.
  intros Hok Hsole Hna. pose proof (find_proposal_sole _ _ _ Hok Hsole) as Hfind.
  destruct Hsole as [(Hpid & _) _]. unfold paxos_handle_message.
  destruct (decide (phase m = PAXOS_PHASE_PREPARE)) as [H1|H1].
  { rewrite decide_False by (intros [Hx _]; by rewrite H1 in Hx).
    unfold handle_prepare. by case_decide. }
  destruct (decide (phase m = PAXOS_PHASE_PROMISE)) as [H2|H2].
  { unfold handle_promise. destruct (decide (is_promise pid m)) as [[_ Hp]|Hp].
    - rewrite Hp, Hfind. cbn [fst snd]. rewrite slot_upd; [by rewrite decide_True |].
      apply find_proposal_Some, active_lookup in Hfind. by rewrite Hfind.
    - destruct (find_proposal n (proposal_id m)) as [k|] eqn:Hk; [| done]. cbn [fst snd].
      apply find_proposal_Some in Hk as Hact. rewrite slot_upd.
      + rewrite decide_False; [done |]. intros <-. apply Hp. split; [done |].
        destruct Hact as (? & _). congruence.
      + by rewrite (active_lookup _ _ _ Hact). }
  rewrite (decide_False (P := is_promise pid m)) by (by intros [? _]).
  destruct (decide (phase m = PAXOS_PHASE_ACCEPT)).
  { unfold handle_accept. by repeat case_match. }
  destruct (decide (phase m = PAXOS_PHASE_ACCEPTED)) as [H4|H4].
  { unfold handle_accepted. destruct (find_proposal n (proposal_id m)) as [k|] eqn:Hk; [| done].
    apply find_proposal_Some in Hk as Hact. pose proof (active_lookup _ _ _ Hact) as Hlk.
    assert (Hik : i <> k).
    { intros <-. apply Hna. split; [done |]. destruct Hact as (? & _). congruence. }
    assert (Hne : forall f nd, slot (upd_slot k f nd) i = slot nd i).
    { intros f nd. unfold slot, upd_slot. simpl. by rewrite list_lookup_alter_ne. }
    destruct (paxos_check_quorum _ _); cbn [fst snd]; [| by rewrite Hne].
    case_decide; unfold set_committed_seq, slot; cbn [active_proposals];
      (change (active_proposals (upd_slot k mark_committed (upd_slot k add_accept n)))
         with (alter mark_committed k (alter add_accept k (active_proposals n))));
      by rewrite !list_lookup_alter_ne. }
  destruct (decide (phase m = PAXOS_PHASE_LEARN)); [| done].
  unfold handle_learn. case_decide; [| done]. cbn [fst snd]. by destruct (_ && _).
Qed.

Lemma run_promises rc ms n pid i :
  node_ok n -> sole n pid i -> accepts pid ms = 0 -> 0 <= promise_count (slot n i) ->
  promise_count (slot n i) + Z.of_nat (length ms) < 2 ^ 32 ->
  let n' := (handle_run rc ms n).1 in
  node_ok n' /\ sole n' pid i /\
  promise_count (slot n' i) = promise_count (slot n i) + promises pid ms /\
  accept_count (slot n' i) = accept_count (slot n i) /\
  committed (slot n' i) = committed (slot n i) /\
  quorum_size n' = quorum_size n /\ broadcast_callback n' = broadcast_callback n.
Proof.
  revert n. induction ms as [|m ms IH]; intros n Hok Hs Ha H0 Hlen.
  { unfold promises. simpl. split_and!; try done. lia. }
  destruct (run_cons rc m ms n) as [-> _]. rewrite accepts_cons in Ha. rewrite promises_cons.
  cbn [length] in Hlen. pose proof (accepts_nonneg pid ms).
  destruct (decide (is_accepted pid m)) as [|Hna]; [lia |].
  destruct (handle_config rc n m) as (Hq & Hb & Hok'). specialize (Hok' Hok).
  pose proof (handle_promises rc n m pid i Hok Hs Hna) as Hp.
  pose proof (handle_sole rc n m pid i Hok Hs) as Hstep. cbv zeta in Hstep.
  rewrite decide_False in Hstep by done. destruct Hstep as (Hs' & Hac & Hcm & _).
  set (n1 := (paxos_handle_message rc n m).1.2) in *.
  assert (Hp' : promise_count (slot n1 i) =
    promise_count (slot n i) + (if decide (is_promise pid m) then 1 else 0)).
  { rewrite Hp. case_decide; [apply u32_small |]; lia. }
  destruct (IH n1 Hok' Hs') as (? & ? & Hpc & Hacc & Hcc & Hqq & Hbb);
    [lia | rewrite Hp'; case_decide; lia .. |].
  split_and!; try done; [lia | congruence ..].
Qed.

(** ** A call of [paxos_propose] *)

(** [k] steps of the call with the same observation. *)
Fixpoint propose_run (k : nat) (ob : observation) (v : list Z) (pc : propose_pc) (n : paxos_node)
  : propose_pc * paxos_node * list effect :=
  match k with
  | O => (pc, n, [])
  | S k' =>
      let '(pc1, n1, e1) := propose_step ob v pc n in
      let '(pc2, n2, e2) := propose_run k' ob v pc1 n1 in (pc2, n2, e1 ++ e2)
  end.

(** Nothing fails locally and waits end by being woken up. *)
Definition obs_ok (ob : observation) : Prop :=
  malloc_ok ob = true /\ persist_rc ob = 0 /\ 0 <= broadcast_rc ob /\ woken ob = Woken.

(** The call up to its first wait: the proposal is in progress in one slot only. *)
Lemma propose_to_promise ob v n :
  obs_ok ob -> v <> [] -> node_ok n -> broadcast_callback n = true ->
  (exists j p, active_proposals n !! j = Some p /\ in_use p = false) ->
  finished n (paxos_next_proposal_id n).1 ->
  let pid := (paxos_next_proposal_id n).1 in
  exists i n1, propose_run 4 ob v PStart n =
      (PWaitPromise i pid (next_sequence_number n), n1,
       [Broadcast (prepare_msg n1 pid (next_sequence_number n))]) /\
    node_ok n1 /\ sole n1 pid i /\ slot n1 i = claim_slot pid (next_sequence_number n) v zero_proposal /\
    quorum_size n1 = quorum_size n /\ broadcast_callback n1 = true.
Proof.
  intros (Hm & _ & Hb & _) Hv Hok Hbc (j & p & Hj & Hfree) Hfin pid.
  destruct (first_idx (fun p => in_use p = false) (max_proposals n) (active_proposals n)) as [i|] eqn:Hi.
  2:{ eapply first_idx_None in Hi as Hn; [by destruct Hn | | exact Hj].
      rewrite Hok. by eapply lookup_lt_Some. }
  pose proof Hi as (q & Hq & _ & Hqf & _)%first_idx_Some.
  exists i, (upd_slot i (claim_slot pid (next_sequence_number n) v)
    (set_next_seq (u64 (next_sequence_number n + 1)) (set_seen pid n))).
  assert (Hsl : forall k, slot (upd_slot i (claim_slot pid (next_sequence_number n) v)
      (set_next_seq (u64 (next_sequence_number n + 1)) (set_seen pid n))) k =
    if decide (k = i) then claim_slot pid (next_sequence_number n) v (slot n i) else slot n k).
  { intros k. rewrite slot_upd; [done |]. simpl. by rewrite Hq. }
  split_and!; try done.
  - cbn [propose_run propose_step]. rewrite decide_False by done. rewrite Hbc. cbn [negb].
    change (paxos_next_proposal_id n) with (pid, set_seen pid n). cbn [propose_step].
    cbn [next_sequence_number set_seen max_proposals active_proposals set_next_seq].
    rewrite Hi, Hm. cbn [propose_step]. rewrite decide_False by lia. done.
  - unfold node_ok. simpl. rewrite length_alter. apply Hok.
  - split; [rewrite Hsl, decide_True by done; done |]. intros k. rewrite Hsl.
    case_decide; [done |]. intros Hk. by destruct (Hfin k).
  - rewrite Hsl, decide_True by done. done.
Qed.

(** An update of the slot that keeps the identity of the proposal and its progress. *)
Lemma sole_upd n pid i f :
  (forall p, p_id (f p) = p_id p /\ in_use (f p) = in_use p /\ completed (f p) = completed p) ->
  sole n pid i -> sole (upd_slot i f n) pid i.
Proof.
  intros Hf [Ha Hone]. pose proof (active_lookup _ _ _ Ha) as Hl.
  assert (Hs : forall j, active pid (slot (upd_slot i f n) j) <-> active pid (slot n j)).
  { intros j. rewrite slot_upd by (by rewrite Hl). case_decide; [| done]. subst.
    unfold active. by destruct (Hf (slot n i)) as (-> & -> & ->). }
  split; [by apply Hs |]. intros j. rewrite Hs. apply Hone.
Qed.

(** The node after the local accept, before the ACCEPT is broadcast. *)
Definition after_accept (i : nat) (pid seq : Z) (n : paxos_node) : paxos_node :=
  let n1 := if decide (highest_proposal_seen n <= pid)
            then set_last_accepted pid (set_seen pid n) else n in
  let n2 := if decide (highest_sequence_persisted n1 < seq) then set_persisted seq n1 else n1 in
  upd_slot i count_self n2.

Lemma after_accept_slots i pid seq n :
  active_proposals (after_accept i pid seq n) = alter count_self i (active_proposals n) /\
  max_proposals (after_accept i pid seq n) = max_proposals n /\
  quorum_size (after_accept i pid seq n) = quorum_size n /\
  broadcast_callback (after_accept i pid seq n) = broadcast_callback n.
Proof. unfold after_accept. by repeat case_decide. Qed.

(** From the promises to the second wait. *)
Lemma propose_to_commit ob v n i pid seq :
  obs_ok ob -> in_use (slot n i) = true -> quorum_size n <= promise_count (slot n i) ->
  exists n', n' = after_accept i pid seq n /\
  propose_run 6 ob v (PWaitPromise i pid seq) n =
    (PWaitCommit i pid seq, n',
     (if persist_callback n then [Persist seq (Some v) (Z.of_nat (length v))] else []) ++
     [Broadcast (accept_msg n' pid seq v)]).
Proof.
  intros (_ & Hp & Hb & Hw) Hu Hq. eexists. split; [done |].
  cbn [propose_run propose_step]. unfold paxos_wait_for_condition, paxos_check_quorum.
  rewrite Hw, Hu, bool_decide_eq_true_2 by done. cbn [negb]. rewrite decide_False by lia.
  cbn [propose_step].
  assert (Hpc : persist_callback (if decide (highest_proposal_seen n <= pid)
    then set_last_accepted pid (set_seen pid n) else n) = persist_callback n) by (by case_decide).
  rewrite Hpc, Hp. rewrite (decide_False (P := 0 <> 0)) by lia.
  destruct (persist_callback n); cbn [propose_step];
    rewrite (decide_False (P := broadcast_rc ob < 0)) by lia; unfold after_accept; done.
Qed.

Lemma propose_succeeds ob rc v n ms1 ms2 :
  let pid := (paxos_next_proposal_id n).1 in
  obs_ok ob -> v <> [] -> node_ok n -> broadcast_callback n = true ->
  (exists j p, active_proposals n !! j = Some p /\ in_use p = false) -> finished n pid ->
  1 < quorum_size n -> Z.of_nat (length ms1) < 2 ^ 31 -> Z.of_nat (length ms2) < 2 ^ 31 ->
  accepts pid ms1 = 0 ->
  quorum_size n <= 1 + promises pid ms1 -> quorum_size n <= 1 + accepts pid ms2 ->
  let '(pc1, n1, _) := propose_run 4 ob v PStart n in
  let '(n2, _) := handle_run rc ms1 n1 in
  let '(pc2, n3, _) := propose_run 6 ob v pc1 n2 in
  let '(n4, eff) := handle_run rc ms2 n3 in
  (propose_step ob v pc2 n4).1.1 = PDone 0 /\ learns pid eff = 1%nat.
Proof.
  intros pid Hob Hv Hok Hbc Hfree Hfin Hq1 Hl1 Hl2 Ha1 Hp1 Ha2.
  destruct (propose_to_promise ob v n Hob Hv Hok Hbc Hfree Hfin)
    as (i & n1 & -> & Hok1 & Hs1 & Hsl1 & Hqs1 & Hbc1).
  fold pid in Hs1, Hsl1 |- *. set (seq := next_sequence_number n) in *.
  destruct (run_promises rc ms1 n1 pid i Hok1 Hs1 Ha1) as (Hok2 & Hs2 & Hpc & Hac & Hcm & Hqs2 & Hbc2);
    [rewrite Hsl1; simpl; lia ..|].
  destruct (handle_run rc ms1 n1) as [n2 e2]. cbn [fst] in *.
  rewrite Hsl1 in Hpc, Hac, Hcm. cbn [promise_count accept_count committed claim_slot] in Hpc, Hac, Hcm.
  destruct Hs2 as [Hact2 Hone2].
  destruct (propose_to_commit ob v n2 i pid seq Hob) as (n3 & Hn3 & ->); [apply Hact2 | lia |].
  destruct (after_accept_slots i pid seq n2) as (Hap & Hmp & Hqs3 & Hbc3). rewrite <- Hn3 in *.
  pose proof (active_lookup _ _ _ Hact2) as Hlk2.
  assert (Hsl3 : slot n3 i = count_self (slot n2 i)).
  { rewrite (slot_alter _ _ _ _ Hap) by (by rewrite Hlk2). by rewrite decide_True. }
  assert (Hok3 : node_ok n3) by (unfold node_ok; rewrite Hap, Hmp, length_alter; apply Hok2).
  assert (Hs3 : sole n3 pid i).
  { destruct (sole_upd n2 pid i count_self) as [Hx Hy]; [done | by split |].
    assert (He : forall j, slot n3 j = slot (upd_slot i count_self n2) j)
      by (intros j; unfold slot; by rewrite Hap).
    split; [by rewrite He |]. intros j. rewrite He. apply Hy. }
  destruct (run_commit rc ms2 n3 pid i Hok3 Hs3) as [Hcm4 Hln];
    [by rewrite Hsl3 | rewrite Hsl3; simpl; lia ..|].
  pose proof (run_in_use rc ms2 n3 i) as Hiu.
  destruct (handle_run rc ms2 n3) as [n4 e4]. cbn [fst snd] in *.
  rewrite Hsl3, Hqs3, Hqs2, Hqs1 in Hcm4, Hln. cbn [accept_count count_self] in Hcm4, Hln.
  rewrite bool_decide_eq_true_2 in Hcm4, Hln by lia. rewrite Hbc3, Hbc2, Hbc1 in Hln.
  destruct Hob as (_ & _ & _ & Hw).
  cbn [propose_step]. unfold paxos_wait_for_condition. rewrite Hw, Hiu, Hsl3.
  cbn [in_use count_self]. destruct Hact2 as (_ & -> & _). cbn [negb]. rewrite Hcm4.
  cbn [fst]. by rewrite decide_True.
Qed.

(** C26: a proposal succeeds. Nothing fails locally, there is a free slot and the drawn
    number is not in progress. Whatever messages the node handles while the call waits,
    if a quorum (the node itself counted) answers PROMISE before the first and ACCEPTED
    before the second wait ends, then [paxos_propose] returns 0, and LEARN has been
    broadcast exactly once. *)
Theorem paxos_propose_succeeds ob rc v n ms1 ms2 :
  let pid := (paxos_next_proposal_id n).1 in
  obs_ok ob -> v <> [] -> node_ok n -> broadcast_callback n = true ->
  (exists j p, active_proposals n !! j = Some p /\ in_use p = false) -> finished n pid ->
  1 < quorum_size n -> Z.of_nat (length ms1) < 2 ^ 31 -> Z.of_nat (length ms2) < 2 ^ 31 ->
  accepts pid ms1 = 0 ->
  quorum_size n <= 1 + promises pid ms1 -> quorum_size n <= 1 + accepts pid ms2 ->
  let '(pc1, n1, _) := propose_run 4 ob v PStart n in
  let '(n2, _) := handle_run rc ms1 n1 in
  let '(pc2, n3, _) := propose_run 6 ob v pc1 n2 in
  let '(n4, eff) := handle_run rc ms2 n3 in
  (propose_step ob v pc2 n4).1.1 = PDone 0 /\ learns pid eff = 1%nat.
Proof. apply propose_succeeds. Qed.

(** ** A concrete call *)

Definition live_node : paxos_node :=
  default (MkNode 0 0 0 0 0 0 0 0 [] 0 false false false 0)
    (paxos_set_broadcast_callback true <$> paxos_init true 1 3 true true).

Definition answer (ph pid : Z) : paxos_message := MkMsg ph pid 1 2 2 0 None 0 false.

Lemma live_node_free j : in_use (slot live_node j) = false.
Proof.
  unfold slot. change (active_proposals live_node) with (replicate 256 zero_proposal).
  destruct (replicate 256 zero_proposal !! j) as [p|] eqn:Hj; [| done].
  by apply lookup_replicate in Hj as [-> _].
Qed.

Lemma paxos_propose_succeeds_witness :
  let '(pc1, n1, _) := propose_run 4 (MkObs true 0 1 Woken) [7] PStart live_node in
  let '(n2, _) := handle_run 0 [answer PAXOS_PHASE_PROMISE 65537] n1 in
  let '(pc2, n3, _) := propose_run 6 (MkObs true 0 1 Woken) [7] pc1 n2 in
  let '(n4, eff) := handle_run 0 [answer PAXOS_PHASE_ACCEPTED 65537] n3 in
  (propose_step (MkObs true 0 1 Woken) [7] pc2 n4).1.1 = PDone 0 /\ learns 65537 eff = 1%nat.
Proof.
  apply (paxos_propose_succeeds (MkObs true 0 1 Woken) 0 [7] live_node
           [answer PAXOS_PHASE_PROMISE 65537] [answer PAXOS_PHASE_ACCEPTED 65537]).
  - unfold obs_ok. simpl. split_and!; [done | done | lia | done].
  - congruence.
  - reflexivity.
  - reflexivity.
  - exists O, zero_proposal. split; reflexivity.
  - intros j (_ & Hu & _). rewrite live_node_free in Hu. congruence.
  - vm_compute. reflexivity.
  - vm_compute. reflexivity.
  - vm_compute. reflexivity.
  - vm_compute. reflexivity.
  - vm_compute. congruence.
  - vm_compute. congruence.
Defined.
