(* ===== verification/PaxosCluster.v ===== *)
(** * A cluster of Paxos nodes

    The nodes of [Paxos] joined by the transport of [src/src/distributed_frontend.cpp]:
    [broadcast_message] sends to every peer, [deliver_message] hands a
    received message to [paxos_handle_message] and sends the answer to the sender.
    Messages are delivered at most once and unaltered, in any order, and may stay in
    transit; node [k] has identity [k].  An execution is a list of events. *)

From stdpp Require Import base sets list numbers.
From S2P Require Import Prelude Paxos.

#[local] Open Scope Z_scope.

(** A call of [paxos_propose] on a node. *)
Record thread := MkThread { t_node : nat; t_value : list Z; t_pc : propose_pc }.

Record cluster := MkCluster {
  nodes : list paxos_node;
  threads : list thread;
  transit : list (nat * paxos_message);
  logs : list (list effect);
}.

(** Messages put in transit by an effect of node [k]. *)
Definition broadcast_message (total : nat) (k : nat) (e : effect) : list (nat * paxos_message) :=
  match e with
  | Broadcast m => (fun d => (d, m)) <$> filter (fun d => d <> k) (seq 0 total)
  | _ => []
  end.

(** Node [k] becomes [n] and has made the callbacks [eff]. *)
Definition commit_effects (k : nat) (n : paxos_node) (eff : list effect) (c : cluster) : cluster :=
  MkCluster (<[k := n]> (nodes c)) (threads c)
    (transit c ++ (eff ≫= broadcast_message (length (nodes c)) k))
    (alter (fun l => l ++ eff) k (logs c)).

Inductive event :=
| EvPropose (k : nat) (v : list Z)
| EvThread (t : nat) (ob : observation)
| EvDeliver (j : nat) (rc : Z).

(** A message arrives at node [k]. *)
Definition deliver_message (rc : Z) (k : nat) (m : paxos_message) (c : cluster) : cluster :=
  match nodes c !! k with
  | None => c
  | Some n =>
      let '(ret, response, n', eff) := paxos_handle_message rc n m in
      let c' := commit_effects k n' eff c in
      match response with
      | Some r =>
          if decide (ret = 0)
          then MkCluster (nodes c') (threads c') (transit c' ++ [(Z.to_nat (sender_id m), r)]) (logs c')
          else c'
      | None => c'
      end
  end.

Definition cluster_step (ev : event) (c : cluster) : cluster :=
  match ev with
  | EvPropose k v => MkCluster (nodes c) (threads c ++ [MkThread k v PStart]) (transit c) (logs c)
  | EvThread t ob =>
      match threads c !! t with
      | None => c
      | Some th =>
          match nodes c !! t_node th with
          | None => c
          | Some n =>
              let '(pc', n', eff) := propose_step ob (t_value th) (t_pc th) n in
              let c' := commit_effects (t_node th) n' eff c in
              MkCluster (nodes c') (<[t := MkThread (t_node th) (t_value th) pc']> (threads c'))
                (transit c') (logs c')
          end
      end
  | EvDeliver j rc =>
      match transit c !! j with
      | None => c
      | Some (d, m) =>
          deliver_message rc d m
            (MkCluster (nodes c) (threads c) (delete j (transit c)) (logs c))
      end
  end.

Definition cluster_run (evs : list event) (c : cluster) : cluster :=
  foldl (fun c ev => cluster_step ev c) c evs.

(** [total] initialised nodes with all callbacks set. *)
Definition cluster_init (total : nat) : cluster :=
  let node k := default (MkNode 0 0 0 0 0 0 0 0 [] 0 false false false 0)
                  (paxos_init true (Z.of_nat k) (Z.of_nat total) true true) in
  MkCluster ((fun k => paxos_set_broadcast_callback true (node k)) <$> seq 0 total) [] []
    (replicate total []).

(** Nothing fails. *)
Definition calm : observation := MkObs true 0 0 Woken.

(** ** Executions *)

(** Node 0 proposes and gets its votes from node 1 only; node 2's messages are slow. *)
Definition first_round : list event :=
  [EvPropose 0 [65]] ++ replicate 4 (EvThread 0 calm) ++
  [EvDeliver 0 0; EvDeliver 1 0] ++ replicate 6 (EvThread 0 calm) ++
  [EvDeliver 1 0; EvDeliver 2 0; EvThread 0 calm].

(** Then node 2 proposes and gets its votes from node 1. *)
Definition second_round : list event :=
  [EvPropose 2 [66]] ++ replicate 4 (EvThread 1 calm) ++
  [EvDeliver 5 0; EvDeliver 5 0] ++ replicate 6 (EvThread 1 calm) ++
  [EvDeliver 6 0; EvDeliver 6 0; EvThread 1 calm].

(** ** Where values come from *)

Section Valid.
Context (V : list (list Z)).

(** A value (with its length) that is one of [V]. *)
Definition carried (v : cvalue) (len : Z) : Prop :=
  exists x, v = Some x /\ len = Z.of_nat (length x) /\ x ∈ V.

Definition slot_valid (p : paxos_proposal) : Prop := in_use p = true -> carried (p_value p) (p_len p).

Definition node_valid (n : paxos_node) : Prop := Forall slot_valid (active_proposals n).

Definition msg_valid (m : paxos_message) : Prop :=
  phase m = PAXOS_PHASE_ACCEPT \/ phase m = PAXOS_PHASE_LEARN -> carried (value m) (value_len m).

Definition eff_valid (e : effect) : Prop :=
  match e with
  | Persist _ v len | Apply _ v len => carried v len
  | Broadcast m => msg_valid m
  end.

Lemma no_value_valid m :
  phase m <> PAXOS_PHASE_ACCEPT -> phase m <> PAXOS_PHASE_LEARN -> msg_valid m.
Proof. unfold msg_valid. tauto. Qed.

Lemma upd_slot_valid i f n :
  (forall p, slot_valid p -> slot_valid (f p)) -> node_valid n -> node_valid (upd_slot i f n).
Proof. intros Hf Hn. unfold node_valid. simpl. apply Forall_alter; [done |]. eauto. Qed.

Lemma slot_is_valid i n : node_valid n -> slot_valid (slot n i).
Proof.
  intros Hn. unfold slot. destruct (active_proposals n !! i) as [p|] eqn:Hi; [| done].
  by eapply Forall_lookup_1.
Qed.

Lemma released_valid p : slot_valid (paxos_release_proposal_slot p).
Proof. done. Qed.

#[local] Hint Resolve upd_slot_valid slot_is_valid released_valid : core.

(** The handler passes values on and invents none. *)
Lemma handle_valid rc n m :
  node_valid n -> msg_valid m ->
  let '(_, r, n', eff) := paxos_handle_message rc n m in
  node_valid n' /\ Forall eff_valid eff /\ from_option msg_valid True r.
Proof.
  intros Hn Hm. unfold paxos_handle_message.
  case_decide. { unfold handle_prepare. case_decide; split_and!; try done. by apply no_value_valid. }
  case_decide. { unfold handle_promise. destruct (find_proposal _ _); split_and!; try done. by apply upd_slot_valid. }
  case_decide as Hacc.
  { assert (Hc : carried (value m) (value_len m)) by (apply Hm; by left).
    assert (Hr : forall m', phase m' = PAXOS_PHASE_ACCEPTED -> msg_valid m')
      by (intros m' Hm'; apply no_value_valid; by rewrite Hm').
    unfold handle_accept. case_decide; [| done].
    destruct (_ && _); [case_decide |]; (split_and!; [done | by repeat constructor |]);
      [done | by apply Hr ..]. }
  case_decide.
  { unfold handle_accepted. destruct (find_proposal _ _) as [i|] eqn:Hf; [| done].
    set (n1 := upd_slot i add_accept n). assert (Hn1 : node_valid n1) by (by apply upd_slot_valid).
    destruct (paxos_check_quorum _ _); [| done].
    assert (Hp : carried (p_value (slot n1 i)) (p_len (slot n1 i))).
    { apply (slot_is_valid i n1 Hn1). apply first_idx_Some in Hf as (p & Hl & _ & (_ & Hu & _) & _).
      unfold slot, n1, upd_slot. simpl. by rewrite list_lookup_alter_eq, Hl. }
    split_and!; [| | done].
    - by case_decide; apply upd_slot_valid.
    - destruct (apply_callback n), (broadcast_callback n); repeat constructor; try done; by intros _. }
  case_decide; [| done]. assert (Hc : carried (value m) (value_len m)) by (apply Hm; by right).
  unfold handle_learn. case_decide; [| done]. split_and!; [by destruct (_ && _) | | done].
  destruct (_ && _), (apply_callback n); by repeat constructor.
Qed.

(** So does the proposer, whose own value is one of [V]. *)
Lemma propose_valid ob v pc n :
  v ∈ V -> node_valid n ->
  let '(_, n', eff) := propose_step ob v pc n in node_valid n' /\ Forall eff_valid eff.
Proof.
  intros Hv Hn.
  assert (Hc : carried (Some v) (Z.of_nat (length v))) by (by exists v).
  assert (Hrel : forall i, node_valid (upd_slot i paxos_release_proposal_slot n)) by eauto.
  assert (Hprep : forall pid seq, Forall eff_valid [Broadcast (prepare_msg n pid seq)])
    by (intros; apply Forall_singleton, no_value_valid; done).
  assert (Hacc : forall pid seq, Forall eff_valid [Broadcast (accept_msg n pid seq v)])
    by (intros; apply Forall_singleton; by intros _).
  destruct pc; cbn [propose_step]; try done.
  - case_decide; [done |]. by destruct (negb _).
  - destruct (first_idx _ _ _); [| done].
    destruct (malloc_ok ob); (split; [apply upd_slot_valid; [intros p _ Hu; first [exact Hc | discriminate Hu] | done] | done]).
  - by case_decide.
  - destruct (paxos_wait_for_condition _ _ _ _); [| done]. by case_decide.
  - by case_decide.
  - destruct (persist_callback n); [| done]. case_decide; (split; [done | by apply Forall_singleton]).
  - by case_decide.
  - split; [by apply upd_slot_valid | done].
  - by case_decide.
  - by destruct (paxos_wait_for_condition _ _ _ _).
Qed.

End Valid.

(** Validity does not depend on which values are added. *)
Lemma carried_mono V W v len : V ⊆ W -> carried V v len -> carried W v len.
Proof. intros Hs (x & ? & ? & Hx). exists x. auto. Qed.

Lemma node_valid_mono V W n : V ⊆ W -> node_valid V n -> node_valid W n.
Proof.
  intros Hs Hn. eapply list.Forall_impl; [exact Hn |]. intros p Hp Hu. eapply carried_mono; eauto.
Qed.

Lemma msg_valid_mono V W m : V ⊆ W -> msg_valid V m -> msg_valid W m.
Proof. intros Hs Hm Hp. eapply carried_mono; eauto. Qed.

Lemma eff_valid_mono V W e : V ⊆ W -> eff_valid V e -> eff_valid W e.
Proof. intros Hs. destruct e; simpl; eauto using carried_mono, msg_valid_mono. Qed.

(** The values of the threads are what the invariant depends on. *)
Record valid_for (V : list (list Z)) (c : cluster) : Prop := {
  vf_nodes : Forall (node_valid V) (nodes c);
  vf_transit : Forall (fun x => msg_valid V x.2) (transit c);
  vf_logs : Forall (Forall (eff_valid V)) (logs c);
}.

Lemma broadcast_valid V total k e :
  eff_valid V e -> Forall (fun x => msg_valid V x.2) (broadcast_message total k e).
Proof.
  intros He. destruct e as [| |m]; try apply list.Forall_nil; simpl in *; try done.
  apply Forall_fmap, list.Forall_forall. done.
Qed.

Lemma commit_effects_valid V k n eff c :
  valid_for V c -> node_valid V n -> Forall (eff_valid V) eff ->
  valid_for V (commit_effects k n eff c).
Proof.
  intros [H1 H2 H3] Hn He. split; simpl.
  - by apply Forall_insert.
  - apply list.Forall_app. split; [done |]. apply Forall_bind.
    eapply list.Forall_impl; [exact He |]. intros e. apply broadcast_valid.
  - apply Forall_alter; [done |]. intros l Hl Hlv. apply list.Forall_app. done.
Qed.

Lemma deliver_valid V rc k m c :
  valid_for V c -> msg_valid V m -> valid_for V (deliver_message rc k m c).
Proof.
  intros Hc Hm. unfold deliver_message. destruct (nodes c !! k) as [n|] eqn:Hk; [| done].
  assert (Hn : node_valid V n) by (eapply Forall_lookup_1; [apply Hc | done]).
  pose proof (handle_valid V rc n m Hn Hm) as Hh.
  destruct (paxos_handle_message rc n m) as [[[ret r] n'] eff]. destruct Hh as (Hn' & He & Hr).
  pose proof (commit_effects_valid V k n' eff c Hc Hn' He) as Hc'.
  destruct r as [r|]; [| done]. case_decide; [| done]. destruct Hc' as [H1 H2 H3].
  split; simpl; try done. apply list.Forall_app. split; [done |]. by apply Forall_singleton.
Qed.

Lemma handle_threads rc k m c : threads (deliver_message rc k m c) = threads c.
Proof. unfold deliver_message. repeat case_match; done. Qed.

Definition cluster_valid (c : cluster) : Prop := valid_for (t_value <$> threads c) c.

Lemma valid_for_mono V W c : V ⊆ W -> valid_for V c -> valid_for W c.
Proof.
  intros Hs [H1 H2 H3]. split.
  - eapply list.Forall_impl; [exact H1 |]. intros n. by apply node_valid_mono.
  - eapply list.Forall_impl; [exact H2 |]. intros x. by apply msg_valid_mono.
  - eapply list.Forall_impl; [exact H3 |]. intros l Hl. eapply list.Forall_impl; [exact Hl |].
    intros e. by apply eff_valid_mono.
Qed.

Lemma step_valid ev c : cluster_valid c -> cluster_valid (cluster_step ev c).
Proof.
  unfold cluster_valid. intros Hc. destruct ev as [k v|t ob|j rc]; simpl.
  - rewrite fmap_app. destruct Hc as [H1 H2 H3].
    apply (valid_for_mono (t_value <$> threads c)); [intros x Hx; apply elem_of_app; by left | by split].
  - destruct (threads c !! t) as [th|] eqn:Ht; [| done].
    destruct (nodes c !! t_node th) as [n|] eqn:Hn; [| done].
    assert (Hv : t_value th ∈ t_value <$> threads c)
      by (apply list_elem_of_fmap; exists th; split; [done |]; by eapply list_elem_of_lookup_2).
    assert (Hnv : node_valid (t_value <$> threads c) n) by (eapply Forall_lookup_1; [apply Hc | done]).
    pose proof (propose_valid _ ob _ (t_pc th) n Hv Hnv) as Hp.
    destruct (propose_step ob (t_value th) (t_pc th) n) as [[pc' n'] eff]. destruct Hp as [Hn' He].
    cbn [threads commit_effects]. rewrite list_fmap_insert. cbn [t_value].
    rewrite list_insert_id by (by rewrite list_lookup_fmap, Ht).
    by destruct (commit_effects_valid _ (t_node th) n' eff c Hc Hn' He) as [H1 H2 H3].
  - destruct (transit c !! j) as [[d m]|] eqn:Hj; [| done]. rewrite handle_threads. cbn [threads].
    destruct Hc as [H1 H2 H3]. apply deliver_valid; [split; simpl; try done; by apply Forall_delete |].
    by apply (Forall_lookup_1 _ _ _ _ H2 Hj).
Qed.

Lemma cluster_init_valid total : cluster_valid (cluster_init total).
Proof.
  split; simpl; [| constructor |].
  - apply Forall_fmap, list.Forall_forall. intros k _. unfold node_valid, paxos_init.
    case_decide; cbn [default active_proposals paxos_set_broadcast_callback]; [constructor |]. by apply Forall_replicate.
  - apply Forall_replicate. constructor.
Qed.

Lemma run_valid evs c : cluster_valid c -> cluster_valid (cluster_run evs c).
Proof.
  unfold cluster_run. revert c. induction evs as [|ev evs IH]; intros c Hc; [done |].
  simpl. by apply IH, step_valid.
Qed.

(** ** Theorems *)

(** Every value a node hands to its log or to its state machine is the value of some call
    of [paxos_propose], whole and with its length. *)
Theorem cluster_validity total evs k l s v len :
  let c := cluster_run evs (cluster_init total) in
  logs c !! k = Some l -> Apply s v len ∈ l \/ Persist s v len ∈ l ->
  exists th, th ∈ threads c /\ v = Some (t_value th) /\ len = Z.of_nat (length (t_value th)).
Proof.
  intros c Hl Hin. pose proof (run_valid evs _ (cluster_init_valid total)) as [_ _ Hlogs].
  eapply Forall_lookup_1 in Hlogs; [| exact Hl]. rewrite list.Forall_forall in Hlogs.
  destruct Hin as [Hin|Hin]; apply Hlogs in Hin as (x & -> & -> & Hx);
    apply list_elem_of_fmap in Hx as (th & -> & Hth); eauto.
Qed.

(** C29: two nodes can commit different values under one sequence number, with no fault
    and no lost or altered message: proposers ignore the values that promises should
    report, and the second value is acknowledged without being logged. Both proposals
    report success and both values are applied. *)
Theorem paxos_commits_two_values :
  exists evs, let c := cluster_run evs (cluster_init 3) in
  threads c = [MkThread 0 [65] (PDone 0); MkThread 2 [66] (PDone 0)] /\
  (exists l, logs c !! 0%nat = Some l /\ Apply 1 (Some [65]) 1 ∈ l) /\
  (exists l, logs c !! 2%nat = Some l /\ Apply 1 (Some [66]) 1 ∈ l) /\
  logs c !! 1%nat = Some [Persist 1 (Some [65]) 1].
Proof.
  exists (first_round ++ second_round). split; [vm_compute; reflexivity |].
  split; [| split; [| vm_compute; reflexivity]];
    (eexists; split; [vm_compute; reflexivity |]);
    apply (bool_decide_unpack _); vm_compute; exact I.
Qed.
