(* ===== verification/PaxosAgree.v ===== *)
(** * A cluster of Paxos nodes: what the nodes agree on

    Every message and every callback belongs to one call of [paxos_propose], through the
    proposal number and the sequence number the call drew.  So a proposal number has one
    value everywhere; and while only one node proposes, so has a sequence number. *)

From stdpp Require Import base gmap sets list numbers fin_maps.
From S2P Require Import Prelude Paxos PaxosThm PaxosCluster.

#[local] Open Scope Z_scope.

(** The effects of a step, one by one. *)
#[local] Ltac each := simpl; rewrite ?list.Forall_cons, ?list.Forall_nil; done.

(** ** One node *)

(** The proposal and sequence number a call of [paxos_propose] works with. *)
Definition pc_ticket (pc : propose_pc) : option (Z * Z) :=
  match pc with
  | PStart | PSequence _ | PDone _ => None
  | PSlot pid seq => Some (pid, seq)
  | PPrepare _ pid seq | PWaitPromise _ pid seq | PAccept _ pid seq | PPersist _ pid seq
  | PPersisted _ pid seq | PCount _ pid seq | PBroadcast _ pid seq | PWaitCommit _ pid seq =>
      Some (pid, seq)
  end.

(** [R pid seq v]: the call that drew [pid] and [seq] proposes [v].  [B] bounds the
    proposal numbers drawn so far. *)
Section Tickets.
Context (R : Z -> Z -> list Z -> Prop) (B : Z).

Definition slot_good (p : paxos_proposal) : Prop :=
  in_use p = true -> exists v, p_value p = Some v /\ R (p_id p) (p_seq p) v.

Record node_good (n : paxos_node) : Prop := {
  ng_slots : Forall slot_good (active_proposals n);
  ng_seen : 0 <= highest_proposal_seen n < B;
}.

Record msg_good (m : paxos_message) : Prop := {
  mg_pid : 0 <= proposal_id m < B;
  mg_value : phase m = PAXOS_PHASE_ACCEPT \/ phase m = PAXOS_PHASE_LEARN ->
    exists v, value m = Some v /\ R (proposal_id m) (sequence_number m) v;
  mg_accepted : phase m = PAXOS_PHASE_ACCEPTED ->
    exists v, R (proposal_id m) (sequence_number m) v;
}.

Definition eff_good (e : effect) : Prop :=
  match e with
  | Persist s v _ | Apply s v _ => exists pid x, v = Some x /\ R pid s x
  | Broadcast m => msg_good m
  end.

Context (R_fun : forall pid s v s' v', R pid s v -> R pid s' v' -> s = s' /\ v = v').
Context (R_range : forall pid s v, R pid s v -> 0 <= pid < B).

Lemma plain_good m :
  0 <= proposal_id m < B -> phase m = PAXOS_PHASE_PREPARE \/ phase m = PAXOS_PHASE_PROMISE -> msg_good m.
Proof. intros Hp [Hph|Hph]; (split; [done | |]); rewrite Hph; naive_solver. Qed.

Lemma upd_slot_good i f n :
  (forall p, slot_good p -> slot_good (f p)) -> node_good n -> node_good (upd_slot i f n).
Proof. intros Hf [Hs Hb]. split; [| done]. apply Forall_alter; [done |]. eauto. Qed.

Lemma slot_is_good i n : node_good n -> slot_good (slot n i).
Proof.
  intros Hn. unfold slot. destruct (active_proposals n !! i) as [p|] eqn:Hi; [| done].
  eapply Forall_lookup_1; [apply Hn | exact Hi].
Qed.

Lemma seen_good z n : 0 <= z < B -> node_good n -> node_good (set_seen z n).
Proof. intros Hz [Hs _]. by split. Qed.

(** The committed slot: its value is that of the ACCEPTED message's ticket. *)
Lemma accepted_good n m :
  node_good n -> msg_good m -> phase m = PAXOS_PHASE_ACCEPTED ->
  let '(_, r, n', eff) := handle_accepted n m in
  node_good n' /\ Forall eff_good eff /\ r = None.
Proof.
  intros Hn Hm Hph. destruct (mg_accepted _ Hm Hph) as [v Hv].
  unfold handle_accepted. destruct (find_proposal _ _) as [i|] eqn:Hf; [| done].
  set (n1 := upd_slot i add_accept n). assert (Hn1 : node_good n1) by (by apply upd_slot_good).
  destruct (paxos_check_quorum _ _); [| done].
  assert (Hp : p_id (slot n1 i) = proposal_id m /\ in_use (slot n1 i) = true).
  { apply first_idx_Some in Hf as (p & Hl & _ & (Hid & Hu & _) & _).
    unfold slot, n1, upd_slot. simpl. by rewrite list_lookup_alter_eq, Hl. }
  destruct Hp as [Hid Hu]. destruct (slot_is_good i n1 Hn1 Hu) as (x & Hx & HR).
  rewrite Hid in HR. destruct (R_fun _ _ _ _ _ Hv HR) as [Hs ->].
  split_and!; [| | done].
  - assert (node_good (upd_slot i mark_committed n1)) as [? ?] by (by apply upd_slot_good).
    by case_decide.
  - assert (Hl : msg_good (learn_msg n (slot n1 i))).
    { split; simpl; [rewrite Hid; apply Hm | | done]. intros _. exists x. by rewrite Hid. }
    assert (Ha : eff_good (Apply (sequence_number m) (p_value (slot n1 i)) (p_len (slot n1 i))))
      by (exists (proposal_id m), x; by rewrite Hs).
    destruct (apply_callback n), (broadcast_callback n); each.
Qed.

Lemma accept_good rc n m :
  node_good n -> msg_good m -> phase m = PAXOS_PHASE_ACCEPT ->
  let '(_, r, n', eff) := handle_accept rc n m in
  node_good n' /\ Forall eff_good eff /\ from_option msg_good True r.
Proof.
  intros Hn Hm Hph. destruct (mg_value _ Hm (or_introl Hph)) as (v & Hv & HR).
  unfold handle_accept. case_decide; [| done].
  assert (Hn' : node_good (set_last_accepted (proposal_id m) (set_seen (proposal_id m) n))).
  { destruct Hn as [Hs _]. split; [done | apply Hm]. }
  assert (Hr : msg_good (MkMsg PAXOS_PHASE_ACCEPTED (proposal_id m) (sequence_number m) (node_id n)
    (node_id n) 0 None 0 false)).
  { split; simpl; [apply Hm | by intros [?|?] | by exists v]. }
  assert (He : eff_good (Persist (sequence_number m) (value m) (value_len m))) by (simpl; eauto).
  destruct (_ && _); [case_decide |]; (split_and!; [| each | done]); try done.
  destruct Hn' as [? ?]. by split.
Qed.

Lemma handle_good rc n m :
  node_good n -> msg_good m ->
  let '(_, r, n', eff) := paxos_handle_message rc n m in
  node_good n' /\ Forall eff_good eff /\ from_option msg_good True r.
Proof.
  intros Hn Hm. unfold paxos_handle_message.
  case_decide.
  { unfold handle_prepare. case_decide; [| done]. split_and!; [| done |].
    - apply seen_good; [apply Hm | done].
    - apply plain_good; [apply Hm | by right]. }
  case_decide. { unfold handle_promise. destruct (find_proposal _ _); [| done]. split_and!; try done. by apply upd_slot_good. }
  case_decide as Hacc; [by apply accept_good |].
  case_decide as Hacd.
  { pose proof (accepted_good n m Hn Hm Hacd) as Ha.
    destruct (handle_accepted n m) as [[[ret r] n'] eff]. by destruct Ha as (? & ? & ->). }
  case_decide as Hl; [| done]. destruct (mg_value _ Hm (or_intror Hl)) as (v & Hv & HR).
  assert (He : exists pid x, value m = Some x /\ R pid (sequence_number m) x) by eauto.
  unfold handle_learn. case_decide; [| done]. split_and!; [| | done].
  - destruct Hn as [? ?]. by destruct (_ && _); split.
  - destruct (_ && _), (apply_callback n); each.
Qed.

(** A proposer past drawing its numbers. *)
Lemma propose_good ob v pc n pid seq :
  pc_ticket pc = Some (pid, seq) -> R pid seq v -> node_good n ->
  let '(pc', n', eff) := propose_step ob v pc n in
  node_good n' /\ Forall eff_good eff /\ (pc_ticket pc' = Some (pid, seq) \/ exists rc, pc' = PDone rc).
Proof.
  intros Hpc HR Hn. pose proof (R_range _ _ _ HR) as Hpid.
  assert (Hrel : forall i, node_good (upd_slot i paxos_release_proposal_slot n)) by (intros; by apply upd_slot_good).
  destruct pc; simplify_eq/=; try (split_and!; by eauto).
  - destruct (first_idx _ _ _) as [i|]; [| split_and!; by eauto].
    destruct (malloc_ok ob); (split_and!; [| done | by eauto]); apply upd_slot_good; try done.
    intros p _ _. by exists v.
  - assert (Forall eff_good [Broadcast (prepare_msg n pid seq)])
      by (apply Forall_singleton, plain_good; [done | by left]).
    case_decide; split_and!; by eauto.
  - destruct (paxos_wait_for_condition _ _ _ _); [| split_and!; by eauto]. case_decide; split_and!; by eauto.
  - split_and!; [| done | by eauto]. case_decide; [| done]. destruct Hn as [? ?]. by split.
  - assert (Forall eff_good [Persist seq (Some v) (Z.of_nat (length v))])
      by (apply Forall_singleton; simpl; eauto).
    destruct (persist_callback n); [case_decide |]; split_and!; by eauto.
  - split_and!; [| done | by eauto]. case_decide; [| done]. destruct Hn as [? ?]. by split.
  - split_and!; [by apply upd_slot_good | done | by eauto].
  - assert (Forall eff_good [Broadcast (accept_msg n pid seq v)]).
    { apply Forall_singleton. split; simpl; [done | | done]. eauto. }
    case_decide; split_and!; by eauto.
  - destruct (paxos_wait_for_condition _ _ _ _); split_and!; by eauto.
Qed.

End Tickets.

(** Drawing further numbers keeps what is known of the old ones. *)
Section Mono.
Context (R R' : Z -> Z -> list Z -> Prop) (B B' : Z).
Context (HR : forall pid s v, R pid s v -> R' pid s v) (HB : B <= B').

Lemma node_good_mono n : node_good R B n -> node_good R' B' n.
Proof.
  intros [Hs Hb]. split; [| lia]. eapply list.Forall_impl; [exact Hs |].
  intros p Hp Hu. destruct (Hp Hu) as (v & ? & ?). eauto.
Qed.

Lemma msg_good_mono m : msg_good R B m -> msg_good R' B' m.
Proof.
  intros [Hp Hv Ha]. split; [lia | |].
  - intros H. destruct (Hv H) as (v & ? & ?). eauto.
  - intros H. destruct (Ha H) as (v & ?). eauto.
Qed.

Lemma eff_good_mono e : eff_good R B e -> eff_good R' B' e.
Proof. destruct e; simpl; [naive_solver | naive_solver | apply msg_good_mono]. Qed.

End Mono.

(** What a step keeps of a node's identity and counters. *)
Lemma handle_identity rc n m :
  let n' := (paxos_handle_message rc n m).1.2 in
  node_id n' = node_id n /\ next_sequence_number n' = next_sequence_number n.
Proof.
  unfold paxos_handle_message, handle_prepare, handle_promise, handle_accept, handle_accepted,
    handle_learn.
  repeat (case_decide || case_match); cbn [fst snd]; try done; by simplify_eq/=.
Qed.

Lemma propose_identity ob v pc n :
  node_id (propose_step ob v pc n).1.2 = node_id n /\
  ((forall pid, pc <> PSequence pid) ->
   next_sequence_number (propose_step ob v pc n).1.2 = next_sequence_number n).
Proof.
  destruct pc; cbn [propose_step]; try (by split);
    try (unfold paxos_next_proposal_id; repeat (case_decide || case_match); simplify_eq; by split).
  split; [done |]. intros Hx. by destruct (Hx pid).
Qed.

(** ** The cluster *)

(** What the calls have drawn, by thread: the proposal number, and the sequence number
    once there is one. *)
#[local] Notation tickets := (gmap nat (Z * option Z)).

(** The value that belongs to a pair of numbers. *)
Definition ticket_value (c : cluster) (tk : tickets) (pid s : Z) (v : list Z) : Prop :=
  exists t th, threads c !! t = Some th /\ tk !! t = Some (pid, Some s) /\ t_value th = v.

Definition ballot_bound (tk : tickets) : Z := 2 ^ 16 * (1 + Z.of_nat (size tk)).

Definition pc_agrees (tk : tickets) (t : nat) (pc : propose_pc) : Prop :=
  match pc with
  | PStart => tk !! t = None
  | PSequence pid => tk !! t = Some (pid, None)
  | _ => forall pid s, pc_ticket pc = Some (pid, s) -> tk !! t = Some (pid, Some s)
  end.

(** A drawn number against the node that drew it. *)
Definition ticket_ok (t : nat) (x : Z * option Z) (th : thread) (n : paxos_node) : Prop :=
  0 <= x.1 <= highest_proposal_seen n /\ x.1 `mod` 2 ^ 16 = Z.of_nat (t_node th) `mod` 2 ^ 16 /\
  from_option (fun s => 0 < s < next_sequence_number n) True x.2.

Record agrees (c : cluster) (tk : tickets) : Prop := {
  ag_tickets : forall t x, tk !! t = Some x ->
    exists th n, threads c !! t = Some th /\ nodes c !! t_node th = Some n /\ ticket_ok t x th n;
  ag_pid : forall t t' pid o o', tk !! t = Some (pid, o) -> tk !! t' = Some (pid, o') -> t = t';
  ag_seq : forall t t' pid pid' s th th', tk !! t = Some (pid, Some s) -> tk !! t' = Some (pid', Some s) ->
    threads c !! t = Some th -> threads c !! t' = Some th' -> t_node th = t_node th' -> t = t';
  ag_pc : forall t th, threads c !! t = Some th -> pc_agrees tk t (t_pc th);
  ag_id : forall k n, nodes c !! k = Some n -> node_id n = Z.of_nat k;
  ag_next : forall k n, nodes c !! k = Some n ->
    0 < next_sequence_number n <= 1 + Z.of_nat (size (omap snd tk : gmap nat Z));
  ag_nodes : Forall (node_good (ticket_value c tk) (ballot_bound tk)) (nodes c);
  ag_transit : Forall (fun x => msg_good (ticket_value c tk) (ballot_bound tk) x.2) (transit c);
  ag_logs : Forall (Forall (eff_good (ticket_value c tk) (ballot_bound tk))) (logs c);
}.

Lemma ticket_value_fun c tk pid s v s' v' :
  agrees c tk -> ticket_value c tk pid s v -> ticket_value c tk pid s' v' -> s = s' /\ v = v'.
Proof.
  intros Hc (t & th & Ht & Hx & <-) (t' & th' & Ht' & Hx' & <-).
  pose proof (ag_pid _ _ Hc _ _ _ _ _ Hx Hx'). by simplify_eq.
Qed.

Lemma ticket_value_range c tk pid s v :
  agrees c tk -> ticket_value c tk pid s v -> 0 <= pid < ballot_bound tk.
Proof.
  intros Hc (t & th & Ht & Hx & <-).
  destruct (ag_tickets _ _ Hc _ _ Hx) as (th' & n & Ht' & Hn & (Hp & _)).
  pose proof (proj1 (Forall_lookup _ _) (ag_nodes _ _ Hc) _ _ Hn) as [_ Hs]. simpl in Hp. lia.
Qed.

(** Effects of a step of node [k] that draws nothing. *)
Lemma agrees_commit c tk k n n' eff :
  agrees c tk -> nodes c !! k = Some n ->
  highest_proposal_seen n <= highest_proposal_seen n' -> node_id n' = node_id n ->
  next_sequence_number n' = next_sequence_number n ->
  node_good (ticket_value c tk) (ballot_bound tk) n' ->
  Forall (eff_good (ticket_value c tk) (ballot_bound tk)) eff ->
  agrees (commit_effects k n' eff c) tk.
Proof.
  intros [H1 H2 H3 H4 H5 H6 H7 H8 H9] Hk Hseen Hid Hnext Hg He.
  split; cbn [commit_effects nodes threads transit logs]; try done.
  - intros t x Hx. destruct (H1 t x Hx) as (th & m & Ht & Hm & (? & ? & ?)). exists th.
    destruct (decide (t_node th = k)) as [<-|Hne].
    + exists n'. rewrite list_lookup_insert_eq by (by eapply lookup_lt_Some). simplify_eq.
      split_and!; [done | done |]. split; [lia |]. split; [done |]. destruct x as [? [s|]]; simpl in *; [lia | done].
    + exists m. rewrite list_lookup_insert_ne by done. done.
  - intros j m Hm. apply list_lookup_insert_Some in Hm as [(<- & <- & _)|[_ Hm]]; [| eauto].
    rewrite Hid. eauto.
  - intros j m Hm. apply list_lookup_insert_Some in Hm as [(<- & <- & _)|[_ Hm]]; [| eauto].
    rewrite Hnext. eauto.
  - by apply Forall_insert.
  - apply list.Forall_app. split; [done |]. apply Forall_bind.
    eapply list.Forall_impl; [exact He |]. intros [| |m] Hm; simpl; [constructor .. |].
    apply Forall_fmap, list.Forall_forall. done.
  - apply Forall_alter; [done |]. intros l Hl Hlv. apply list.Forall_app. done.
Qed.

Lemma agrees_transit c tk tr :
  agrees c tk -> Forall (fun x => msg_good (ticket_value c tk) (ballot_bound tk) x.2) tr ->
  agrees (MkCluster (nodes c) (threads c) tr (logs c)) tk.
Proof. intros [H1 H2 H3 H4 H5 H6 H7 H8 H9] Htr. by split. Qed.

(** Threads move on without changing whose they are. *)
Definition same_calls (ths ths' : list thread) : Prop :=
  forall t, (fun th => (t_node th, t_value th)) <$> ths !! t = (fun th => (t_node th, t_value th)) <$> ths' !! t.

Lemma same_calls_Some ths ths' t th :
  same_calls ths ths' -> ths !! t = Some th ->
  exists th', ths' !! t = Some th' /\ t_node th' = t_node th /\ t_value th' = t_value th.
Proof.
  intros Hs Ht. specialize (Hs t). rewrite Ht in Hs. destruct (ths' !! t) as [th'|]; simplify_eq/=. eauto.
Qed.

#[export] Instance same_calls_sym : Symmetric same_calls.
Proof. intros a b Hab t. by rewrite Hab. Qed.

Lemma same_calls_insert ths t th pc :
  ths !! t = Some th -> same_calls ths (<[t := MkThread (t_node th) (t_value th) pc]> ths).
Proof.
  intros Ht u. destruct (decide (u = t)) as [->|].
  - rewrite list_lookup_insert_eq by (by eapply lookup_lt_Some). by rewrite Ht.
  - by rewrite list_lookup_insert_ne by done.
Qed.

Lemma ticket_value_calls c c' tk pid s v :
  same_calls (threads c) (threads c') -> ticket_value c tk pid s v -> ticket_value c' tk pid s v.
Proof.
  intros Hs (t & th & Ht & Hx & <-). destruct (same_calls_Some _ _ _ _ Hs Ht) as (th' & ? & ? & ?).
  exists t, th'. done.
Qed.

Lemma agrees_threads c tk ths :
  agrees c tk -> same_calls (threads c) ths ->
  (forall t th, ths !! t = Some th -> pc_agrees tk t (t_pc th)) ->
  agrees (MkCluster (nodes c) ths (transit c) (logs c)) tk.
Proof.
  intros [H1 H2 H3 H4 H5 H6 H7 H8 H9] Hs Hpc.
  assert (Hm : forall pid s v, ticket_value c tk pid s v ->
    ticket_value (MkCluster (nodes c) ths (transit c) (logs c)) tk pid s v)
    by (intros; by eapply ticket_value_calls).
  split; cbn [nodes threads transit logs]; try done.
  - intros t x Hx. destruct (H1 t x Hx) as (th & n & Ht & Hn & Hok).
    destruct (same_calls_Some _ _ _ _ Hs Ht) as (th' & Ht' & Hnode & _).
    exists th', n. unfold ticket_ok in *. by rewrite Hnode.
  - intros t t' pid pid' s th th' Hx Hx' Ht Ht' Hnd. symmetry in Hs.
    destruct (same_calls_Some _ _ _ _ Hs Ht) as (u & Hu & Hun & _).
    destruct (same_calls_Some _ _ _ _ Hs Ht') as (u' & Hu' & Hun' & _).
    eapply (H3 t t' pid pid' s u u'); eauto. congruence.
  - eapply list.Forall_impl; [exact H7 |]. intros n. by apply node_good_mono.
  - eapply list.Forall_impl; [exact H8 |]. intros n. by apply msg_good_mono.
  - eapply list.Forall_impl; [exact H9 |]. intros l Hl. eapply list.Forall_impl; [exact Hl |].
    intros e. by apply eff_good_mono.
Qed.

(** More is drawn: what was known stays known. *)
Lemma agrees_goods c tk tk' :
  agrees c tk -> (forall pid s v, ticket_value c tk pid s v -> ticket_value c tk' pid s v) ->
  (size tk <= size tk')%nat ->
  Forall (node_good (ticket_value c tk') (ballot_bound tk')) (nodes c) /\
  Forall (fun x => msg_good (ticket_value c tk') (ballot_bound tk') x.2) (transit c) /\
  Forall (Forall (eff_good (ticket_value c tk') (ballot_bound tk'))) (logs c).
Proof.
  intros Hc Hm Hsz. assert (HB : ballot_bound tk <= ballot_bound tk') by (unfold ballot_bound; lia).
  split_and!.
  - eapply list.Forall_impl; [apply Hc |]. intros n. by apply node_good_mono.
  - eapply list.Forall_impl; [apply Hc |]. intros n. by apply msg_good_mono.
  - eapply list.Forall_impl; [apply Hc |]. intros l Hl. eapply list.Forall_impl; [exact Hl |].
    intros e. by apply eff_good_mono.
Qed.

(** A map indexed by threads that misses one of them. *)
Lemma index_size {A} (m : gmap nat A) (t len : nat) :
  (t < len)%nat -> m !! t = None -> (forall u y, m !! u = Some y -> (u < len)%nat) -> (size m < len)%nat.
Proof.
  intros Ht Hx Hin. rewrite <- (size_dom (D := gset nat)).
  assert (Hseq : size (list_to_set (seq 0 len) : gset nat) = len)
    by (rewrite size_list_to_set, length_seq by apply NoDup_seq; done).
  rewrite <- Hseq. apply subset_size. split.
  - intros u [y Hu]%elem_of_dom. apply elem_of_list_to_set, elem_of_seq. apply Hin in Hu. lia.
  - intros Hsub. assert (Hd : t ∈ dom m); [| apply elem_of_dom in Hd as [y Hd]; congruence].
    apply Hsub, elem_of_list_to_set, elem_of_seq. lia.
Qed.

Lemma tickets_size c tk t th :
  agrees c tk -> threads c !! t = Some th -> tk !! t = None -> (size tk < length (threads c))%nat.
Proof.
  intros Hc Ht Hx. apply (index_size _ t); [by eapply lookup_lt_Some | done |].
  intros u y Hu. destruct (ag_tickets _ _ Hc _ _ Hu) as (th' & _ & Ht' & _). by eapply lookup_lt_Some.
Qed.

(** The next proposal number, against everything drawn before. *)
Lemma draw_pid c tk t th n :
  agrees c tk -> threads c !! t = Some th -> nodes c !! t_node th = Some n -> tk !! t = None ->
  Z.of_nat (length (threads c)) < 2 ^ 48 ->
  let pid := (paxos_next_proposal_id n).1 in
  highest_proposal_seen n < pid < ballot_bound (<[t := (pid, None)]> tk) /\
  pid `mod` 2 ^ 16 = Z.of_nat (t_node th) `mod` 2 ^ 16.
Proof.
  intros Hc Ht Hn Hx Hlen pid. pose proof (tickets_size _ _ _ _ Hc Ht Hx) as Hsz.
  pose proof (proj1 (Forall_lookup _ _) (ag_nodes _ _ Hc) _ _ Hn) as [_ Hs]. unfold ballot_bound in *.
  destruct (next_proposal_id_grows n ltac:(lia)) as [Hg Hm]. fold pid in Hg, Hm.
  rewrite map_size_insert_None by done. rewrite (ag_id _ _ Hc _ _ Hn) in Hm. split; [| done].
  split; [lia |]. unfold pid. rewrite next_proposal_id_eq by lia.
  assert (highest_proposal_seen n / 2 ^ 16 < 1 + Z.of_nat (size tk)) by (apply Z.div_lt_upper_bound; lia).
  pose proof (Z.div_pos (highest_proposal_seen n) (2 ^ 16) ltac:(lia) ltac:(lia)).
  pose proof (Z.mod_pos_bound (node_id n) (2 ^ 16) ltac:(lia)). rewrite u64_small by lia. lia.
Qed.

Lemma insert_ticket c tk t x pid s v :
  (tk !! t = None \/ exists p, tk !! t = Some (p, None)) ->
  ticket_value c tk pid s v -> ticket_value c (<[t := x]> tk) pid s v.
Proof.
  intros Hx (u & th & Hu & Hv & <-). exists u, th. split_and!; [done | | done].
  rewrite lookup_insert_ne; [done |]. intros <-. destruct Hx as [Hx|[p Hx]]; congruence.
Qed.

Lemma omap_size (tk : tickets) (t : nat) (x : Z * option Z) :
  (tk !! t = None \/ exists p, tk !! t = Some (p, None)) ->
  size (omap snd (<[t := x]> tk) : gmap nat Z) =
  (size (omap snd tk : gmap nat Z) + if x.2 then 1 else 0)%nat.
Proof.
  intros Hx. assert (Hn : (omap snd tk : gmap nat Z) !! t = None)
    by (rewrite lookup_omap; destruct Hx as [->|[p ->]]; done).
  destruct x as [p [s|]]; simpl.
  - rewrite (omap_insert_Some _ _ _ _ s) by done. rewrite map_size_insert_None by done. lia.
  - rewrite omap_insert_None by done. rewrite delete_id by done. lia.
Qed.

(** Any two nodes' tickets stay apart when one node draws a number above all it has seen. *)
Lemma fresh_pid c tk th n pid :
  agrees c tk -> nodes c !! t_node th = Some n -> highest_proposal_seen n < pid ->
  pid `mod` 2 ^ 16 = Z.of_nat (t_node th) `mod` 2 ^ 16 -> Z.of_nat (length (nodes c)) <= 2 ^ 16 ->
  forall u o, tk !! u <> Some (pid, o).
Proof.
  intros Hc Hn Hlt Hmod Htot u o Hu.
  destruct (ag_tickets _ _ Hc _ _ Hu) as (th' & n' & Ht' & Hn' & ([_ Hle] & Hm & _)). cbn [fst] in *.
  assert (Hk : forall k m, nodes c !! k = Some m -> 0 <= Z.of_nat k < 2 ^ 16).
  { intros k m Hkm. apply lookup_lt_Some in Hkm. lia. }
  rewrite Hmod, !Z.mod_small in Hm by eauto. apply Nat2Z.inj in Hm.
  rewrite Hm in Hn. simplify_eq. lia.
Qed.

Definition thread_at (t : nat) (th : thread) (pc : propose_pc) (c : cluster) : cluster :=
  MkCluster (nodes c) (<[t := MkThread (t_node th) (t_value th) pc]> (threads c)) (transit c) (logs c).

Lemma pc_agrees_insert tk t x u pc : u <> t -> pc_agrees tk u pc -> pc_agrees (<[t := x]> tk) u pc.
Proof. intros Hne. unfold pc_agrees. by rewrite lookup_insert_ne by done. Qed.

(** Thread [t] draws a number. *)
Section Draw.
Context (c : cluster) (tk : tickets) (t : nat) (th : thread) (n n' : paxos_node) (x : Z * option Z).
Context (Hc : agrees c tk) (Ht : threads c !! t = Some th) (Hn : nodes c !! t_node th = Some n).
Context (Hold : tk !! t = None \/ exists p, tk !! t = Some (p, None)).
Context (Hseen : highest_proposal_seen n <= highest_proposal_seen n' < ballot_bound (<[t := x]> tk)).
Context (Hid : node_id n' = node_id n) (Hslots : active_proposals n' = active_proposals n).
Context (Hnext : next_sequence_number n <= next_sequence_number n' <=
  1 + Z.of_nat (size (omap snd (<[t := x]> tk : tickets) : gmap nat Z))).
Context (Hok : ticket_ok t x th n').
Context (Hpid : forall u o, u <> t -> tk !! u <> Some (x.1, o)).
Context (Hseq : forall u p s th', u <> t -> x.2 = Some s -> tk !! u = Some (p, Some s) ->
  threads c !! u = Some th' -> t_node th' <> t_node th).

#[local] Notation tk' := (<[t := x]> tk).

Lemma draw_size : (size tk <= size tk')%nat.
Proof.
  destruct Hold as [Ho|[p Ho]]; [rewrite map_size_insert_None by done; lia |].
  rewrite map_size_insert_Some by (by rewrite Ho). done.
Qed.

Lemma draw_goods :
  Forall (node_good (ticket_value c tk') (ballot_bound tk')) (<[t_node th := n']> (nodes c)) /\
  Forall (fun y => msg_good (ticket_value c tk') (ballot_bound tk') y.2) (transit c) /\
  Forall (Forall (eff_good (ticket_value c tk') (ballot_bound tk'))) (logs c).
Proof.
  destruct (agrees_goods c tk tk' Hc) as (G1 & G2 & G3);
    [intros; by apply insert_ticket | apply draw_size |].
  split_and!; try done. apply Forall_insert; [done |].
  pose proof (proj1 (Forall_lookup _ _) G1 _ _ Hn) as [Gs Gb]. split; [by rewrite Hslots | lia].
Qed.

Lemma draw_node k m :
  <[t_node th := n']> (nodes c) !! k = Some m -> k = t_node th /\ m = n' \/ nodes c !! k = Some m.
Proof. intros [(<- & <- & _)|[_ ?]]%list_lookup_insert_Some; auto. Qed.

(** The threads still have their numbers. *)
Lemma draw_tickets u y :
  tk' !! u = Some y ->
  exists th' m, threads c !! u = Some th' /\ <[t_node th := n']> (nodes c) !! t_node th' = Some m /\
    ticket_ok u y th' m.
Proof.
  assert (Hl : <[t_node th := n']> (nodes c) !! t_node th = Some n')
    by (apply list_lookup_insert_eq; by eapply lookup_lt_Some).
  intros [[<- <-]|[Hne Hu]]%lookup_insert_Some; [by exists th, n' |].
  destruct (ag_tickets _ _ Hc _ _ Hu) as (th' & m & Ht' & Hm & (? & ? & ?)). exists th'.
  destruct (decide (t_node th' = t_node th)) as [He|Hnd].
  - exists n'. rewrite He in *. split_and!; [done | done |]. simplify_eq. split; [lia |]. split; [by rewrite He |].
    destruct y as [? [s|]]; simpl in *; [lia | done].
  - exists m. rewrite list_lookup_insert_ne by done. done.
Qed.

Lemma agrees_draw pc :
  pc_agrees tk' t pc ->
  agrees (thread_at t th pc (commit_effects (t_node th) n' [] c)) tk'.
Proof.
  intros Hpc. destruct draw_goods as (G1 & G2 & G3). set (c' := thread_at _ _ _ _).
  assert (Hs : same_calls (threads c) (threads c')) by (by apply same_calls_insert).
  assert (Hm : forall pid s v, ticket_value c tk' pid s v -> ticket_value c' tk' pid s v)
    by (intros; by eapply ticket_value_calls).
  pose proof Hc as [H1 H2 H3 H4 H5 H6 _ _ _]. split.
  - intros u y Hu. destruct (draw_tickets u y Hu) as (thu & m & Htu & Hmu & Hoku).
    destruct (same_calls_Some _ _ _ _ Hs Htu) as (th' & Ht' & Hnd & _).
    exists th', m. unfold ticket_ok in *. by rewrite Hnd.
  - intros u u' pid o o' [[<- Hx]|[Hne Hu]]%lookup_insert_Some [[<- Hx']|[Hne' Hu']]%lookup_insert_Some; try done.
    + destruct (Hpid u' o' ltac:(done)). by rewrite Hx.
    + destruct (Hpid u o ltac:(done)). by rewrite Hx'.
    + by eapply H2.
  - intros u u' pid pid' s thu thu' Hu Hu' Htu Htu' Hnd. symmetry in Hs.
    destruct (same_calls_Some _ _ _ _ Hs Htu) as (w & Hw & Hwn & _).
    destruct (same_calls_Some _ _ _ _ Hs Htu') as (w' & Hw' & Hwn' & _).
    apply lookup_insert_Some in Hu as [[<- Hx]|[Hne Hu]];
      apply lookup_insert_Some in Hu' as [[<- Hx']|[Hne' Hu']]; try done.
    + destruct (Hseq u' pid' s w' ltac:(done) ltac:(by rewrite Hx) Hu' Hw'). simplify_eq. congruence.
    + destruct (Hseq u pid s w ltac:(done) ltac:(by rewrite Hx') Hu Hw). simplify_eq. congruence.
    + eapply (H3 u u' pid pid' s w w'); eauto. congruence.
  - intros u thu Hu. apply list_lookup_insert_Some in Hu as [(<- & <- & _)|[Hne Hu]]; [done |].
    apply pc_agrees_insert; [done | by apply H4].
  - intros k m [[-> ->]|Hk]%draw_node; [rewrite Hid |]; eauto.
  - intros k m Hk. pose proof (omap_size tk t x Hold) as Hsz.
    apply draw_node in Hk as [[-> ->]|Hk]; [| specialize (H6 k m Hk); rewrite Hsz; destruct x.2; lia].
    specialize (H6 _ _ Hn). lia.
  - eapply list.Forall_impl; [exact G1 |]. intros m. by apply node_good_mono.
  - simpl. rewrite app_nil_r. eapply list.Forall_impl; [exact G2 |]. intros m. by apply msg_good_mono.
  - simpl. apply Forall_alter; [| intros l _; by rewrite app_nil_r].
    eapply list.Forall_impl; [exact G3 |]. intros l Hl. eapply list.Forall_impl; [exact Hl |].
    intros e. by apply eff_good_mono.
Qed.

End Draw.

(** ** Steps *)

Lemma deliver_agrees rc k m c tk :
  agrees c tk -> msg_good (ticket_value c tk) (ballot_bound tk) m ->
  agrees (deliver_message rc k m c) tk.
Proof.
  intros Hc Hm. unfold deliver_message. destruct (nodes c !! k) as [n|] eqn:Hk; [| done].
  pose proof (proj1 (Forall_lookup _ _) (ag_nodes _ _ Hc) _ _ Hk) as Hn.
  pose proof (handle_good _ _ (fun _ _ _ _ _ => ticket_value_fun _ _ _ _ _ _ _ Hc)
    (fun _ _ _ => ticket_value_range _ _ _ _ _ Hc) rc n m Hn Hm) as Hg.
  pose proof (handle_seen rc n m) as Hseen. pose proof (handle_identity rc n m) as [Hid Hnx].
  destruct (paxos_handle_message rc n m) as [[[ret r] n'] eff]. cbn [fst snd] in *.
  destruct Hg as (Hn' & He & Hr).
  pose proof (agrees_commit c tk k n n' eff Hc Hk Hseen Hid Hnx Hn' He) as Hc'.
  destruct r as [r|]; [| done]. case_decide; [| done].
  apply (agrees_transit (commit_effects k n' eff c)); [done |].
  apply list.Forall_app. split; [apply Hc' | by apply Forall_singleton].
Qed.

(** A thread that has its numbers. *)
Lemma thread_agrees c tk t th n ob pid s :
  agrees c tk -> threads c !! t = Some th -> nodes c !! t_node th = Some n ->
  pc_ticket (t_pc th) = Some (pid, s) ->
  let '(pc', n', eff) := propose_step ob (t_value th) (t_pc th) n in
  agrees (thread_at t th pc' (commit_effects (t_node th) n' eff c)) tk.
Proof.
  intros Hc Ht Hn Hpc. pose proof (proj1 (Forall_lookup _ _) (ag_nodes _ _ Hc) _ _ Hn) as Hg.
  pose proof (ag_pc _ _ Hc _ _ Ht) as Hx.
  assert (Hnd : forall p, t_pc th <> PSequence p) by (intros p Hp; by rewrite Hp in Hpc).
  assert (Htk : tk !! t = Some (pid, Some s)) by (destruct (t_pc th); simplify_eq/=; by apply Hx).
  assert (HR : ticket_value c tk pid s (t_value th)) by (by exists t, th).
  pose proof (propose_good _ _ (fun _ _ _ _ _ => ticket_value_fun _ _ _ _ _ _ _ Hc)
    (fun _ _ _ => ticket_value_range _ _ _ _ _ Hc) ob _ _ _ _ _ Hpc HR Hg) as Hp.
  pose proof (propose_seen ob (t_value th) (t_pc th) n ltac:(intros Hs; by rewrite Hs in Hpc)) as Hseen.
  pose proof (propose_identity ob (t_value th) (t_pc th) n) as [Hid Hnx]. specialize (Hnx Hnd).
  destruct (propose_step _ _ _ _) as [[pc' n'] eff]. cbn [fst snd] in *. destruct Hp as (Hg' & He & Hpc').
  pose proof (agrees_commit c tk _ n n' eff Hc Hn Hseen Hid Hnx Hg' He) as Hc'.
  apply (agrees_threads _ _ _ Hc'); [by apply same_calls_insert |].
  intros u thu [(<- & <- & _)|[_ Hu]]%list_lookup_insert_Some; [| by eapply (ag_pc _ _ Hc)].
  cbn [t_pc]. destruct Hpc' as [Hpc'|[rc ->]]; [| done].
  destruct pc'; simplify_eq/=; intros; by simplify_eq.
Qed.

(** A thread that draws its proposal number. *)
Lemma start_agrees c tk t th n :
  agrees c tk -> threads c !! t = Some th -> nodes c !! t_node th = Some n -> t_pc th = PStart ->
  Z.of_nat (length (threads c)) < 2 ^ 48 -> Z.of_nat (length (nodes c)) <= 2 ^ 16 ->
  let pid := (paxos_next_proposal_id n).1 in
  agrees (thread_at t th (PSequence pid) (commit_effects (t_node th) (set_seen pid n) [] c))
    (<[t := (pid, None)]> tk).
Proof.
  intros Hc Ht Hn Hpc Hlen Htot pid. pose proof (ag_pc _ _ Hc _ _ Ht) as Hx. rewrite Hpc in Hx. simpl in Hx.
  destruct (draw_pid _ _ _ _ _ Hc Ht Hn Hx Hlen) as [Hg Hm]. fold pid in Hg, Hm.
  pose proof (proj1 (Forall_lookup _ _) (ag_nodes _ _ Hc) _ _ Hn) as [_ Hs].
  pose proof (ag_next _ _ Hc _ _ Hn) as Hnx.
  apply (agrees_draw c tk t th n (set_seen pid n) (pid, None)); simpl; try done.
  - by left.
  - lia.
  - rewrite (omap_size tk t (pid, None)) by (by left). simpl. lia.
  - split; [simpl; lia |]. by split.
  - intros u o _. apply (fresh_pid c tk th n); try done. lia.
  - by rewrite lookup_insert_eq.
Qed.

Lemma seq_size c tk t th :
  agrees c tk -> threads c !! t = Some th -> (tk !! t = None \/ exists p, tk !! t = Some (p, None)) ->
  (size (omap snd tk : gmap nat Z) < length (threads c))%nat.
Proof.
  intros Hc Ht Hold. eapply Nat.lt_le_trans; [apply (index_size (omap snd tk) t (length (threads c))) | done].
  - apply lookup_lt_Some in Ht. lia.
  - rewrite lookup_omap. by destruct Hold as [->|[p ->]].
  - intros u y Hu. rewrite lookup_omap in Hu. apply bind_Some in Hu as (x & Hx & _).
    destruct (ag_tickets _ _ Hc _ _ Hx) as (th' & _ & Ht' & _). by eapply lookup_lt_Some.
Qed.

(** A thread that draws its sequence number. *)
Lemma sequence_agrees c tk t th n pid :
  agrees c tk -> threads c !! t = Some th -> nodes c !! t_node th = Some n -> t_pc th = PSequence pid ->
  Z.of_nat (length (threads c)) < 2 ^ 48 ->
  let s := next_sequence_number n in
  agrees (thread_at t th (PSlot pid s) (commit_effects (t_node th) (set_next_seq (u64 (s + 1)) n) [] c))
    (<[t := (pid, Some s)]> tk).
Proof.
  intros Hc Ht Hn Hpc Hlen s. pose proof (ag_pc _ _ Hc _ _ Ht) as Hx. rewrite Hpc in Hx. simpl in Hx.
  assert (Hold : tk !! t = None \/ exists p, tk !! t = Some (p, None)) by eauto.
  pose proof (proj1 (Forall_lookup _ _) (ag_nodes _ _ Hc) _ _ Hn) as [_ Hs].
  pose proof (ag_next _ _ Hc _ _ Hn) as Hnx. fold s in Hnx.
  destruct (ag_tickets _ _ Hc _ _ Hx) as (th' & n' & Ht' & Hn' & (Hp & Hm & _)). simplify_eq.
  pose proof (seq_size c tk t th Hc Ht Hold) as Hsz.
  assert (Hu : u64 (s + 1) = s + 1) by (apply u64_small; lia).
  apply (agrees_draw c tk t th n (set_next_seq (u64 (s + 1)) n) (pid, Some s)); simpl; try done.
  - unfold ballot_bound in *. rewrite map_size_insert_Some by (by rewrite Hx). lia.
  - rewrite (omap_size tk t (pid, Some s)) by done. rewrite Hu. simpl. lia.
  - split; [simpl in *; lia |]. split; [done |]. simpl. lia.
  - intros u o Hne Hu'. apply Hne. by eapply (ag_pid _ _ Hc).
  - intros u p s' thu Hne [= <-] Hu' Htu Hnd.
    destruct (ag_tickets _ _ Hc _ _ Hu') as (thu' & nu & Htu' & Hnu & (_ & _ & Hlt)). simplify_eq.
    rewrite Hnd in Hnu. simplify_eq. simpl in Hlt. lia.
  - intros p' s' [= <- <-]. by rewrite lookup_insert_eq.
Qed.

(** A thread that stops or has stopped. *)
Lemma stop_agrees c tk t th n rc :
  agrees c tk -> threads c !! t = Some th -> nodes c !! t_node th = Some n ->
  agrees (thread_at t th (PDone rc) (commit_effects (t_node th) n [] c)) tk.
Proof.
  intros Hc Ht Hn. pose proof (proj1 (Forall_lookup _ _) (ag_nodes _ _ Hc) _ _ Hn) as Hg.
  assert (Hc' : agrees (commit_effects (t_node th) n [] c) tk) by (apply (agrees_commit c tk _ n n); done).
  apply (agrees_threads _ _ _ Hc'); [by apply same_calls_insert |].
  intros u thu [(<- & <- & _)|[_ Hu]]%list_lookup_insert_Some; [done |]. by eapply (ag_pc _ _ Hc).
Qed.

Lemma ticket_value_app c tk pid s v ths :
  ticket_value c tk pid s v ->
  ticket_value (MkCluster (nodes c) (threads c ++ ths) (transit c) (logs c)) tk pid s v.
Proof.
  intros (t & th & Ht & Hx & <-). exists t, th. split_and!; [| done | done]. simpl. by apply lookup_app_l_Some.
Qed.

Lemma call_agrees c tk k v :
  agrees c tk -> agrees (cluster_step (EvPropose k v) c) tk.
Proof.
  intros Hc. pose proof Hc as [H1 H2 H3 H4 H5 H6 H7 H8 H9]. simpl.
  assert (Hin : forall u x thu, tk !! u = Some x -> (threads c ++ [MkThread k v PStart]) !! u = Some thu ->
    threads c !! u = Some thu).
  { intros u x thu Hx Hu. destruct (H1 _ _ Hx) as (th' & _ & Ht' & _). rewrite lookup_app, Ht' in Hu. congruence. }
  split; simpl; try done.
  - intros u x Hx. destruct (H1 _ _ Hx) as (th & n & Ht & ?). exists th, n.
    split; [by apply lookup_app_l_Some | done].
  - intros u u' pid pid' s th th' Hx Hx' Hu Hu' Hnd. by eapply (H3 u u' pid pid' s th th'); eauto.
  - intros u th Hu. apply lookup_app_Some in Hu as [Hu|[Hge Hu]]; [by apply H4 |].
    apply list_lookup_singleton_Some in Hu as [Hz <-]. simpl.
    destruct (tk !! u) as [x|] eqn:Hx; [| done]. destruct (H1 _ _ Hx) as (th' & _ & Ht' & _).
    apply lookup_lt_Some in Ht'. lia.
  - eapply list.Forall_impl; [exact H7 |]. intros n. apply node_good_mono; [intros; by apply ticket_value_app | done].
  - eapply list.Forall_impl; [exact H8 |]. intros n. apply msg_good_mono; [intros; by apply ticket_value_app | done].
  - eapply list.Forall_impl; [exact H9 |]. intros l Hl. eapply list.Forall_impl; [exact Hl |].
    intros e. apply eff_good_mono; [intros; by apply ticket_value_app | done].
Qed.

Lemma step_agrees ev c tk :
  agrees c tk -> Z.of_nat (length (threads c)) < 2 ^ 48 -> Z.of_nat (length (nodes c)) <= 2 ^ 16 ->
  exists tk', agrees (cluster_step ev c) tk'.
Proof.
  intros Hc Hlen Htot. destruct ev as [k v|t ob|j rc].
  - exists tk. by apply call_agrees.
  - simpl. destruct (threads c !! t) as [th|] eqn:Ht; [| eauto].
    destruct (nodes c !! t_node th) as [n|] eqn:Hn; [| eauto].
    destruct (pc_ticket (t_pc th)) as [[pid s]|] eqn:Hpc.
    { exists tk. pose proof (thread_agrees c tk t th n ob pid s Hc Ht Hn Hpc) as Ha.
      by destruct (propose_step _ _ _ _) as [[pc' n'] eff]. }
    destruct (t_pc th) eqn:Hp; try discriminate Hpc; cbn [propose_step].
    + case_decide; [exists tk; by apply stop_agrees |].
      destruct (negb _); [exists tk; by apply stop_agrees |].
      eexists. by apply (start_agrees c tk t th n).
    + eexists. by apply (sequence_agrees c tk t th n).
    + exists tk. by apply stop_agrees.
  - simpl. destruct (transit c !! j) as [[d m]|] eqn:Hj; [| eauto]. exists tk.
    apply deliver_agrees; [apply agrees_transit; [done |]; apply Forall_delete, Hc |].
    exact (proj1 (Forall_lookup _ _) (ag_transit _ _ Hc) _ _ Hj).
Qed.

Lemma step_sizes ev c :
  length (nodes (cluster_step ev c)) = length (nodes c) /\
  (length (threads c) <= length (threads (cluster_step ev c)))%nat.
Proof.
  destruct ev as [k v|t ob|j rc]; simpl; [rewrite length_app; split; [done | lia] | |].
  - destruct (threads c !! t) as [th|]; [| done]. destruct (nodes c !! t_node th); [| done].
    destruct (propose_step _ _ _ _) as [[pc' n'] eff]. simpl. by rewrite !length_insert.
  - destruct (transit c !! j) as [[d m]|]; [| done]. rewrite handle_threads. split; [| done].
    unfold deliver_message. simpl. destruct (nodes c !! d); [| done].
    destruct (paxos_handle_message _ _ _) as [[[ret r] n'] eff]. repeat case_match; simpl; by rewrite length_insert.
Qed.

Lemma run_threads evs c : (length (threads c) <= length (threads (cluster_run evs c)))%nat.
Proof.
  revert c. induction evs as [|ev evs IH]; intros c; [done |]. simpl.
  pose proof (IH (cluster_step ev c)). pose proof (step_sizes ev c). lia.
Qed.

Lemma run_agrees evs c tk :
  agrees c tk -> Z.of_nat (length (threads (cluster_run evs c))) < 2 ^ 48 ->
  Z.of_nat (length (nodes c)) <= 2 ^ 16 -> exists tk', agrees (cluster_run evs c) tk'.
Proof.
  revert c tk. induction evs as [|ev evs IH]; intros c tk Hc Hlen Htot; [by exists tk |].
  pose proof (run_threads (ev :: evs) c) as Hle.
  destruct (step_agrees ev c tk) as [tk' Hc']; [done | lia | done |].
  apply (IH (cluster_step ev c) tk'); [done | done |]. by rewrite (proj1 (step_sizes ev c)).
Qed.

(** The sizes of cluster [paxos_init] admits, with identities that fit a proposal number. *)
Definition cluster_size_ok (total : nat) : Prop :=
  3 <= Z.of_nat total <= 2 ^ 16 /\ Z.of_nat total `mod` 2 = 1.

Lemma init_node total k n :
  cluster_size_ok total -> nodes (cluster_init total) !! k = Some n ->
  (k < total)%nat /\
  n = MkNode (Z.of_nat k) (Z.of_nat total) (u32 (Z.of_nat total `div` 2 + 1)) 0 0 0 1 0
        (replicate 256 zero_proposal) 256 true true true 3000.
Proof.
  intros [[Hlo Hhi] Hodd] Hk. simpl in Hk. apply list_lookup_fmap_Some in Hk as (j & -> & Hj).
  apply lookup_seq in Hj as [-> Hlt]. split; [done |]. unfold paxos_init. rewrite decide_False by lia. done.
Qed.

Lemma init_agrees total : cluster_size_ok total -> agrees (cluster_init total) ∅.
Proof.
  intros Hok. split; try (by intros *; rewrite ?lookup_empty); try (by constructor).
  - intros k n Hk. by destruct (init_node _ _ _ Hok Hk) as [_ ->].
  - intros k n Hk. destruct (init_node _ _ _ Hok Hk) as [_ ->]. simpl. lia.
  - apply Forall_lookup. intros k n Hk. destruct (init_node _ _ _ Hok Hk) as [_ ->].
    split; [by apply Forall_replicate | done].
  - apply Forall_replicate. constructor.
Qed.

Lemma cluster_agrees total evs :
  cluster_size_ok total -> Z.of_nat (length (threads (cluster_run evs (cluster_init total)))) < 2 ^ 48 ->
  exists tk, agrees (cluster_run evs (cluster_init total)) tk.
Proof.
  intros Hok Hlen. apply (run_agrees evs _ ∅); [by apply init_agrees | done |].
  destruct Hok as [? _]. simpl. rewrite length_fmap, length_seq. lia.
Qed.

(** The value a node applies or logs belongs to a call. *)
Lemma logged_ticket c tk k l s v len :
  agrees c tk -> logs c !! k = Some l -> Apply s v len ∈ l \/ Persist s v len ∈ l ->
  exists pid x, v = Some x /\ ticket_value c tk pid s x.
Proof.
  intros Hc Hl Hin. pose proof (proj1 (Forall_lookup _ _) (ag_logs _ _ Hc) _ _ Hl) as Hlog.
  rewrite list.Forall_forall in Hlog. destruct Hin as [Hin|Hin]; by apply Hlog in Hin.
Qed.

Lemma sent_ticket c tk k l m :
  agrees c tk -> logs c !! k = Some l -> Broadcast m ∈ l ->
  phase m = PAXOS_PHASE_ACCEPT \/ phase m = PAXOS_PHASE_LEARN ->
  exists x, value m = Some x /\ ticket_value c tk (proposal_id m) (sequence_number m) x.
Proof.
  intros Hc Hl Hin. pose proof (proj1 (Forall_lookup _ _) (ag_logs _ _ Hc) _ _ Hl) as Hlog.
  rewrite list.Forall_forall in Hlog. apply Hlog in Hin as [_ Hv _]. done.
Qed.

(** ** Theorems *)

(** What the nodes agree on. *)
Theorem cluster_agreement total evs :
  let c := cluster_run evs (cluster_init total) in
  cluster_size_ok total -> Z.of_nat (length (threads c)) < 2 ^ 48 ->
  forall j k lj lk, logs c !! j = Some lj -> logs c !! k = Some lk ->
  (forall m m', Broadcast m ∈ lj -> Broadcast m' ∈ lk ->
     phase m = PAXOS_PHASE_ACCEPT \/ phase m = PAXOS_PHASE_LEARN ->
     phase m' = PAXOS_PHASE_ACCEPT \/ phase m' = PAXOS_PHASE_LEARN ->
     proposal_id m = proposal_id m' ->
     sequence_number m = sequence_number m' /\ value m = value m') /\
  (forall p s v len v' len', Forall (fun th => t_node th = p) (threads c) ->
     Apply s v len ∈ lj \/ Persist s v len ∈ lj -> Apply s v' len' ∈ lk \/ Persist s v' len' ∈ lk ->
     v = v').
Proof.
  intros c Hok Hlen j k lj lk Hj Hk. destruct (cluster_agrees total evs Hok Hlen) as [tk Hc]. fold c in Hc. split.
  - intros m m' Hm Hm' Hph Hph' Heq.
    destruct (sent_ticket _ _ _ _ _ Hc Hj Hm Hph) as (x & -> & Hx).
    destruct (sent_ticket _ _ _ _ _ Hc Hk Hm' Hph') as (x' & -> & Hx'). rewrite <- Heq in Hx'.
    by destruct (ticket_value_fun _ _ _ _ _ _ _ Hc Hx Hx') as [-> ->].
  - intros p s v len v' len' Hone Hv Hv'. rewrite list.Forall_forall in Hone.
    destruct (logged_ticket _ _ _ _ _ _ _ Hc Hj Hv) as (pid & x & -> & (t & th & Ht & Htk & <-)).
    destruct (logged_ticket _ _ _ _ _ _ _ Hc Hk Hv') as (pid' & x' & -> & (t' & th' & Ht' & Htk' & <-)).
    assert (t = t') as <-; [| by simplify_eq].
    apply (ag_seq _ _ Hc t t' pid pid' s th th'); try done.
    by rewrite !Hone by (by eapply list_elem_of_lookup_2).
Qed.

(** Node 0 alone proposes; its LEARN messages reach the others. *)
Definition one_proposer : list event := first_round ++ [EvDeliver 2 0; EvDeliver 2 0].
