(* ===== verification/Metadata.v ===== *)
(** * The metadata manager: [src/distributed_core/src/metadata_manager.c], [include/metadata_manager.h]

    Entries live in a heap, because the hash map and the callers share pointers to
    them; a bucket is its list of nodes, newest first.  The log file is its bytes.
    [malloc], [write], [fsync] and the clock are arguments of the functions that use
    them. *)

From stdpp Require Import base gmap strings list pretty numbers.
From Stdlib Require Import Ascii.
From S2P Require Import Prelude CString.

#[local] Open Scope Z_scope.

(** ** Data *)

Definition MAX_STORAGE_NODES : nat := 16.
Definition MAX_PATH_LENGTH : nat := 4096.
Definition HASH_MAP_SIZE : nat := 1024.

(** [file_state_t] *)
Definition FILE_STATE_CREATING : Z := 0.
Definition FILE_STATE_ACTIVE : Z := 1.
Definition FILE_STATE_DELETING : Z := 2.
Definition FILE_STATE_DELETED : Z := 3.
Definition FILE_STATE_REPLICATING : Z := 4.

(** [wal_op_type_t] *)
Definition WAL_OP_CREATE : Z := 1.
Definition WAL_OP_UPDATE : Z := 2.
Definition WAL_OP_DELETE : Z := 3.
Definition WAL_OP_TRUNCATE : Z := 4.

Record metadata_entry := MkEntry {
  file_id : string;
  path : string;
  state : Z;
  size : Z;
  mode : Z;
  uid : Z;
  gid : Z;
  created_time : Z;
  modified_time : Z;
  accessed_time : Z;
  storage_nodes : list Z;
  storage_node_ips : list string;
  storage_node_ports : list Z;
  num_storage_nodes : Z;
  primary_node_idx : Z;
  version : Z;
  stripe_size : Z;
  num_replicas : Z;
}.

(** [calloc(1, sizeof(metadata_entry_t))] *)
Definition zero_entry : metadata_entry :=
  MkEntry EmptyString EmptyString 0 0 0 0 0 0 0 0 (replicate MAX_STORAGE_NODES 0)
    (replicate MAX_STORAGE_NODES EmptyString) (replicate MAX_STORAGE_NODES 0) 0 0 0 0 0.

Record metadata_manager := MkMgr {
  heap : gmap nat metadata_entry;
  next_addr : nat;
  buckets : list (list (string * nat));
  wal : list Z;
  current_lsn : Z;
  total_entries : Z;
  total_size : Z;
}.

(** ** Field assignments *)

Definition set_state (s : Z) (e : metadata_entry) : metadata_entry :=
  MkEntry (file_id e) (path e) s (size e) (mode e) (uid e) (gid e) (created_time e)
    (modified_time e) (accessed_time e) (storage_nodes e) (storage_node_ips e)
    (storage_node_ports e) (num_storage_nodes e) (primary_node_idx e) (version e)
    (stripe_size e) (num_replicas e).

(** [version++], [modified_time = t] *)
Definition bump (t : Z) (e : metadata_entry) : metadata_entry :=
  MkEntry (file_id e) (path e) (state e) (size e) (mode e) (uid e) (gid e) (created_time e)
    t (accessed_time e) (storage_nodes e) (storage_node_ips e)
    (storage_node_ports e) (num_storage_nodes e) (primary_node_idx e) (u64 (version e + 1))
    (stripe_size e) (num_replicas e).

Definition set_nodes (ips : list string) (ports : list Z) (n : Z) (e : metadata_entry)
  : metadata_entry :=
  MkEntry (file_id e) (path e) (state e) (size e) (mode e) (uid e) (gid e) (created_time e)
    (modified_time e) (accessed_time e) (storage_nodes e) ips ports n 0 (version e)
    (stripe_size e) (num_replicas e).

Definition upd_heap (a : nat) (f : metadata_entry -> metadata_entry) (g : metadata_manager)
  : metadata_manager :=
  MkMgr (alter f a (heap g)) (next_addr g) (buckets g) (wal g) (current_lsn g)
    (total_entries g) (total_size g).

Definition set_totals (n s : Z) (g : metadata_manager) : metadata_manager :=
  MkMgr (heap g) (next_addr g) (buckets g) (wal g) (current_lsn g) n s.

Definition set_wal (w : list Z) (lsn : Z) (g : metadata_manager) : metadata_manager :=
  MkMgr (heap g) (next_addr g) (buckets g) w lsn (total_entries g) (total_size g).

Definition deref (g : metadata_manager) (a : nat) : metadata_entry :=
  default zero_entry (heap g !! a).

(** ** Hashing and checksum *)

(** [char] is signed. *)
Definition schar (a : ascii) : Z := swrap 8 (Z.of_N (N_of_ascii a)).

Fixpoint hash_loop (hash : Z) (s : string) : Z :=
  match s with
  | EmptyString => hash
  | String a s' => hash_loop (u32 (u32 (u32 (Z.shiftl hash 5) + hash) + schar a)) s'
  end.

Definition hash_string (s : string) : Z := hash_loop 5381 s `mod` 1024.

Definition crc_bit (crc : Z) : Z :=
  Z.lxor (Z.shiftr crc 1) (Z.land 3988292384 (u32 (- Z.land crc 1))).

Definition crc_byte (crc b : Z) : Z := Nat.iter 8 crc_bit (Z.lxor crc b).

Definition metadata_crc32 (data : list Z) : Z :=
  u32 (Z.lnot (foldl crc_byte 4294967295 data)).

(** ** Serialisation (x86-64 layout; the lock starts at offset 5400) *)

Definition entry_len : nat := 5400.

(** [sizeof(metadata_entry_t)] *)
Definition entry_size : nat := 5456.

(** A [char] array of [n] bytes holding [s]. *)
Definition enc_str (n : nat) (s : string) : list Z :=
  str_bytes s ++ replicate (n - String.length s) 0.

Definition enc_u32s (l : list Z) : list Z := l ≫= le_bytes 4.

(** Cuts [k] pieces of [n] bytes. *)
Fixpoint chunks (k n : nat) (bs : list Z) : list (list Z) :=
  match k with
  | O => []
  | S k' => take n bs :: chunks k' n (drop n bs)
  end.

Definition entry_fields (e : metadata_entry) : list (list Z) :=
  [ enc_str 64 (file_id e); enc_str 4096 (path e); le_bytes 4 (state e); replicate 4 0;
    le_bytes 8 (size e); le_bytes 4 (mode e); le_bytes 4 (uid e); le_bytes 4 (gid e);
    replicate 4 0; le_bytes 8 (created_time e); le_bytes 8 (modified_time e);
    le_bytes 8 (accessed_time e); enc_u32s (storage_nodes e);
    storage_node_ips e ≫= enc_str 64; enc_u32s (storage_node_ports e);
    le_bytes 4 (num_storage_nodes e); le_bytes 4 (primary_node_idx e); le_bytes 8 (version e);
    le_bytes 8 (stripe_size e); le_bytes 4 (num_replicas e); replicate 4 0 ].

(** Field widths; 4-byte padding after [state], [gid] and [num_replicas]. *)
Definition entry_widths : list nat :=
  [64; 4096; 4; 4; 8; 4; 4; 4; 4; 8; 8; 8; 64; 1024; 64; 4; 4; 8; 8; 4; 4]%nat.

Fixpoint cut (ws : list nat) (bs : list Z) : list (list Z) :=
  match ws with
  | [] => []
  | w :: ws' => take w bs :: cut ws' (drop w bs)
  end.

Definition metadata_serialize (e : metadata_entry) : list Z := concat (entry_fields e).

(** The entry whose first [entry_len] bytes are [bs]. *)
Definition decode_entry (bs : list Z) : option metadata_entry :=
  match cut entry_widths bs with
  | [a0; a1; a2; _; a4; a5; a6; a7; _; a9; a10; a11; a12; a13; a14; a15; a16; a17; a18; a19; _] =>
      Some (MkEntry (dec_str a0) (dec_str a1) (le_val a2) (le_val a4) (le_val a5) (le_val a6)
              (le_val a7) (s64 (le_val a9)) (s64 (le_val a10)) (s64 (le_val a11))
              (le_val <$> chunks 16 4 a12) (dec_str <$> chunks 16 64 a13)
              (le_val <$> chunks 16 4 a14) (le_val a15) (le_val a16) (le_val a17) (le_val a18)
              (le_val a19))
  | _ => None
  end.

(** [None]: the copy overruns the allocated struct. *)
Definition metadata_deserialize (alloc_ok : bool) (buffer : list Z)
  : option (Z * option metadata_entry) :=
  if negb alloc_ok then Some (-1, None)
  else if decide (entry_size < length buffer)%nat then None
  else
    e ← decode_entry (take entry_len (buffer ++ replicate entry_len 0)); Some (0, Some e).

(** ** The write-ahead log *)

(** Outcomes of one [wal_append]: [write] returns -1 ([None]) or a count that the code
    accepts even when it is short; [data_ptr] and [pad] are the pointer and padding
    bytes that end up in the header. *)
Record wal_io := MkIo {
  serialize_ok : bool;
  wal_time : Z;
  write_hdr : option nat;
  write_data : option nat;
  fsync_ok : bool;
  data_ptr : Z;
  pad : list Z;
}.

Definition wal_header_len : nat := 40.

(** The first [sizeof(wal_entry_t) - sizeof(uint8_t * )] bytes of the struct: the
    checksum is at offset 40 and not among them. *)
Definition wal_header (lsn op : Z) (pad : list Z) (ts ptr len : Z) : list Z :=
  le_bytes 8 lsn ++ le_bytes 4 op ++ pad ++ le_bytes 8 ts ++ le_bytes 8 ptr ++ le_bytes 8 len.

Definition wal_append (io : wal_io) (op : Z) (e : metadata_entry) (g : metadata_manager)
  : Z * metadata_manager :=
  if negb (serialize_ok io) then (UINT64_MAX, g)
  else
    let data := metadata_serialize e in
    let lsn := u64 (current_lsn g + 1) in
    let hdr := wal_header lsn op (pad io) (wal_time io) (data_ptr io) (Z.of_nat (length data)) in
    match write_hdr io with
    | None => (UINT64_MAX, set_wal (wal g) lsn g)
    | Some k =>
        let w1 := wal g ++ take k hdr in
        match write_data io with
        | None => (UINT64_MAX, set_wal w1 lsn g)
        | Some k' =>
            let w2 := w1 ++ take k' data in
            if fsync_ok io then (lsn, set_wal w2 lsn g) else (UINT64_MAX, set_wal w2 lsn g)
        end
    end.

(** What [read] and [malloc] leave in a buffer that is only partly filled. *)
Definition overlay (got old : list Z) : list Z := got ++ drop (length got) old.

(** The loop of [wal_replay] from file position [pos]: [hdr] is the header part of the
    [wal_entry] variable, [garbage] its checksum field, which no read touches, [junk]
    the contents of fresh memory, [malloc_ok] whether an allocation succeeds.  Reading
    into NULL fails, except at the end of the file, where it returns 0 and the checksum
    then reads NULL.  [leaked]: the entries decoded so far, which nothing points to any
    more.  [None]: that crash, a copy that overruns a struct, or too little fuel. *)
Fixpoint wal_replay_loop (fuel : nat) (malloc_ok : Z -> bool) (garbage : Z) (junk hdr : list Z)
    (file : list Z) (lsn : Z) (leaked : list metadata_entry) : option (Z * Z * list metadata_entry) :=
  match fuel with
  | O => None
  | S fuel' =>
      let got := take wal_header_len file in
      if decide (got = []) then Some (0, lsn, leaked)
      else
        let hdr := overlay got hdr in
        let file := drop wal_header_len file in
        let data_len := le_val (take 8 (drop 32 hdr)) in
        if negb (malloc_ok data_len) && (0 <? data_len) then
          if decide (file = []) then None else Some (-1, lsn, leaked)
        else
          let data := overlay (take (Z.to_nat data_len) file) (take (Z.to_nat data_len) junk) in
          let file := drop (Z.to_nat data_len) file in
          if decide (metadata_crc32 data <> garbage)
          then wal_replay_loop fuel' malloc_ok garbage junk hdr file lsn leaked
          else
            match metadata_deserialize (malloc_ok (Z.of_nat entry_size)) data with
            | None => None
            | Some (_, entry) =>
                wal_replay_loop fuel' malloc_ok garbage junk hdr file (le_val (take 8 hdr))
                  (leaked ++ option_list entry)
            end
  end.

(** An entry in fresh memory, without a node in the map. *)
Definition alloc_entry (g : metadata_manager) (e : metadata_entry) : metadata_manager :=
  MkMgr (<[next_addr g := e]> (heap g)) (S (next_addr g)) (buckets g) (wal g) (current_lsn g)
    (total_entries g) (total_size g).

Definition wal_replay (malloc_ok : Z -> bool) (garbage : Z) (junk hdr : list Z)
    (g : metadata_manager) : option (Z * metadata_manager) :=
  match wal_replay_loop (S (length (wal g))) malloc_ok garbage junk hdr (wal g) (current_lsn g) [] with
  | None => None
  | Some (rc, lsn, leaked) => Some (rc, foldl alloc_entry (set_wal (wal g) lsn g) leaked)
  end.

Definition wal_truncate (lsn : Z) (g : metadata_manager) : Z * metadata_manager :=
  (0, set_wal [] (current_lsn g) g).

(** A manager over the log file [file] ([open] and [calloc] succeed). *)
Definition metadata_manager_init (malloc_ok : Z -> bool) (garbage : Z) (junk hdr file : list Z)
  : option metadata_manager :=
  let g := MkMgr ∅ 0 (replicate HASH_MAP_SIZE []) file 0 0 0 in
  match wal_replay malloc_ok garbage junk hdr g with
  | None => None
  | Some (_, g') => Some g'
  end.

(** ** The hash map *)

Definition bucket (g : metadata_manager) (k : string) : list (string * nat) :=
  buckets g !!! Z.to_nat (hash_string k).

(** The address behind the first node with key [k]. *)
Definition find_node (k : string) (nodes : list (string * nat)) : option nat :=
  p ← list_find (fun x => x.1 = k) nodes; Some p.2.2.

Definition metadata_lookup (g : metadata_manager) (id : string) : option nat :=
  find_node id (bucket g id).

Definition metadata_lookup_by_path (g : metadata_manager) (p : string) : option nat :=
  n ← list_find (fun x => path (deref g x.2) = p /\ state (deref g x.2) <> FILE_STATE_DELETED)
        (concat (buckets g));
  Some n.2.2.

(** Puts [e] in fresh memory and a node for it in front of its bucket. *)
Definition insert_node (e : metadata_entry) (n s : Z) (g : metadata_manager) : metadata_manager :=
  let a := next_addr g in
  let idx := Z.to_nat (hash_string (file_id e)) in
  MkMgr (<[a := e]> (heap g)) (S a)
    (<[idx := (strncpy 63 (file_id e), a) :: bucket g (file_id e)]> (buckets g))
    (wal g) (current_lsn g) n s.

(** Lower-case hexadecimal, ["%lx"]. *)
Definition hex_digit (d : Z) : ascii :=
  ascii_of_N (Z.to_N (if decide (d < 10) then 48 + d else 87 + d)).

Fixpoint fmt_hex_loop (fuel : nat) (z : Z) (acc : string) : string :=
  match fuel with
  | O => acc
  | S fuel' =>
      let acc' := String (hex_digit (z `mod` 16)) acc in
      if decide (z `div` 16 = 0) then acc' else fmt_hex_loop fuel' (z `div` 16) acc'
  end.

Definition fmt_lx (z : Z) : string := fmt_hex_loop 16 z EmptyString.

(** The identifier made for [p] at second [t]. *)
Definition new_file_id (p : string) (t : Z) : string :=
  strncpy 63 (fmt_lx (hash_string p) +:+ ("_" +:+ pretty t))%string.

Definition new_entry (p : string) (md u g_ t t' : Z) : metadata_entry :=
  MkEntry (new_file_id p t) (strncpy (MAX_PATH_LENGTH - 1) p) FILE_STATE_CREATING 0 md u g_
    t' t' t' (replicate MAX_STORAGE_NODES 0) (replicate MAX_STORAGE_NODES EmptyString)
    (replicate MAX_STORAGE_NODES 0) 0 0 1 4194304 0.

(** [t], [t']: the two readings of the clock. *)
Definition metadata_create_entry (alloc_ok : bool) (io : wal_io) (p : string)
    (md u g_ t t' : Z) (g : metadata_manager) : option nat * metadata_manager :=
  if negb alloc_ok then (None, g)
  else
    let e := new_entry p md u g_ t t' in
    let '(lsn, g1) := wal_append io WAL_OP_CREATE e g in
    if decide (lsn = UINT64_MAX) then (None, g1)
    else (Some (next_addr g1), insert_node e (u64 (total_entries g1 + 1)) (total_size g1) g1).

Definition metadata_update_entry (io : wal_io) (t : Z) (a : nat) (g : metadata_manager)
  : Z * metadata_manager :=
  let '(lsn, g1) := wal_append io WAL_OP_UPDATE (deref g a) g in
  if decide (lsn = UINT64_MAX) then (-1, g1) else (0, upd_heap a (bump t) g1).

Definition metadata_delete_entry (io : wal_io) (id : string) (g : metadata_manager)
  : Z * metadata_manager :=
  match metadata_lookup g id with
  | None => (-1, g)
  | Some a =>
      let g1 := upd_heap a (set_state FILE_STATE_DELETED) g in
      let '(lsn, g2) := wal_append io WAL_OP_DELETE (deref g1 a) g1 in
      if decide (lsn = UINT64_MAX) then (-1, g2)
      else (0, set_totals (u64 (total_entries g2 - 1))
                 (u64 (total_size g2 - size (deref g2 a))) g2)
  end.

(** [ips] and [ports] have [n] cells. *)
Definition metadata_assign_storage_nodes (io : wal_io) (t : Z) (a : nat) (ips : list string)
    (ports : list Z) (n : nat) (g : metadata_manager) : Z * metadata_manager :=
  if decide (MAX_STORAGE_NODES < n)%nat then (-1, g)
  else
    let f e := set_nodes ((strncpy 63 <$> take n ips) ++ drop n (storage_node_ips e))
                 (take n ports ++ drop n (storage_node_ports e)) (Z.of_nat n) e in
    metadata_update_entry io t a (upd_heap a f g).

Definition metadata_apply_entry (alloc_ok : bool) (e : metadata_entry) (g : metadata_manager)
  : Z * metadata_manager :=
  match metadata_lookup g (file_id e) with
  | Some a =>
      let old_size := size (deref g a) in
      let g1 := upd_heap a (fun _ => e) g in
      let ts := if decide (old_size <= size e) then u64 (total_size g + u64 (size e - old_size))
                else u64 (total_size g - u64 (old_size - size e)) in
      (0, set_totals (total_entries g) ts g1)
  | None =>
      if alloc_ok
      then (0, insert_node e (u64 (total_entries g + 1)) (u64 (total_size g + size e)) g)
      else (-1, g)
  end.
