(* ===== verification/MetadataThm.v ===== *)
(** * The metadata manager: theorems

    The hash map implements a map from identifiers to entries; entries survive
    serialisation; the checksum detects any change of one byte; recovery from the log
    restores nothing. *)

From stdpp Require Import base gmap strings list pretty numbers.
From Stdlib Require Import Ascii.
From S2P Require Import Prelude CString Metadata.

#[local] Open Scope Z_scope.

(** ** Well-formed managers *)

(** Nodes sit in the bucket of their key and point to allocated entries with that
    identifier. *)
Record mgr_ok (g : metadata_manager) : Prop := {
  ok_len : length (buckets g) = HASH_MAP_SIZE;
  ok_node : forall i l k a, buckets g !! i = Some l -> (k, a) ∈ l ->
    Z.to_nat (hash_string k) = i /\ (a < next_addr g)%nat /\
    exists e, heap g !! a = Some e /\ file_id e = k;
}.

(** The entry an identifier resolves to. *)
Definition entry_at (g : metadata_manager) (id : string) : option metadata_entry :=
  a ← metadata_lookup g id; heap g !! a.

Lemma hash_range s : 0 <= hash_string s < 1024.
Proof. apply Z.mod_pos_bound. lia. Qed.

Lemma bucket_lookup g k :
  mgr_ok g -> buckets g !! Z.to_nat (hash_string k) = Some (bucket g k).
Proof.
  intros Hok. unfold bucket. apply list_lookup_lookup_total_lt.
  rewrite (ok_len _ Hok). pose proof (hash_range k). unfold HASH_MAP_SIZE. lia.
Qed.

Lemma find_node_Some k l a : find_node k l = Some a -> (k, a) ∈ l.
Proof.
  unfold find_node. intros ([i [k' a']] & Hf & [= <-])%bind_Some.
  apply list_find_Some in Hf as (Hl & Hk & _). simpl in *. subst.
  apply list_elem_of_lookup. eauto.
Qed.

Lemma find_node_cons k k' a l :
  find_node k ((k', a) :: l) = if decide (k = k') then Some a else find_node k l.
Proof.
  unfold find_node. simpl. destruct (decide (k' = k)) as [->|Hne].
  - by rewrite decide_True.
  - rewrite decide_False by done. by destruct (list_find _ l) as [[??]|].
Qed.

Lemma lookup_ok g id a :
  mgr_ok g -> metadata_lookup g id = Some a ->
  (a < next_addr g)%nat /\ exists e, heap g !! a = Some e /\ file_id e = id.
Proof.
  intros Hok Hl%find_node_Some. eapply (ok_node _ Hok) in Hl as (_ & ? & ?); [done |].
  by apply bucket_lookup.
Qed.

(** Two identifiers never share an entry. *)
Lemma lookup_inj g id id' a :
  mgr_ok g -> metadata_lookup g id = Some a -> metadata_lookup g id' = Some a -> id = id'.
Proof.
  intros Hok (_ & e & He & <-)%lookup_ok (_ & e' & He' & <-)%lookup_ok; [| done ..]. congruence.
Qed.

Lemma mgr_ok_heap g a f :
  mgr_ok g -> (forall e, file_id (f e) = file_id e) -> mgr_ok (upd_heap a f g).
Proof.
  intros [Hl Hn] Hf. split; [done |]. intros i l k a' Hi Hin. simpl in *.
  destruct (Hn i l k a' Hi Hin) as (? & ? & e & He & Hk). split_and!; try done.
  destruct (decide (a = a')) as [->|Hne].
  - exists (f e). rewrite lookup_alter_eq, He. split; [done |]. by rewrite Hf.
  - exists e. by rewrite lookup_alter_ne.
Qed.

Lemma entry_at_heap g a f id id' :
  mgr_ok g -> metadata_lookup g id = Some a ->
  entry_at (upd_heap a f g) id' = if decide (id' = id) then f <$> entry_at g id else entry_at g id'.
Proof.
  intros Hok Ha. unfold entry_at.
  change (metadata_lookup (upd_heap a f g) id') with (metadata_lookup g id'). simpl.
  case_decide as Hid.
  - subst. rewrite Ha. simpl. apply lookup_alter_eq.
  - destruct (metadata_lookup g id') as [a'|] eqn:Ha'; simpl; [| done].
    rewrite lookup_alter_ne; [done |]. intros <-. by apply Hid; eapply lookup_inj.
Qed.

Lemma insert_node_ok g e n s :
  mgr_ok g -> (String.length (file_id e) <= 63)%nat -> mgr_ok (insert_node e n s g).
Proof.
  intros Hok Hlen. unfold insert_node, strncpy. rewrite str_take_ge by done.
  split; [by simpl; rewrite length_insert; apply Hok |].
  intros i l k a Hi Hin. simpl in *.
  assert (Hold : forall l0, buckets g !! i = Some l0 -> (k, a) ∈ l0 ->
    Z.to_nat (hash_string k) = i /\ (a < S (next_addr g))%nat /\
    exists e0, <[next_addr g := e]> (heap g) !! a = Some e0 /\ file_id e0 = k).
  { intros l0 Hl0 Hin0. destruct (ok_node _ Hok _ _ _ _ Hl0 Hin0) as (? & ? & e0 & ? & ?).
    split_and!; [done | lia |]. exists e0. by rewrite lookup_insert_ne by lia. }
  destruct (decide (i = Z.to_nat (hash_string (file_id e)))) as [->|Hne].
  - rewrite list_lookup_insert_eq in Hi.
    2:{ pose proof (bucket_lookup g (file_id e) Hok) as Hb. by apply lookup_lt_Some in Hb. }
    injection Hi as <-. apply elem_of_cons in Hin as [[= -> ->]|Hin].
    + split_and!; [done | lia |]. exists e. by rewrite lookup_insert_eq.
    + eapply Hold; [by apply bucket_lookup | done].
  - rewrite list_lookup_insert_ne in Hi by done. eauto.
Qed.

Lemma insert_node_at g e n s id :
  mgr_ok g -> (String.length (file_id e) <= 63)%nat ->
  entry_at (insert_node e n s g) id = if decide (id = file_id e) then Some e else entry_at g id.
Proof.
  intros Hok Hlen. unfold entry_at, metadata_lookup.
  assert (Hb : bucket (insert_node e n s g) id =
    if decide (hash_string id = hash_string (file_id e))
    then (file_id e, next_addr g) :: bucket g id else bucket g id).
  { unfold bucket at 1. unfold insert_node, strncpy. rewrite str_take_ge by done. simpl.
    pose proof (bucket_lookup g (file_id e) Hok) as Hbe. case_decide as Hh.
    - rewrite Hh, list_lookup_total_insert_eq by (by apply lookup_lt_Some in Hbe).
      unfold bucket. by rewrite Hh.
    - pose proof (hash_range id). pose proof (hash_range (file_id e)).
      rewrite list_lookup_total_insert_ne by lia. done. }
  rewrite Hb.
  assert (Hold : forall a, find_node id (bucket g id) = Some a ->
    heap (insert_node e n s g) !! a = heap g !! a).
  { intros a Ha. destruct (lookup_ok g id a Hok Ha) as (Hlt & _). simpl.
    by rewrite lookup_insert_ne by lia. }
  assert (Hsame : id <> file_id e ->
    (a ← find_node id (bucket g id); heap (insert_node e n s g) !! a) =
    (a ← find_node id (bucket g id); heap g !! a)).
  { intros _. destruct (find_node id (bucket g id)) as [a|] eqn:Ha; simpl; [by apply Hold | done]. }
  case_decide as Hh.
  - rewrite find_node_cons. destruct (decide (id = file_id e)) as [->|Hne]; [| by apply Hsame].
    simpl. by rewrite lookup_insert_eq.
  - destruct (decide (id = file_id e)) as [->|Hne]; [done |]. by apply Hsame.
Qed.

(** ** The log does not touch the map *)

Lemma wal_append_frame io op e g lsn g' :
  wal_append io op e g = (lsn, g') ->
  heap g' = heap g /\ next_addr g' = next_addr g /\ buckets g' = buckets g /\
  total_entries g' = total_entries g /\ total_size g' = total_size g.
Proof. unfold wal_append. repeat case_match; intros [= <- <-]; done. Qed.

(** Managers with the same map part agree on everything the map decides. *)
Definition same_map (g g' : metadata_manager) : Prop :=
  heap g' = heap g /\ next_addr g' = next_addr g /\ buckets g' = buckets g.

Lemma same_map_ok g g' : same_map g g' -> mgr_ok g -> mgr_ok g'.
Proof. intros (Hh & Hn & Hb) [H1 H2]. split; rewrite ?Hh, ?Hn, ?Hb; done. Qed.

Lemma same_map_lookup g g' id :
  same_map g g' -> metadata_lookup g' id = metadata_lookup g id.
Proof. intros (_ & _ & Hb). unfold metadata_lookup, bucket. by rewrite Hb. Qed.

Lemma same_map_at g g' id : same_map g g' -> entry_at g' id = entry_at g id.
Proof.
  intros Hs. unfold entry_at. rewrite (same_map_lookup g g') by done. by destruct Hs as (-> & _).
Qed.

Lemma append_same_map io op e g lsn g' :
  wal_append io op e g = (lsn, g') -> same_map g g'.
Proof. intros H. apply wal_append_frame in H as (? & ? & ? & _). by split_and!. Qed.

Lemma deref_at g id a : metadata_lookup g id = Some a -> mgr_ok g -> entry_at g id = Some (deref g a).
Proof.
  intros Ha Hok. destruct (lookup_ok _ _ _ Hok Ha) as (_ & e & He & _).
  unfold entry_at, deref. by rewrite Ha; simpl; rewrite He.
Qed.

Lemma by_path_Some g p a :
  metadata_lookup_by_path g p = Some a ->
  path (deref g a) = p /\ state (deref g a) <> FILE_STATE_DELETED /\
  exists i l k, buckets g !! i = Some l /\ (k, a) ∈ l.
Proof.
  unfold metadata_lookup_by_path. intros ([j [k a']] & Hf & [= <-])%bind_Some.
  apply list_find_Some in Hf as (Hl & (Hp & Hst) & _). split_and!; try done.
  apply list_elem_of_lookup_2, list_elem_of_In, in_concat in Hl as (l & Hin & Hka).
  apply list_elem_of_In in Hin, Hka. apply list_elem_of_lookup in Hin as [i Hi]. eauto.
Qed.

Lemma by_path_None g p i l k a :
  metadata_lookup_by_path g p = None -> buckets g !! i = Some l -> (k, a) ∈ l ->
  path (deref g a) = p -> state (deref g a) = FILE_STATE_DELETED.
Proof.
  unfold metadata_lookup_by_path. intros Hn Hi Hin Hp.
  destruct (list_find _ (concat (buckets g))) as [[??]|] eqn:Hf; [done |].
  apply list_find_None in Hf. rewrite Forall_forall in Hf.
  destruct (decide (state (deref g a) = FILE_STATE_DELETED)) as [|Hst]; [done |].
  destruct (Hf (k, a)); [| done]. apply in_concat. exists l.
  split; apply list_elem_of_In; [| done]. apply list_elem_of_lookup. eauto.
Qed.

(** ** Theorems on the map *)

Lemma apply_refines e g rc g' :
  mgr_ok g -> (String.length (file_id e) <= 63)%nat -> metadata_apply_entry true e g = (rc, g') ->
  rc = 0 /\ mgr_ok g' /\ wal g' = wal g /\ current_lsn g' = current_lsn g /\
  (forall id, entry_at g' id = if decide (id = file_id e) then Some e else entry_at g id) /\
  total_size g' = u64 (total_size g + size e - from_option size 0 (entry_at g (file_id e))).
Proof.
  intros Hok Hlen. unfold metadata_apply_entry.
  destruct (metadata_lookup g (file_id e)) as [a|] eqn:Ha; intros [<- <-]%pair_equal_spec.
  - rewrite (deref_at _ _ _ Ha Hok). cbn [from_option].
    assert (Hs : same_map (upd_heap a (fun _ => e) g)
      (set_totals (total_entries g) (if decide (size (deref g a) <= size e)
        then u64 (total_size g + u64 (size e - size (deref g a)))
        else u64 (total_size g - u64 (size (deref g a) - size e))) (upd_heap a (fun _ => e) g)))
      by done.
    destruct (lookup_ok _ _ _ Hok Ha) as (_ & e0 & He0 & Hid).
    split_and!; try done.
    + eapply same_map_ok; [exact Hs |]. split; [apply Hok |]. intros i l k a' Hi Hin. simpl in *.
      destruct (ok_node _ Hok _ _ _ _ Hi Hin) as (? & ? & e1 & He1 & Hk). split_and!; try done.
      destruct (decide (a = a')) as [->|Hne].
      * exists e. rewrite lookup_alter_eq, He0. split; [done | congruence].
      * exists e1. by rewrite lookup_alter_ne.
    + intros id. rewrite (same_map_at _ _ _ Hs), (entry_at_heap _ _ _ (file_id e)) by done.
      destruct (decide (id = file_id e)); [| done]. by rewrite (deref_at _ _ _ Ha Hok).
    + clear Hs. simpl. unfold u64. case_decide; rewrite ?Zplus_mod_idemp_r, ?Zminus_mod_idemp_r; f_equal; lia.
  - assert (Hn : entry_at g (file_id e) = None) by (unfold entry_at; by rewrite Ha).
    rewrite Hn. split_and!; try done; [by apply insert_node_ok | by intros; apply insert_node_at |].
    simpl. f_equal. lia.
Qed.

(** Applying a committed entry is a map insertion. The identifier resolves to the
    entry, every other identifier to what it did before, the log is not written, and
    the total size changes by the difference. *)
Theorem metadata_apply_refines e g rc g' :
  mgr_ok g -> (String.length (file_id e) <= 63)%nat -> metadata_apply_entry true e g = (rc, g') ->
  rc = 0 /\ mgr_ok g' /\ wal g' = wal g /\ current_lsn g' = current_lsn g /\
  (forall id, entry_at g' id = if decide (id = file_id e) then Some e else entry_at g id) /\
  total_size g' = u64 (total_size g + size e - from_option size 0 (entry_at g (file_id e))).
Proof. apply apply_refines. Qed.

(** Creating an entry logs it and inserts it under its new identifier: that
    identifier resolves to the new entry (an older entry with the same identifier, which
    the same second and path hash give, is shadowed), all others as before, and the path
    resolves. *)
Theorem metadata_create_spec io p md u g_ t t' g a g' :
  mgr_ok g -> metadata_create_entry true io p md u g_ t t' g = (Some a, g') ->
  let e := new_entry p md u g_ t t' in
  mgr_ok g' /\ heap g' !! a = Some e /\
  (forall id, entry_at g' id = if decide (id = new_file_id p t) then Some e else entry_at g id) /\
  (exists b, metadata_lookup_by_path g' (strncpy (MAX_PATH_LENGTH - 1) p) = Some b) /\
  current_lsn g' = u64 (current_lsn g + 1).
Proof.
  intros Hok. unfold metadata_create_entry. simpl. set (e := new_entry p md u g_ t t').
  destruct (wal_append io WAL_OP_CREATE e g) as [lsn g1] eqn:Hw.
  pose proof (append_same_map _ _ _ _ _ _ Hw) as Hs. case_decide as Hl; [done |].
  intros [= <- <-]. pose proof (same_map_ok _ _ Hs Hok) as Hok1.
  assert (Hlen : (String.length (file_id e) <= 63)%nat).
  { simpl. unfold new_file_id, strncpy. rewrite str_length_take. lia. }
  set (n := u64 _). set (s := total_size g1).
  pose proof (insert_node_ok g1 e n s Hok1 Hlen) as Hok2. split_and!; try done.
  - simpl. apply lookup_insert_eq.
  - intros id. rewrite insert_node_at by done. by rewrite (same_map_at _ _ _ Hs).
  - destruct (metadata_lookup_by_path (insert_node e n s g1) _) as [b|] eqn:Hb; [eauto | exfalso].
    eapply (by_path_None _ _ (Z.to_nat (hash_string (file_id e))) _ (strncpy 63 (file_id e))
              (next_addr g1)) in Hb.
    + unfold deref in Hb. simpl in Hb. by rewrite lookup_insert_eq in Hb.
    + simpl. apply list_lookup_insert_eq.
      pose proof (bucket_lookup g1 (file_id e) Hok1) as Hbe. by apply lookup_lt_Some in Hbe.
    + by constructor.
    + unfold deref. simpl. by rewrite lookup_insert_eq.
  - simpl. revert Hw Hl. unfold wal_append. repeat case_match; by intros [= <- <-].
Qed.

(** Deleting marks the entry, even when the log write then fails; no path
    resolves to it any more and nothing else changes. The counters are lowered once
    per successful call, whether or not the entry was already deleted. *)
Theorem metadata_delete_spec io id e g rc g' :
  mgr_ok g -> entry_at g id = Some e -> metadata_delete_entry io id g = (rc, g') ->
  mgr_ok g' /\
  (forall id', entry_at g' id' =
     if decide (id' = id) then Some (set_state FILE_STATE_DELETED e) else entry_at g id') /\
  (forall p a, metadata_lookup_by_path g' p = Some a -> metadata_lookup g id <> Some a) /\
  (rc = 0 /\ total_entries g' = u64 (total_entries g - 1) /\
     total_size g' = u64 (total_size g - size e) \/
   rc = -1 /\ total_entries g' = total_entries g /\ total_size g' = total_size g).
Proof.
  intros Hok He. unfold metadata_delete_entry.
  destruct (metadata_lookup g id) as [a|] eqn:Ha; [| by unfold entry_at in He; rewrite Ha in He].
  pose proof (deref_at _ _ _ Ha Hok) as Hd. rewrite He in Hd. injection Hd as Hd.
  set (g1 := upd_heap a (set_state FILE_STATE_DELETED) g).
  destruct (wal_append io WAL_OP_DELETE (deref g1 a) g1) as [lsn g2] eqn:Hw.
  pose proof (append_same_map _ _ _ _ _ _ Hw) as Hs2.
  apply wal_append_frame in Hw as (Hh2 & _ & _ & Hte & Hts).
  assert (Hok1 : mgr_ok g1) by (by apply mgr_ok_heap).
  assert (Hall : forall g3, same_map g1 g3 -> mgr_ok g3 /\
    (forall id', entry_at g3 id' =
       if decide (id' = id) then Some (set_state FILE_STATE_DELETED e) else entry_at g id') /\
    (forall p a', metadata_lookup_by_path g3 p = Some a' -> Some a <> Some a')).
  { intros g3 Hs3. split_and!; [by eapply same_map_ok | |].
    - intros id'. rewrite (same_map_at _ _ _ Hs3). unfold g1.
      rewrite (entry_at_heap _ _ _ id) by done. case_decide; [| done]. by rewrite He.
    - intros p a' (_ & Hst & _)%by_path_Some [= <-]. apply Hst. unfold deref.
      destruct Hs3 as (-> & _). unfold g1. simpl. rewrite lookup_alter_eq.
      unfold entry_at in He. rewrite Ha in He. simpl in He. by rewrite He. }
  case_decide as Hl; intros [<- <-]%pair_equal_spec.
  - destruct (Hall g2 Hs2) as (? & ? & ?). split_and!; try done. right. by rewrite Hte, Hts.
  - destruct (Hall (set_totals (u64 (total_entries g2 - 1)) (u64 (total_size g2 - size (deref g2 a))) g2)
      Hs2) as (? & ? & ?). split_and!; try done. left. simpl. rewrite Hte, Hts. split_and!; try done.
    do 2 f_equal. unfold deref. rewrite Hh2. unfold g1. simpl. rewrite lookup_alter_eq.
    unfold entry_at in He. rewrite Ha in He. simpl in He. by rewrite He.
Qed.

(** ** The checksum *)

Definition is_u32 (z : Z) : Prop := 0 <= z < 2 ^ 32.

Lemma lxor_u32 a b : is_u32 a -> is_u32 b -> is_u32 (Z.lxor a b).
Proof.
  intros Ha Hb. unfold is_u32 in *. split; [apply Z.lxor_nonneg; lia |].
  destruct (decide (Z.lxor a b = 0)) as [->|Hne]; [lia |].
  apply Z.log2_lt_pow2; [pose proof (proj2 (Z.lxor_nonneg a b) ltac:(lia)); lia |].
  eapply Z.le_lt_trans; [apply Z.log2_lxor; lia |].
  assert (Hlog : forall x, 0 <= x < 2 ^ 32 -> Z.log2 x < 32).
  { intros x Hx. destruct (decide (x = 0)) as [->|]; [done |]. apply Z.log2_lt_pow2; lia. }
  apply Z.max_lub_lt; auto.
Qed.

(** The generator polynomial, reflected. *)
Definition crc_poly : Z := 3988292384.

Lemma crc_bit_cases c :
  is_u32 c ->
  crc_bit c = if decide (c `mod` 2 = 0) then c / 2 else Z.lxor (c / 2) crc_poly.
Proof.
  intros Hc. unfold crc_bit. rewrite Z.shiftr_div_pow2 by lia. change (2 ^ 1) with 2.
  change (Z.land c 1) with (Z.land c (Z.ones 1)). rewrite Z.land_ones by lia. change (2 ^ 1) with 2.
  pose proof (Z.mod_pos_bound c 2 ltac:(lia)). case_decide as Hm.
  - rewrite Hm. change (u32 (- 0)) with 0. by rewrite Z.land_0_r, Z.lxor_0_r.
  - replace (c `mod` 2) with 1 by lia. reflexivity.
Qed.

Lemma crc_bit_u32 c : is_u32 c -> is_u32 (crc_bit c).
Proof.
  intros Hc. rewrite crc_bit_cases by done.
  assert (Hd : is_u32 (c / 2)).
  { unfold is_u32 in *. split; [apply Z.div_pos; lia | apply Z.div_lt_upper_bound; lia]. }
  case_decide; [done |]. apply lxor_u32; [done |]. unfold is_u32, crc_poly. lia.
Qed.

(** The top bit of the result tells the bit shifted out. *)
Lemma crc_bit_top c : is_u32 c -> Z.testbit (crc_bit c) 31 = negb (bool_decide (c `mod` 2 = 0)).
Proof.
  intros Hc. rewrite crc_bit_cases by done.
  assert (Hd : Z.testbit (c / 2) 31 = false).
  { apply (proj1 (Z.bounded_iff_bits_nonneg' 31 (c / 2) ltac:(lia)
      (Z.div_pos c 2 (proj1 Hc) ltac:(lia)))); [| lia].
    unfold is_u32 in Hc. split; [apply Z.div_pos; lia | apply Z.div_lt_upper_bound; lia]. }
  case_decide as Hm.
  - by rewrite bool_decide_eq_true_2.
  - rewrite Z.lxor_spec, Hd, bool_decide_eq_false_2 by done. reflexivity.
Qed.

Lemma crc_bit_inj c d : is_u32 c -> is_u32 d -> crc_bit c = crc_bit d -> c = d.
Proof.
  intros Hc Hd Heq. pose proof (crc_bit_top c Hc) as Htc. pose proof (crc_bit_top d Hd) as Htd.
  rewrite Heq, Htd in Htc.
  pose proof (Z.div_mod c 2 ltac:(lia)). pose proof (Z.div_mod d 2 ltac:(lia)).
  pose proof (Z.mod_pos_bound c 2 ltac:(lia)). pose proof (Z.mod_pos_bound d 2 ltac:(lia)).
  rewrite !crc_bit_cases in Heq by done.
  destruct (decide (c `mod` 2 = 0)) as [Hc2|Hc2], (decide (d `mod` 2 = 0)) as [Hd2|Hd2];
    rewrite ?(bool_decide_eq_true_2 _ Hc2), ?(bool_decide_eq_true_2 _ Hd2),
      ?(bool_decide_eq_false_2 _ Hc2), ?(bool_decide_eq_false_2 _ Hd2) in Htc; try done.
  - lia.
  - assert (Hx : Z.lxor (Z.lxor (c / 2) crc_poly) crc_poly =
                 Z.lxor (Z.lxor (d / 2) crc_poly) crc_poly) by (by rewrite Heq).
    rewrite !Z.lxor_assoc, Z.lxor_nilpotent, !Z.lxor_0_r in Hx. lia.
Qed.

Lemma crc_iter n c d :
  is_u32 c -> is_u32 d ->
  is_u32 (Nat.iter n crc_bit c) /\ (Nat.iter n crc_bit c = Nat.iter n crc_bit d -> c = d).
Proof.
  intros Hc Hd. induction n as [|n IH]; simpl; [done |]. destruct IH as [Hu Hi].
  split; [by apply crc_bit_u32 |]. intros Heq. apply Hi, crc_bit_inj; try done.
  clear -Hd. induction n; simpl; [done | by apply crc_bit_u32].
Qed.

Lemma byte_u32 b : is_byte b -> is_u32 b.
Proof. unfold is_byte, is_u32. lia. Qed.

Lemma lxor_cancel_r a b c : Z.lxor a c = Z.lxor b c -> a = b.
Proof.
  intros H. assert (Hx : Z.lxor (Z.lxor a c) c = Z.lxor (Z.lxor b c) c) by (by rewrite H).
  by rewrite !Z.lxor_assoc, Z.lxor_nilpotent, !Z.lxor_0_r in Hx.
Qed.

Lemma crc_byte_u32 c b : is_u32 c -> is_byte b -> is_u32 (crc_byte c b).
Proof.
  intros Hc Hb. assert (Hx : is_u32 (Z.lxor c b)) by (apply lxor_u32; [done | by apply byte_u32]).
  exact (proj1 (crc_iter 8 _ _ Hx Hx)).
Qed.

Lemma crc_byte_iter c b : crc_byte c b = Nat.iter 8 crc_bit (Z.lxor c b).
Proof. reflexivity. Qed.

Lemma crc_byte_inj c c' b b' :
  is_u32 c -> is_u32 c' -> is_byte b -> is_byte b' -> crc_byte c b = crc_byte c' b' ->
  Z.lxor c b = Z.lxor c' b'.
Proof.
  intros Hc Hc' Hb Hb' Heq.
  assert (Hx : is_u32 (Z.lxor c b)) by (apply lxor_u32; [done | by apply byte_u32]).
  assert (Hy : is_u32 (Z.lxor c' b')) by (apply lxor_u32; [done | by apply byte_u32]).
  rewrite !crc_byte_iter in Heq. destruct (crc_iter 8 _ _ Hx Hy) as [_ Hinj]. exact (Hinj Heq).
Qed.

Lemma crc_fold data c c' :
  Forall is_byte data -> is_u32 c -> is_u32 c' ->
  is_u32 (foldl crc_byte c data) /\ (foldl crc_byte c data = foldl crc_byte c' data -> c = c').
Proof.
  intros Hd. revert c c'. induction Hd as [|b data Hb _ IH]; intros c c' Hc Hc'; simpl; [done |].
  destruct (IH (crc_byte c b) (crc_byte c' b)) as [Hu Hi]; [by apply crc_byte_u32 .. |].
  split; [done |]. intros Heq%Hi%crc_byte_inj; try done. by eapply lxor_cancel_r.
Qed.

(** The checksum is a 32-bit value that changes whenever one byte of the data
    changes. *)
Theorem metadata_crc32_detects pre b b' post :
  Forall is_byte (pre ++ b :: post) -> is_byte b' -> b <> b' ->
  0 <= metadata_crc32 (pre ++ b :: post) < 2 ^ 32 /\
  metadata_crc32 (pre ++ b :: post) <> metadata_crc32 (pre ++ b' :: post).
Proof.
  intros Hall Hb' Hne. apply Forall_app in Hall as [Hpre Hall].
  inversion_clear Hall as [|? ? Hb Hpost].
  split; [apply u32_range |]. unfold metadata_crc32. rewrite !foldl_app. simpl.
  assert (H0 : is_u32 4294967295) by (unfold is_u32; lia).
  destruct (crc_fold pre _ _ Hpre H0 H0) as [Hs _]. set (s := foldl crc_byte 4294967295 pre) in *.
  destruct (crc_fold post (crc_byte s b) (crc_byte s b') Hpost) as [Hx Hi]; [by apply crc_byte_u32 .. |].
  destruct (crc_fold post (crc_byte s b') (crc_byte s b) Hpost) as [Hy _]; [by apply crc_byte_u32 .. |].
  set (x := foldl crc_byte (crc_byte s b) post) in *. set (y := foldl crc_byte (crc_byte s b') post) in *.
  intros Heq. assert (Hxy : x = y).
  { unfold is_u32 in Hx, Hy. unfold u32, Z.lnot in Heq.
    rewrite <- (Z.mod_add (Z.pred (- x)) 1), <- (Z.mod_add (Z.pred (- y)) 1), !Z.mod_small in Heq by lia.
    lia. }
  apply Hi, crc_byte_inj in Hxy; try done. apply Hne.
  rewrite !(Z.lxor_comm s) in Hxy. by eapply lxor_cancel_r.
Qed.

(** ** Serialisation *)

Definition u32_ok (z : Z) : Prop := 0 <= z < 2 ^ 32.

Definition u64_ok (z : Z) : Prop := 0 <= z < 2 ^ 64.

Definition time_ok (z : Z) : Prop := - 2 ^ 63 <= z < 2 ^ 63.

Definition str_ok (n : nat) (s : string) : Prop := no_nul s /\ (String.length s < n)%nat.

(** Strings that fit their arrays and fields within their types. *)
Record entry_ok (e : metadata_entry) : Prop := {
  eok_id : str_ok 64 (file_id e);
  eok_path : str_ok 4096 (path e);
  eok_u32 : Forall u32_ok [state e; mode e; uid e; gid e; num_storage_nodes e;
                           primary_node_idx e; num_replicas e];
  eok_u64 : Forall u64_ok [size e; version e; stripe_size e];
  eok_time : Forall time_ok [created_time e; modified_time e; accessed_time e];
  eok_nodes : length (storage_nodes e) = 16%nat /\ Forall u32_ok (storage_nodes e);
  eok_ips : length (storage_node_ips e) = 16%nat /\ Forall (str_ok 64) (storage_node_ips e);
  eok_ports : length (storage_node_ports e) = 16%nat /\ Forall u32_ok (storage_node_ports e);
}.

Lemma length_enc_str n s : (String.length s <= n)%nat -> length (enc_str n s) = n.
Proof. intros. unfold enc_str. rewrite length_app, length_replicate, str_bytes_length. lia. Qed.

Lemma dec_enc_str n s : str_ok n s -> dec_str (enc_str n s) = s.
Proof.
  intros [Hn Hl]. unfold enc_str. destruct (n - String.length s)%nat as [|k] eqn:Hk; [lia |].
  clear n Hl Hk. induction s as [|a s IH]; [done |]. destruct Hn as [Ha Hs].
  cbn [str_bytes app dec_str]. rewrite decide_False by lia.
  rewrite N2Z.id, ascii_N_embedding. f_equal. by apply IH.
Qed.

Lemma cut_concat ws fs rest :
  Forall2 (fun w f => length f = w) ws fs -> cut ws (concat fs ++ rest) = fs.
Proof.
  induction 1 as [|w f ws fs <- _ IH]; [done |]. cbn [cut concat].
  rewrite <- app_assoc, take_app_length, drop_app_length. by rewrite IH.
Qed.

Lemma chunks_bind {A} (f : A -> list Z) l n rest :
  Forall (fun x => length (f x) = n) l -> chunks (length l) n ((l ≫= f) ++ rest) = f <$> l.
Proof.
  induction 1 as [|x l <- _ IH]; [done |].
  change ((x :: l) ≫= f) with (f x ++ (l ≫= f)). cbn [length chunks fmap list_fmap].
  rewrite <- app_assoc, take_app_length, drop_app_length. by rewrite IH.
Qed.

Lemma length_bind {A} (f : A -> list Z) l n :
  Forall (fun x => length (f x) = n) l -> length (l ≫= f) = (length l * n)%nat.
Proof.
  induction 1 as [|x l <- _ IH]; [done |].
  change ((x :: l) ≫= f) with (f x ++ (l ≫= f)). rewrite length_app, IH. simpl. lia.
Qed.

Lemma u32s_width l : Forall (fun x => length (le_bytes 4 x) = 4%nat) l.
Proof. apply Forall_true. intros x. apply length_le_bytes. Qed.

Lemma ips_width l : Forall (str_ok 64) l -> Forall (fun s => length (enc_str 64 s) = 64%nat) l.
Proof. apply Forall_impl. intros s [_ Hs]. apply length_enc_str. lia. Qed.

Lemma dec_u32s l : length l = 16%nat -> Forall u32_ok l -> le_val <$> chunks 16 4 (enc_u32s l) = l.
Proof.
  intros Hl Hok. pose proof (chunks_bind (le_bytes 4) l 4 [] (u32s_width l)) as Hc.
  rewrite Hl, app_nil_r in Hc. unfold enc_u32s. rewrite Hc, <- list_fmap_compose. clear Hl Hc. induction Hok as [|x l Hx _ IH]; [done |].
  cbn [fmap list_fmap compose]. rewrite IH. f_equal. by apply le_val_bytes_small.
Qed.

Lemma dec_strs l :
  length l = 16%nat -> Forall (str_ok 64) l -> dec_str <$> chunks 16 64 (l ≫= enc_str 64) = l.
Proof.
  intros Hl Hok. pose proof (chunks_bind (enc_str 64) l 64 [] (ips_width l Hok)) as Hc.
  rewrite Hl, app_nil_r in Hc. rewrite Hc, <- list_fmap_compose. clear Hl Hc. induction Hok as [|x l Hx _ IH]; [done |].
  cbn [fmap list_fmap compose]. rewrite IH. f_equal. by apply dec_enc_str.
Qed.

Lemma entry_fields_widths e :
  entry_ok e -> Forall2 (fun w f => length f = w) entry_widths (entry_fields e).
Proof.
  intros [[_ H1] [_ H2] _ _ _ [H3 _] [H4 H4'] [H5 _]]. unfold entry_widths, entry_fields.
  repeat constructor; try apply length_le_bytes; try (by apply length_replicate).
  - apply length_enc_str. lia.
  - apply length_enc_str. lia.
  - unfold enc_u32s. by rewrite (length_bind _ _ 4), H3 by apply u32s_width.
  - by rewrite (length_bind _ _ 64), H4 by (by apply ips_width).
  - unfold enc_u32s. by rewrite (length_bind _ _ 4), H5 by apply u32s_width.
Qed.

Lemma length_concat_widths ws (fs : list (list Z)) :
  Forall2 (fun w f => length f = w) ws fs -> length (concat fs) = sum_list ws.
Proof. induction 1 as [|w f ws fs <- _ IH]; [done |]. simpl. by rewrite length_app, IH. Qed.

Lemma length_serialize e : entry_ok e -> length (metadata_serialize e) = entry_len.
Proof.
  intros He. unfold metadata_serialize.
  rewrite (length_concat_widths _ _ (entry_fields_widths e He)). vm_compute. reflexivity.
Qed.

Lemma le_val_time z : time_ok z -> s64 (le_val (le_bytes 8 z)) = z.
Proof.
  intros Hz. rewrite le_val_bytes. change (256 ^ Z.of_nat 8) with (2 ^ 64).
  unfold s64, swrap, time_ok in *. rewrite Zplus_mod_idemp_l. change (64 - 1) with 63.
  rewrite Z.mod_small by lia. lia.
Qed.

Lemma decode_serialize e : entry_ok e -> decode_entry (metadata_serialize e) = Some e.
Proof.
  intros He. unfold decode_entry, metadata_serialize.
  rewrite <- (app_nil_r (concat _)), (cut_concat _ _ _ (entry_fields_widths e He)).
  destruct He as [H1 H2 H3 H4 H5 [H6 H6'] [H7 H7'] [H8 H8']]. unfold entry_fields.
  rewrite !dec_enc_str, !dec_u32s, dec_strs by done.
  repeat match goal with H : Forall _ (_ :: _) |- _ => inversion_clear H end.
  rewrite !le_val_time by done. rewrite !(le_val_bytes_small 4), !(le_val_bytes_small 8) by done.
  by destruct e.
Qed.

Lemma deserialize_serialize e :
  entry_ok e -> metadata_deserialize true (metadata_serialize e) = Some (0, Some e).
Proof.
  intros He. unfold metadata_deserialize. simpl negb. cbv iota.
  rewrite decide_False.
  2:{ rewrite (length_serialize e He). apply Nat.nlt_ge, Nat.leb_le. vm_compute. reflexivity. }
  rewrite take_app_le, take_ge by (rewrite (length_serialize e He); done).
  by rewrite (decode_serialize e He).
Qed.

(** An entry survives serialisation; this is how values travel through consensus
    and into the log. *)
Theorem metadata_serialize_roundtrip e :
  entry_ok e -> metadata_deserialize true (metadata_serialize e) = Some (0, Some e).
Proof. apply deserialize_serialize. Qed.

(** ** Recovery *)

(** Entries without a node do not show in the map. *)
Lemma alloc_entries es g :
  let g' := foldl alloc_entry g es in
  buckets g' = buckets g /\ wal g' = wal g /\ current_lsn g' = current_lsn g /\
  total_entries g' = total_entries g /\ next_addr g' = (next_addr g + length es)%nat /\
  forall a, heap g' !! a =
    if decide (next_addr g <= a < next_addr g + length es)%nat then es !! (a - next_addr g)%nat
    else heap g !! a.
Proof.
  revert g. induction es as [|e es IH]; intros g; cbn [foldl length].
  { rewrite Nat.add_0_r. split_and!; try done. intros a. by rewrite decide_False by lia. }
  destruct (IH (alloc_entry g e)) as (-> & -> & -> & -> & -> & Hh).
  change (next_addr (alloc_entry g e)) with (S (next_addr g)) in *.
  split_and!; try done; [lia |]. intros a. rewrite Hh. cbn [alloc_entry heap].
  destruct (decide (a = next_addr g)) as [->|Hne].
  - rewrite decide_False, decide_True, Nat.sub_diag by lia. by rewrite lookup_insert_eq.
  - rewrite lookup_insert_ne by done. repeat case_decide; try done; try lia.
    by replace (a - next_addr g)%nat with (S (a - S (next_addr g))) by lia.
Qed.

Lemma replay_no_node mo gb junk hdr g rc g' :
  wal_replay mo gb junk hdr g = Some (rc, g') ->
  buckets g' = buckets g /\ total_entries g' = total_entries g.
Proof.
  unfold wal_replay. destruct (wal_replay_loop _ _ _ _ _ _ _ _) as [[[r lsn] leaked]|]; [| done].
  intros [= <- <-]. by destruct (alloc_entries leaked (set_wal (wal g) lsn g)) as (-> & _ & _ & -> & _).
Qed.

(** A map without nodes resolves nothing. *)
Lemma no_node_at g :
  buckets g = replicate HASH_MAP_SIZE [] ->
  (forall id, entry_at g id = None) /\ forall p, metadata_lookup_by_path g p = None.
Proof.
  intros Hb. split.
  - intros id. unfold entry_at, metadata_lookup, bucket. rewrite Hb.
    rewrite lookup_total_replicate_2; [done |]. pose proof (hash_range id). unfold HASH_MAP_SIZE. lia.
  - intros p. unfold metadata_lookup_by_path. by rewrite Hb.
Qed.

Lemma no_node_ok g : buckets g = replicate HASH_MAP_SIZE [] -> mgr_ok g.
Proof.
  intros Hb. split; rewrite Hb; [apply length_replicate |]. intros i l k a Hi Hin.
  apply lookup_replicate in Hi as [-> _]. by apply not_elem_of_nil in Hin.
Qed.

(** Each turn consumes at least one byte, so more fuel than bytes changes nothing. *)
Lemma replay_fuel fuel fuel' mo gb junk hdr file lsn leaked :
  (length file < fuel)%nat -> (length file < fuel')%nat ->
  wal_replay_loop fuel mo gb junk hdr file lsn leaked = wal_replay_loop fuel' mo gb junk hdr file lsn leaked.
Proof.
  revert fuel' hdr file lsn leaked. induction fuel as [|fuel IH]; intros [|fuel'] hdr file lsn leaked Hf Hf'; try lia.
  cbn [wal_replay_loop]. destruct (decide (take wal_header_len file = [])) as [_|Hne]; [done |].
  assert (Hshort : forall k, (length (drop k (drop wal_header_len file)) < length file)%nat).
  { intros k. rewrite !length_drop. destruct file; [done |]. simpl. unfold wal_header_len. lia. }
  destruct (_ && _); [done |]. case_decide.
  - apply IH; (eapply Nat.lt_le_trans; [apply Hshort | lia]).
  - destruct (metadata_deserialize _ _) as [[rc entry]|]; [| done].
    apply IH; (eapply Nat.lt_le_trans; [apply Hshort | lia]).
Qed.

(** A log record as [wal_append] writes it. *)
Record wal_record := MkRec { r_lsn : Z; r_op : Z; r_pad : list Z; r_time : Z; r_ptr : Z;
                             r_entry : metadata_entry }.

Definition record_bytes (r : wal_record) : list Z :=
  wal_header (r_lsn r) (r_op r) (r_pad r) (r_time r) (r_ptr r) (Z.of_nat entry_len) ++
  metadata_serialize (r_entry r).

Definition record_ok (r : wal_record) : Prop :=
  entry_ok (r_entry r) /\ length (r_pad r) = 4%nat /\ 0 <= r_lsn r < 2 ^ 64.

(** The data of the record happens to have the checksum [gb]. *)
Definition matches (gb : Z) (e : metadata_entry) : Prop :=
  metadata_crc32 (metadata_serialize e) = gb.

#[export] Instance matches_dec gb e : Decision (matches gb e).
Proof. unfold matches. apply _. Defined.

(** The number of the last such record. *)
Definition last_match (gb : Z) (lsn : Z) (rs : list wal_record) : Z :=
  foldl (fun l r => if decide (matches gb (r_entry r)) then r_lsn r else l) lsn rs.

(** A write in which nothing fails and nothing is cut short. *)
Definition io_ok (io : wal_io) : Prop :=
  serialize_ok io = true /\ write_hdr io = Some wal_header_len /\ write_data io = Some entry_len /\
  fsync_ok io = true /\ length (pad io) = 4%nat.

Lemma length_wal_header lsn op pd ts ptr len :
  length pd = 4%nat -> length (wal_header lsn op pd ts ptr len) = wal_header_len.
Proof. intros Hp. unfold wal_header. by rewrite !length_app, !length_le_bytes, Hp. Qed.

Lemma overlay_full (got old : list Z) : (length old <= length got)%nat -> overlay got old = got.
Proof. intros H. unfold overlay. by rewrite drop_ge, app_nil_r. Qed.

Lemma header_lsn lsn op pd ts ptr len :
  length pd = 4%nat -> 0 <= lsn < 2 ^ 64 -> le_val (take 8 (wal_header lsn op pd ts ptr len)) = lsn.
Proof.
  intros Hp Hl. unfold wal_header. rewrite take_app_le, take_ge by (by rewrite length_le_bytes).
  by apply le_val_bytes_small.
Qed.

Lemma header_data_len lsn op pd ts ptr len :
  length pd = 4%nat -> 0 <= len < 2 ^ 64 ->
  le_val (take 8 (drop 32 (wal_header lsn op pd ts ptr len))) = len.
Proof.
  intros Hp Hl. unfold wal_header. rewrite !app_assoc.
  rewrite drop_app_ge by (rewrite !length_app, !length_le_bytes, Hp; simpl; lia).
  rewrite !length_app, !length_le_bytes, Hp. change (32 - _)%nat with O.
  rewrite drop_0, take_ge by (by rewrite length_le_bytes). by apply le_val_bytes_small.
Qed.

Lemma entry_len_Z : 0 <= Z.of_nat entry_len < 2 ^ 64.
Proof. vm_compute. split; congruence. Qed.

(** One record of a well-formed log: exactly its bytes are consumed. *)
Lemma replay_record fuel mo gb junk hdr r rest lsn leaked :
  record_ok r -> mo (Z.of_nat entry_len) = true -> mo (Z.of_nat entry_size) = true ->
  (length hdr <= wal_header_len)%nat ->
  wal_replay_loop (S fuel) mo gb junk hdr (record_bytes r ++ rest) lsn leaked =
  wal_replay_loop fuel mo gb junk
    (wal_header (r_lsn r) (r_op r) (r_pad r) (r_time r) (r_ptr r) (Z.of_nat entry_len)) rest
    (if decide (matches gb (r_entry r)) then r_lsn r else lsn)
    (leaked ++ if decide (matches gb (r_entry r)) then [r_entry r] else []).
Proof.
  intros (He & Hp & Hl) Hmo Hmo2 Hh. cbn [wal_replay_loop]. unfold record_bytes.
  set (h := wal_header _ _ _ _ _ _).
  assert (Hlen : length h = wal_header_len) by (by apply length_wal_header).
  rewrite <- app_assoc. rewrite <- Hlen, take_app_length, drop_app_length.
  rewrite decide_False by (intros Hn; by rewrite Hn in Hlen).
  rewrite overlay_full by (by rewrite Hlen).
  assert (Hdl : le_val (take 8 (drop 32 h)) = Z.of_nat entry_len)
    by (apply header_data_len; [done | apply entry_len_Z]).
  rewrite !Hdl, Hmo, Hmo2, !Nat2Z.id. cbn [negb andb]. cbv iota. pose proof (length_serialize _ He) as Hs.
  rewrite <- Hs, take_app_length, drop_app_length.
  rewrite overlay_full by (rewrite length_take; lia).
  destruct (decide (matches gb (r_entry r))) as [Hcrc|Hcrc]; unfold matches in Hcrc.
  - rewrite decide_False by (by intros ?). rewrite (deserialize_serialize _ He).
    by replace (le_val (take 8 h)) with (r_lsn r) by (symmetry; by apply header_lsn).
  - by rewrite decide_True, app_nil_r.
Qed.

Lemma replay_log fuel mo gb junk hdr rs lsn leaked :
  Forall record_ok rs -> mo (Z.of_nat entry_len) = true -> mo (Z.of_nat entry_size) = true ->
  (length hdr <= wal_header_len)%nat -> (length rs < fuel)%nat ->
  wal_replay_loop fuel mo gb junk hdr (rs ≫= record_bytes) lsn leaked
    = Some (0, last_match gb lsn rs, leaked ++ filter (matches gb) (r_entry <$> rs)).
Proof.
  intros Hrs Hmo Hmo2. revert fuel hdr lsn leaked. induction Hrs as [|r rs Hr _ IH]; intros fuel hdr lsn leaked Hh Hf.
  - destruct fuel; [simpl in Hf; lia |]. cbn. by rewrite app_nil_r.
  - destruct fuel as [|fuel]; [simpl in Hf; lia |].
    change ((r :: rs) ≫= record_bytes) with (record_bytes r ++ (rs ≫= record_bytes)).
    rewrite replay_record by done. unfold last_match. cbn [foldl]. rewrite IH.
    + rewrite fmap_cons, filter_cons. by case_decide; rewrite <- app_assoc.
    + destruct Hr as (_ & Hp & _). by rewrite length_wal_header.
    + simpl in Hf. lia.
Qed.

Lemma append_ok io op e g :
  io_ok io -> entry_ok e ->
  let lsn := u64 (current_lsn g + 1) in
  wal_append io op e g =
    (lsn, set_wal (wal g ++ record_bytes (MkRec lsn op (pad io) (wal_time io) (data_ptr io) e)) lsn g).
Proof.
  intros (H1 & H2 & H3 & H4 & H5) He. cbv zeta. unfold wal_append, record_bytes.
  rewrite H1, H2, H3, H4. cbn [negb r_lsn r_op r_pad r_time r_ptr r_entry].
  rewrite (length_serialize e He). rewrite (take_ge (wal_header _ _ _ _ _ _))
    by (rewrite length_wal_header by done; done).
  rewrite take_ge by (by rewrite (length_serialize e He)). by rewrite <- app_assoc.
Qed.

(** A sequence of [wal_append] calls. *)
Definition log_run (ws : list (wal_io * Z * metadata_entry)) (g : metadata_manager)
  : metadata_manager :=
  foldl (fun g w => (wal_append w.1.1 w.1.2 w.2 g).2) g ws.

Definition call_ok (w : wal_io * Z * metadata_entry) : Prop := io_ok w.1.1 /\ entry_ok w.2.

Definition fresh_manager : metadata_manager := MkMgr ∅ 0 (replicate HASH_MAP_SIZE []) [] 0 0 0.

Lemma log_run_records ws g :
  Forall call_ok ws -> 0 <= current_lsn g -> current_lsn g + Z.of_nat (length ws) < 2 ^ 64 ->
  exists rs, wal (log_run ws g) = wal g ++ (rs ≫= record_bytes) /\ Forall record_ok rs /\
    r_entry <$> rs = snd <$> ws /\
    (forall i r, rs !! i = Some r -> r_lsn r = current_lsn g + Z.of_nat (S i)) /\
    current_lsn (log_run ws g) = current_lsn g + Z.of_nat (length ws).
Proof.
  intros Hws. revert g. induction Hws as [|[[io op] e] ws [Hio He] _ IH]; intros g Hl Hn.
  - exists []. simpl. rewrite app_nil_r. split_and!; try done. lia.
  - cbn [length] in Hn. unfold log_run. cbn [foldl fst snd]. rewrite append_ok by done. cbn [snd].
    set (lsn := u64 (current_lsn g + 1)).
    assert (Hlsn : lsn = current_lsn g + 1) by (apply u64_small; lia).
    set (r := MkRec lsn op (pad io) (wal_time io) (data_ptr io) e).
    destruct (IH (set_wal (wal g ++ record_bytes r) lsn g)) as (rs & Hw & Hok & Hent & Hnum & Hc);
      [simpl; lia | simpl; lia |].
    exists (r :: rs). unfold log_run in *. rewrite Hw, Hc.
    change ((r :: rs) ≫= record_bytes) with (record_bytes r ++ (rs ≫= record_bytes)).
    cbn [wal set_wal current_lsn fmap list_fmap length]. rewrite <- app_assoc, Hent.
    split_and!; try done; [| | lia].
    2:{ intros [|i] x Hx; [injection Hx as <-; simpl; lia |]. rewrite (Hnum i x Hx). simpl. lia. }
    constructor; [| done]. split_and!; [done | apply Hio | simpl; lia..].
Qed.

Lemma length_records rs : (length rs <= length (rs ≫= record_bytes))%nat.
Proof.
  induction rs as [|r rs IH]; [done |].
  change ((r :: rs) ≫= record_bytes) with (record_bytes r ++ (rs ≫= record_bytes)).
  rewrite length_app. cbn [length]. enough (0 < length (record_bytes r))%nat by lia.
  unfold record_bytes, wal_header. rewrite !length_app, !length_le_bytes. lia.
Qed.

(** The matching record after which no other matches gives the number. *)
Lemma last_match_at gb lsn rs i r :
  rs !! i = Some r -> matches gb (r_entry r) ->
  (forall j r', (i < j)%nat -> rs !! j = Some r' -> ~ matches gb (r_entry r')) ->
  last_match gb lsn rs = r_lsn r.
Proof.
  revert lsn i. induction rs as [|x rs IH]; intros lsn [|i] Hi Hm Hlast; try done.
  - injection Hi as ->. unfold last_match. cbn [foldl]. rewrite decide_True by done.
    assert (Hno : forall j r', rs !! j = Some r' -> ~ matches gb (r_entry r'))
      by (intros j r' Hj; apply (Hlast (S j)); [lia | done]).
    clear -Hno. generalize (r_lsn r). induction rs as [|x rs IH]; intros l; [done |]. cbn [foldl].
    rewrite decide_False by (by apply (Hno 0%nat)). apply IH. intros j r' Hj. by apply (Hno (S j)).
  - unfold last_match. cbn [foldl]. apply (IH _ i Hi Hm). intros j r' Hj Hr. apply (Hlast (S j)); [lia | done].
Qed.

Lemma last_match_none gb lsn rs :
  filter (matches gb) (r_entry <$> rs) = [] -> last_match gb lsn rs = lsn.
Proof.
  revert lsn. induction rs as [|r rs IH]; intros lsn Hf; [done |].
  rewrite fmap_cons, filter_cons in Hf. unfold last_match. cbn [foldl]. case_decide; [done |]. by apply IH.
Qed.

(** C30: what a restart makes of a log. After any sequence of appends in which nothing
    failed, started on a new file, replay of that log with memory available returns; it
    reads record after record, and decodes exactly those entries, as they were appended
    and in that order, whose checksum happens to equal the field of the header variable
    that is neither written nor read; these stay in memory with nothing pointing to them.
    The log is unchanged, no identifier and no path resolves, and numbering continues
    from the last matching record, from 0 if there is none. *)
Theorem wal_replay_decodes ws mo gb junk hdr :
  Forall call_ok ws -> Z.of_nat (length ws) < 2 ^ 64 -> mo (Z.of_nat entry_len) = true ->
  mo (Z.of_nat entry_size) = true -> (length hdr <= wal_header_len)%nat ->
  let g := log_run ws fresh_manager in
  let found := filter (matches gb) ws.*2 in
  current_lsn g = Z.of_nat (length ws) /\
  exists g', metadata_manager_init mo gb junk hdr (wal g) = Some g' /\ wal g' = wal g /\
    (forall a, heap g' !! a = found !! a) /\
    (forall id, entry_at g' id = None) /\ (forall p, metadata_lookup_by_path g' p = None) /\
    total_entries g' = 0 /\ (found = [] -> current_lsn g' = 0) /\
    (forall i w, ws !! i = Some w -> matches gb w.2 ->
       (forall j w', (i < j)%nat -> ws !! j = Some w' -> ~ matches gb w'.2) ->
       current_lsn g' = Z.of_nat (S i)).
Proof.
  intros Hws Hn Hmo Hmo2 Hh g found.
  destruct (log_run_records ws fresh_manager Hws) as (rs & Hw & Hok & Hent & Hnum & Hc);
    [done | simpl; lia |].
  split; [unfold g; rewrite Hc; simpl; lia |]. fold g in Hw. cbn [wal fresh_manager app] in Hw.
  unfold metadata_manager_init, wal_replay. cbn [wal current_lsn]. rewrite Hw.
  rewrite replay_log; [| done | done | done | done | pose proof (length_records rs); lia].
  rewrite Hent. fold found. cbn [app]. set (g0 := set_wal _ _ _).
  destruct (alloc_entries found g0) as (Hb & Hwal & Hlsn & Hte & _ & Hheap).
  eexists. split; [done |]. rewrite Hwal, Hte, Hlsn. split; [done |].
  destruct (no_node_at (foldl alloc_entry g0 found)) as [Hat Hpath]; [by rewrite Hb |].
  split_and!; try done.
  - intros a. rewrite Hheap. cbn [g0 set_wal next_addr heap]. rewrite lookup_empty, Nat.sub_0_r.
    case_decide; [done |]. symmetry. apply lookup_ge_None. lia.
  - intros Hf. cbn [g0 set_wal current_lsn]. apply last_match_none. by rewrite Hent.
  - intros i w Hi Hm Hlast. cbn [g0 set_wal current_lsn].
    assert (Hat2 : forall j w, ws !! j = Some w -> exists r, rs !! j = Some r /\ r_entry r = w.2).
    { intros j w' Hj. assert (Hx : (r_entry <$> rs) !! j = Some w'.2) by (rewrite Hent, list_lookup_fmap, Hj; done).
      rewrite list_lookup_fmap in Hx. apply fmap_Some in Hx as (r & Hr & ->). eauto. }
    destruct (Hat2 i w Hi) as (r & Hr & Her).
    rewrite (last_match_at gb 0 rs i r Hr); [by rewrite (Hnum i r Hr) | by rewrite Her |].
    intros j r' Hj Hr'. assert (Hx : (snd <$> ws) !! j = Some (r_entry r')) by (rewrite <- Hent, list_lookup_fmap, Hr'; done).
    rewrite list_lookup_fmap in Hx. apply fmap_Some in Hx as (w' & Hw' & ->). by apply (Hlast j).
Qed.

(** ** The theorems at concrete managers *)

Definition demo_io : wal_io :=
  MkIo true 5 (Some wal_header_len) (Some entry_len) true 4096 [0; 0; 0; 0].

Definition demo_entry : metadata_entry := new_entry "/videos/a.mp4" 33188 1000 1000 77 77.

Lemma fresh_ok : mgr_ok fresh_manager.
Proof. by apply no_node_ok. Qed.

Lemma demo_entry_ok : entry_ok demo_entry.
Proof.
  split.
  - split; [vm_compute; repeat split; congruence | apply Nat.ltb_lt; vm_compute; reflexivity].
  - split; [vm_compute; repeat split; congruence | apply Nat.ltb_lt; vm_compute; reflexivity].
  - repeat (constructor; [split; vm_compute; congruence |]). constructor.
  - repeat (constructor; [split; vm_compute; congruence |]). constructor.
  - repeat (constructor; [split; vm_compute; congruence |]). constructor.
  - split; [reflexivity |]. apply Forall_replicate. split; vm_compute; congruence.
  - split; [reflexivity |]. apply Forall_replicate. split; [done | simpl; lia].
  - split; [reflexivity |]. apply Forall_replicate. split; vm_compute; congruence.
Qed.

Lemma demo_io_ok : io_ok demo_io.
Proof. by split_and!. Qed.

Lemma metadata_apply_refines_witness :
  entry_at (metadata_apply_entry true demo_entry fresh_manager).2 (file_id demo_entry)
  = Some demo_entry.
Proof.
  destruct (metadata_apply_refines demo_entry fresh_manager 0
    (metadata_apply_entry true demo_entry fresh_manager).2 fresh_ok) as (_ & _ & _ & _ & H & _).
  - vm_compute. lia.
  - apply by_fst. vm_compute. reflexivity.
  - rewrite H. apply decide_True. reflexivity.
Defined.

Lemma metadata_create_spec_witness :
  let g' := (metadata_create_entry true demo_io "/videos/a.mp4" 33188 1000 1000 77 77
               fresh_manager).2 in
  mgr_ok g' /\ heap g' !! 0%nat = Some demo_entry.
Proof.
  destruct (metadata_create_spec demo_io "/videos/a.mp4" 33188 1000 1000 77 77 fresh_manager 0
    (metadata_create_entry true demo_io "/videos/a.mp4" 33188 1000 1000 77 77 fresh_manager).2
    fresh_ok) as (H1 & H2 & _).
  - apply by_fst. vm_compute. reflexivity.
  - split; [exact H1 | exact H2].
Defined.

Definition demo_manager : metadata_manager := (metadata_apply_entry true demo_entry fresh_manager).2.

Lemma demo_manager_ok : mgr_ok demo_manager.
Proof.
  unfold demo_manager, metadata_apply_entry. change (metadata_lookup fresh_manager _) with (@None nat).
  apply insert_node_ok; [apply fresh_ok | vm_compute; lia].
Qed.

Lemma metadata_delete_spec_witness :
  let g' := (metadata_delete_entry demo_io (file_id demo_entry) demo_manager).2 in
  entry_at g' (file_id demo_entry) = Some (set_state FILE_STATE_DELETED demo_entry).
Proof.
  destruct (metadata_delete_spec demo_io (file_id demo_entry) demo_entry demo_manager 0
    (metadata_delete_entry demo_io (file_id demo_entry) demo_manager).2 demo_manager_ok)
    as (_ & H & _).
  - vm_compute. reflexivity.
  - apply by_fst. vm_compute. reflexivity.
  - intros g'. unfold g'. rewrite H. apply decide_True. reflexivity.
Defined.

Lemma metadata_crc32_detects_witness :
  metadata_crc32 ([49; 50; 51; 52] ++ 53 :: [54; 55; 56; 57]) = 3421780262 /\
  metadata_crc32 ([49; 50; 51; 52] ++ 53 :: [54; 55; 56; 57])
    <> metadata_crc32 ([49; 50; 51; 52] ++ 54 :: [54; 55; 56; 57]).
Proof.
  split; [vm_compute; reflexivity |].
  apply (metadata_crc32_detects [49; 50; 51; 52] 53 54 [54; 55; 56; 57]);
    [repeat constructor; unfold is_byte; lia | unfold is_byte; lia | lia].
Defined.

Lemma metadata_serialize_roundtrip_witness :
  metadata_deserialize true (metadata_serialize demo_entry) = Some (0, Some demo_entry).
Proof. exact (metadata_serialize_roundtrip demo_entry demo_entry_ok). Defined.

Definition demo_log : list (wal_io * Z * metadata_entry) := [(demo_io, WAL_OP_CREATE, demo_entry)].

Lemma wal_replay_decodes_witness :
  let g := log_run demo_log fresh_manager in
  let gb := metadata_crc32 (metadata_serialize demo_entry) in
  exists g', metadata_manager_init (fun _ => true) gb [] [] (wal g) = Some g' /\
    heap g' !! 0%nat = Some demo_entry /\ entry_at g' (file_id demo_entry) = None /\ current_lsn g' = 1.
Proof.
  intros g gb.
  destruct (wal_replay_decodes demo_log (fun _ => true) gb [] []) as (_ & g' & Hi & _ & Hh & Ha & _ & _ & _ & Hl).
  - constructor; [split; [apply demo_io_ok | apply demo_entry_ok] | constructor].
  - simpl. lia.
  - reflexivity.
  - reflexivity.
  - apply Nat.le_0_l.
  - exists g'. split; [exact Hi |]. split; [| split; [exact (Ha _) |]].
    + rewrite Hh. cbn [demo_log fmap list_fmap snd]. rewrite filter_cons, decide_True by reflexivity. reflexivity.
    + apply (Hl 0%nat (demo_io, WAL_OP_CREATE, demo_entry)); [reflexivity | reflexivity |].
      intros [|j] w Hj Hw; [lia | discriminate Hw].
Defined.
