(* ===== verification/MetadataPath.v ===== *)
(** * The metadata manager: looking up paths

    The hash map as the frontend uses it: entries are only ever applied, so every node is
    the one its key resolves to, and scans over all nodes see exactly the map. *)

From stdpp Require Import base gmap strings list numbers.
From S2P Require Import Prelude CString Metadata MetadataThm.

#[local] Open Scope Z_scope.

(** Well-formed, and no node is hidden by another with its key. *)
Record map_ok (g : metadata_manager) : Prop := {
  map_mgr_ok : mgr_ok g;
  map_once : forall k a, (k, a) ∈ concat (buckets g) -> metadata_lookup g k = Some a;
}.

Lemma elem_of_buckets g k a :
  (k, a) ∈ concat (buckets g) <-> exists i l, buckets g !! i = Some l /\ (k, a) ∈ l.
Proof.
  rewrite list_elem_of_In, in_concat. split.
  - intros (l & Hl & Ha). apply list_elem_of_In, list_elem_of_lookup in Hl as [i Hi].
    exists i, l. by rewrite list_elem_of_In.
  - intros (i & l & Hi & Ha). exists l. rewrite <- !list_elem_of_In.
    split; [| done]. apply list_elem_of_lookup. eauto.
Qed.

Lemma node_entry g k a :
  mgr_ok g -> (k, a) ∈ concat (buckets g) -> heap g !! a = Some (deref g a) /\ file_id (deref g a) = k.
Proof.
  intros Hok (i & l & Hi & Hin)%elem_of_buckets.
  destruct (ok_node _ Hok _ _ _ _ Hi Hin) as (_ & _ & e & He & Hk). unfold deref. by rewrite He.
Qed.

Lemma lookup_node g k a : mgr_ok g -> metadata_lookup g k = Some a -> (k, a) ∈ concat (buckets g).
Proof.
  intros Hok Hl%find_node_Some. apply elem_of_buckets. eexists _, _. split; [by apply bucket_lookup | done].
Qed.

(** The nodes of the hash map are exactly the bindings of the map. *)
Lemma nodes_entries g e :
  map_ok g ->
  (exists k a, (k, a) ∈ concat (buckets g) /\ deref g a = e) <-> entry_at g (file_id e) = Some e.
Proof.
  intros [Hok Honce]. split.
  - intros (k & a & Hin & <-). destruct (node_entry _ _ _ Hok Hin) as [Hh ->].
    unfold entry_at. by rewrite (Honce _ _ Hin).
  - intros (a & Ha & He)%bind_Some. exists (file_id e), a. split; [by apply lookup_node |].
    unfold deref. by rewrite He.
Qed.

Lemma entry_at_id g id e : mgr_ok g -> entry_at g id = Some e -> file_id e = id.
Proof.
  intros Hok (a & Ha & He)%bind_Some. destruct (lookup_ok _ _ _ Hok Ha) as (_ & e' & He' & <-). congruence.
Qed.

(** ** Scanning for a path *)

Lemma by_path_spec g p :
  map_ok g ->
  match metadata_lookup_by_path g p with
  | Some a => let e := deref g a in
      path e = p /\ state e <> FILE_STATE_DELETED /\ entry_at g (file_id e) = Some e
  | None => forall id e, entry_at g id = Some e -> path e = p -> state e = FILE_STATE_DELETED
  end.
Proof.
  intros Hok. destruct (metadata_lookup_by_path g p) as [a|] eqn:Hp.
  - apply by_path_Some in Hp as (? & ? & i & l & k & Hi & Hin). split_and!; try done.
    apply nodes_entries; [done |]. exists k, a. split; [| done]. apply elem_of_buckets. eauto.
  - intros id e He Hpath. pose proof (entry_at_id _ _ _ (map_mgr_ok _ Hok) He) as Hid. subst id.
    apply nodes_entries in He as (k & a & (i & l & Hi & Hin)%elem_of_buckets & <-); [| done].
    by eapply by_path_None.
Qed.

(** ** The map stays well-formed *)

Lemma same_map_map_ok g g' : same_map g g' -> map_ok g -> map_ok g'.
Proof.
  intros Hs [Hok Honce]. split; [by eapply same_map_ok |]. intros k a.
  rewrite (same_map_lookup _ _ k Hs). destruct Hs as (_ & _ & ->). apply Honce.
Qed.

Lemma no_node_map_ok g : buckets g = replicate HASH_MAP_SIZE [] -> map_ok g.
Proof.
  intros Hb. split; [by apply no_node_ok |]. intros k a. rewrite elem_of_buckets, Hb.
  intros (i & l & Hi & Hin). apply lookup_replicate in Hi as [-> _]. by apply not_elem_of_nil in Hin.
Qed.

Lemma insert_node_lookup g e n s id :
  mgr_ok g -> (String.length (file_id e) <= 63)%nat ->
  metadata_lookup (insert_node e n s g) id =
  if decide (id = file_id e) then Some (next_addr g) else metadata_lookup g id.
Proof.
  intros Hok Hlen. pose proof (bucket_lookup g (file_id e) Hok) as Hb.
  assert (Hlt : (Z.to_nat (hash_string (file_id e)) < length (buckets g))%nat) by (by eapply lookup_lt_Some).
  unfold metadata_lookup, bucket, insert_node, strncpy. rewrite str_take_ge by done. cbn [buckets].
  destruct (decide (hash_string id = hash_string (file_id e))) as [Hh|Hh].
  - rewrite Hh, list_lookup_total_insert_eq, find_node_cons by done. unfold bucket. case_decide; by subst.
  - pose proof (hash_range id). pose proof (hash_range (file_id e)).
    rewrite list_lookup_total_insert_ne by lia. by rewrite decide_False by congruence.
Qed.

Lemma insert_node_nodes g e n s k a :
  mgr_ok g -> (String.length (file_id e) <= 63)%nat ->
  (k, a) ∈ concat (buckets (insert_node e n s g)) ->
  (k, a) = (file_id e, next_addr g) \/ (k, a) ∈ concat (buckets g).
Proof.
  intros Hok Hlen (i & l & Hi & Hin)%elem_of_buckets. revert Hi. unfold insert_node, strncpy.
  rewrite str_take_ge by done. cbn [buckets]. intros Hi.
  apply list_lookup_insert_Some in Hi as [(Heq & <- & _)|[_ Hi]]; [subst i |].
  - apply elem_of_cons in Hin as [?|Hin]; [by left | right].
    apply elem_of_buckets. eexists _, _. split; [by apply bucket_lookup | done].
  - right. apply elem_of_buckets. eauto.
Qed.

Lemma apply_map_ok e g :
  map_ok g -> (String.length (file_id e) <= 63)%nat -> map_ok (metadata_apply_entry true e g).2.
Proof.
  intros [Hok Honce] Hlen. destruct (metadata_apply_entry true e g) as [rc g'] eqn:Ha.
  destruct (apply_refines e g rc g' Hok Hlen Ha) as (_ & Hok' & _). cbn [snd]. split; [done |].
  intros k a. revert Ha. unfold metadata_apply_entry.
  destruct (metadata_lookup g (file_id e)) as [b|] eqn:Hb; intros [_ <-]%pair_equal_spec.
  - apply Honce.
  - intros Hin. rewrite insert_node_lookup by done.
    apply insert_node_nodes in Hin as [[= -> ->]|Hin]; [by rewrite decide_True | | done | done].
    rewrite decide_False; [by apply Honce |]. intros ->. rewrite (Honce _ _ Hin) in Hb. discriminate.
Qed.

Lemma fresh_map_ok : map_ok fresh_manager.
Proof.
  split; [apply fresh_ok |]. intros k a (i & l & Hi & Hin)%elem_of_buckets.
  apply lookup_replicate in Hi as [-> _]. by apply elem_of_nil in Hin.
Qed.
