(* ===== verification/Replica.v ===== *)
(** * A replica: the Paxos node with the component it drives

    [paxos.c] knows the component it replicates only through two callbacks.
    [StateMachine] says what it may expect of them: a key-value map whose apply callback
    inserts the binding a value stands for, and a persist callback that leaves the map
    alone.  The learner's theorem is proved against this interface; the callbacks of
    [src/src/distributed_frontend.cpp] over the metadata manager implement it. *)

From stdpp Require Import base gmap strings list numbers.
From Stdlib Require Import Ascii.
From S2P Require Import Prelude CString Paxos PaxosThm Metadata MetadataThm.

#[local] Open Scope Z_scope.

(** ** The interface *)

(** [None] as a state: the callback crashes. [E] is what the callbacks observe. *)
Class StateMachine (S E K V : Type) `{EqDecision K} := {
  sm_persist : E -> cvalue -> Z -> S -> option (Z * S);
  sm_apply : E -> cvalue -> Z -> S -> option S;
  sm_ok : S -> Prop;
  sm_env_ok : E -> Prop;
  sm_view : S -> K -> option V;
  sm_decode : list Z -> option (K * V);
  sm_persist_law : forall e bs kx s, sm_ok s -> sm_decode bs = Some kx ->
    exists rc s', sm_persist e (Some bs) (Z.of_nat (length bs)) s = Some (rc, s') /\
      sm_ok s' /\ forall k, sm_view s' k = sm_view s k;
  sm_apply_law : forall e bs k x s, sm_env_ok e -> sm_ok s -> sm_decode bs = Some (k, x) ->
    exists s', sm_apply e (Some bs) (Z.of_nat (length bs)) s = Some s' /\
      sm_ok s' /\ forall k', sm_view s' k' = if decide (k' = k) then Some x else sm_view s k';
}.

(** ** The learner *)

Section Replica.
Context {S E K V : Type} `{EqDecision K} `{M : !StateMachine S E K V}.

(** Carrying out the callbacks of one handled message, in order. *)
Fixpoint run_effects (e : E) (eff : list effect) (s : S) : option S :=
  match eff with
  | [] => Some s
  | Persist _ v len :: eff' =>
      match sm_persist e v len s with
      | Some (_, s') => run_effects e eff' s'
      | None => None
      end
  | Apply _ v len :: eff' =>
      match sm_apply e v len s with
      | Some s' => run_effects e eff' s'
      | None => None
      end
  | Broadcast _ :: eff' => run_effects e eff' s
  end.

(** One message handled by node and state machine: the handler sees the result of the
    persist callback on the message's value. *)
Definition replica_step (e : E) (m : paxos_message) (r : paxos_node * S) : option (paxos_node * S) :=
  let rc := match sm_persist e (value m) (value_len m) r.2 with
            | Some (rc, _) => rc
            | None => -1
            end in
  let '(_, _, n', eff) := paxos_handle_message rc r.1 m in
  match run_effects e eff r.2 with
  | Some s' => Some (n', s')
  | None => None
  end.

Fixpoint replica_run (ms : list (E * paxos_message)) (r : paxos_node * S)
  : option (paxos_node * S) :=
  match ms with
  | [] => Some r
  | (e, m) :: ms' =>
      match replica_step e m r with
      | Some r' => replica_run ms' r'
      | None => None
      end
  end.

(** The map after inserting the bindings of [l] from the left. *)
Definition replay_spec (view : K -> option V) (l : list (Z * cvalue)) : K -> option V :=
  foldl (fun view sv =>
    match sv.2 ≫= sm_decode with
    | Some (k, x) => fun k' => if decide (k' = k) then Some x else view k'
    | None => view
    end) view l.

(** A LEARN with a value that stands for a binding. *)
Definition learn_ok (m : paxos_message) : Prop :=
  phase m = PAXOS_PHASE_LEARN /\
  exists bs kx, value m = Some bs /\ value_len m = Z.of_nat (length bs) /\ sm_decode bs = Some kx.

Lemma replay_spec_ext l view view' :
  (forall k, view k = view' k) -> forall k, replay_spec view l k = replay_spec view' l k.
Proof.
  revert view view'. induction l as [|sv l IH]; intros view view' Hv k; [exact (Hv k) |].
  cbn [replay_spec foldl]. apply IH. intros k'.
  case_match; [destruct p as [k0 x]; destruct (decide (k' = k0)); [done |] |]; apply Hv.
Qed.

Lemma replica_step_learn e m n s :
  sm_env_ok e -> learn_ok m -> sm_ok s -> apply_callback n = true ->
  exists n' s', replica_step e m (n, s) = Some (n', s') /\ sm_ok s' /\ apply_callback n' = true /\
    if decide (highest_sequence_committed n < sequence_number m)
    then highest_sequence_committed n' = sequence_number m /\
      forall k, sm_view s' k = replay_spec (sm_view s) [(sequence_number m, value m)] k
    else n' = n /\ s' = s.
Proof.
  intros He (Hph & bs & [k0 x] & Hv & Hlen & Hd) Hs Ha.
  unfold replica_step. cbn [fst snd]. set (rc := match _ with Some _ => _ | None => _ end).
  unfold paxos_handle_message. rewrite Hph, !decide_False, decide_True by done.
  unfold handle_learn. destruct (decide (highest_sequence_committed n < sequence_number m)); [| simpl; eauto 10].
  rewrite Ha, Hv, Hlen. destruct (sm_persist_law e bs _ s Hs Hd) as (rc' & s1 & Hp & Hok1 & Hv1).
  destruct (_ && _); cbn [app run_effects]; [rewrite Hp |].
  - destruct (sm_apply_law e bs _ _ s1 He Hok1 Hd) as (s2 & -> & Hok2 & Hv2).
    exists (set_committed_seq (sequence_number m) (set_persisted (sequence_number m) n)), s2.
    split_and!; try done. intros k. rewrite Hv2. simpl. rewrite Hd. by rewrite Hv1.
  - destruct (sm_apply_law e bs _ _ s He Hs Hd) as (s2 & -> & Hok2 & Hv2).
    exists (set_committed_seq (sequence_number m) n), s2.
    split_and!; try done. intros k. rewrite Hv2. simpl. by rewrite Hd.
Qed.

(** A replica that handles LEARN messages implements the map obtained by inserting the
    values that are newer than everything before them. *)
Lemma replica_run_learn ms n s :
  Forall (fun x => sm_env_ok x.1 /\ learn_ok x.2) ms -> sm_ok s -> apply_callback n = true ->
  exists n' s', replica_run ms (n, s) = Some (n', s') /\ sm_ok s' /\
    forall k, sm_view s' k =
      replay_spec (sm_view s) (newer (highest_sequence_committed n) (snd <$> ms)) k.
Proof.
  intros Hms. revert n s. induction Hms as [|[e m] ms [He Hm] _ IH]; intros n s Hs Ha.
  { exists n, s. by split_and!. }
  destruct (replica_step_learn e m n s He Hm Hs Ha) as (n1 & s1 & Hst & Hok1 & Ha1 & Hcase).
  destruct (IH n1 s1 Hok1 Ha1) as (n2 & s2 & Hr & Hok2 & Hv2).
  exists n2, s2. cbn [replica_run fmap list_fmap newer snd]. rewrite Hst.
  split_and!; try done. intros k. rewrite Hv2.
  destruct (decide (highest_sequence_committed n < sequence_number m)).
  - destruct Hcase as [-> Hv1]. change (?a :: ?l) with ([a] ++ l). unfold replay_spec.
    rewrite foldl_app. by apply replay_spec_ext.
  - by destruct Hcase as [-> ->].
Qed.

End Replica.

(** ** The callbacks over the metadata manager *)

(** Allocations in the callbacks and the outcomes of the log write. *)
Record cb_env := MkCb { cb_alloc : bool; cb_alloc_node : bool; cb_io : wal_io }.

(** [None]: the value is longer than an entry and overruns the copy. *)
Definition persist_wal (e : cb_env) (v : cvalue) (len : Z) (g : metadata_manager)
  : option (Z * metadata_manager) :=
  match v with
  | None => Some (-1, g)
  | Some bs =>
      if decide (len = 0) then Some (-1, g)
      else
        match metadata_deserialize (cb_alloc e) (take (Z.to_nat len) bs) with
        | None => None
        | Some (_, None) => Some (-1, g)
        | Some (_, Some entry) =>
            let '(lsn, g') := wal_append (cb_io e) WAL_OP_UPDATE entry g in
            Some (if decide (lsn = UINT64_MAX) then -1 else 0, g')
        end
  end.

Definition apply_state_machine (e : cb_env) (v : cvalue) (len : Z) (g : metadata_manager)
  : option metadata_manager :=
  match v with
  | None => Some g
  | Some bs =>
      if decide (len = 0) then Some g
      else
        match metadata_deserialize (cb_alloc e) (take (Z.to_nat len) bs) with
        | None => None
        | Some (_, None) => Some g
        | Some (_, Some incoming) => Some (metadata_apply_entry (cb_alloc_node e) incoming g).2
        end
  end.

(** The binding a serialised entry stands for; its identifier must be terminated. *)
Definition decode_binding (bs : list Z) : option (string * metadata_entry) :=
  match bs, metadata_deserialize true bs with
  | _ :: _, Some (_, Some e) =>
      if decide (String.length (file_id e) <= 63)%nat then Some (file_id e, e) else None
  | _, _ => None
  end.

Lemma decode_binding_Some bs k e :
  decode_binding bs = Some (k, e) ->
  k = file_id e /\ (String.length (file_id e) <= 63)%nat /\ bs <> [] /\
  exists rc, metadata_deserialize true bs = Some (rc, Some e).
Proof.
  unfold decode_binding. destruct bs as [|b bs]; [done |].
  destruct (metadata_deserialize true (b :: bs)) as [[rc [x|]]|]; [| done ..].
  case_decide; [| done]. intros [= <- <-]. eauto.
Qed.

Lemma deserialize_any alloc bs rc e :
  metadata_deserialize true bs = Some (rc, Some e) ->
  metadata_deserialize alloc bs = if alloc then Some (rc, Some e) else Some (-1, None).
Proof. by destruct alloc. Qed.

Lemma decode_serialize_binding e :
  entry_ok e -> decode_binding (metadata_serialize e) = Some (file_id e, e).
Proof.
  intros He. pose proof (length_serialize e He) as Hl. pose proof (deserialize_serialize e He) as Hd.
  unfold decode_binding. destruct (metadata_serialize e) as [|b bs].
  { exfalso. revert Hl. vm_compute. discriminate. }
  rewrite Hd, decide_True; [done |]. destruct (eok_id e He) as [_ ?]. lia.
Qed.

Lemma persist_wal_law e bs kx g :
  mgr_ok g -> decode_binding bs = Some kx ->
  exists rc g', persist_wal e (Some bs) (Z.of_nat (length bs)) g = Some (rc, g') /\
    mgr_ok g' /\ forall id, entry_at g' id = entry_at g id.
Proof.
  intros Hok Hd. destruct kx as [k x]. apply decode_binding_Some in Hd as (-> & _ & Hne & rc & Hd).
  unfold persist_wal. rewrite decide_False by (destruct bs; [done | simpl; lia]).
  rewrite Nat2Z.id, take_ge by done. rewrite (deserialize_any (cb_alloc e) _ _ _ Hd).
  destruct (cb_alloc e); [| by exists (-1), g].
  destruct (wal_append (cb_io e) WAL_OP_UPDATE x g) as [lsn g'] eqn:Hw.
  apply append_same_map in Hw. eexists _, g'. split_and!; [done | by eapply same_map_ok |].
  intros id. by apply same_map_at.
Qed.

Lemma apply_entry_refines e g :
  mgr_ok g -> (String.length (file_id e) <= 63)%nat ->
  mgr_ok (metadata_apply_entry true e g).2 /\
  forall id, entry_at (metadata_apply_entry true e g).2 id =
    if decide (id = file_id e) then Some e else entry_at g id.
Proof.
  intros Hok Hl. destruct (metadata_apply_entry true e g) as [rc g'] eqn:Ha.
  by destruct (apply_refines e g rc g' Hok Hl Ha) as (_ & ? & _ & _ & ? & _).
Qed.

Lemma apply_state_machine_law e bs k x g :
  cb_alloc e = true /\ cb_alloc_node e = true -> mgr_ok g -> decode_binding bs = Some (k, x) ->
  exists g', apply_state_machine e (Some bs) (Z.of_nat (length bs)) g = Some g' /\
    mgr_ok g' /\ forall id, entry_at g' id = if decide (id = k) then Some x else entry_at g id.
Proof.
  intros [Ha1 Ha2] Hok Hd. apply decode_binding_Some in Hd as (-> & Hl & Hne & rc & Hd).
  unfold apply_state_machine. rewrite decide_False by (destruct bs; [done | simpl; lia]).
  rewrite Nat2Z.id, take_ge, Ha1, Ha2, Hd by done.
  destruct (apply_entry_refines x g Hok Hl) as [? ?]. eauto.
Qed.

#[export] Instance metadata_machine : StateMachine metadata_manager cb_env string metadata_entry := {
  sm_persist := persist_wal;
  sm_apply := apply_state_machine;
  sm_ok := mgr_ok;
  sm_env_ok := fun e => cb_alloc e = true /\ cb_alloc_node e = true;
  sm_view := entry_at;
  sm_decode := decode_binding;
  sm_persist_law := persist_wal_law;
  sm_apply_law := apply_state_machine_law;
}.

(** A LEARN that carries a serialised entry. *)
Definition learns_entry (m : paxos_message) (e : metadata_entry) : Prop :=
  phase m = PAXOS_PHASE_LEARN /\ entry_ok e /\ value m = Some (metadata_serialize e) /\
  value_len m = Z.of_nat (length (metadata_serialize e)).

(** The map after the entries of [l], each with its sequence number: an entry whose
    number is not above the last one taken is skipped, the others are inserted. *)
Fixpoint newest (c : Z) (l : list (Z * metadata_entry)) (view : string -> option metadata_entry)
  : string -> option metadata_entry :=
  match l with
  | [] => view
  | (s, e) :: l' =>
      if decide (c < s)
      then newest s l' (fun id => if decide (id = file_id e) then Some e else view id)
      else newest c l' view
  end.

Lemma replay_newest ms es c view :
  Forall2 learns_entry ms es ->
  replay_spec (M := metadata_machine) view (newer c ms) =
  newest c (zip (sequence_number <$> ms) es) view.
Proof.
  intros Hms. revert c view. induction Hms as [|m e ms es (_ & He & Hv & _) _ IH]; intros c view; [done |].
  cbn [fmap list_fmap zip zip_with newer newest]. case_decide; [| apply IH].
  unfold replay_spec. cbn [foldl snd]. rewrite Hv. cbn [mbind option_bind sm_decode metadata_machine].
  rewrite (decode_serialize_binding e He). apply IH.
Qed.

Lemma learns_entry_ok m e : learns_entry m e -> learn_ok (M := metadata_machine) m.
Proof.
  intros (Hp & He & Hv & Hl). split; [done |]. exists (metadata_serialize e), (file_id e, e).
  split_and!; try done. by apply decode_serialize_binding.
Qed.

Lemma metadata_replica_run ms es n g :
  Forall (fun x => cb_alloc x.1 = true /\ cb_alloc_node x.1 = true) ms ->
  Forall2 learns_entry (snd <$> ms) es -> mgr_ok g -> apply_callback n = true ->
  exists n' g', replica_run ms (n, g) = Some (n', g') /\ mgr_ok g' /\
    forall id, entry_at g' id =
      newest (highest_sequence_committed n) (zip (sequence_number <$> (snd <$> ms)) es) (entry_at g) id.
Proof.
  intros Hm He Hok Ha.
  destruct (replica_run_learn (M := metadata_machine) ms n g) as (n' & g' & Hr & Hok' & Hv); try done.
  - revert es He. induction Hm as [|x ms Hx _ IH]; intros es He; [constructor |].
    inversion He as [|? e ? es' Hxe Hrest]; subst.
    constructor; [split; [exact Hx | by eapply learns_entry_ok] | by eapply IH].
  - exists n', g'. split_and!; try done. intros id. rewrite <- replay_newest by done. apply Hv.
Qed.

(** ** Theorems *)

(** C28: a replica implements the replicated map. A node that handles LEARN messages with
    serialised entries, its callbacks running on a well-formed metadata manager, never
    crashes, and afterwards every identifier resolves as if the entries had been inserted
    in the order of arrival, every entry skipped that arrives after one with the same or a
    higher sequence number (or at or below what was committed before): late entries are
    lost. *)
Theorem metadata_replica_refines ms es n g :
  Forall (fun x => cb_alloc x.1 = true /\ cb_alloc_node x.1 = true) ms ->
  Forall2 learns_entry (snd <$> ms) es -> mgr_ok g -> apply_callback n = true ->
  exists n' g', replica_run ms (n, g) = Some (n', g') /\ mgr_ok g' /\
    forall id, entry_at g' id =
      newest (highest_sequence_committed n) (zip (sequence_number <$> (snd <$> ms)) es) (entry_at g) id.
Proof. apply metadata_replica_run. Qed.

(** ** A concrete replica *)

Definition learner : paxos_node :=
  default (MkNode 0 0 0 0 0 0 0 0 [] 0 false false false 0) (paxos_init true 2 3 true true).

Definition learn_demo (s : Z) : cb_env * paxos_message :=
  (MkCb true true demo_io,
   MkMsg PAXOS_PHASE_LEARN 65537 s 1 0 65537 (Some (metadata_serialize demo_entry))
     (Z.of_nat (length (metadata_serialize demo_entry))) false).

Lemma learn_demo_env s : cb_alloc (learn_demo s).1 = true /\ cb_alloc_node (learn_demo s).1 = true.
Proof. unfold learn_demo. by cbn [fst cb_alloc cb_alloc_node]. Qed.

Lemma learn_demo_ok s : learns_entry (learn_demo s).2 demo_entry.
Proof.
  unfold learns_entry, learn_demo. cbn [snd phase value value_len].
  split; [done | split; [apply demo_entry_ok | split; reflexivity]].
Qed.

Definition twice : list (cb_env * paxos_message) := [learn_demo 1; learn_demo 1].

Lemma learn_demo_envs : Forall (fun x => cb_alloc x.1 = true /\ cb_alloc_node x.1 = true) twice.
Proof.
  unfold twice. generalize (learn_demo_env 1). generalize (learn_demo 1). intros x Hx. 
  constructor; [done |]. constructor; [done | constructor].
Qed.

Lemma learn_demo_oks : Forall2 learns_entry (snd <$> twice) [demo_entry; demo_entry].
Proof.
  unfold twice. generalize (learn_demo_ok 1). generalize (learn_demo 1) demo_entry. intros x e Hx.
  constructor; [done |]. constructor; [done | constructor].
Qed.

Lemma metadata_replica_refines_witness :
  exists n' g', replica_run twice (learner, fresh_manager) = Some (n', g') /\
    mgr_ok g' /\ forall id, entry_at g' id =
      newest 0 [(1, demo_entry); (1, demo_entry)] (entry_at fresh_manager) id.
Proof.
  exact (metadata_replica_refines twice [demo_entry; demo_entry]
           learner fresh_manager
           learn_demo_envs learn_demo_oks
           fresh_ok eq_refl).
Defined.
