(* ===== verification/Network.v ===== *)
(** * The network engine: [src/distributed_core/src/network_engine.c], [include/network_engine.h]

    Peer table, inbound descriptors, sending, broadcasting, the message codec and one
    iteration of the event loop.  Sockets are outside: what [connect], [send], [recv],
    [accept] and [poll] return is an argument, what the code does with descriptors is
    a list of actions. *)

From stdpp Require Import base strings list numbers.
From S2P Require Import Prelude CString.

#[local] Open Scope Z_scope.

Definition MAX_PEERS : nat := 32.
Definition MAX_PENDING_CONNECTIONS : nat := 128.
Definition MAX_POLL_FDS : nat := 128.
Definition RECV_BUFFER_SIZE : Z := 65536.
Definition MAGIC_NUMBER : Z := 4277009102.

(** ** Data *)

(** The [message_type_t] the frontends use; the field on the wire is any 32-bit value. *)
Definition MSG_TYPE_PAXOS : Z := 1.

Record message_header := MkHeader {
  magic : Z;
  type : Z;
  sender_id : Z;
  sequence : Z;
  payload_len : Z;
  checksum : Z;
}.

(** [payload]: [None] is NULL. *)
Record network_message := MkNetMsg { header : message_header; payload : option (list Z) }.

Record peer_connection := MkPeer {
  peer_id : Z;
  ip_address : string;
  port : Z;
  socket_fd : Z;
  connected : bool;
  last_heartbeat : Z;
}.

Record network_engine := MkEngine {
  node_id : Z;
  listen_port : Z;
  listen_fd : Z;
  peers : list peer_connection;
  num_peers : nat;
  inbound_fds : list Z;
  num_inbound_fds : nat;
  running : bool;
  messages_sent : Z;
  messages_received : Z;
  bytes_sent : Z;
  bytes_received : Z;
}.

(** What the engine does to the outside. *)
Inductive action :=
| Send (fd : Z) (data : list Z)
| Close (fd : Z)
| Deliver (sender : Z) (ty : Z) (data : option (list Z)) (len : Z).

#[export] Instance action_eq_dec : EqDecision action.
Proof. solve_decision. Defined.

Definition zero_peer : peer_connection := MkPeer 0 EmptyString 0 (-1) false 0.

#[export] Instance peer_inhabited : Inhabited peer_connection := populate zero_peer.

Definition set_peers (ps : list peer_connection) (n : nat) (e : network_engine) : network_engine :=
  MkEngine (node_id e) (listen_port e) (listen_fd e) ps n (inbound_fds e) (num_inbound_fds e)
    (running e) (messages_sent e) (messages_received e) (bytes_sent e) (bytes_received e).

Definition set_inbound (fds : list Z) (n : nat) (e : network_engine) : network_engine :=
  MkEngine (node_id e) (listen_port e) (listen_fd e) (peers e) (num_peers e) fds n
    (running e) (messages_sent e) (messages_received e) (bytes_sent e) (bytes_received e).

Definition count_sent (n : Z) (e : network_engine) : network_engine :=
  MkEngine (node_id e) (listen_port e) (listen_fd e) (peers e) (num_peers e) (inbound_fds e)
    (num_inbound_fds e) (running e) (u64 (messages_sent e + 1)) (messages_received e)
    (u64 (bytes_sent e + n)) (bytes_received e).

Definition count_received (n : Z) (e : network_engine) : network_engine :=
  MkEngine (node_id e) (listen_port e) (listen_fd e) (peers e) (num_peers e) (inbound_fds e)
    (num_inbound_fds e) (running e) (messages_sent e) (u64 (messages_received e + 1))
    (bytes_sent e) (u64 (bytes_received e + n)).

Definition set_running (b : bool) (fd : Z) (e : network_engine) : network_engine :=
  MkEngine (node_id e) (listen_port e) fd (peers e) (num_peers e) (inbound_fds e)
    (num_inbound_fds e) b (messages_sent e) (messages_received e) (bytes_sent e)
    (bytes_received e).

(** The peers in use. *)
Definition live_peers (e : network_engine) : list peer_connection := take (num_peers e) (peers e).

(** ** Codec *)

Definition header_size : nat := 24.

Definition header_bytes (h : message_header) : list Z :=
  le_bytes 4 (magic h) ++ le_bytes 4 (type h) ++ le_bytes 4 (sender_id h) ++
  le_bytes 4 (sequence h) ++ le_bytes 4 (payload_len h) ++ le_bytes 4 (checksum h).

(** [payload] holds at least [payload_len] bytes when that is positive. *)
Definition network_serialize_message (m : network_message) : list Z :=
  header_bytes (header m) ++
  (if decide (0 < payload_len (header m))
   then take (Z.to_nat (payload_len (header m))) (default [] (payload m)) else []).

(** [mem] is the memory at [buffer], of which the first [len] bytes were received.
    [None]: the copy of the payload leaves that memory. *)
Definition network_deserialize_message (malloc_ok : bool) (mem : list Z) (len : nat)
  : option (Z * option network_message) :=
  if decide (len < header_size)%nat then Some (-1, None)
  else
    mg ← read_le 0 4 mem; ty ← read_le 4 4 mem; snd ← read_le 8 4 mem; sq ← read_le 12 4 mem;
    pl ← read_le 16 4 mem; ck ← read_le 20 4 mem;
    let h := MkHeader mg ty snd sq pl ck in
    if decide (mg <> MAGIC_NUMBER) then Some (-1, None)
    else if decide (0 < pl) then
      if malloc_ok then
        p ← read_bytes header_size (Z.to_nat pl) mem; Some (0, Some (MkNetMsg h (Some p)))
      else Some (-1, None)
    else Some (0, Some (MkNetMsg h None)).

Definition network_free_message (m : network_message) : network_message := MkNetMsg (header m) None.

(** ** Peers *)

Definition network_engine_init (id lport : Z) : network_engine :=
  MkEngine id lport (-1) (replicate MAX_PEERS zero_peer) 0 (replicate MAX_PENDING_CONNECTIONS 0) 0
    false 0 0 0 0.

(** [conn]: the connected socket and the time, or a failure at any point. *)
Definition network_connect_peer (conn : option (Z * Z)) (p : peer_connection)
  : Z * peer_connection :=
  match conn with
  | None => (-1, p)
  | Some (fd, now) => (0, MkPeer (peer_id p) (ip_address p) (port p) fd true now)
  end.

Definition network_engine_add_peer (conn : option (Z * Z)) (id : Z) (ip : string) (prt : Z)
    (e : network_engine) : Z * network_engine :=
  if decide (MAX_PEERS <= num_peers e)%nat then (-1, e)
  else
    let f old := (network_connect_peer conn
                    (MkPeer id (strncpy 63 ip) prt (-1) false (last_heartbeat old))).2 in
    (0, set_peers (alter f (num_peers e) (peers e)) (S (num_peers e)) e).

Definition find_peer (e : network_engine) (id : Z) : option nat :=
  first_idx (fun p => peer_id p = id) (num_peers e) (peers e).

(** The descriptor of the removed peer is closed; the last slot keeps its old value. *)
Definition network_engine_remove_peer (id : Z) (e : network_engine)
  : Z * network_engine * list action :=
  match find_peer e id with
  | None => (-1, e, [])
  | Some i =>
      let fd := socket_fd (peers e !!! i) in
      (0, set_peers (shift_left i (num_peers e) (peers e)) (num_peers e - 1) e,
       if decide (0 <= fd) then [Close fd] else [])
  end.

Definition network_engine_is_peer_connected (e : network_engine) (id : Z) : bool :=
  match find_peer e id with
  | Some i => connected (peers e !!! i)
  | None => false
  end.

(** At most [max_peers] identities. *)
Definition network_engine_get_connected_peers (e : network_engine) (max_peers : nat) : list Z :=
  take max_peers (peer_id <$> filter (fun p => connected p = true) (live_peers e)).

(** Simple sum of the payload bytes. *)
Definition payload_sum (data : list Z) : Z := foldl (fun c b => u32 (c + b)) 0 data.

(** [conn]: what a reconnect returns, [sent]: what [send] returns, [sq]: the static
    sequence counter; returns (rc, counter, engine, actions). *)
Definition network_engine_send (conn : option (Z * Z)) (malloc_ok : bool) (sent : Z)
    (id ty : Z) (data : list Z) (sq : Z) (e : network_engine)
  : Z * Z * network_engine * list action :=
  match find_peer e id with
  | None => (-1, sq, e, [])
  | Some i =>
      let p := peers e !!! i in
      let '(rc, p1) := if negb (connected p) || bool_decide (socket_fd p < 0)
                       then network_connect_peer conn p else (0, p) in
      let e1 := set_peers (<[i := p1]> (peers e)) (num_peers e) e in
      if decide (rc <> 0) then (-1, sq, e1, [])
      else if negb (connected p1) then (-1, sq, e1, [])
      else
        let h := MkHeader MAGIC_NUMBER ty (node_id e) sq (u32 (Z.of_nat (length data)))
                   (payload_sum data) in
        let sq' := u32 (sq + 1) in
        let buffer := network_serialize_message (MkNetMsg h (Some data)) in
        if negb malloc_ok then (-1, sq', e1, [])
        else if decide (sent < 0) then
          let p2 := MkPeer (peer_id p1) (ip_address p1) (port p1) (-1) false (last_heartbeat p1) in
          (-1, sq', set_peers (<[i := p2]> (peers e)) (num_peers e) e,
           Send (socket_fd p1) buffer ::
           (if decide (0 <= socket_fd p1) then [Close (socket_fd p1)] else []))
        else (0, sq', count_sent sent e1, [Send (socket_fd p1) buffer])
  end.

(** [outcome k] gives what the [k]-th send observes. *)
Fixpoint broadcast_loop (outcome : nat -> option (Z * Z) * bool * Z) (k : nat) (ty : Z)
    (data : list Z) (ids : list Z) (sq : Z) (e : network_engine)
  : Z * Z * network_engine * list action :=
  match ids with
  | [] => (0, sq, e, [])
  | id :: ids' =>
      let '(conn, malloc_ok, sent) := outcome k in
      let '(rc, sq1, e1, a1) := network_engine_send conn malloc_ok sent id ty data sq e in
      let '(n, sq2, e2, a2) := broadcast_loop outcome (S k) ty data ids' sq1 e1 in
      ((if decide (rc = 0) then n + 1 else n), sq2, e2, a1 ++ a2)
  end.

Definition network_engine_broadcast (outcome : nat -> option (Z * Z) * bool * Z) (ty : Z)
    (data : list Z) (sq : Z) (e : network_engine) : Z * Z * network_engine * list action :=
  broadcast_loop outcome 0 ty data (peer_id <$> take MAX_PEERS (live_peers e)) sq e.

(** [fd]: what [socket] returns; then whether [bind], [listen] and [pthread_create]
    succeed.  A failed start leaves the closed descriptor in [listen_fd]. *)
Definition network_engine_start (fd : Z) (bind_ok listen_ok thread_ok : bool) (e : network_engine)
  : Z * network_engine * list action :=
  if running e then (-1, e, [])
  else if decide (fd < 0) then (-1, set_running false fd e, [])
  else if bind_ok && listen_ok && thread_ok then (0, set_running true fd e, [])
  else (-1, set_running false fd e, [Close fd]).

Definition network_engine_stop (e : network_engine) : network_engine :=
  if running e then set_running false (listen_fd e) e else e.

(** The descriptors closed when the engine is destroyed. *)
Definition network_engine_destroy (e : network_engine) : list action :=
  (if decide (0 <= listen_fd e) then [Close (listen_fd e)] else []) ++
  (Close <$> filter (fun fd => 0 <= fd) (socket_fd <$> take MAX_PEERS (peers e))) ++
  (Close <$> filter (fun fd => 0 <= fd) (take (num_inbound_fds e) (inbound_fds e))).

(** ** Event loop *)

Definition network_remove_inbound_fd (fd : Z) (e : network_engine) : network_engine :=
  if decide (fd < 0) then e
  else
    match first_idx (fun x => x = fd) (num_inbound_fds e) (inbound_fds e) with
    | None => e
    | Some i => set_inbound (shift_left i (num_inbound_fds e) (inbound_fds e))
                  (num_inbound_fds e - 1) e
    end.

(** The descriptors polled besides the listening socket. *)
Definition poll_set (e : network_engine) : list Z :=
  take (MAX_POLL_FDS - 1)
    ((socket_fd <$> filter (fun p => connected p = true /\ 0 <= socket_fd p) (live_peers e)) ++
     filter (fun fd => 0 <= fd) (take (num_inbound_fds e) (inbound_fds e))).

(** [accept]ing [fd]: kept when there is room, closed otherwise. *)
Definition accept_fd (fd : Z) (e : network_engine) : network_engine * list action :=
  if decide (num_inbound_fds e < MAX_PENDING_CONNECTIONS)%nat
  then (set_inbound (<[num_inbound_fds e := fd]> (inbound_fds e)) (S (num_inbound_fds e)) e, [])
  else (e, [Close fd]).

Definition drop_connection (fd : Z) (e : network_engine) : network_engine :=
  let e1 := network_remove_inbound_fd fd e in
  match first_idx (fun p => socket_fd p = fd) (num_peers e1) (peers e1) with
  | None => e1
  | Some j =>
      let f p := MkPeer (peer_id p) (ip_address p) (port p) (-1) false (last_heartbeat p) in
      set_peers (alter f j (peers e1)) (num_peers e1) e1
  end.

(** What [poll] and [recv] report for one descriptor; [Received data]: [data] can be read,
    of which [recv] returns at most [RECV_BUFFER_SIZE] bytes. *)
Inductive recv_event :=
| NoEvent
| Received (data : list Z)
| Closed
| WouldBlock.

(** One descriptor of the loop over the poll results; [buf] is [recv_buffer].
    [None]: the decoder leaves [recv_buffer]. *)
Definition handle_readable (malloc_ok has_handler : bool) (fd : Z) (ev : recv_event)
    (buf : list Z) (e : network_engine) : option (list Z * network_engine * list action) :=
  match ev with
  | NoEvent | WouldBlock => Some (buf, e, [])
  | Closed => Some (buf, drop_connection fd e, [Close fd])
  | Received data =>
      let data := take (Z.to_nat RECV_BUFFER_SIZE) data in
      let buf := data ++ drop (length data) buf in
      match network_deserialize_message malloc_ok buf (length data) with
      | None => None
      | Some (_, None) => Some (buf, e, [])
      | Some (_, Some m) =>
          Some (buf, count_received (Z.of_nat (length data)) e,
                if has_handler
                then [Deliver (sender_id (header m)) (type (header m)) (payload m)
                        (payload_len (header m))]
                else [])
      end
  end.

Fixpoint readable_loop (malloc_ok has_handler : bool) (fds : list Z) (evs : list recv_event)
    (buf : list Z) (e : network_engine) : option (list Z * network_engine * list action) :=
  match fds, evs with
  | fd :: fds', ev :: evs' =>
      match handle_readable malloc_ok has_handler fd ev buf e with
      | None => None
      | Some (buf1, e1, a1) =>
          match readable_loop malloc_ok has_handler fds' evs' buf1 e1 with
          | None => None
          | Some (buf2, e2, a2) => Some (buf2, e2, a1 ++ a2)
          end
      end
  | _, _ => Some (buf, e, [])
  end.

(** One iteration in which [poll] reports events: [acc] is the accepted descriptor if
    the listening socket was ready. *)
Definition network_event_loop_step (malloc_ok has_handler : bool) (acc : option Z)
    (evs : list recv_event) (buf : list Z) (e : network_engine)
  : option (list Z * network_engine * list action) :=
  let fds := poll_set e in
  let '(e1, a1) := match acc with Some fd => accept_fd fd e | None => (e, []) end in
  match readable_loop malloc_ok has_handler fds evs buf e1 with
  | None => None
  | Some (buf2, e2, a2) => Some (buf2, e2, a1 ++ a2)
  end.
