(* ===== verification/NetworkThm.v ===== *)
(** * The network engine: theorems

    A sent message is delivered once and unchanged when one [recv] returns it, what
    happens when [recv] returns more or less than one message, and the peer table. *)

From stdpp Require Import base strings list numbers.
From S2P Require Import Prelude CString Network.

#[local] Open Scope Z_scope.

(** ** Codec *)

Definition header_ok (h : message_header) : Prop :=
  Forall (fun z => 0 <= z < 2 ^ 32) [magic h; type h; sender_id h; sequence h; payload_len h; checksum h].

Lemma length_header_bytes h : length (header_bytes h) = header_size.
Proof. done. Qed.

Lemma header_reads h rest :
  header_ok h ->
  let buf := header_bytes h ++ rest in
  read_le 0 4 buf = Some (magic h) /\ read_le 4 4 buf = Some (type h) /\
  read_le 8 4 buf = Some (sender_id h) /\ read_le 12 4 buf = Some (sequence h) /\
  read_le 16 4 buf = Some (payload_len h) /\ read_le 20 4 buf = Some (checksum h).
Proof.
  intros Hok. repeat match goal with H : header_ok _ |- _ => unfold header_ok in H
    | H : Forall _ (_ :: _) |- _ => inversion_clear H end.
  cbv zeta. unfold header_bytes. rewrite <- !app_assoc.
  split_and!.
  - read_field (@nil Z).
  - read_field (le_bytes 4 (magic h)).
  - read_field (le_bytes 4 (magic h) ++ le_bytes 4 (type h)).
  - read_field (le_bytes 4 (magic h) ++ le_bytes 4 (type h) ++ le_bytes 4 (sender_id h)).
  - read_field (le_bytes 4 (magic h) ++ le_bytes 4 (type h) ++ le_bytes 4 (sender_id h) ++
                le_bytes 4 (sequence h)).
  - read_field (le_bytes 4 (magic h) ++ le_bytes 4 (type h) ++ le_bytes 4 (sender_id h) ++
                le_bytes 4 (sequence h) ++ le_bytes 4 (payload_len h)).
Qed.

(** Decoding memory that starts with a valid header and enough bytes after it. *)
Lemma deserialize_header mo h mem len :
  header_ok h -> magic h = MAGIC_NUMBER -> 0 < payload_len h -> (header_size <= len)%nat ->
  (Z.to_nat (payload_len h) <= length mem)%nat ->
  network_deserialize_message mo (header_bytes h ++ mem) len
  = Some (if mo then (0, Some (MkNetMsg h (Some (take (Z.to_nat (payload_len h)) mem)))) else (-1, None)).
Proof.
  intros Hok Hm Hpl Hlen Hmem. unfold network_deserialize_message. rewrite decide_False by lia.
  destruct (header_reads h mem Hok) as (-> & -> & -> & -> & -> & ->). cbn [mbind option_bind].
  rewrite decide_False by (by intros ?). rewrite decide_True by done.
  assert (Hr : read_bytes header_size (Z.to_nat (payload_len h)) (header_bytes h ++ mem)
               = Some (take (Z.to_nat (payload_len h)) mem)).
  { unfold read_bytes. rewrite decide_True by (rewrite length_app, length_header_bytes; lia).
    rewrite drop_app_ge by (by rewrite length_header_bytes).
    by rewrite length_header_bytes, Nat.sub_diag, drop_0. }
  destruct mo; [| done]. rewrite Hr. cbn [mbind option_bind]. by destruct h.
Qed.

Lemma payload_sum_range data : 0 <= payload_sum data < 2 ^ 32.
Proof.
  unfold payload_sum. destruct data as [|b data _] using rev_ind; [simpl; lia |].
  rewrite foldl_app. apply u32_range.
Qed.

(** The header [network_engine_send] makes. *)
Definition sent_header (e : network_engine) (ty sq : Z) (data : list Z) : message_header :=
  MkHeader MAGIC_NUMBER ty (node_id e) sq (u32 (Z.of_nat (length data))) (payload_sum data).

(** The bytes it hands to [send]. *)
Definition frame (id ty sq : Z) (data : list Z) : list Z :=
  network_serialize_message
    (MkNetMsg (MkHeader MAGIC_NUMBER ty id sq (u32 (Z.of_nat (length data))) (payload_sum data)) (Some data)).

Lemma frame_bytes e ty sq data :
  data <> [] -> Z.of_nat (length data) < 2 ^ 32 ->
  frame (node_id e) ty sq data = header_bytes (sent_header e ty sq data) ++ data.
Proof.
  intros Hne Hlen. unfold frame, network_serialize_message. cbn [header payload_len payload default].
  fold (sent_header e ty sq data). rewrite u32_small by lia.
  assert (0 < Z.of_nat (length data)) by (destruct data; simpl; [done | lia]).
  rewrite decide_True by done. by rewrite Nat2Z.id, take_ge by done.
Qed.

(** Whatever becomes of a send, what goes out is the frame of its message. *)
Lemma send_frames conn mo sent id ty data sq e rc sq' e' acts :
  network_engine_send conn mo sent id ty data sq e = (rc, sq', e', acts) ->
  (rc = 0 \/ rc = -1) /\ node_id e' = node_id e /\
  (sq' = sq /\ acts = [] \/ sq' = u32 (sq + 1) /\
   forall a, a ∈ acts -> (exists fd, a = Close fd) \/ exists fd, a = Send fd (frame (node_id e) ty sq data)).
Proof.
  unfold network_engine_send. destruct (find_peer e id) as [i|]; [| intros [= <- <- <- <-]; auto].
  destruct (if _ || _ then _ else _) as [rc1 p1].
  case_decide; [intros [= <- <- <- <-]; by auto |].
  destruct (connected p1); cbn [negb]; [| intros [= <- <- <- <-]; by auto].
  destruct mo; cbn [negb].
  2:{ intros [= <- <- <- <-]. split; [by right |]. split; [done |]. right. split; [done |]. by intros a ?%elem_of_nil. }
  case_decide; intros [= <- <- <- <-]; (split; [by auto |]); (split; [done |]); right; (split; [done |]); intros a.
  - intros [->|Ha]%elem_of_cons; [right; by eexists |]. left. case_decide.
    + apply list_elem_of_singleton in Ha. by eexists.
    + by apply elem_of_nil in Ha.
  - intros ->%list_elem_of_singleton. right. by eexists.
Qed.

(** A broadcast sends frames of its message only, and reports how many. *)
Lemma broadcast_frames outcome k ty data ids sq e :
  let '(n, _, e', acts) := broadcast_loop outcome k ty data ids sq e in
  0 <= n <= Z.of_nat (length ids) /\ node_id e' = node_id e /\
  forall fd b, Send fd b ∈ acts -> exists sq', b = frame (node_id e) ty sq' data.
Proof.
  revert k sq e. induction ids as [|id ids IH]; intros k sq e; simpl.
  { split; [lia |]. split; [done |]. by intros fd b ?%elem_of_nil. }
  destruct (outcome k) as [[conn mo] sent].
  destruct (network_engine_send conn mo sent id ty data sq e) as [[[rc sq1] e1] a1] eqn:Hs.
  destruct (send_frames _ _ _ _ _ _ _ _ _ _ _ _ Hs) as (_ & Hid & Ha).
  specialize (IH (S k) sq1 e1). destruct (broadcast_loop _ _ _ _ _ _ _) as [[[n sq2] e2] a2].
  destruct IH as (Hn & Hid2 & Hf). split; [case_decide; lia |]. split; [congruence |].
  intros fd b [Hin|Hin]%elem_of_app; [| rewrite <- Hid; eauto].
  destruct Ha as [[_ ->]|[_ Ha]]; [by apply elem_of_nil in Hin |].
  destruct (Ha _ Hin) as [[? ?]|[? [= -> ->]]]; [done |]. eauto.
Qed.

Lemma send_ok conn mo sent id ty data sq e sq' e' acts :
  network_engine_send conn mo sent id ty data sq e = (0, sq', e', acts) ->
  exists fd, acts = [Send fd (frame (node_id e) ty sq data)].
Proof.
  unfold network_engine_send. destruct (find_peer e id) as [i|]; [| done].
  destruct (if _ || _ then _ else _) as [rc p1]. case_decide; [done |].
  destruct (connected p1); [| done]. cbn [negb]. destruct mo; [| done]. cbn [negb].
  case_decide; [done |]. intros [= _ _ <-]. by exists (socket_fd p1).
Qed.

Lemma sent_header_ok e ty sq data :
  0 <= ty < 2 ^ 32 -> 0 <= node_id e < 2 ^ 32 -> 0 <= sq < 2 ^ 32 -> header_ok (sent_header e ty sq data).
Proof.
  intros. unfold header_ok, sent_header. simpl.
  repeat (constructor; [done || lia || apply u32_range || apply payload_sum_range |]). constructor.
Qed.

(** ** Theorems *)

(** A [recv] that starts with [bytes] returns all of them if they fit the buffer. *)
Lemma recv_whole (bytes rest : list Z) :
  Z.of_nat (length bytes) <= RECV_BUFFER_SIZE ->
  take (Z.to_nat RECV_BUFFER_SIZE) (bytes ++ rest) =
    bytes ++ take (Z.to_nat RECV_BUFFER_SIZE - length bytes) rest.
Proof. intros Hl. apply take_app_ge. lia. Qed.

(** A frame at the start of what [recv] returns is delivered, if there is memory. *)
Lemma frame_received mo e ty sq data fd2 rest buf e2 :
  data <> [] -> 0 <= ty < 2 ^ 32 -> 0 <= node_id e < 2 ^ 32 -> 0 <= sq < 2 ^ 32 ->
  Z.of_nat (header_size + length data) <= RECV_BUFFER_SIZE ->
  let bytes := frame (node_id e) ty sq data in
  exists buf',
    handle_readable mo true fd2 (Received (bytes ++ rest)) buf e2 =
      Some (if mo
            then (buf', count_received (Z.min RECV_BUFFER_SIZE (Z.of_nat (length (bytes ++ rest)))) e2,
                  [Deliver (node_id e) ty (Some data) (Z.of_nat (length data))])
            else (buf', e2, [])).
Proof.
  intros Hne Hty Hid Hsq Hlen. unfold RECV_BUFFER_SIZE in Hlen. cbv zeta.
  rewrite frame_bytes by (done || lia). eexists.
  unfold handle_readable. set (h := sent_header e ty sq data).
  rewrite (recv_whole (header_bytes h ++ data) rest) by (rewrite length_app, length_header_bytes; unfold RECV_BUFFER_SIZE; lia).
  set (rest' := take _ rest). rewrite <- !app_assoc.
  assert (Hpl : payload_len h = Z.of_nat (length data)) by (apply u32_small; lia).
  rewrite deserialize_header.
  - destruct mo; [| reflexivity].
    cbn [header payload]. rewrite Hpl, Nat2Z.id, take_app_length. repeat f_equal.
    rewrite !app_assoc, length_app. unfold rest'. rewrite length_take, !length_app, length_header_bytes.
    unfold RECV_BUFFER_SIZE, header_size in *. lia.
  - by apply sent_header_ok.
  - done.
  - rewrite Hpl. destruct data; simpl; [done | lia].
  - rewrite length_app, length_header_bytes. lia.
  - rewrite Hpl, Nat2Z.id, length_app. lia.
Qed.

(** C31: a message that is sent, fits the receive buffer and comes first in one [recv] is
    delivered once, with the sender's identity, its type and its payload; whatever else
    the same [recv] returned is dropped. *)
Theorem network_send_receive conn mo sent id ty data sq e sq' e' acts :
  network_engine_send conn mo sent id ty data sq e = (0, sq', e', acts) -> data <> [] ->
  0 <= ty < 2 ^ 32 -> 0 <= node_id e < 2 ^ 32 -> 0 <= sq < 2 ^ 32 ->
  Z.of_nat (header_size + length data) <= RECV_BUFFER_SIZE ->
  exists fd bytes, acts = [Send fd bytes] /\
  forall fd2 rest buf e2, exists buf',
    handle_readable true true fd2 (Received (bytes ++ rest)) buf e2 =
      Some (buf', count_received (Z.min RECV_BUFFER_SIZE (Z.of_nat (length (bytes ++ rest)))) e2,
            [Deliver (node_id e) ty (Some data) (Z.of_nat (length data))]).
Proof.
  intros Hs Hne Hty Hid Hsq Hlen. destruct (send_ok _ _ _ _ _ _ _ _ _ _ _ Hs) as [fd ->].
  exists fd. eexists. split; [done |]. intros fd2 rest buf e2. by apply (frame_received true).
Qed.

(** When [recv] returns only the first part of a message, the handler is called
    all the same, with the missing payload bytes taken from what earlier messages left
    in the receive buffer: neither the length nor the checksum is verified. *)
Theorem network_partial_receive h data k buf fd e :
  header_ok h -> magic h = MAGIC_NUMBER -> payload_len h = Z.of_nat (length data) ->
  (k < length data)%nat -> (header_size + length data <= length buf)%nat ->
  Z.of_nat (length buf) <= RECV_BUFFER_SIZE ->
  let got := header_bytes h ++ take k data in
  exists buf',
    handle_readable true true fd (Received got) buf e =
      Some (buf', count_received (Z.of_nat (length got)) e,
            [Deliver (sender_id h) (type h)
               (Some (take k data ++ take (length data - k) (drop (header_size + k) buf)))
               (payload_len h)]).
Proof.
  intros Hok Hm Hpl Hk Hbuf Hfit got. eexists. unfold handle_readable.
  assert (Hgl : length got = (header_size + k)%nat).
  { unfold got. rewrite length_app, length_header_bytes, length_take. lia. }
  rewrite (take_ge got) by (unfold RECV_BUFFER_SIZE in *; lia).
  assert (Hb : got ++ drop (length got) buf = header_bytes h ++ (take k data ++ drop (length got) buf))
    by (unfold got; by rewrite <- app_assoc).
  rewrite Hb, deserialize_header.
  - rewrite Hpl, Nat2Z.id, Hgl.
    rewrite take_app_ge by (rewrite length_take; lia). cbn [header payload].
    rewrite length_take, Nat.min_l by lia. by rewrite Hpl.
  - done.
  - done.
  - rewrite Hpl. lia.
  - rewrite Hgl. lia.
  - rewrite Hpl, Nat2Z.id, Hgl, length_app, length_take, length_drop. lia.
Qed.

(** ** The peer table *)

Definition engine_ok (e : network_engine) : Prop :=
  length (peers e) = MAX_PEERS /\ (num_peers e <= MAX_PEERS)%nat.

Lemma twice_split {A} (l : list A) a x :
  l !! a = Some x -> l !! S a = Some x -> l = take a l ++ x :: x :: drop (S (S a)) l.
Proof.
  intros Ha HSa. rewrite <- (take_drop_middle l a x Ha) at 1. f_equal. f_equal.
  apply list_eq. intros [|k].
  - rewrite lookup_drop, Nat.add_0_r. by rewrite HSa.
  - change ((x :: drop (S (S a)) l) !! S k) with (drop (S (S a)) l !! k).
    rewrite !lookup_drop. f_equal. lia.
Qed.

(** Removing a peer removes exactly the first entry with its identity and closes
    its socket, but the slot behind the new end keeps the last peer's connection, so
    that destroying the engine closes that peer's descriptor twice. *)
Theorem network_remove_peer_spec id e i :
  engine_ok e -> find_peer e id = Some i ->
  let '(rc, e', acts) := network_engine_remove_peer id e in
  rc = 0 /\ engine_ok e' /\ live_peers e' = delete i (live_peers e) /\
  (forall fd, 0 <= fd -> Close fd ∈ acts <-> fd = socket_fd (peers e !!! i)) /\
  (forall p, (S i < num_peers e)%nat -> peers e !! (num_peers e - 1)%nat = Some p ->
     0 <= socket_fd p ->
     exists xs ys, network_engine_destroy e' = xs ++ Close (socket_fd p) :: Close (socket_fd p) :: ys).
Proof.
  intros [Hlen Hn] Hf. unfold network_engine_remove_peer. rewrite Hf.
  pose proof Hf as (p0 & Hp0 & Hi & _)%first_idx_Some.
  set (ps := shift_left i (num_peers e) (peers e)).
  assert (Hps : length ps = MAX_PEERS) by (unfold ps; by rewrite length_shift_left).
  split_and!; try done; [split; [exact Hps | simpl; lia] | by apply take_shift_left; lia | |].
  - intros fd Hfd. case_decide as Hc.
    + rewrite list_elem_of_singleton. split; [by intros [= ->] | by intros ->].
    + rewrite elem_of_nil. split; [done |]. intros ->. lia.
  - intros p Hlast Hp Hfd. unfold network_engine_destroy. cbn [peers set_peers].
    assert (Ha : ps !! (num_peers e - 2)%nat = Some p).
    { unfold ps, shift_left. rewrite shift_loop_lookup by lia. rewrite decide_True by lia.
      by replace (S (num_peers e - 2)) with (num_peers e - 1)%nat by lia. }
    assert (Hb : ps !! S (num_peers e - 2) = Some p).
    { replace (S (num_peers e - 2)) with (num_peers e - 1)%nat by lia.
      unfold ps, shift_left. rewrite shift_loop_lookup by lia. by rewrite decide_False by lia. }
    rewrite take_ge by lia. rewrite (twice_split ps _ _ Ha Hb).
    rewrite fmap_app, list.filter_app, !fmap_cons, !filter_cons, !(decide_True (P := 0 <= socket_fd p)) by done.
    rewrite fmap_app, !fmap_cons, <- !app_assoc. cbn [app].
    rewrite app_assoc. eauto.
Qed.

(** ** The theorems at a concrete engine *)

Definition demo_engine : network_engine :=
  (network_engine_add_peer (Some (8, 100)) 2 "10.0.0.2" 9000
    (network_engine_add_peer (Some (7, 100)) 1 "10.0.0.1" 9000 (network_engine_init 5 9000)).2).2.

Lemma network_send_receive_witness :
  exists fd bytes, (network_engine_send None true 40 2 1 [3; 1; 4] 6 demo_engine).2 = [Send fd bytes] /\
  forall fd2 rest buf e2, exists buf',
    handle_readable true true fd2 (Received (bytes ++ rest)) buf e2 =
      Some (buf', count_received (Z.min RECV_BUFFER_SIZE (Z.of_nat (length (bytes ++ rest)))) e2,
            [Deliver 5 1 (Some [3; 1; 4]) 3]).
Proof.
  apply (network_send_receive None true 40 2 1 [3; 1; 4] 6 demo_engine 7
    (network_engine_send None true 40 2 1 [3; 1; 4] 6 demo_engine).1.2);
    [vm_compute; reflexivity | discriminate | lia | vm_compute; split; congruence | lia | vm_compute; congruence].
Defined.

Lemma network_partial_receive_witness :
  exists buf',
    handle_readable true true 7
      (Received (header_bytes (sent_header demo_engine 1 6 [3; 1; 4]) ++ [3])) (replicate 100 9)
      demo_engine =
    Some (buf', count_received 25 demo_engine, [Deliver 5 1 (Some [3; 9; 9]) 3]).
Proof.
  apply (network_partial_receive (sent_header demo_engine 1 6 [3; 1; 4]) [3; 1; 4] 1
           (replicate 100 9) 7 demo_engine).
  - apply sent_header_ok; [lia | vm_compute; split; congruence | lia].
  - reflexivity.
  - reflexivity.
  - simpl. lia.
  - apply Nat.leb_le. reflexivity.
  - vm_compute. congruence.
Defined.

Lemma network_remove_peer_spec_witness :
  exists xs ys, network_engine_destroy (network_engine_remove_peer 1 demo_engine).1.2
    = xs ++ Close 8 :: Close 8 :: ys.
Proof.
  pose proof (network_remove_peer_spec 1 demo_engine 0
    ltac:(split; [reflexivity | apply Nat.leb_le; reflexivity]) eq_refl)
    as (_ & _ & _ & _ & H).
  apply (H (MkPeer 2 "10.0.0.2" 9000 8 true 100)); [apply Nat.leb_le; reflexivity | reflexivity | simpl; lia].
Defined.
