(* ===== verification/PaxosTypes.v ===== *)
(** * A cluster of Paxos nodes: types

    Every field of every node and message stays in the range of its C type, so a message
    whose value is short enough for one receive buffer survives the wire format of
    [paxos.c] inside that of [network_engine.c], the flag [is_noop] apart. *)

From stdpp Require Import base list numbers.
From S2P Require Import Prelude Network NetworkThm.
From S2P Require Import Paxos PaxosThm PaxosCluster PaxosAgree.

#[local] Open Scope Z_scope.

(** ** Typed states *)

Definition u64_ok (z : Z) : Prop := 0 <= z < 2 ^ 64.

Definition u32_ok (z : Z) : Prop := 0 <= z < 2 ^ 32.

Lemma u64_typed z : u64_ok (u64 z).
Proof. apply u64_range. Qed.

Lemma u32_typed z : u32_ok (u32 z).
Proof. apply u32_range. Qed.

Lemma lor_u64 a b : u64_ok a -> u64_ok b -> u64_ok (Z.lor a b).
Proof.
  intros [Ha Ha'] [Hb Hb']. split; [by apply Z.lor_nonneg |].
  destruct (Z.eq_dec (Z.lor a b) 0) as [->|Hne]; [lia |].
  pose proof (Z.lor_nonneg a b) as Hn. apply Z.log2_lt_pow2; [lia |]. rewrite Z.log2_lor by done.
  destruct (Z.eq_dec a 0) as [->|], (Z.eq_dec b 0) as [->|]; try done;
    apply Z.max_lub_lt; try (simpl; lia); apply Z.log2_lt_pow2; lia.
Qed.

(** Values whose messages, with both headers, fit one receive buffer. *)
Definition short (v : list Z) : Prop :=
  Z.of_nat (header_size + (header_len + length v)) <= RECV_BUFFER_SIZE.

Lemma short_length v : short v -> Z.of_nat (length v) <= 65456.
Proof. unfold short, header_size, header_len, RECV_BUFFER_SIZE. lia. Qed.

(** A value in flight: its bytes and their number. *)
Definition value_ok (v : cvalue) (len : Z) : Prop :=
  exists x, v = Some x /\ x <> [] /\ short x /\ Z.of_nat (length x) = len.

Record slot_typed (p : paxos_proposal) : Prop := {
  st_id : u64_ok (p_id p);
  st_seq : u64_ok (p_seq p);
  st_len : u64_ok (p_len p);
  st_promises : u32_ok (promise_count p);
  st_accepts : u32_ok (accept_count p);
  st_rejects : u32_ok (reject_count p);
  st_value : in_use p = true -> value_ok (p_value p) (p_len p);
}.

Record node_typed (n : paxos_node) : Prop := {
  nt_id : u32_ok (node_id n);
  nt_total : u32_ok (total_nodes n);
  nt_quorum : u32_ok (quorum_size n);
  nt_seen : u64_ok (highest_proposal_seen n);
  nt_committed : u64_ok (highest_sequence_committed n);
  nt_persisted : u64_ok (highest_sequence_persisted n);
  nt_next : u64_ok (next_sequence_number n);
  nt_accepted : u64_ok (last_accepted_proposal n);
  nt_timeout : u32_ok (proposal_timeout_ms n);
  nt_slots : Forall slot_typed (active_proposals n);
  nt_max : max_proposals n = length (active_proposals n);
}.

(** An ACCEPT or LEARN message carries a value; the others may carry none. *)
Definition carries_value (m : paxos_message) : Prop :=
  value_ok (value m) (value_len m) \/
  phase m <> PAXOS_PHASE_ACCEPT /\ phase m <> PAXOS_PHASE_LEARN /\ value m = None /\ value_len m = 0.

Definition msg_typed (m : paxos_message) : Prop := msg_ok m /\ carries_value m.

Definition eff_typed (e : effect) : Prop :=
  match e with
  | Persist s v len | Apply s v len => u64_ok s /\ u64_ok len /\ value_ok v len
  | Broadcast m => msg_typed m
  end.

(** Closes the side conditions of a step: fields that are unchanged, wrapped or copied. *)
#[local] Ltac typed :=
  repeat match goal with
         | H : node_typed _ |- _ => destruct H
         | H : msg_ok _ |- _ => destruct H as (? & ? & ? & ? & ? & ? & ? & ?)
         end;
  split; simpl; try done.

#[local] Ltac each := simpl; rewrite ?list.Forall_cons, ?list.Forall_nil; done.

Lemma msg_fields m :
  msg_ok m -> u64_ok (proposal_id m) /\ u64_ok (sequence_number m) /\ u64_ok (value_len m).
Proof. intros (_ & ? & ? & _ & _ & _ & ? & _). done. Qed.

Lemma zero_typed : slot_typed zero_proposal.
Proof. by split. Qed.

Lemma upd_slot_typed i f n :
  (forall p, slot_typed p -> slot_typed (f p)) -> node_typed n -> node_typed (upd_slot i f n).
Proof.
  intros Hf Hn. typed; [| by rewrite length_alter]. apply Forall_alter; [done |]. eauto.
Qed.

Lemma slot_is_typed i n : node_typed n -> slot_typed (slot n i).
Proof.
  intros Hn. unfold slot. destruct (active_proposals n !! i) as [p|] eqn:Hi; [| apply zero_typed].
  eapply Forall_lookup_1; [apply Hn | exact Hi].
Qed.

Lemma add_promise_typed p : slot_typed p -> slot_typed (add_promise p).
Proof. intros []. split; simpl; try done. apply u32_typed. Qed.

Lemma add_accept_typed p : slot_typed p -> slot_typed (add_accept p).
Proof. intros []. split; simpl; try done. apply u32_typed. Qed.

Lemma mark_committed_typed p : slot_typed p -> slot_typed (mark_committed p).
Proof. intros []. by split. Qed.

Lemma value_msg_ok m :
  u32_ok (phase m) -> u64_ok (proposal_id m) -> u64_ok (sequence_number m) -> u32_ok (sender_id m) ->
  u32_ok (acceptor_id m) -> u64_ok (accepted_id m) -> u64_ok (value_len m) ->
  value_ok (value m) (value_len m) \/ value m = None /\ value_len m = 0 -> msg_ok m.
Proof.
  intros H1 H2 H3 H4 H5 H6 H7 Hv. unfold msg_ok. split_and!; try apply H1; try apply H2; try apply H3; try apply H4; try apply H5; try apply H6; try apply H7.
  destruct Hv as [(x & -> & ? & ? & ?)|[-> ->]]; done.
Qed.

(** ** Steps of a node *)

Lemma find_in_use n pid i : find_proposal n pid = Some i -> in_use (slot n i) = true.
Proof.
  intros Hf. apply first_idx_Some in Hf as (p & Hl & _ & (_ & Hu & _) & _).
  unfold slot. by rewrite Hl.
Qed.

Lemma accepted_typed n m :
  node_typed n -> msg_ok m ->
  let '(_, r, n', eff) := handle_accepted n m in
  node_typed n' /\ Forall eff_typed eff /\ r = None.
Proof.
  intros Hn Hm. destruct (msg_fields m Hm) as (_ & Hseq & _).
  unfold handle_accepted. destruct (find_proposal _ _) as [i|] eqn:Hf; [| done].
  set (n1 := upd_slot i add_accept n).
  assert (Hn1 : node_typed n1) by (apply upd_slot_typed; [apply add_accept_typed | done]).
  destruct (paxos_check_quorum _ _); [| done].
  assert (Hu : in_use (slot n1 i) = true).
  { apply first_idx_Some in Hf as (p & Hl & _ & (_ & Hu & _) & _).
    unfold slot, n1, upd_slot. simpl. by rewrite list_lookup_alter_eq, Hl. }
  destruct (slot_is_typed i n1 Hn1) as [Hid Hsq Hlen _ _ _ Hval]. specialize (Hval Hu).
  assert (Hl : msg_typed (learn_msg n (slot n1 i))).
  { split; [apply value_msg_ok; simpl; try done; [apply Hn | by left] |]. by left. }
  split_and!; [| | done].
  - assert (Hn2 : node_typed (upd_slot i mark_committed n1))
      by (apply upd_slot_typed; [apply mark_committed_typed | done]).
    case_decide; [| done]. by typed.
  - assert (eff_typed (Apply (sequence_number m) (p_value (slot n1 i)) (p_len (slot n1 i)))) by done.
    destruct (apply_callback n), (broadcast_callback n); each.
Qed.

Lemma handle_typed rc n m :
  node_typed n -> msg_typed m ->
  let '(_, r, n', eff) := paxos_handle_message rc n m in
  node_typed n' /\ Forall eff_typed eff /\
  from_option msg_typed True r.
Proof.
  intros Hn [Hm Hv]. destruct (msg_fields m Hm) as (Hpid & Hseq & Hlen).
  assert (Hresp : forall ph aid, ph = PAXOS_PHASE_PROMISE \/ ph = PAXOS_PHASE_ACCEPTED -> u64_ok aid ->
    let r := MkMsg ph (proposal_id m) (sequence_number m) (node_id n) (node_id n) aid None 0 false in
    msg_typed r).
  { intros ph aid Hph Haid r. split.
    - apply value_msg_ok; simpl; try done; try apply Hn; [by destruct Hph as [->| ->] | by right].
    - right. by destruct Hph as [->| ->]. }
  unfold paxos_handle_message.
  case_decide.
  { unfold handle_prepare. case_decide; [| done]. split_and!; [by typed | done |].
    apply Hresp; [by left | apply Hn]. }
  case_decide.
  { unfold handle_promise. destruct (find_proposal _ _); [| done]. split_and!; try done.
    apply upd_slot_typed; [apply add_promise_typed | done]. }
  case_decide as Hacc.
  { assert (He : eff_typed (Persist (sequence_number m) (value m) (value_len m)))
      by (simpl; split; [done | split; [done |]]; destruct Hv as [?|(? & _)]; done).
    assert (Hn' : node_typed (set_last_accepted (proposal_id m) (set_seen (proposal_id m) n))) by (by typed).
    unfold handle_accept. case_decide; [| done]. pose proof (Hresp PAXOS_PHASE_ACCEPTED 0 (or_intror eq_refl) ltac:(done)).
    destruct (_ && _); [case_decide |]; (split_and!; [| each | done]); try done. by typed. }
  case_decide as Hacd.
  { pose proof (accepted_typed n m Hn Hm) as Ha.
    destruct (handle_accepted n m) as [[[ret r] n'] eff]. by destruct Ha as (? & ? & ->). }
  case_decide as Hl; [| done]. assert (Hx : value_ok (value m) (value_len m)) by (by destruct Hv as [?|(_ & ? & _)]).
  unfold handle_learn. case_decide; [| done]. split_and!; [| | done].
  - destruct (_ && _); by typed.
  - destruct (_ && _), (apply_callback n); each.
Qed.

(** What a call of [paxos_propose] holds. *)
Definition pc_typed (v : list Z) (pc : propose_pc) : Prop :=
  match pc with
  | PStart | PDone _ => True
  | PSequence pid => v <> [] /\ u64_ok pid
  | _ => v <> [] /\ forall pid s, pc_ticket pc = Some (pid, s) -> u64_ok pid /\ u64_ok s
  end.

Lemma next_pid_typed n : node_typed n -> u64_ok (paxos_next_proposal_id n).1.
Proof.
  intros Hn. unfold paxos_next_proposal_id. simpl. case_decide; [unfold UINT64_MAX; split; lia |].
  apply lor_u64; [apply u64_typed |]. rewrite land_ffff.
  pose proof (Z.mod_pos_bound (node_id n) (2 ^ 16) ltac:(lia)). split; lia.
Qed.

Lemma propose_typed ob v pc n :
  short v -> node_typed n -> pc_typed v pc ->
  let '(pc', n', eff) := propose_step ob v pc n in
  node_typed n' /\ Forall eff_typed eff /\ pc_typed v pc'.
Proof.
  intros Hsh Hn Hpc. assert (Hlen : u64_ok (Z.of_nat (length v))) by (apply short_length in Hsh; unfold u64_ok; lia).
  assert (Hrel : forall i, node_typed (upd_slot i paxos_release_proposal_slot n))
    by (intros; apply upd_slot_typed; [intros; apply zero_typed | done]).
  destruct pc as [|pid|pid s|i pid s|i pid s|i pid s|i pid s|i pid s|i pid s|i pid s|i pid s|rc];
    cbn [propose_step]; try done.
  1:{ case_decide; [done |]. destruct (negb _); [done |]. pose proof (next_pid_typed n Hn) as Hp.
      destruct (paxos_next_proposal_id n) as [pid n'] eqn:He. cbn [fst] in Hp.
      split; [| by split_and!; try apply Hp].
      unfold paxos_next_proposal_id in He. injection He as <- <-. by typed. }
  1:{ destruct Hpc as [Hv Hp]. split; [| split; [done |]; split; [done |]].
      - typed. apply u64_typed.
      - intros ? ? [= <- <-]. split; [done | apply Hn]. }
  all: destruct Hpc as [Hv Hp]; destruct (Hp pid s eq_refl) as [Hpid Hseq];
    assert (Hnext : forall pc, pc_ticket pc = Some (pid, s) -> pc_typed v pc)
      by (intros [] He; simplify_eq/=; (split; [done |]); intros; by simplify_eq).
  - destruct (first_idx _ _ _) as [i|]; [| done].
    destruct (malloc_ok ob); (split_and!; [| done | first [done | by apply Hnext]]); apply upd_slot_typed; try done.
    + intros p []. split; simpl; try done. by exists v.
    + intros p []. by split.
  - assert (Forall eff_typed [Broadcast (prepare_msg n pid s)]).
    { apply Forall_singleton. split; [apply value_msg_ok; simpl; try done; [apply Hn | by right] |]. by right. }
    case_decide; split_and!; first [done | by apply Hnext].
  - destruct (paxos_wait_for_condition _ _ _ _); [case_decide |]; split_and!; first [done | by apply Hnext].
  - split_and!; [| done | by apply Hnext]. case_decide; [| done]. by typed.
  - assert (Forall eff_typed [Persist s (Some v) (Z.of_nat (length v))])
      by (apply Forall_singleton; split_and!; try done; by exists v).
    destruct (persist_callback n); [case_decide |]; split_and!; first [done | by apply Hnext].
  - split_and!; [| done | by apply Hnext]. case_decide; [| done]. by typed.
  - split_and!; [| done | by apply Hnext]. apply upd_slot_typed; [| done]. intros p []. by split.
  - assert (Hval : value_ok (Some v) (Z.of_nat (length v))) by (by exists v).
    assert (Forall eff_typed [Broadcast (accept_msg n pid s v)]).
    { apply Forall_singleton. split; [apply value_msg_ok; simpl; try done; [apply Hn | by left] |]. by left. }
    case_decide; split_and!; first [done | by apply Hnext].
  - destruct (paxos_wait_for_condition _ _ _ _); split_and!; first [done | by apply Hnext].
Qed.

(** ** The cluster *)

Definition event_short (ev : event) : Prop :=
  match ev with EvPropose _ v => short v | _ => True end.

Record cluster_typed (c : cluster) : Prop := {
  ct_nodes : Forall node_typed (nodes c);
  ct_threads : Forall (fun th => short (t_value th) /\ pc_typed (t_value th) (t_pc th)) (threads c);
  ct_transit : Forall (fun x => msg_typed x.2) (transit c);
  ct_logs : Forall (Forall eff_typed) (logs c);
}.

Lemma commit_typed k n eff c :
  cluster_typed c -> node_typed n -> Forall eff_typed eff -> cluster_typed (commit_effects k n eff c).
Proof.
  intros [H1 H2 H3 H4] Hn He. split; simpl; try done.
  - by apply Forall_insert.
  - apply list.Forall_app. split; [done |]. apply Forall_bind.
    eapply list.Forall_impl; [exact He |]. intros [| |m] Hm; simpl; [constructor .. |].
    apply Forall_fmap, list.Forall_forall. done.
  - apply Forall_alter; [done |]. intros l _ Hl. by apply list.Forall_app.
Qed.

Lemma step_typed ev c : event_short ev -> cluster_typed c -> cluster_typed (cluster_step ev c).
Proof.
  intros Hev Hc. destruct ev as [k v|t ob|j rc]; simpl.
  - destruct Hc as [H1 H2 H3 H4]. split; simpl; try done. apply list.Forall_app. split; [done |].
    by apply Forall_singleton.
  - destruct (threads c !! t) as [th|] eqn:Ht; [| done]. destruct (nodes c !! t_node th) as [n|] eqn:Hn; [| done].
    pose proof (proj1 (Forall_lookup _ _) (ct_nodes _ Hc) _ _ Hn) as Hnt.
    pose proof (proj1 (Forall_lookup _ _) (ct_threads _ Hc) _ _ Ht) as [Hsh Hpc].
    pose proof (propose_typed ob (t_value th) (t_pc th) n Hsh Hnt Hpc) as Hp.
    destruct (propose_step _ _ _ _) as [[pc' n'] eff]. destruct Hp as (Hn' & He & Hpc').
    destruct (commit_typed (t_node th) n' eff c Hc Hn' He) as [H1 H2 H3 H4]. split; simpl; try done.
    by apply Forall_insert.
  - destruct (transit c !! j) as [[d m]|] eqn:Hj; [| done].
    pose proof (proj1 (Forall_lookup _ _) (ct_transit _ Hc) _ _ Hj) as Hm.
    unfold deliver_message. simpl. destruct (nodes c !! d) as [n|] eqn:Hn.
    2:{ destruct Hc as [H1 H2 H3 H4]. split; simpl; try done. by apply Forall_delete. }
    pose proof (proj1 (Forall_lookup _ _) (ct_nodes _ Hc) _ _ Hn) as Hnt.
    pose proof (handle_typed rc n m Hnt Hm) as Hh.
    destruct (paxos_handle_message rc n m) as [[[ret r] n'] eff]. destruct Hh as (Hn' & He & Hr).
    assert (Hc1 : cluster_typed (MkCluster (nodes c) (threads c) (delete j (transit c)) (logs c)))
      by (destruct Hc as [H1 H2 H3 H4]; split; simpl; try done; by apply Forall_delete).
    destruct (commit_typed d n' eff _ Hc1 Hn' He) as [H1 H2 H3 H4].
    destruct r as [r|]; [case_decide |]; split; simpl in *; try done.
    apply list.Forall_app. split; [done | by apply Forall_singleton].
Qed.

Lemma run_typed evs c : Forall event_short evs -> cluster_typed c -> cluster_typed (cluster_run evs c).
Proof.
  intros Hev. revert c. induction Hev as [|ev evs Hs _ IH]; intros c Hc; [done |]. simpl. by apply IH, step_typed.
Qed.

Lemma init_typed total : cluster_size_ok total -> cluster_typed (cluster_init total).
Proof.
  intros Hok. split; try (by constructor).
  - apply Forall_lookup. intros k n Hk. destruct (init_node _ _ _ Hok Hk) as [Hlt ->]. destruct Hok as [? _].
    clear Hk. split; cbn -[replicate]; try done; unfold u32_ok, u64_ok; try lia; try apply u32_range.
    apply Forall_replicate, zero_typed.
  - apply Forall_replicate. constructor.
Qed.

(** ** Theorems *)

Lemma length_paxos_serialize pad addr junk m :
  length pad = 4%nat -> msg_typed m ->
  let data := paxos_serialize_message pad addr junk m in
  data <> [] /\ Z.of_nat (header_size + length data) <= RECV_BUFFER_SIZE.
Proof.
  intros Hpad [Hm Hv] data. pose proof (length_msg_header pad addr m Hpad) as Hl.
  unfold data, paxos_serialize_message. set (rest := match value m with Some _ => _ | None => _ end).
  assert (Hr : Z.of_nat (length rest) <= 65456).
  { unfold rest. destruct Hv as [(x & -> & _ & Hsh%short_length & Hx)|(_ & _ & -> & ->)]; [| simpl; lia].
    case_decide; rewrite length_take; lia. }
  split; [intros Hn; apply (f_equal length) in Hn |]; rewrite length_app, Hl in *;
    unfold header_len, header_size, RECV_BUFFER_SIZE in *; simpl in *; lia.
Qed.

(** A frame with a Paxos message that [recv] returns whole is handed on, if there is
    memory for it. *)
Lemma typed_travels pad addr junk m mo e sq fd2 rest buf e2 :
  length pad = 4%nat -> msg_typed m -> u32_ok (Network.node_id e) -> u32_ok sq ->
  let data := paxos_serialize_message pad addr junk m in
  exists buf' e2',
    handle_readable mo true fd2 (Received (frame (Network.node_id e) MSG_TYPE_PAXOS sq data ++ rest)) buf e2 =
      Some (buf', e2', if mo then [Deliver (Network.node_id e) MSG_TYPE_PAXOS (Some data) (Z.of_nat (length data))]
                       else []).
Proof.
  intros Hpad Hm Hid Hsq data.
  destruct (length_paxos_serialize pad addr junk m Hpad Hm) as [Hne Hlen]. fold data in Hne, Hlen.
  destruct (frame_received mo e MSG_TYPE_PAXOS sq data fd2 rest buf e2 Hne ltac:(done) Hid Hsq Hlen)
    as [buf' Hb].
  exists buf'. rewrite Hb. by destruct mo; eexists.
Qed.

(** It decodes as that message, but for the flag that is not transmitted, or, without
    memory for the value, reports an error. *)
Lemma typed_decodes mo pad addr junk m old :
  length pad = 4%nat -> msg_typed m ->
  exists rc m', paxos_deserialize_message mo (paxos_serialize_message pad addr junk m) old = Some (rc, m') /\
  (rc = 0 -> m' = set_noop (is_noop old) m).
Proof.
  intros Hpad [Hm _]. destruct mo.
  { exists 0. eexists. split; [by apply paxos_message_roundtrip | done]. }
  pose proof (length_msg_header pad addr m Hpad) as Hlen.
  unfold paxos_deserialize_message, paxos_serialize_message.
  rewrite decide_False by (rewrite length_app, Hlen; lia).
  destruct (header_fields pad addr m (match value m with
    | Some v => if decide (0 < value_len m) then take (Z.to_nat (value_len m)) v
                else take (Z.to_nat (value_len m)) junk
    | None => take (Z.to_nat (value_len m)) junk end) Hpad Hm) as (-> & -> & -> & -> & -> & -> & ->).
  cbn [mbind option_bind]. case_decide; [by eexists (-1), _ |]. exists 0. eexists. split; [done |].
  intros _. destruct Hm as (_ & _ & _ & _ & _ & _ & _ & Hv). unfold set_noop.
  destruct (value m) as [[|]|]; [by destruct Hv | | done]. destruct Hv as [_ Hv]. simpl in Hv. lia.
Qed.

(** Types are kept. *)
Theorem paxos_cluster_types total evs :
  let c := cluster_run evs (cluster_init total) in
  cluster_size_ok total -> Forall event_short evs -> cluster_typed c.
Proof. intros c Hok Hev. exact (run_typed evs _ Hev (init_typed total Hok)). Qed.
