(* ===== verification/PaxosWire.v ===== *)
(** * A cluster of Paxos nodes: bytes on the wire

    The nodes of [Paxos] joined by the network code of [src/src/distributed_frontend.cpp]
    ([paxos_broadcast_message], [handle_network_message]) and [network_engine.c]: messages
    are serialised into frames, frames are bytes, a receiver decodes what one [recv] put
    into its buffer.  While every [recv] returns a frame whole, a run of this cluster is a
    run of the message-level cluster of [PaxosCluster], where the nodes' invariants are
    proved.  What the engines' peer tables and connections decide (which peers a frame
    goes to) is an argument of the events; [NetworkThm.broadcast_frames] shows that all
    they send is frames of the message. *)

From stdpp Require Import base sets list numbers.
From S2P Require Import Prelude Network NetworkThm.
From S2P Require Import Paxos PaxosThm PaxosCluster PaxosAgree PaxosTypes.

#[local] Open Scope Z_scope.

(** ** Sending *)

(** What a serialisation and the sends after it meet: the padding and the value pointer in
    the structure, what [malloc] left in the buffer, whether there is memory, and for every
    peer the engine's sequence number if a frame goes out to it. *)
Record posting := MkPosting {
  padding : Z;
  pointer : Z;
  leftover : list Z;
  serialized : bool;
  sequence_to : nat -> option Z;
}.

(** A frame on its way to a node. *)
Definition packet : Type := nat * list Z.

Definition serialize (p : posting) (m : paxos_message) : list Z :=
  paxos_serialize_message (le_bytes 4 (padding p)) (pointer p) (leftover p) m.

(** [network_engine_send] of node [k] to node [d]. *)
Definition post (p : posting) (k : nat) (data : list Z) (d : nat) : list packet :=
  match sequence_to p d with
  | Some sq => [(d, frame (Z.of_nat k) MSG_TYPE_PAXOS (u32 sq) data)]
  | None => []
  end.

(** Result code and what goes out; the number of frames sent is never negative. *)
Definition paxos_broadcast_message (p : posting) (total k : nat) (m : paxos_message) : Z * list packet :=
  if serialized p
  then (0, filter (fun d => d <> k) (seq 0 total) ≫= post p k (serialize p m))
  else (-1, []).

Definition effect_packets (p : posting) (total k : nat) (e : effect) : list packet :=
  match e with
  | Broadcast m => (paxos_broadcast_message p total k m).2
  | _ => []
  end.

(** ** Receiving *)

(** What the reception of a message meets: memory for the payload and for the value, the
    result of [persist_callback], the uninitialised [msg], and the sends of the answer
    and of a LEARN broadcast. *)
Record receipt := MkReceipt {
  payload_malloc : bool;
  value_malloc : bool;
  persisted_rc : Z;
  stack_msg : paxos_message;
  answer : posting;
  announce : posting;
}.

(** Node, callbacks made, frames sent; [None] when the decoder reads past the payload. *)
Definition handle_network_message (x : receipt) (total k : nat) (sender ty : Z)
    (payload : option (list Z)) (n : paxos_node) : option (paxos_node * list effect * list packet) :=
  if decide (ty = MSG_TYPE_PAXOS) then
    match payload with
    | None => Some (n, [], [])
    | Some data =>
        match paxos_deserialize_message (value_malloc x) data (stack_msg x) with
        | None => None
        | Some (rc, msg) =>
            if decide (rc = 0) then
              let '(ret, response, n', eff) := paxos_handle_message (persisted_rc x) n msg in
              let out := eff ≫= effect_packets (announce x) total k in
              match response with
              | Some r =>
                  if decide (ret = 0) then
                    Some (n', eff, out ++ (if serialized (answer x)
                                           then post (answer x) k (serialize (answer x) r) (Z.to_nat sender)
                                           else []))
                  else Some (n', eff, out)
              | None => Some (n', eff, out)
              end
            else Some (n, [], [])
        end
    end
  else Some (n, [], []).

(** ** The cluster *)

(** [w_bufs]: the receive buffer of every node's event loop. *)
Record wire := MkWire {
  w_nodes : list paxos_node;
  w_threads : list thread;
  w_net : list packet;
  w_logs : list (list effect);
  w_bufs : list (list Z);
}.

(** A reception of packet [j]: with [cut] = [None] one [recv] returns it whole and then
    [rest]; with [Some i] only its first [i] bytes, the others staying on the way. *)
Inductive wire_event :=
| WPropose (k : nat) (v : list Z)
| WThread (t : nat) (ob : observation) (p : posting)
| WRecv (j : nat) (cut : option nat) (rest : list Z) (x : receipt).

(** Result of the broadcast callback a step of [paxos_propose] makes. *)
Definition broadcast_result (p : posting) (ob : observation) : observation :=
  MkObs (malloc_ok ob) (persist_rc ob) (if serialized p then 0 else -1) (woken ob).

(** Node [d] reads [data] into its buffer [buf]. *)
Definition receive (x : receipt) (d : nat) (n : paxos_node) (buf data : list Z) (w : wire) : option wire :=
  match handle_readable (payload_malloc x) true 0 (Received data) buf (network_engine_init (Z.of_nat d) 0) with
  | None => None
  | Some (buf', _, Deliver sender ty payload _ :: _) =>
      match handle_network_message x (length (w_nodes w)) d sender ty payload n with
      | None => None
      | Some (n', eff, out) =>
          Some (MkWire (<[d := n']> (w_nodes w)) (w_threads w) (w_net w ++ out)
                  (alter (fun l => l ++ eff) d (w_logs w)) (<[d := buf']> (w_bufs w)))
      end
  | Some (buf', _, _) =>
      Some (MkWire (w_nodes w) (w_threads w) (w_net w) (w_logs w) (<[d := buf']> (w_bufs w)))
  end.

(** [None]: undefined behaviour. *)
Definition wire_step (ev : wire_event) (w : wire) : option wire :=
  match ev with
  | WPropose k v =>
      Some (MkWire (w_nodes w) (w_threads w ++ [MkThread k v PStart]) (w_net w) (w_logs w) (w_bufs w))
  | WThread t ob p =>
      match w_threads w !! t with
      | None => Some w
      | Some th =>
          match w_nodes w !! t_node th with
          | None => Some w
          | Some n =>
              let '(pc', n', eff) := propose_step (broadcast_result p ob) (t_value th) (t_pc th) n in
              Some (MkWire (<[t_node th := n']> (w_nodes w))
                      (<[t := MkThread (t_node th) (t_value th) pc']> (w_threads w))
                      (w_net w ++ (eff ≫= effect_packets p (length (w_nodes w)) (t_node th)))
                      (alter (fun l => l ++ eff) (t_node th) (w_logs w)) (w_bufs w))
          end
      end
  | WRecv j cut rest x =>
      match w_net w !! j with
      | None => Some w
      | Some (d, bytes) =>
          let '(data, net) :=
            match cut with
            | None => (bytes ++ rest, delete j (w_net w))
            | Some i => (take i bytes, <[j := (d, drop i bytes)]> (w_net w))
            end in
          match w_nodes w !! d, w_bufs w !! d with
          | Some n, Some buf =>
              receive x d n buf data (MkWire (w_nodes w) (w_threads w) net (w_logs w) (w_bufs w))
          | _, _ => Some w
          end
      end
  end.

Fixpoint wire_run (evs : list wire_event) (w : wire) : option wire :=
  match evs with
  | [] => Some w
  | ev :: evs' => match wire_step ev w with Some w' => wire_run evs' w' | None => None end
  end.

(** [bufs]: what the receive buffers hold at first. *)
Definition wire_init (total : nat) (bufs : list (list Z)) : wire :=
  let c := cluster_init total in MkWire (nodes c) (threads c) [] (logs c) bufs.

(** Every [recv] returns a frame whole, and proposals fit the receive buffer. *)
Definition whole (ev : wire_event) : Prop :=
  match ev with
  | WPropose _ v => short v
  | WThread _ _ _ => True
  | WRecv _ cut _ _ => cut = None
  end.

(** ** Simulation by the message-level cluster *)

(** The packet holds the message, sent by the node the message names. *)
Definition encodes (x : packet) (y : nat * paxos_message) : Prop :=
  x.1 = y.1 /\ exists p sq, x.2 = frame (sender_id y.2) MSG_TYPE_PAXOS (u32 sq) (serialize p y.2).

(** The packets are messages in transit, some of which were never sent or are lost. *)
Definition carried_by (net : list packet) (tr : list (nat * paxos_message)) : Prop :=
  exists l, l ⊆+ tr /\ Forall2 encodes net l.

Lemma carried_app n1 t1 n2 t2 : carried_by n1 t1 -> carried_by n2 t2 -> carried_by (n1 ++ n2) (t1 ++ t2).
Proof.
  intros (l1 & Hs1 & Hf1) (l2 & Hs2 & Hf2). exists (l1 ++ l2). split; [by apply submseteq_app |].
  by apply Forall2_app.
Qed.

Lemma carried_nil tr : carried_by [] tr.
Proof. exists []. split; [apply submseteq_nil_l | done]. Qed.

(** A packet that is taken off the wire is a message that can be delivered. *)
Lemma carried_delete net tr j x :
  carried_by net tr -> net !! j = Some x ->
  carried_by (delete j net) tr /\
  exists i y, tr !! i = Some y /\ encodes x y /\ carried_by (delete j net) (delete i tr).
Proof.
  intros (l & Hs & Hf) Hj. destruct (Forall2_lookup_l _ _ _ _ _ Hf Hj) as (y & Hy & He).
  assert (Hd : Forall2 encodes (delete j net) (delete j l)) by (by apply Forall2_delete).
  split.
  - exists (delete j l). split; [| done]. etrans; [apply sublist_submseteq, sublist_delete | done].
  - assert (Hin : y ∈ tr) by (eapply elem_of_submseteq; [by eapply list_elem_of_lookup_2 | done]).
    apply list_elem_of_lookup in Hin as [i Hi]. exists i, y. split_and!; try done.
    exists (delete j l). split; [| done].
    apply (submseteq_app_inv_l _ _ [y]). simpl.
    by rewrite <- (delete_Permutation _ _ _ Hy), <- (delete_Permutation _ _ _ Hi).
Qed.

Lemma post_carried p k m d :
  sender_id m = Z.of_nat k -> carried_by (post p k (serialize p m) d) [(d, m)].
Proof.
  intros Hs. unfold post. destruct (sequence_to p d) as [sq|]; [| apply carried_nil].
  exists [(d, m)]. split; [done |]. constructor; [| done]. split; [done |]. exists p, sq. by rewrite <- Hs.
Qed.

Lemma effects_carried p total k eff :
  (forall m, Broadcast m ∈ eff -> sender_id m = Z.of_nat k) ->
  carried_by (eff ≫= effect_packets p total k) (eff ≫= broadcast_message total k).
Proof.
  induction eff as [|e eff IH]; intros Hs; [apply carried_nil |]. rewrite !bind_cons.
  apply carried_app; [| apply IH; intros m Hm; apply Hs; by right].
  destruct e as [| |m]; [apply carried_nil .. |]. simpl. unfold paxos_broadcast_message.
  destruct (serialized p); [| apply carried_nil]. cbn [snd].
  specialize (Hs m ltac:(by left)). generalize (filter (fun d => d <> k) (seq 0 total)) as ds.
  induction ds as [|d ds IHd]; [apply carried_nil |]. rewrite bind_cons, fmap_cons.
  apply (carried_app _ [(d, m)]); [by apply post_carried | done].
Qed.

(** Nodes sign what they send. *)
Lemma handle_signed rc n m :
  let '(_, r, n', eff) := paxos_handle_message rc n m in
  node_id n' = node_id n /\ (forall m', Broadcast m' ∈ eff -> sender_id m' = node_id n) /\
  (forall m', r = Some m' -> sender_id m' = node_id n).
Proof.
  pose proof (handle_identity rc n m) as [Hid _].
  destruct (paxos_handle_message rc n m) as [[[ret r] n'] eff] eqn:He. split; [done |]. revert He.
  unfold paxos_handle_message, handle_prepare, handle_promise, handle_accept, handle_accepted, handle_learn.
  repeat (case_decide || case_match); intros [= <- <- <- <-]; split; intros m' Hm'; simplify_eq/=; try done;
    rewrite ?elem_of_cons, ?elem_of_nil in Hm'; naive_solver.
Qed.

Lemma propose_signed ob v pc n :
  let '(_, n', eff) := propose_step ob v pc n in
  node_id n' = node_id n /\ forall m, Broadcast m ∈ eff -> sender_id m = node_id n.
Proof.
  pose proof (propose_identity ob v pc n) as [Hid _].
  destruct (propose_step ob v pc n) as [[pc' n'] eff] eqn:He. split; [done |]. revert He.
  destruct pc; simpl; unfold paxos_next_proposal_id; repeat (case_decide || case_match); intros [= <- <- <-] m Hm;
    rewrite ?elem_of_cons, ?elem_of_nil in Hm; naive_solver.
Qed.

(** The flag that is lost plays no part. *)
Lemma handle_noop rc n b m : paxos_handle_message rc n (set_noop b m) = paxos_handle_message rc n m.
Proof. done. Qed.

Record simulates (w : wire) (c : cluster) : Prop := {
  si_nodes : w_nodes w = nodes c;
  si_threads : w_threads w = threads c;
  si_logs : w_logs w = logs c;
  si_net : carried_by (w_net w) (transit c);
  si_bufs : length (w_bufs w) = length (nodes c);
  si_ids : forall k n, nodes c !! k = Some n -> node_id n = Z.of_nat k;
}.

Lemma ids_insert (ns : list paxos_node) k n n' :
  (forall j m, ns !! j = Some m -> node_id m = Z.of_nat j) -> ns !! k = Some n -> node_id n' = node_id n ->
  forall j m, <[k := n']> ns !! j = Some m -> node_id m = Z.of_nat j.
Proof.
  intros Hids Hk Hid j m [(<- & <- & _)|[_ Hj]]%list_lookup_insert_Some; [| eauto]. rewrite Hid. eauto.
Qed.

Lemma thread_simulated t ob p w c :
  simulates w c ->
  exists w', wire_step (WThread t ob p) w = Some w' /\
    simulates w' (cluster_step (EvThread t (broadcast_result p ob)) c).
Proof.
  intros [Hn Ht Hl Hnet Hb Hids]. simpl. rewrite Ht, Hn.
  destruct (threads c !! t) as [th|]; [| by eauto using simulates].
  destruct (nodes c !! t_node th) as [n|] eqn:Hk; [| by eauto using simulates].
  pose proof (propose_signed (broadcast_result p ob) (t_value th) (t_pc th) n) as Hs.
  destruct (propose_step _ _ _ _) as [[pc' n'] eff]. destruct Hs as [Hid Hs]. eexists. split; [done |].
  split; cbn [w_nodes w_threads w_net w_logs w_bufs nodes threads transit logs commit_effects];
    rewrite ?Hl; try done.
  - apply carried_app; [done |]. apply effects_carried. intros m Hm. rewrite (Hs _ Hm). by apply Hids.
  - by rewrite length_insert.
  - by apply (ids_insert _ _ n).
Qed.

(** What one reception of a whole frame does is a delivery, or nothing. *)
Lemma message_handled x c d i m n net :
  transit c !! i = Some (d, m) -> nodes c !! d = Some n -> msg_typed m ->
  (forall k n, nodes c !! k = Some n -> node_id n = Z.of_nat k) ->
  carried_by net (transit c) -> carried_by net (delete i (transit c)) ->
  forall p, exists n' eff out evs,
    handle_network_message x (length (nodes c)) d (sender_id m) MSG_TYPE_PAXOS (Some (serialize p m)) n
      = Some (n', eff, out) /\
    Forall event_short evs /\ node_id n' = node_id n /\
    let c' := cluster_run evs c in
    nodes c' = <[d := n']> (nodes c) /\ threads c' = threads c /\
    logs c' = alter (fun l => l ++ eff) d (logs c) /\ carried_by (net ++ out) (transit c').
Proof.
  intros Hi Hd Hm Hids Hnet Hnet' p. unfold handle_network_message. rewrite decide_True by done.
  destruct (typed_decodes (value_malloc x) (le_bytes 4 (padding p)) (pointer p) (leftover p) m (stack_msg x))
    as (rc & m' & He & Hm'); [apply length_le_bytes | done |].
  unfold serialize. rewrite He.
  assert (Hstay : forall l : list (list effect), alter (fun l => l ++ []) d l = l).
  { intros l. apply list_eq. intros k. destruct (decide (d = k)) as [<-|];
      [| by rewrite list_lookup_alter_ne].
    rewrite list_lookup_alter_eq. destruct (l !! d); simpl; by rewrite ?app_nil_r. }
  case_decide as Hrc.
  2:{ exists n, [], [], []. split_and!; try done; simpl; rewrite ?list_insert_id, ?Hstay, ?app_nil_r by done; done. }
  rewrite (Hm' Hrc), handle_noop. pose proof (handle_signed (persisted_rc x) n m) as Hs.
  pose proof (Hids _ _ Hd) as Hnid.
  assert (Hrun : forall evs, cluster_run [EvDeliver i (persisted_rc x)] c = evs -> evs =
     deliver_message (persisted_rc x) d m (MkCluster (nodes c) (threads c) (delete i (transit c)) (logs c)))
    by (intros evs <-; simpl; by rewrite Hi).
  specialize (Hrun _ eq_refl). unfold deliver_message in Hrun. cbn [nodes] in Hrun. rewrite Hd in Hrun.
  destruct (paxos_handle_message (persisted_rc x) n m) as [[[ret r] n'] eff]. destruct Hs as (Hid & Hse & Hsr).
  assert (Heff : carried_by (eff ≫= effect_packets (announce x) (length (nodes c)) d)
                            (eff ≫= broadcast_message (length (nodes c)) d))
    by (apply effects_carried; intros m2 Hm2; rewrite (Hse _ Hm2); exact Hnid).
  assert (Hresp : forall m2, r = Some m2 -> carried_by
    (if serialized (answer x) then post (answer x) d (serialize (answer x) m2) (Z.to_nat (sender_id m)) else [])
    [(Z.to_nat (sender_id m), m2)]).
  { intros m2 Hr. destruct (serialized _); [| apply carried_nil]. apply post_carried. rewrite (Hsr _ Hr). exact Hnid. }
  destruct r as [r|]; [case_decide |]; do 3 eexists; exists [EvDeliver i (persisted_rc x)];
    (split; [done |]); (split; [by repeat constructor |]); (split; [done |]); cbv zeta; rewrite Hrun; split_and!; try done;
    cbn [transit commit_effects]; rewrite ?app_assoc; repeat apply carried_app; try done; by apply Hresp.
Qed.

Lemma recv_simulated j rest x w c :
  simulates w c -> cluster_typed c ->
  exists w' evs, wire_step (WRecv j None rest x) w = Some w' /\ Forall event_short evs /\
    simulates w' (cluster_run evs c).
Proof.
  intros [Hn Ht Hl Hnet Hb Hids] Hty. simpl. destruct (w_net w !! j) as [[d bytes]|] eqn:Hj.
  2:{ exists w, []. split; [done |]. split; [constructor | done]. }
  destruct (carried_delete _ _ _ _ Hnet Hj) as (Hdel & i & [d' m] & Hi & [Hdd (p & sq & Hbytes)] & Hdel').
  simpl in Hdd, Hbytes. subst d' bytes. rewrite Hn. destruct (nodes c !! d) as [n|] eqn:Hd.
  2:{ exists w, []. split; [done |]. split; [constructor | done]. }
  destruct (w_bufs w !! d) as [buf|] eqn:Hbuf.
  2:{ exfalso. apply lookup_ge_None in Hbuf. apply lookup_lt_Some in Hd. lia. }
  pose proof (proj1 (Forall_lookup _ _) (ct_transit _ Hty) _ _ Hi) as Hm. simpl in Hm.
  assert (Hsid : u32_ok (sender_id m)) by (destruct Hm as [(_ & _ & _ & ? & _) _]; done).
  destruct (typed_travels (le_bytes 4 (padding p)) (pointer p) (leftover p) m (payload_malloc x)
    (network_engine_init (sender_id m) 0) (u32 sq) 0 rest buf (network_engine_init (Z.of_nat d) 0)
    (length_le_bytes _ _) Hm Hsid (u32_typed sq)) as (buf' & e2 & Hr).
  cbn [Network.node_id network_engine_init] in Hr. fold (serialize p m) in Hr.
  unfold receive. unfold network_engine_init in Hr |- *. rewrite Hr.
  destruct (payload_malloc x).
  2:{ eexists; exists []. split; [done |]. split; [constructor |]. split; simpl; try done. by rewrite length_insert. }
  destruct (message_handled x c d i m n (delete j (w_net w)) Hi Hd Hm Hids Hdel Hdel' p)
    as (n' & eff & out & evs & Hh & Hsh & Hid & Hn' & Ht' & Hl' & Hnet').
  cbn [w_nodes]. rewrite Hh. eexists; exists evs. split; [done |]. split; [done |].
  split; cbn [w_nodes w_threads w_net w_logs w_bufs]; try congruence.
  - rewrite Hn', !length_insert. done.
  - rewrite Hn'. by apply (ids_insert _ _ n).
Qed.

Lemma step_simulated ev w c :
  whole ev -> simulates w c -> cluster_typed c ->
  exists w' evs, wire_step ev w = Some w' /\ Forall event_short evs /\ simulates w' (cluster_run evs c).
Proof.
  intros Hw Hs Hty. destruct ev as [k v|t ob p|j cut rest x].
  - eexists; exists [EvPropose k v]. split; [done |]. split; [by repeat constructor |].
    destruct Hs as [Hn Ht Hl Hnet Hb Hids]. split; simpl; try done. by rewrite Ht.
  - destruct (thread_simulated t ob p w c Hs) as (w' & Hstep & Hw'). exists w', [EvThread t (broadcast_result p ob)].
    by split_and!; [| repeat constructor |].
  - simpl in Hw. subst cut. by apply recv_simulated.
Qed.

Lemma run_simulated evs w c :
  Forall whole evs -> simulates w c -> cluster_typed c ->
  exists w' evs', wire_run evs w = Some w' /\ Forall event_short evs' /\ simulates w' (cluster_run evs' c).
Proof.
  intros Hev. revert w c. induction Hev as [|ev evs Hw _ IH]; intros w c Hs Hty.
  { exists w, []. split; [done |]. split; [constructor | done]. }
  destruct (step_simulated ev w c Hw Hs Hty) as (w1 & evs1 & H1 & Hsh1 & Hs1).
  destruct (IH w1 _ Hs1 (run_typed _ _ Hsh1 Hty)) as (w2 & evs2 & H2 & Hsh2 & Hs2).
  exists w2, (evs1 ++ evs2). simpl. rewrite H1. split; [done |]. split; [by apply list.Forall_app |].
  unfold cluster_run in *. by rewrite foldl_app.
Qed.

Lemma wire_simulated total bufs evs :
  cluster_size_ok total -> length bufs = total -> Forall whole evs ->
  exists w evs', wire_run evs (wire_init total bufs) = Some w /\ Forall event_short evs' /\
    simulates w (cluster_run evs' (cluster_init total)).
Proof.
  intros Hok Hb Hev. apply run_simulated; [done | | by apply init_typed].
  split; try done.
  - apply carried_nil.
  - simpl. by rewrite length_fmap, length_seq.
  - intros k n Hk. by destruct (init_node _ _ _ Hok Hk) as [_ ->].
Qed.

(** ** Executions *)

(** Every send succeeds; there is memory. *)
Definition mail : posting := MkPosting 0 4096 [] true (fun _ => Some 7).

Definition calmly (rc : Z) : receipt := MkReceipt true true rc zero_msg mail mail.

(** The events of a message-level run with nothing lost. *)
Definition wired (ev : event) : wire_event :=
  match ev with
  | EvPropose k v => WPropose k v
  | EvThread t ob => WThread t ob mail
  | EvDeliver j rc => WRecv j None [] (calmly rc)
  end.

(** Node 0 proposes two bytes; the ACCEPT message to node 1 loses its last byte to the
    next [recv]. *)
Definition cut_accept : list wire_event :=
  [WPropose 0 [65; 66]] ++ replicate 4 (WThread 0 calm mail) ++
  [WRecv 0 None [] (calmly 0); WRecv 1 None [] (calmly 0)] ++ replicate 6 (WThread 0 calm mail) ++
  [WRecv 1 (Some 81%nat) [] (calmly 0)].

(** ** Theorems *)

(** C38: the bytes carry the protocol. In a cluster of an admitted size without restarts,
    whose proposals fit the receive buffer and whose frames are each returned whole by one
    [recv], whatever is not sent, lost, delayed or reordered and whatever memory or log
    writes fail, decoding never leaves its buffer; nodes, calls and logs are those of a
    run of the message-level cluster; all fields of all nodes stay in the ranges of their
    C types, and every frame on the wire is the encoding of a well-typed message. *)
Theorem paxos_wire_refines total bufs evs :
  cluster_size_ok total -> length bufs = total -> Forall whole evs ->
  exists w evs', wire_run evs (wire_init total bufs) = Some w /\
  let c := cluster_run evs' (cluster_init total) in
  w_nodes w = nodes c /\ w_threads w = threads c /\ w_logs w = logs c /\
  Forall node_typed (w_nodes w) /\
  forall d bytes, (d, bytes) ∈ w_net w ->
  exists m p sq, (d, m) ∈ transit c /\ msg_typed m /\
    bytes = frame (sender_id m) MSG_TYPE_PAXOS (u32 sq) (serialize p m).
Proof.
  intros Hok Hb Hev. destruct (wire_simulated total bufs evs Hok Hb Hev) as (w & evs' & Hrun & Hsh & Hs).
  exists w, evs'. split; [done |]. pose proof (paxos_cluster_types total evs' Hok Hsh) as Hty.
  set (c := cluster_run evs' (cluster_init total)) in *. cbv zeta.
  destruct Hs as [Hn Ht Hl Hnet _ _]. split_and!; try done; [rewrite Hn; apply Hty |].
  intros d bytes Hin. apply list_elem_of_lookup in Hin as [j Hj].
  destruct (carried_delete _ _ _ _ Hnet Hj) as (_ & i & [d' m] & Hi & [Hd (p & sq & Hbytes)] & _).
  simpl in Hd, Hbytes. subst d'. exists m, p, sq.
  split; [by eapply list_elem_of_lookup_2 |]. split; [| done].
  exact (proj1 (Forall_lookup _ _) (ct_transit _ Hty) _ _ Hi).
Qed.

(** C27: validity. In a cluster of an admitted size without restarts, whose proposals fit
    the receive buffer and whose frames are each returned whole by one [recv], whatever
    else is lost, delayed, reordered or fails, no decoding leaves its buffer and every
    value a node hands to its log or to its state machine is the value of some call of
    [paxos_propose], whole and with its length. *)
Theorem paxos_validity total bufs evs :
  cluster_size_ok total -> length bufs = total -> Forall whole evs ->
  exists w, wire_run evs (wire_init total bufs) = Some w /\
  forall k l s v len, w_logs w !! k = Some l -> Apply s v len ∈ l \/ Persist s v len ∈ l ->
  exists th, th ∈ w_threads w /\ v = Some (t_value th) /\ len = Z.of_nat (length (t_value th)).
Proof.
  intros Hok Hb Hev. destruct (wire_simulated total bufs evs Hok Hb Hev) as (w & evs' & Hrun & _ & Hs).
  exists w. split; [done |]. rewrite (si_logs _ _ Hs), (si_threads _ _ Hs). intros k l s v len.
  apply (cluster_validity total evs').
Qed.

(** C4: what Paxos nodes agree on. In a cluster of an admitted size without restarts, with
    fewer than 2^48 proposals that fit the receive buffer and frames each returned whole by
    one [recv], whatever else is lost, delayed, reordered or fails: a proposal number
    stands for one sequence number and one value in all ACCEPT and LEARN messages any two
    nodes broadcast; and if all proposals are made on one node, any two nodes log and
    apply the same value under a sequence number, also when proposals overlap. *)
Theorem paxos_agreement total bufs evs :
  cluster_size_ok total -> length bufs = total -> Forall whole evs ->
  exists w, wire_run evs (wire_init total bufs) = Some w /\
  (Z.of_nat (length (w_threads w)) < 2 ^ 48 ->
   forall j k lj lk, w_logs w !! j = Some lj -> w_logs w !! k = Some lk ->
   (forall m m', Broadcast m ∈ lj -> Broadcast m' ∈ lk ->
      phase m = PAXOS_PHASE_ACCEPT \/ phase m = PAXOS_PHASE_LEARN ->
      phase m' = PAXOS_PHASE_ACCEPT \/ phase m' = PAXOS_PHASE_LEARN ->
      proposal_id m = proposal_id m' ->
      sequence_number m = sequence_number m' /\ value m = value m') /\
   (forall p s v len v' len', Forall (fun th => t_node th = p) (w_threads w) ->
      Apply s v len ∈ lj \/ Persist s v len ∈ lj -> Apply s v' len' ∈ lk \/ Persist s v' len' ∈ lk ->
      v = v')).
Proof.
  intros Hok Hb Hev. destruct (wire_simulated total bufs evs Hok Hb Hev) as (w & evs' & Hrun & _ & Hs).
  exists w. split; [done |]. rewrite (si_logs _ _ Hs), (si_threads _ _ Hs).
  by apply (cluster_agreement total evs').
Qed.

(** The hypothesis on [recv] is needed: node 1 logs a byte nobody proposed, one that an
    earlier message left in its buffer. *)
Example paxos_cut_logs_unproposed :
  exists w, wire_run cut_accept (wire_init 3 (replicate 3 (replicate 100 9))) = Some w /\
  w_threads w = [MkThread 0 [65; 66] (PWaitCommit 0 65536 1)] /\
  w_logs w !! 1%nat = Some [Persist 1 (Some [65; 9]) 2].
Proof. eexists. split; [vm_compute; reflexivity |]. split; vm_compute; reflexivity. Qed.

Lemma one_proposer_whole : Forall whole (wired <$> one_proposer).
Proof. repeat constructor. vm_compute. congruence. Qed.

Lemma paxos_wire_refines_witness :
  exists w d bytes, wire_run (wired <$> first_round) (wire_init 3 [[]; []; []]) = Some w /\
  (d, bytes) ∈ w_net w /\
  exists m p sq, msg_typed m /\ bytes = frame (sender_id m) MSG_TYPE_PAXOS (u32 sq) (serialize p m).
Proof.
  destruct (paxos_wire_refines 3 [[]; []; []] (wired <$> first_round)) as (w & evs' & Hrun & Hall).
  - split; vm_compute; done.
  - reflexivity.
  - repeat constructor. vm_compute. congruence.
  - destruct Hall as (_ & _ & _ & _ & Hnet). exists w.
    assert (Hin : (2%nat, frame 0 MSG_TYPE_PAXOS 7 (serialize mail (MkMsg PAXOS_PHASE_LEARN 65536 1 0 0 65536 (Some [65]) 1 false))) ∈ w_net w).
    { assert (Hw : w_net w = default [] (w_net <$> wire_run (wired <$> first_round) (wire_init 3 [[]; []; []])))
        by (by rewrite Hrun).
      rewrite Hw. apply (bool_decide_unpack _). vm_compute. exact I. }
    do 2 eexists. split; [exact Hrun |]. split; [exact Hin |].
    destruct (Hnet _ _ Hin) as (m & p & sq & _ & Hm & Hb). exists m, p, sq. exact (conj Hm Hb).
Defined.

Lemma paxos_validity_witness :
  exists w, wire_run (wired <$> one_proposer) (wire_init 3 [[]; []; []]) = Some w /\
  exists th, th ∈ w_threads w /\ Some [65] = Some (t_value th) /\ 1 = Z.of_nat (length (t_value th)).
Proof.
  destruct (paxos_validity 3 [[]; []; []] (wired <$> one_proposer)) as (w & Hrun & Hv);
    [split; vm_compute; done | reflexivity | exact one_proposer_whole |].
  exists w. split; [exact Hrun |].
  apply (Hv 1%nat [Persist 1 (Some [65]) 1; Apply 1 (Some [65]) 1] 1).
  - vm_compute in Hrun. injection Hrun as <-. reflexivity.
  - left. apply (bool_decide_unpack _). vm_compute. exact I.
Defined.

Lemma paxos_agreement_witness :
  exists w l1 l2, wire_run (wired <$> one_proposer) (wire_init 3 [[]; []; []]) = Some w /\
    w_logs w !! 1%nat = Some l1 /\ w_logs w !! 2%nat = Some l2 /\
    Apply 1 (Some [65]) 1 ∈ l1 /\ forall v len, Apply 1 v len ∈ l2 \/ Persist 1 v len ∈ l2 -> Some [65] = v.
Proof.
  destruct (paxos_agreement 3 [[]; []; []] (wired <$> one_proposer)) as (w & Hrun & Ha);
    [split; vm_compute; done | reflexivity | exact one_proposer_whole |].
  pose proof Hrun as Hrun'. vm_compute in Hrun'. injection Hrun' as Hw.
  exists w. do 2 eexists. split; [exact Hrun |].
  split; [rewrite <- Hw; reflexivity |]. split; [rewrite <- Hw; reflexivity |].
  assert (Hin : Apply 1 (Some [65]) 1 ∈ [Persist 1 (Some [65]) 1; Apply 1 (Some [65]) 1])
    by (apply (bool_decide_unpack _); vm_compute; exact I).
  split; [exact Hin |]. intros v len Hv.
  refine (proj2 (Ha _ 1%nat 2%nat _ _ _ _) 0%nat 1 _ 1 v len _ (or_introl Hin) Hv).
  - rewrite <- Hw. vm_compute. reflexivity.
  - rewrite <- Hw. reflexivity.
  - rewrite <- Hw. reflexivity.
  - rewrite <- Hw. by repeat constructor.
Defined.
