(* ===== verification/Storage.v ===== *)
(** * The storage interface: [src/distributed_core/src/storage_interface.c], [include/storage_interface.h]

    The registry of storage nodes, the selection of nodes for a new file and the
    request/reply exchanges with a node.  Sockets are outside: what [connect],
    [send] and [recv] return is an argument, and what is sent is recorded. *)

From stdpp Require Import base strings list numbers.
From Stdlib Require Import Ascii.
From S2P Require Import Prelude CString.

#[local] Open Scope Z_scope.

(** ** Data *)

Record storage_node_info := MkNodeInfo {
  node_id : Z;
  ip_address : string;
  port : Z;
  capacity : Z;
  used : Z;
  available : Z;
  online : bool;
  last_heartbeat : Z;
}.

Definition zero_node : storage_node_info := MkNodeInfo 0 EmptyString 0 0 0 0 false 0.

#[export] Instance storage_node_inhabited : Inhabited storage_node_info := populate zero_node.

Record storage_response := MkResp {
  status : Z;
  error_msg : string;
  data : option (list Z);
  data_len : Z;
  bytes_transferred : Z;
}.

Definition zero_resp : storage_response := MkResp 0 EmptyString None 0 0.

(** [wire] is what has been sent so far: for each connection on which anything was sent,
    the node and the bytes. *)
Record storage_interface := MkIface {
  nodes : list storage_node_info;
  num_nodes : nat;
  max_nodes : nat;
  next_node_idx : nat;
  total_reads : Z;
  total_writes : Z;
  total_deletes : Z;
  bytes_written : Z;
  bytes_read : Z;
  wire : list (Z * list Z);
}.

Definition set_nodes (ns : list storage_node_info) (n : nat) (s : storage_interface)
  : storage_interface :=
  MkIface ns n (max_nodes s) (next_node_idx s) (total_reads s) (total_writes s)
    (total_deletes s) (bytes_written s) (bytes_read s) (wire s).

Definition set_next (i : nat) (s : storage_interface) : storage_interface :=
  MkIface (nodes s) (num_nodes s) (max_nodes s) i (total_reads s) (total_writes s)
    (total_deletes s) (bytes_written s) (bytes_read s) (wire s).

Definition count_write (n : Z) (s : storage_interface) : storage_interface :=
  MkIface (nodes s) (num_nodes s) (max_nodes s) (next_node_idx s) (total_reads s)
    (u64 (total_writes s + 1)) (total_deletes s) (u64 (bytes_written s + n)) (bytes_read s)
    (wire s).

Definition count_read (n : Z) (s : storage_interface) : storage_interface :=
  MkIface (nodes s) (num_nodes s) (max_nodes s) (next_node_idx s) (u64 (total_reads s + 1))
    (total_writes s) (total_deletes s) (bytes_written s) (u64 (bytes_read s + n)) (wire s).

Definition count_delete (s : storage_interface) : storage_interface :=
  MkIface (nodes s) (num_nodes s) (max_nodes s) (next_node_idx s) (total_reads s)
    (total_writes s) (u64 (total_deletes s + 1)) (bytes_written s) (bytes_read s) (wire s).

(** [bytes] are sent to node [id]. *)
Definition on_wire (id : Z) (bytes : list Z) (s : storage_interface) : storage_interface :=
  MkIface (nodes s) (num_nodes s) (max_nodes s) (next_node_idx s) (total_reads s)
    (total_writes s) (total_deletes s) (bytes_written s) (bytes_read s) (wire s ++ [(id, bytes)]).

Definition fail (msg : string) : storage_response := MkResp (-1) (strncpy 255 msg) None 0 0.

(** ** Registry *)

Definition storage_interface_init (max : nat) : storage_interface :=
  MkIface (replicate max zero_node) 0 max 0 0 0 0 0 0 [].

Definition storage_interface_register_node (now id : Z) (ip : string) (prt cap : Z)
    (s : storage_interface) : Z * storage_interface :=
  if decide (max_nodes s <= num_nodes s)%nat then (-1, s)
  else
    (0, set_nodes (<[num_nodes s := MkNodeInfo id (strncpy 63 ip) prt cap 0 cap true now]> (nodes s))
          (S (num_nodes s)) s).

Definition find_node (s : storage_interface) (id : Z) : option nat :=
  first_idx (fun n => node_id n = id) (num_nodes s) (nodes s).

Definition storage_interface_unregister_node (id : Z) (s : storage_interface)
  : Z * storage_interface :=
  match find_node s id with
  | None => (-1, s)
  | Some i => (0, set_nodes (shift_left i (num_nodes s) (nodes s)) (num_nodes s - 1) s)
  end.

Definition storage_interface_update_node_status (now id us av : Z) (on : bool)
    (s : storage_interface) : Z * storage_interface :=
  match find_node s id with
  | None => (-1, s)
  | Some i =>
      let f n := MkNodeInfo (node_id n) (ip_address n) (port n) (capacity n) us av on now in
      (0, set_nodes (alter f i (nodes s)) (num_nodes s) s)
  end.

Definition storage_interface_get_node (s : storage_interface) (id : Z) : option storage_node_info :=
  i ← find_node s id; nodes s !! i.

Definition storage_interface_get_healthy_nodes (s : storage_interface) (max : nat)
  : list storage_node_info :=
  take max (filter (fun n => online n = true) (take (num_nodes s) (nodes s))).

(** ** Selection *)

Definition eligible (file_size : Z) (n : storage_node_info) : Prop :=
  online n = true /\ file_size <= available n.

#[export] Instance eligible_dec fs n : Decision (eligible fs n).
Proof. unfold eligible. apply _. Defined.

(** The [while] loop with [attempts] turns left; [sel] is [selected_nodes]. *)
Fixpoint select_loop (attempts : nat) (file_size : Z) (k : nat) (ns : list storage_node_info)
    (n : nat) (next : nat) (sel : list Z) : list Z * nat :=
  match attempts with
  | O => (sel, next)
  | S attempts' =>
      if decide (length sel < k)%nat then
        let node := ns !!! (next `mod` n)%nat in
        let sel' := if decide (eligible file_size node /\ node_id node ∉ sel)
                    then sel ++ [node_id node] else sel in
        select_loop attempts' file_size k ns n ((next + 1) `mod` n)%nat sel'
      else (sel, next)
  end.

(** The result code, the selected identities and the interface. *)
Definition storage_interface_select_nodes (file_size : Z) (k : nat) (s : storage_interface)
  : Z * list Z * storage_interface :=
  if decide (k = O) then (-1, [], s)
  else
    let '(sel, next) := select_loop (num_nodes s * 2) file_size k (nodes s) (num_nodes s)
                          (next_node_idx s) [] in
    (Z.of_nat (length sel), sel, set_next next s).

(** ** Requests *)

(** Sending [length] bytes: results of the successive [send]s, [None] when they run out
    (the call blocks).  Result: sent everything, or failed. *)
Fixpoint send_loop (sends : list Z) (total length : Z) : option bool :=
  if decide (total < length) then
    match sends with
    | [] => None
    | r :: sends' => if decide (r < 0) then Some false
                     else send_loop sends' (u64 (total + r)) length
    end
  else Some true.

(** How many bytes that loop has handed to [send] when it ends. *)
Fixpoint send_total (sends : list Z) (total length : Z) : Z :=
  if decide (total < length) then
    match sends with
    | [] => total
    | r :: sends' => if decide (r < 0) then total else send_total sends' (u64 (total + r)) length
    end
  else total.

(** What one exchange observes: the results of [connect], of the [send] of the header,
    of the [send]s of the data, and the reply ([None]: [recv] failed); [stale] is what the
    stack holds past a reply shorter than six bytes. *)
Record exchange := MkExch {
  connect_ok : bool;
  header_sent : Z;
  data_sent : list Z;
  reply : option string;
  stale : string;
}.

Definition not_found (id : Z) : string := ("Storage node " +:+ (fmt_u id +:+ " not found"))%string.

Definition no_connection (id : Z) : string :=
  ("Failed to connect to storage node " +:+ fmt_u id)%string.

(** The request lines, [snprintf] into 256 bytes. *)
Definition newline : string := String "010"%char EmptyString.

Definition range_request (cmd fid : string) (offset len : Z) : string :=
  strncpy 255 (cmd +:+ (fid +:+ ("|" +:+ (fmt_u offset +:+ ("|" +:+ (fmt_u len +:+ newline))))))%string.

Definition write_request (fid : string) (offset len : Z) : string := range_request "WRITE|" fid offset len.

Definition read_request (fid : string) (offset len : Z) : string := range_request "READ|" fid offset len.

Definition delete_request (fid : string) : string := strncpy 255 ("DELETE|" +:+ (fid +:+ newline))%string.

(** The part of a request line that a [send] which returned [n] took. *)
Definition sent_line (n : Z) (line : string) : list Z := take (Z.to_nat n) (str_bytes line).

(** [None]: blocked in the data loop. *)
Definition storage_interface_write (x : exchange) (id : Z) (fid : string) (offset : Z)
    (bytes : list Z) (s : storage_interface)
  : option (Z * storage_response * storage_interface) :=
  let len := Z.of_nat (length bytes) in
  let request := write_request fid offset len in
  match storage_interface_get_node s id with
  | None => Some (-1, fail (not_found id), s)
  | Some _ =>
      if negb (connect_ok x) then Some (-1, fail (no_connection id), s)
      else if decide (header_sent x < 0) then Some (-1, fail "Send header failed", s)
      else
        let s := on_wire id (sent_line (header_sent x) request ++
                             take (Z.to_nat (send_total (data_sent x) 0 len)) bytes) s in
        match send_loop (data_sent x) 0 len with
        | None => None
        | Some false => Some (-1, fail "Send data failed", s)
        | Some true =>
            match reply x with
            | None => Some (-1, fail "Receive response failed", s)
            | Some r =>
                if decide (str_take 3 r = "OK|"%string)
                then Some (0, MkResp 0 EmptyString None 0 len, count_write len s)
                else
                  let msg := if decide (6 <= String.length r)%nat then str_drop 6 r else stale x in
                  Some (-1, MkResp (-1) (strncpy 255 msg) None 0 0, s)
            end
        end
  end.

(** Receiving up to [length] bytes: [None] in the list is an error, an empty chunk the
    end of the connection. *)
Fixpoint recv_loop (recvs : list (option (list Z))) (got : list Z) (length_ : Z)
  : option (option (list Z)) :=
  if decide (Z.of_nat (length got) < length_) then
    match recvs with
    | [] => None
    | None :: _ => Some None
    | Some chunk :: recvs' =>
        if decide (chunk = []) then Some (Some got)
        else recv_loop recvs' (got ++ take (Z.to_nat (length_ - Z.of_nat (length got))) chunk) length_
    end
  else Some (Some got).

Definition storage_interface_read (malloc_ok : Z -> bool) (conn : bool) (header_sent : Z)
    (recvs : list (option (list Z))) (id : Z) (fid : string) (offset len : Z)
    (s : storage_interface) : option (Z * storage_response * storage_interface) :=
  match storage_interface_get_node s id with
  | None => Some (-1, fail (not_found id), s)
  | Some _ =>
      if negb conn then Some (-1, fail (no_connection id), s)
      else if decide (header_sent < 0) then Some (-1, fail "Send request failed", s)
      else
        let s := on_wire id (sent_line header_sent (read_request fid offset len)) s in
        if negb (malloc_ok len) then Some (-1, fail "Memory allocation failed", s)
        else
          match recv_loop recvs [] len with
          | None => None
          | Some None => Some (-1, fail "Receive data failed", s)
          | Some (Some got) =>
              let n := Z.of_nat (length got) in
              Some (0, MkResp 0 EmptyString (Some got) n n, count_read n s)
          end
  end.

(** [reply]: [None] when [recv] returns no data. *)
Definition storage_interface_delete (conn : bool) (request_sent : Z) (reply : option string)
    (id : Z) (fid : string) (s : storage_interface) : Z * storage_response * storage_interface :=
  match storage_interface_get_node s id with
  | None => (-1, fail (not_found id), s)
  | Some _ =>
      if negb conn then (-1, fail (no_connection id), s)
      else if decide (request_sent < 0) then (-1, fail "Send request failed", s)
      else
        let s := on_wire id (sent_line request_sent (delete_request fid)) s in
        match reply with
        | None => (0, zero_resp, s)
        | Some r =>
            if decide (str_take 2 r = "OK"%string) then (0, zero_resp, count_delete s)
            else (-1, MkResp (-1) (strncpy 255 r) None 0 0, s)
        end
  end.

Definition storage_interface_replicate (malloc_ok : Z -> bool) (conn : bool) (header_sent : Z)
    (recvs : list (option (list Z))) (x : exchange) (src dst : Z) (fid : string)
    (s : storage_interface) : option (Z * storage_response * storage_interface) :=
  match storage_interface_read malloc_ok conn header_sent recvs src fid 0 UINT64_MAX s with
  | None => None
  | Some (rc, read_resp, s1) =>
      if decide (rc <> 0) then Some (-1, read_resp, s1)
      else
        match storage_interface_write x dst fid 0 (default [] (data read_resp)) s1 with
        | None => None
        | Some (rc2, resp, s2) => Some (rc2, resp, s2)
        end
  end.

Definition storage_interface_health_check (conn : bool) (reply : option string) (id : Z)
    (s : storage_interface) : bool :=
  match storage_interface_get_node s id with
  | None => false
  | Some _ =>
      conn && match reply with
              | Some r => bool_decide (str_take 4 r = "PONG"%string)
              | None => false
              end
  end.

Definition storage_response_free (r : storage_response) : storage_response :=
  match data r with
  | Some _ => MkResp (status r) (error_msg r) None 0 (bytes_transferred r)
  | None => r
  end.
