(* ===== verification/StorageThm.v ===== *)
(** * The storage interface: theorems

    The selection loop returns distinct suitable nodes and finds all of them when it
    returns too few; replication fails for every size limit of [malloc]. *)

From stdpp Require Import base strings list numbers.
From Stdlib Require Import Ascii.
From S2P Require Import Prelude CString Storage.

#[local] Open Scope Z_scope.

Section Select.
Context (fs : Z) (k : nat) (ns : list storage_node_info) (n : nat) (Hn : (0 < n)%nat).

(** [sel] holds distinct identities of suitable registered nodes. *)
Definition sel_ok (sel : list Z) : Prop :=
  NoDup sel /\ (length sel <= k)%nat /\
  forall id, id ∈ sel -> exists i, (i < n)%nat /\ eligible fs (ns !!! i) /\ node_id (ns !!! i) = id.

Lemma select_loop_ok attempts next sel :
  sel_ok sel -> sel_ok (select_loop attempts fs k ns n next sel).1.
Proof.
  revert next sel. induction attempts as [|a IH]; intros next sel Hok; [done |]. simpl.
  case_decide as Hk; [| done]. apply IH. case_decide as He; [| done].
  destruct He as [He Hnew]. destruct Hok as (Hnd & Hl & Hall). split_and!.
  - apply list.NoDup_app. split_and!; [done | | apply NoDup_singleton].
    intros x Hx ->%list_elem_of_singleton. done.
  - rewrite length_app. simpl. lia.
  - intros id [Hid| ->%list_elem_of_singleton]%elem_of_app; [by apply Hall |].
    exists (next `mod` n)%nat. split; [apply Nat.mod_upper_bound; lia | done].
Qed.

(** Identities are only added, and a loop that ends early enough has seen every slot it
    passed. *)
Lemma select_loop_grows attempts next sel id :
  id ∈ sel -> id ∈ (select_loop attempts fs k ns n next sel).1.
Proof.
  revert next sel. induction attempts as [|a IH]; intros next sel Hin; [done |]. simpl.
  case_decide; [| done]. apply IH. case_decide; [| done]. apply elem_of_app. by left.
Qed.

Lemma select_loop_seen attempts next sel j :
  (length (select_loop attempts fs k ns n next sel).1 < k)%nat -> (j < attempts)%nat ->
  eligible fs (ns !!! ((next + j) `mod` n)%nat) ->
  node_id (ns !!! ((next + j) `mod` n)%nat) ∈ (select_loop attempts fs k ns n next sel).1.
Proof.
  revert next sel j. induction attempts as [|a IH]; intros next sel j Hlt Hj He; [lia |].
  simpl in *. case_decide as Hk; [| simpl in Hlt; lia]. destruct j as [|j].
  - rewrite Nat.add_0_r in He |- *. apply select_loop_grows. case_decide as Hd.
    + apply elem_of_app. right. by apply list_elem_of_singleton.
    + destruct (decide (node_id (ns !!! (next `mod` n)%nat) ∈ sel)); [done |]. tauto.
  - assert (Hmod : (((next + 1) `mod` n + j) `mod` n = (next + S j) `mod` n)%nat).
    { rewrite Nat.Div0.add_mod_idemp_l. f_equal. lia. }
    rewrite <- Hmod in He |- *. apply IH; [done | lia | done].
Qed.

(** Within [n] turns every slot is passed. *)
Lemma slot_passed next i : (i < n)%nat -> exists j, (j < n)%nat /\ ((next + j) `mod` n = i)%nat.
Proof.
  intros Hi. pose proof (Nat.mod_upper_bound next n ltac:(lia)) as Hm.
  exists ((i + n - next `mod` n) `mod` n)%nat.
  split; [apply Nat.mod_upper_bound; lia |].
  rewrite Nat.Div0.add_mod_idemp_r, <- Nat.Div0.add_mod_idemp_l.
  replace (next `mod` n + (i + n - next `mod` n))%nat with (i + 1 * n)%nat by lia.
  rewrite Nat.Div0.mod_add. by apply Nat.mod_small.
Qed.
End Select.

(** C32: selecting nodes terminates with distinct identities of registered nodes that
    are online and have room for the file, at most as many as asked for; if it returns
    fewer, no other suitable node is registered. *)
Theorem storage_select_nodes_spec fs k s rc sel s' :
  storage_interface_select_nodes fs k s = (rc, sel, s') -> k <> O -> (0 < num_nodes s)%nat ->
  rc = Z.of_nat (length sel) /\ NoDup sel /\ (length sel <= k)%nat /\
  (forall id, id ∈ sel -> exists i, (i < num_nodes s)%nat /\ eligible fs (nodes s !!! i) /\
                                  node_id (nodes s !!! i) = id) /\
  ((length sel < k)%nat -> forall i, (i < num_nodes s)%nat -> eligible fs (nodes s !!! i) ->
     node_id (nodes s !!! i) ∈ sel) /\
  nodes s' = nodes s /\ num_nodes s' = num_nodes s.
Proof.
  unfold storage_interface_select_nodes. intros Hs Hk Hn. rewrite decide_False in Hs by done.
  destruct (select_loop _ _ _ _ _ _ _) as [sel0 next] eqn:Hl. injection Hs as <- <- <-.
  assert (H0 : sel_ok fs k (nodes s) (num_nodes s) []).
  { split_and!; [constructor | simpl; lia | intros id ?%elem_of_nil; done]. }
  pose proof (select_loop_ok fs k (nodes s) (num_nodes s) Hn (num_nodes s * 2)
    (next_node_idx s) [] H0) as Hok.
  pose proof (select_loop_seen fs k (nodes s) (num_nodes s) Hn (num_nodes s * 2)
    (next_node_idx s) []) as Hseen.
  rewrite Hl in Hok, Hseen. destruct Hok as (Hnd & Hle & Hall). split_and!; try done.
  intros Hlt i Hi He. destruct (slot_passed (num_nodes s) Hn (next_node_idx s) i Hi) as (j & Hj & <-).
  apply Hseen; [done | lia | done].
Qed.

(** Replication never succeeds: it asks for a buffer of UINT64_MAX bytes, which
    [malloc] does not grant, so the read fails before anything is received, and the
    target is not contacted: all that may be sent goes to the source. *)
Theorem storage_replicate_fails malloc_ok conn hs recvs x src dst fid s :
  (forall z, 2 ^ 63 <= z -> malloc_ok z = false) ->
  exists resp s', storage_interface_replicate malloc_ok conn hs recvs x src dst fid s
    = Some (-1, resp, s') /\ status resp = -1 /\
    (s' = s \/ exists bytes, s' = on_wire src bytes s).
Proof.
  intros Hm. unfold storage_interface_replicate, storage_interface_read.
  rewrite (Hm UINT64_MAX) by (unfold UINT64_MAX; lia).
  repeat case_match; simplify_eq; eauto 10.
Qed.

(** ** The theorems at a concrete registry *)

Definition demo_iface : storage_interface :=
  (storage_interface_register_node 100 12 "s2" 9000 500
    (storage_interface_register_node 100 11 "s1" 9000 50 (storage_interface_init 8)).2).2.

Lemma storage_select_nodes_spec_witness : (12 : Z) ∈ (storage_interface_select_nodes 100 3 demo_iface).1.2.
Proof.
  pose proof (storage_select_nodes_spec 100 3 demo_iface 1 [12]
    (storage_interface_select_nodes 100 3 demo_iface).2 ltac:(vm_compute; reflexivity)
    ltac:(discriminate) ltac:(apply Nat.leb_le; reflexivity)) as (_ & _ & _ & _ & H & _).
  change ((storage_interface_select_nodes 100 3 demo_iface).1.2) with [12].
  apply (H ltac:(simpl; lia) 1%nat); [apply Nat.leb_le; reflexivity | split; [reflexivity | simpl; lia]].
Defined.

Lemma storage_replicate_fails_witness :
  exists resp s', storage_interface_replicate (fun z => bool_decide (z < 2 ^ 63)) true 0 []
    (MkExch true 0 [] None EmptyString) 11 12 "f" demo_iface = Some (-1, resp, s') /\
  status resp = -1 /\ (s' = demo_iface \/ exists bytes, s' = on_wire 11 bytes demo_iface).
Proof.
  apply (storage_replicate_fails (fun z => bool_decide (z < 2 ^ 63))).
  intros z Hz. apply bool_decide_eq_false_2. lia.
Defined.
