(* ===== verification/TcpAdapter.v ===== *)
(** * The TCP adapter of a storage node: [src/src/storage_tcp_adapter.cpp]

    The server end of the text protocol that [Storage] speaks: it parses a request
    line, calls the gRPC service and answers.  The service is any implementation of
    [FileSystemService]; what [recv] and [malloc] return is an argument. *)

From stdpp Require Import base strings list numbers pretty.
From Stdlib Require Import Ascii.
From S2P Require Import Prelude CString Proto.

#[local] Open Scope Z_scope.

(** ** [sscanf] *)

Definition is_digit (a : ascii) : bool :=
  bool_decide (48 <= N_of_ascii a)%N && bool_decide (N_of_ascii a <= 57)%N.

Definition is_space (a : ascii) : bool :=
  bool_decide (N_of_ascii a = 32%N) ||
  (bool_decide (9 <= N_of_ascii a)%N && bool_decide (N_of_ascii a <= 13)%N).

Fixpoint skip_space (s : string) : string :=
  match s with
  | String a s' => if is_space a then skip_space s' else s
  | EmptyString => s
  end.

(** Decimal digits from [s]; the value and the rest. *)
Fixpoint scan_digits (s : string) (acc : Z) : Z * string :=
  match s with
  | String a s' =>
      if is_digit a then scan_digits s' (acc * 10 + (Z.of_N (N_of_ascii a) - 48)) else (acc, s)
  | EmptyString => (acc, s)
  end.

(** ["%lu"]: optional white space and sign, at least one digit, saturating. *)
Definition scan_lu (s : string) : option (Z * string) :=
  let s := skip_space s in
  let '(neg, s) := match s with
                   | String "-" s' => (true, s')
                   | String "+" s' => (false, s')
                   | _ => (false, s)
                   end in
  match s with
  | String a _ =>
      if is_digit a then
        let '(v, rest) := scan_digits s 0 in
        Some (if decide (UINT64_MAX < v) then UINT64_MAX else if neg then u64 (- v) else v, rest)
      else None
  | EmptyString => None
  end.

(** Up to [n] characters other than [stop]. *)
Fixpoint span_not (n : nat) (stop : ascii) (s : string) : string * string :=
  match n, s with
  | S n', String a s' =>
      if decide (a = stop) then (EmptyString, s)
      else let '(p, r) := span_not n' stop s' in (String a p, r)
  | _, _ => (EmptyString, s)
  end.

(** ["%63[^c]"] *)
Definition scan_set (stop : ascii) (s : string) : option (string * string) :=
  let '(p, r) := span_not 63 stop s in if decide (p = EmptyString) then None else Some (p, r).

Definition scan_lit (lit s : string) : option string :=
  if starts_with lit s then Some (str_drop (String.length lit) s) else None.

Definition bar : ascii := "|"%char.

Definition nl : ascii := "010"%char.

(** [sscanf(buffer, cmd "%63[^|]|%lu|%lu\n", ...) == 3] *)
Definition scan_range (cmd buffer : string) : option (string * Z * Z) :=
  s1 ← scan_lit cmd buffer;
  '(file_id, s2) ← scan_set bar s1;
  s3 ← scan_lit (String bar EmptyString) s2;
  '(offset, s4) ← scan_lu s3;
  s5 ← scan_lit (String bar EmptyString) s4;
  '(len, _) ← scan_lu s5;
  Some (file_id, offset, len).

(** [sscanf(buffer, "DELETE|%63[^\n]\n", ...) == 1] *)
Definition scan_delete (buffer : string) : option string :=
  s1 ← scan_lit "DELETE|" buffer; '(file_id, _) ← scan_set nl s1; Some file_id.

(** [strchr(s, c)] as an index. *)
Fixpoint strchr (c : ascii) (s : string) : option nat :=
  match s with
  | EmptyString => None
  | String a s' => if decide (a = c) then Some O else S <$> strchr c s'
  end.

(** ["%d"] *)
Definition fmt_d (z : Z) : string := pretty z.

(** ** The gRPC client *)

(** What becomes of one remote call: the request may not arrive, the answer may not
    come back. *)
Record transport := MkTransport { request_lost : bool; response_lost : bool }.

Section Adapter.
Context {S E : Type} `{FileSystemService S E}.

Definition remote {Req Resp} (call : E -> Req -> S -> option Resp * S) (t : transport) (e : E)
    (req : Req) (s : S) : option Resp * S :=
  if request_lost t then (None, s)
  else let '(resp, s') := call e req s in (if response_lost t then None else resp, s').

Definition StorageClient_Write (t : transport) (e : E) (file_id : string) (offset : Z) (data : list Z)
    (s : S) : Z * S :=
  let '(resp, s') := remote Write t e (MkWriteReq file_id data (s64 offset)) s in
  match resp with
  | None => (-1, s')
  | Some r => (if decide (write_status r <> 0) then -1 else s32 (written r), s')
  end.

(** Also returns the bytes for [data_out]; [None]: the copy fails or leaves a buffer. *)
Definition StorageClient_Read (malloc_ok : Z -> bool) (t : transport) (e : E) (file_id : string)
    (offset len : Z) (s : S) : option (Z * list Z * S) :=
  let '(resp, s') := remote Get t e (MkGetReq file_id (s64 offset) (s64 len)) s in
  match resp with
  | None => Some (-1, [], s')
  | Some r =>
      if decide (get_status r <> 0) then Some (-1, [], s')
      else
        let n := u64 (read_count r) in
        if negb (malloc_ok n) && (0 <? n) then None
        else if decide (Z.of_nat (length (got r)) < n) then None
        else Some (s32 n, take (Z.to_nat n) (got r), s')
  end.

Definition StorageClient_Delete (t : transport) (e : E) (file_id : string) (s : S) : Z * S :=
  let '(resp, s') := remote Remove t e (MkRemoveReq file_id) s in
  match resp with
  | None => (-1, s')
  | Some r => (if decide (status_code r <> 0) then -1 else 0, s')
  end.

(** ** One connection *)

(** Results of the successive [recv]s: [None] an error, an empty chunk the end of the
    stream. *)
Record tcp_conn := MkConn {
  first_recv : option (list Z);
  more_recvs : list (option (list Z));
  conn_malloc : Z -> bool;
}.

(** The loop for the rest of the payload, [data] received so far: stops at [len] bytes or
    when [recv] fails or the stream ends; [None] when the list runs out (it waits). *)
Fixpoint recv_payload (recvs : list (option (list Z))) (data : list Z) (len : Z) : option (list Z) :=
  if decide (Z.of_nat (length data) < len) then
    match recvs with
    | [] => None
    | None :: _ => Some data
    | Some chunk :: recvs' =>
        if decide (chunk = []) then Some data
        else recv_payload recvs' (data ++ take (Z.to_nat (len - Z.of_nat (length data))) chunk) len
    end
  else Some data.

(** The payload of a WRITE: what followed the header, then the loop. A failed [malloc]
    is only noticed when something is copied ([None]); [recv] into NULL fails. *)
Definition write_payload (x : tcp_conn) (rest : list Z) (len : Z) : option (list Z) :=
  let copied := take (Z.to_nat len) rest in
  if negb (conn_malloc x len) && (0 <? len) then
    if decide (copied = []) then Some [] else None
  else recv_payload (more_recvs x) copied len.

(** What [handle_client] does to the socket: [send] and [close], in order. *)
Inductive conn_action :=
| SendBytes (data : list Z)
| CloseConn.

#[export] Instance conn_action_eq_dec : EqDecision conn_action.
Proof. solve_decision. Defined.

Definition send_text (text : string) : conn_action := SendBytes (str_bytes (text +:+ String nl EmptyString)).

(** The actions of [handle_client] and the service after it.  [None]: it crashes or waits
    for ever. *)
Definition handle_client (x : tcp_conn) (t : transport) (e : E) (s : S)
  : option (list conn_action * S) :=
  match first_recv x with
  | None | Some [] => Some ([CloseConn], s)
  | Some bytes =>
      let bytes := take 8191 bytes in
      let buffer := dec_str bytes in
      if starts_with "WRITE|" buffer then
        match strchr nl buffer with
        | None => Some ([send_text "ERROR|Invalid header"; CloseConn], s)
        | Some k =>
            match scan_range "WRITE|" buffer with
            | None => Some ([send_text "ERROR|Invalid WRITE syntax"; CloseConn], s)
            | Some (file_id, offset, len) =>
                match write_payload x (drop (k + 1) bytes) len with
                | None => None
                | Some data =>
                    let '(bytes_written, s') := StorageClient_Write t e file_id offset data s in
                    Some ([if decide (0 < bytes_written)
                           then send_text ("OK|" +:+ fmt_d bytes_written)
                           else send_text "ERROR|Write failed"; CloseConn], s')
                end
            end
        end
      else if starts_with "READ|" buffer then
        match scan_range "READ|" buffer with
        | None => Some ([CloseConn], s)
        | Some (file_id, offset, len) =>
            match StorageClient_Read (conn_malloc x) t e file_id offset len s with
            | None => None
            | Some (bytes_read, data, s') =>
                Some ((if decide (0 < bytes_read) then [SendBytes (take (Z.to_nat bytes_read) data)] else [])
                      ++ [CloseConn], s')
            end
        end
      else if starts_with "DELETE|" buffer then
        match scan_delete buffer with
        | None => Some ([send_text "ERROR|Invalid DELETE syntax"; CloseConn], s)
        | Some file_id =>
            let '(rc, s') := StorageClient_Delete t e file_id s in
            Some ([if decide (rc = 0) then send_text "OK" else send_text "ERROR|Delete failed"; CloseConn], s')
        end
      else if starts_with ("PING" +:+ String nl EmptyString) buffer
      then Some ([send_text "PONG"; CloseConn], s)
      else Some ([send_text "ERROR|Unknown command"; CloseConn], s)
  end.

End Adapter.

(** The bytes a peer can read before the connection is closed. *)
Definition sent_bytes (acts : list conn_action) : list Z :=
  acts ≫= (fun a => match a with SendBytes data => data | CloseConn => [] end).

(** How often the connection is closed. *)
Definition closings (acts : list conn_action) : nat :=
  length (filter (fun a => a = CloseConn) acts).
