(* ===== verification/TcpThm.v ===== *)
(** * The storage protocol: theorems

    What [Storage] prints [TcpAdapter] parses; a request cut into arbitrary chunks by TCP
    reaches the service unchanged; data stored on a node through [storage_interface_write]
    is returned by [storage_interface_read]. *)

From stdpp Require Import base gmap strings list numbers pretty.
From Stdlib Require Import Ascii.
From S2P Require Import Prelude CString FusedFs FusedInv FusedReach FusedRun.
From S2P Require Import FusedNames FusedData Proto RpcServer RpcThm Storage StorageThm.
From S2P Require Import TcpAdapter.

#[local] Open Scope Z_scope.

(** ** Numbers *)

Lemma pretty_char_digit x :
  (x < 10)%N -> is_digit (pretty_N_char x) = true /\
  Z.of_N (N_of_ascii (pretty_N_char x)) - 48 = Z.of_N x.
Proof.
  intros Hx. assert (x = 0 \/ x = 1 \/ x = 2 \/ x = 3 \/ x = 4 \/ x = 5 \/ x = 6 \/ x = 7 \/ x = 8 \/ x = 9)%N
    as Hc by lia. by repeat destruct Hc as [->|Hc]; try (by vm_compute); subst; vm_compute.
Qed.

Lemma scan_go x s :
  scan_digits (pretty_N_go x s) 0 = scan_digits s (Z.of_N x).
Proof.
  revert s. induction (N.lt_wf_0 x) as [x _ IH]. intros s.
  destruct (decide (x = 0)%N) as [->|Hx]; [by rewrite pretty_N_go_0 |].
  rewrite pretty_N_go_step by lia. rewrite IH by (apply N.div_lt; lia).
  destruct (pretty_char_digit (x `mod` 10)) as [Hd Hv]; [by apply N.mod_lt |].
  cbn [scan_digits]. rewrite Hd, Hv. f_equal.
  pose proof (N.div_mod x 10 ltac:(lia)). lia.
Qed.

(** The first character of a printed number. *)
Lemma go_head x s :
  (0 < x)%N -> exists a t, pretty_N_go x s = String a t /\ is_digit a = true.
Proof.
  revert s. induction (N.lt_wf_0 x) as [x _ IH]. intros s Hx. rewrite pretty_N_go_step by lia.
  destruct (decide (x `div` 10 = 0)%N) as [->|Hd].
  - rewrite pretty_N_go_0. eexists _, s. split; [done |]. by apply pretty_char_digit, N.mod_lt.
  - apply IH; [by apply N.div_lt; lia | by apply N.neq_0_lt_0].
Qed.

Lemma go_app x s t : (pretty_N_go x s +:+ t)%string = pretty_N_go x (s +:+ t)%string.
Proof.
  revert s. induction (N.lt_wf_0 x) as [x _ IH]. intros s.
  destruct (decide (x = 0)%N) as [->|Hx]; [by rewrite !pretty_N_go_0 |].
  rewrite !(pretty_N_go_step x) by lia. rewrite IH by (apply N.div_lt; lia). by rewrite str_app_cons.
Qed.

(** What follows a number: nothing, or something that is not a digit. *)
Definition stops (t : string) : Prop :=
  match t with EmptyString => True | String a _ => is_digit a = false end.

Lemma scan_stop t acc : stops t -> scan_digits t acc = (acc, t).
Proof. destruct t as [|a t]; [done |]. simpl. by intros ->. Qed.

(** A printed number and what follows it. *)
Lemma scan_fmt z t :
  0 <= z -> stops t -> scan_digits (fmt_u z +:+ t) 0 = (z, t) /\
  exists b s, (fmt_u z +:+ t)%string = String b s /\ is_digit b = true.
Proof.
  intros Hz Ht. unfold fmt_u, pretty, pretty_N. case_decide as H0.
  - split; [| by exists "0"%char, t]. rewrite str_app_cons, str_app_nil_l. cbn [scan_digits].
    change (is_digit "0") with true. cbv iota. rewrite scan_stop by done. f_equal. simpl. lia.
  - rewrite go_app, str_app_nil_l. split; [| by apply go_head; lia].
    rewrite scan_go, scan_stop by done. f_equal. lia.
Qed.

Lemma digit_plain b : is_digit b = true -> is_space b = false /\ b <> "-"%char /\ b <> "+"%char.
Proof.
  unfold is_digit, is_space. rewrite andb_true_iff, !bool_decide_eq_true. intros [H1 H2]. split_and!.
  - apply orb_false_iff. split; [apply bool_decide_eq_false_2; lia |].
    apply andb_false_iff. right. apply bool_decide_eq_false_2. lia.
  - intros ->. vm_compute in H1. congruence.
  - intros ->. vm_compute in H1. congruence.
Qed.

Lemma scan_lu_fmt z t :
  0 <= z <= UINT64_MAX -> stops t -> scan_lu (fmt_u z +:+ t) = Some (z, t).
Proof.
  intros Hz Ha. destruct (scan_fmt z t ltac:(lia) Ha) as [Hs (b & s & Heq & Hb)].
  rewrite Heq in Hs |- *. destruct (digit_plain b Hb) as (Hsp & Hm & Hp). unfold scan_lu.
  cbn [skip_space]. rewrite Hsp.
  assert (Hsign : match String b s with
                  | String "-" s' => (true, s') | String "+" s' => (false, s') | _ => (false, String b s)
                  end = (false, String b s)).
  { destruct b as [[] [] [] [] [] [] [] []]; try done; by (destruct Hm || destruct Hp). }
  rewrite Hsign, Hb, Hs. by rewrite decide_False by lia.
Qed.

(** ** Requests *)

(** An identifier the text protocol can carry and that names a file below the root. *)
Record fid_ok (fid : string) : Prop := {
  fid_nonempty : fid <> EmptyString;
  fid_short : (String.length fid <= 63)%nat;
  fid_bar : ~ str_in bar fid;
  fid_nl : ~ str_in nl fid;
  fid_nul : no_nul fid;
  fid_slash : ~ str_in slash fid;
}.

Lemma span_not_stop n stop p t :
  (String.length p <= n)%nat -> ~ str_in stop p -> span_not n stop (p +:+ String stop t) = (p, String stop t).
Proof.
  revert p. induction n as [|n IH]; intros [|a p] Hl Hn; cbn [String.length] in Hl; try lia; try done.
  - rewrite str_app_nil_l. cbn [span_not]. by rewrite decide_True.
  - rewrite str_app_cons. cbn [span_not]. cbn [str_in] in Hn. rewrite decide_False by tauto.
    by rewrite IH by (lia || tauto).
Qed.

Lemma scan_set_stop stop p t :
  p <> EmptyString -> (String.length p <= 63)%nat -> ~ str_in stop p ->
  scan_set stop (p +:+ String stop t) = Some (p, String stop t).
Proof. intros Hp Hl Hn. unfold scan_set. rewrite span_not_stop by done. by rewrite decide_False. Qed.

Lemma scan_lit_app lit t : scan_lit lit (lit +:+ t) = Some t.
Proof.
  unfold scan_lit. rewrite (proj2 (starts_with_app _ _)) by eauto. by rewrite str_drop_app.
Qed.

Lemma ten_pow_20 : (10 ^ N.of_nat 20 = 100000000000000000000)%N.
Proof. by vm_compute. Qed.

(** A number of 64 bits has at most 20 digits. *)
Lemma fmt_u_length z : 0 <= z <= UINT64_MAX -> (String.length (fmt_u z) <= 20)%nat.
Proof.
  intros Hz.
  assert (Hgo : forall k x s, (x < 10 ^ N.of_nat k)%N ->
    (String.length (pretty_N_go x s) <= k + String.length s)%nat).
  { induction k as [|k IH]; intros x s Hx.
    - replace x with 0%N by (simpl in Hx; lia). rewrite pretty_N_go_0. lia.
    - destruct (decide (x = 0)%N) as [->|H0]; [rewrite pretty_N_go_0; lia |].
      rewrite pretty_N_go_step by lia. etransitivity; [apply IH |].
      + rewrite Nat2N.inj_succ, N.pow_succ_r' in Hx. apply N.Div0.div_lt_upper_bound; lia.
      + cbn [String.length]. lia. }
  unfold fmt_u, pretty, pretty_N. case_decide; [simpl; lia |].
  rewrite <- (Nat.add_0_r 20). apply Hgo. rewrite ten_pow_20. unfold UINT64_MAX in Hz. lia.
Qed.

(** The request line as sent: it fits the buffer. *)
Definition range_line (cmd fid : string) (off len : Z) : string :=
  (cmd +:+ (fid +:+ ("|" +:+ (fmt_u off +:+ ("|" +:+ (fmt_u len +:+ newline))))))%string.

Lemma range_request_line cmd fid off len :
  (String.length cmd <= 7)%nat -> fid_ok fid -> 0 <= off <= UINT64_MAX -> 0 <= len <= UINT64_MAX ->
  range_request cmd fid off len = range_line cmd fid off len.
Proof.
  intros Hc Hf Ho Hl. unfold range_request, range_line, strncpy. apply str_take_ge.
  pose proof (fmt_u_length off Ho). pose proof (fmt_u_length len Hl). pose proof (fid_short _ Hf).
  rewrite !str_length_app. change (String.length "|") with 1%nat.
  change (String.length newline) with 1%nat. lia.
Qed.

Lemma bar_app s : ("|" +:+ s)%string = String bar s.
Proof. done. Qed.

Lemma scan_lit_bar t : scan_lit (String bar EmptyString) (String bar t) = Some t.
Proof. exact (scan_lit_app (String bar EmptyString) t). Qed.

(** What follows the request line in the buffer does not matter. *)
Lemma scan_range_line cmd fid off len t :
  fid_ok fid -> 0 <= off <= UINT64_MAX -> 0 <= len <= UINT64_MAX ->
  scan_range cmd (range_line cmd fid off len +:+ t) = Some (fid, off, len).
Proof.
  intros Hf Ho Hl. unfold scan_range, range_line. rewrite !str_app_assoc, scan_lit_app.
  rewrite !bar_app. cbn [mbind option_bind].
  rewrite scan_set_stop by apply Hf. cbn [mbind option_bind].
  rewrite scan_lit_bar. cbn [mbind option_bind]. rewrite scan_lu_fmt by done. cbn [mbind option_bind].
  rewrite scan_lit_bar. cbn [mbind option_bind]. unfold newline. rewrite str_app_cons, scan_lu_fmt by done.
  done.
Qed.

(** ** The buffer *)

Lemma no_nul_in s : no_nul s <-> ~ str_in "000"%char s.
Proof.
  induction s as [|a s IH]; simpl; [tauto |]. rewrite IH. split.
  - intros [Ha Hs] [->|Hin]; [by apply Ha | tauto].
  - intros Hn. split; [| tauto]. intros Ha. apply Hn. left.
    rewrite <- (ascii_N_embedding a), Ha. done.
Qed.

Lemma go_in c x s : str_in c (pretty_N_go x s) -> is_digit c = true \/ str_in c s.
Proof.
  revert s. induction (N.lt_wf_0 x) as [x _ IH]. intros s.
  destruct (decide (x = 0)%N) as [->|Hx]; [rewrite pretty_N_go_0; tauto |].
  rewrite pretty_N_go_step by lia. intros [Hd|[<-|Hs]]%IH; [by left | | by right | by apply N.div_lt; lia].
  left. by apply pretty_char_digit, N.mod_lt.
Qed.

Lemma fmt_u_in c z : str_in c (fmt_u z) -> is_digit c = true.
Proof.
  unfold fmt_u, pretty, pretty_N. case_decide; [by intros [<-|[]] |].
  by intros [Hd|[]]%go_in.
Qed.

Lemma strchr_app c p t : ~ str_in c p -> strchr c (p +:+ String c t) = Some (String.length p).
Proof.
  induction p as [|a p IH]; intros Hn; [rewrite str_app_nil_l; simpl; by rewrite decide_True |].
  rewrite str_app_cons. cbn [strchr str_in] in *. rewrite decide_False by tauto. by rewrite IH by tauto.
Qed.

(** A request line is a line: no NUL, and its only newline is its last character. *)
Lemma range_line_split cmd fid off len :
  fid_ok fid -> ~ str_in nl cmd -> no_nul cmd ->
  exists body, range_line cmd fid off len = (body +:+ newline)%string /\
    ~ str_in nl body /\ no_nul (range_line cmd fid off len).
Proof.
  intros Hf Hc Hcn. exists (cmd +:+ (fid +:+ ("|" +:+ (fmt_u off +:+ ("|" +:+ fmt_u len)))))%string.
  split; [unfold range_line; by rewrite !str_app_assoc |]. split.
  - rewrite !str_in_app. pose proof (fid_nl _ Hf). intros [?|[?|[[?|[]]|[Hd|[[?|[]]|Hd]]]]]; try done;
      by apply fmt_u_in in Hd.
  - apply no_nul_in. unfold range_line. rewrite !str_in_app.
    pose proof (proj1 (no_nul_in _) (fid_nul _ Hf)). pose proof (proj1 (no_nul_in _) Hcn).
    intros [?|[?|[[?|[]]|[Hd|[[?|[]]|[Hd|[?|[]]]]]]]]; try done; by apply fmt_u_in in Hd.
Qed.

(** ** The payload *)

(** The loop ends with the whole payload however TCP cuts it. *)
Lemma recv_payload_all chunks data full :
  full = data ++ concat chunks -> Forall (fun c => c <> []) chunks ->
  recv_payload (Some <$> chunks) data (Z.of_nat (length full)) = Some full.
Proof.
  revert data. induction chunks as [|c chunks IH]; intros data Hfull Hne.
  - rewrite app_nil_r in Hfull. subst. simpl. by rewrite decide_False by lia.
  - apply list.Forall_cons in Hne as [Hc Hne]. cbn [fmap list_fmap recv_payload].
    assert (Hlen : length full = (length data + length c + length (concat chunks))%nat)
      by (subst; cbn [concat]; rewrite !length_app; lia).
    rewrite decide_True by (destruct c; [done | simpl in Hlen; lia]).
    rewrite decide_False by done. rewrite take_ge by lia. apply IH; [| done].
    by rewrite Hfull, <- app_assoc.
Qed.

(** Some [recv] fails or finds the stream closed. *)
Definition closes (recvs : list (option (list Z))) : Prop := Exists (fun r => r = None \/ r = Some []) recvs.

Lemma recv_payload_ends recvs data len : closes recvs -> exists d, recv_payload recvs data len = Some d.
Proof.
  intros Hc. revert data. induction Hc as [r recvs [->| ->]|r recvs _ IH]; intros data; cbn [recv_payload].
  - case_decide; eauto.
  - case_decide; [| eauto]. rewrite decide_True by done. eauto.
  - case_decide; [| eauto]. destruct r as [c|]; [| eauto]. case_decide; eauto.
Qed.

(** The connection carries the request [line] and then [data], cut by TCP in any way in
    which the first [recv] holds the whole line. *)
Definition carries (line : string) (data : list Z) (x : tcp_conn) : Prop :=
  exists first chunks,
    first_recv x = Some (str_bytes line ++ first) /\ (length (str_bytes line ++ first) <= 8191)%nat /\
    data = first ++ concat chunks /\ Forall (fun c => c <> []) chunks /\
    more_recvs x = Some <$> chunks /\ conn_malloc x (Z.of_nat (length data)) = true.

(** The answer to a WRITE of which the service wrote [n] bytes. *)
Definition write_reply (n : Z) : list Z :=
  if decide (0 < n) then str_bytes ("OK|" +:+ (fmt_d n +:+ newline))
  else str_bytes ("ERROR|Write failed" +:+ newline).

(** One answer, then the connection is closed. *)
Definition answer_and_close (data : list Z) : list conn_action := [SendBytes data; CloseConn].

Lemma sent_answer data : sent_bytes (answer_and_close data) = data.
Proof. cbn. by rewrite app_nil_r. Qed.

Section Adapter.
Context {S E : Type} `{FileSystemService S E}.

(** Opens the buffer of a connection that carries a request line. *)
Lemma handle_buffer cmd fid off len data x :
  fid_ok fid -> ~ str_in nl cmd -> no_nul cmd ->
  carries (range_line cmd fid off len) data x ->
  exists first chunks t, first_recv x = Some (str_bytes (range_line cmd fid off len) ++ first) /\
    (length (str_bytes (range_line cmd fid off len) ++ first) <= 8191)%nat /\
    data = first ++ concat chunks /\ Forall (fun c => c <> []) chunks /\
    more_recvs x = Some <$> chunks /\ conn_malloc x (Z.of_nat (length data)) = true /\
    dec_str (str_bytes (range_line cmd fid off len) ++ first) = (range_line cmd fid off len +:+ t)%string /\
    exists k, strchr nl (range_line cmd fid off len +:+ t) = Some k /\
      drop (k + 1) (str_bytes (range_line cmd fid off len) ++ first) = first.
Proof.
  intros Hf Hc Hcn (first & chunks & Hx & Hl & Hd & Hne & Hm & Hma).
  destruct (range_line_split cmd fid off len Hf Hc Hcn) as (body & Hb & Hbn & Hnn).
  exists first, chunks, (dec_str first). split_and!; try done; [by apply dec_str_app |].
  exists (String.length body). split.
  - rewrite Hb, str_app_assoc. by apply strchr_app.
  - rewrite Hb. replace (String.length body + 1)%nat with (length (str_bytes (body +:+ newline))).
    + apply drop_app_length.
    + by rewrite str_bytes_length, str_length_app.
Qed.

Lemma handle_write x t e s fid off data :
  fid_ok fid -> 0 <= off <= UINT64_MAX -> Z.of_nat (length data) <= UINT64_MAX ->
  carries (write_request fid off (Z.of_nat (length data))) data x ->
  handle_client x t e s =
    let '(n, s') := StorageClient_Write t e fid off data s in Some (answer_and_close (write_reply n), s').
Proof.
  intros Hf Ho Hl Hx. unfold write_request in Hx. rewrite range_request_line in Hx by (done || (simpl; lia)).
  destruct (handle_buffer "WRITE|" fid off (Z.of_nat (length data)) data x Hf) as
    (first & chunks & t' & Hr & H8 & Hd & Hne & Hm & Hma & Hdec & k & Hk & Hdrop);
    [by intros H'; repeat destruct H' as [?|H'] | by vm_compute | done |].
  set (line := range_line "WRITE|" fid off (Z.of_nat (length data))) in *.
  unfold handle_client. rewrite Hr.
  destruct (str_bytes line ++ first) as [|b bs] eqn:Hbytes; [done |]. rewrite take_ge by done.
  rewrite Hdec, (proj2 (starts_with_app _ _)), Hk by (unfold line, range_line; rewrite str_app_assoc; eauto).
  unfold line at 1. rewrite scan_range_line by (done || lia).
  rewrite Hdrop. unfold write_payload. rewrite Hma. cbn [negb andb].
  assert (Hfl : (length first <= length data)%nat) by (rewrite Hd, length_app; lia).
  rewrite Nat2Z.id, take_ge, Hm by lia. rewrite (recv_payload_all chunks first data) by done.
  destruct (StorageClient_Write _ _ _ _ _ _) as [n s']. unfold answer_and_close, write_reply, send_text.
  by case_decide; rewrite ?str_app_assoc.
Qed.

(** C36: the protocol carries writes. However TCP cuts the request of
    [storage_interface_write], as long as the first [recv] returns its header line, the
    adapter calls Write on the service with exactly the identifier, offset and bytes, and
    answers OK when bytes were written. *)
Theorem adapter_write_delivers x t e (s : S) fid off data :
  fid_ok fid -> 0 <= off <= UINT64_MAX -> Z.of_nat (length data) <= UINT64_MAX ->
  carries (write_request fid off (Z.of_nat (length data))) data x ->
  handle_client x t e s =
    let '(n, s') := StorageClient_Write t e fid off data s in Some (answer_and_close (write_reply n), s').
Proof. apply handle_write. Qed.

End Adapter.

(** ** A storage node end to end *)

Section Read.
Context {S E : Type} `{FileSystemService S E}.

Lemma handle_read x t e s fid off len :
  fid_ok fid -> 0 <= off <= UINT64_MAX -> 0 <= len <= UINT64_MAX ->
  carries (read_request fid off len) [] x ->
  handle_client x t e s =
    match StorageClient_Read (conn_malloc x) t e fid off len s with
    | None => None
    | Some (n, d, s') =>
        Some ((if decide (0 < n) then [SendBytes (take (Z.to_nat n) d)] else []) ++ [CloseConn], s')
    end.
Proof.
  intros Hf Ho Hl Hx. unfold read_request in Hx. rewrite range_request_line in Hx by (done || (simpl; lia)).
  destruct (handle_buffer "READ|" fid off len [] x Hf) as
    (first & chunks & t' & Hr & H8 & _ & _ & _ & _ & Hdec & _);
    [by intros H'; repeat destruct H' as [?|H'] | by vm_compute | done |].
  set (line := range_line "READ|" fid off len) in *. unfold handle_client. rewrite Hr.
  destruct (str_bytes line ++ first) as [|b bs] eqn:Hbytes; [done |]. rewrite take_ge by done.
  rewrite Hdec. assert (Hw : starts_with "WRITE|" (line +:+ t') = false).
  { apply not_true_iff_false. intros [u Hu]%starts_with_app. unfold line, range_line in Hu.
    rewrite !str_app_assoc in Hu. discriminate Hu. }
  rewrite Hw, (proj2 (starts_with_app _ _)) by (unfold line, range_line; rewrite str_app_assoc; eauto).
  unfold line. by rewrite scan_range_line.
Qed.

End Read.

(** The client's loop collects what the node sent before it closed the connection. *)
Lemma recv_loop_all chunks got full :
  full = got ++ concat chunks -> Forall (fun c => c <> []) chunks ->
  recv_loop (Some <$> chunks) got (Z.of_nat (length full)) = Some (Some full).
Proof.
  revert got. induction chunks as [|c chunks IH]; intros got Hfull Hne.
  - rewrite app_nil_r in Hfull. subst. simpl. by rewrite decide_False by lia.
  - apply list.Forall_cons in Hne as [Hc Hne]. cbn [fmap list_fmap recv_loop].
    assert (Hlen : length full = (length got + length c + length (concat chunks))%nat)
      by (subst; cbn [concat]; rewrite !length_app; lia).
    rewrite decide_True by (destruct c; [done | simpl in Hlen; lia]).
    rewrite decide_False by done. rewrite take_ge by lia. apply IH; [| done].
    by rewrite Hfull, <- app_assoc.
Qed.

(** The file a storage node keeps for an identifier. *)
Lemma fid_path fid : fid_ok fid -> c_str (normalize_path fid) = String slash fid.
Proof.
  intros Hf. unfold normalize_path. destruct (starts_with mount_prefix fid) eqn:Hs.
  { apply starts_with_app in Hs as [u ->]. destruct (fid_slash _ Hf). by left. }
  destruct fid as [|a fid]; [by destruct (fid_nonempty _ Hf) |].
  rewrite decide_True by (intros ->; destruct (fid_slash _ Hf); by left).
  cbn [c_str]. rewrite decide_False by done. f_equal. apply (c_str_id (String a fid)), Hf.
Qed.

Lemma error_reply_not_ok : str_take 3 (dec_str (write_reply 0)) <> "OK|"%string.
Proof. by vm_compute. Qed.

Lemma write_reply_ok n : str_take 3 (dec_str (write_reply n)) = "OK|"%string -> 0 < n.
Proof.
  unfold write_reply. case_decide; [done |]. intros Hr. exfalso. revert Hr. apply error_reply_not_ok.
Qed.

(** Success of the client's write means the service wrote. *)
Lemma client_write_ok se t e fid off data w n w1 :
  StorageClient_Write (H := rpc_service se) t e fid off data w = (n, w1) -> 0 < n ->
  exists r, rpc_Write se e (MkWriteReq fid data (s64 off)) w = (Some r, w1) /\ write_status r = 0.
Proof.
  unfold StorageClient_Write, remote. cbn [Write rpc_service]. destruct (request_lost t).
  { intros [= <- <-] ?. lia. }
  destruct (rpc_Write se e _ w) as [[r|] w']; destruct (response_lost t); try (intros [= <- <-] ?; lia).
  case_decide as Hst; intros [= <- <-] ?; [lia |]. exists r. split; [done |]. lia.
Qed.

Definition no_loss : transport := MkTransport false false.

(** The write half: an OK from the adapter leaves the data where a Get finds it. *)
Lemma ok_reply_stored se t e e' fid off data w x acts w1 :
  fid_ok fid -> quiet_reachable w -> quiet (create_env e) -> quiet (io_env e) -> quiet (io_env e') ->
  (forall i, path_to_inode (g_state w) (String slash fid) = Some i ->
     S_ISDIR (mode (deref (g_state w) i)) = false) ->
  data <> [] -> 0 <= off -> off + Z.of_nat (length data) < 2 ^ 63 -> Z.of_nat (length data) < 2 ^ 31 ->
  buffer_ok e' (Z.of_nat (length data)) = true ->
  carries (write_request fid off (Z.of_nat (length data))) data x ->
  handle_client (H := rpc_service se) x t e w = Some (acts, w1) ->
  str_take 3 (dec_str (sent_bytes acts)) = "OK|"%string ->
  exists n, n = Z.of_nat (length data) /\
    (rpc_Get se e' (MkGetReq fid off n) w1).1 = Some (MkGetResp data n 0 EmptyString).
Proof.
  intros Hf Hqr Hqc Hq Hq' Hreg Hne H0 Hoff Hlen Hb Hx Hh Hs.
  rewrite (handle_write (H := rpc_service se) x t e w fid off data Hf ltac:(unfold UINT64_MAX; lia)
             ltac:(unfold UINT64_MAX; lia) Hx) in Hh.
  destruct (StorageClient_Write (H := rpc_service se) t e fid off data w) as [n w1'] eqn:Hc. injection Hh as <- <-.
  rewrite sent_answer in Hs. apply write_reply_ok in Hs as Hn.
  destruct (client_write_ok _ _ _ _ _ _ _ _ _ Hc Hn) as (r & Hw & Hst).
  pose proof (write_ok_shape _ _ _ _ _ _ Hw Hst) as Hr. rewrite Hr, s64_small in Hw by lia.
  exists (written r). pose proof (fid_path fid Hf) as Hp.
  apply (write_then_get se e e' fid data off w (written r) w1'); rewrite ?Hp; try done.
  apply abs_has_slash.
Qed.

Lemma storage_write_replied h sends r stale id fid off data iface resp iface' :
  storage_interface_write (MkExch true h sends (Some r) stale) id fid off data iface =
    Some (0, resp, iface') -> str_take 3 r = "OK|"%string.
Proof.
  unfold storage_interface_write. destruct (storage_interface_get_node _ _); [| done].
  cbn [connect_ok header_sent data_sent Storage.reply negb]. case_decide; [done |].
  destruct (send_loop _ _ _) as [[]|]; [| done ..]. by case_decide.
Qed.

(** The read half: the adapter sends exactly the bytes Get returns. *)
Lemma storage_read_serves se e' fid off data w x acts w2 :
  fid_ok fid -> data <> [] -> 0 <= off -> off + Z.of_nat (length data) < 2 ^ 63 ->
  Z.of_nat (length data) < 2 ^ 31 ->
  (rpc_Get se e' (MkGetReq fid off (Z.of_nat (length data))) w).1 =
    Some (MkGetResp data (Z.of_nat (length data)) 0 EmptyString) ->
  carries (read_request fid off (Z.of_nat (length data))) [] x ->
  handle_client (H := rpc_service se) x no_loss e' w = Some (acts, w2) -> sent_bytes acts = data.
Proof.
  intros Hf Hne H0 Hoff Hlen Hg Hx Hh.
  assert (Hpos : 0 < Z.of_nat (length data)) by (destruct data; [done | simpl; lia]).
  rewrite (handle_read (H := rpc_service se) x no_loss e' w fid off (Z.of_nat (length data)) Hf
             ltac:(unfold UINT64_MAX; lia) ltac:(unfold UINT64_MAX; lia) Hx) in Hh.
  unfold StorageClient_Read, remote in Hh. cbn [request_lost response_lost no_loss Get rpc_service] in Hh.
  rewrite !s64_small in Hh by lia. destruct (rpc_Get se e' _ w) as [resp w2']. cbn [fst] in Hg. subst resp.
  cbn [get_status read_count got] in Hh. rewrite decide_False in Hh by lia. rewrite u64_small in Hh by lia.
  destruct (negb _ && _); [done |]. rewrite decide_False in Hh by lia.
  rewrite s32_small, decide_True in Hh by lia. injection Hh as <- _.
  cbn. rewrite app_nil_r, !take_ge; [done | lia | rewrite take_ge; lia].
Qed.

(** ** Connections end *)

(** The law the adapter relies on: a successful read counts bytes it returns. *)
Definition counts_reads {S E} `{FileSystemService S E} : Prop :=
  forall e req s resp, (Get e req s).1 = Some resp -> get_status resp = 0 ->
    0 <= read_count resp <= Z.of_nat (length (got resp)).

Lemma s32_le z : 0 <= z -> s32 z <= z.
Proof. intros Hz. unfold s32, swrap. pose proof (Z.mod_le (z + 2 ^ (32 - 1)) (2 ^ 32)). lia. Qed.

Lemma rpc_counts_reads se : counts_reads (H := rpc_service se).
Proof.
  intros e req w resp. cbn [Get rpc_service]. unfold rpc_Get. destruct (path_to_inode _ _) as [i|].
  2:{ intros [= <-] Hst. discriminate. }
  destruct (negb (buffer_ok _ _)); [done |].
  destruct (fused_read _ _ _ _ _) as [[result buf] w'] eqn:Hr. destruct (decide (result < 0)) as [Hneg|Hneg]; cbn [fst]; intros [= <-]; cbn [get_status read_count got]; [lia |].
  intros _. assert (Hle : result <= Z.of_nat (length buf)).
  { revert Hr. unfold fused_read. repeat case_match; intros; simplify_eq; try (apply s32_le; lia); unfold ENOENT, EIO in *; simpl; lia. }
  rewrite length_take. lia.
Qed.

(** Every path through [handle_client] closes the connection, once and last. *)
Lemma handle_closes {S E} `{FileSystemService S E} x t e (s : S) acts s' :
  handle_client x t e s = Some (acts, s') -> closings acts = 1%nat /\ last acts = Some CloseConn.
Proof.
  unfold handle_client, send_text. intros Hh.
  repeat (case_match; simplify_eq; try done).
Qed.

Lemma connection_ends {S E} `{FileSystemService S E} x t e (s : S) :
  counts_reads -> (forall n, conn_malloc x n = true) -> closes (more_recvs x) ->
  exists acts s', handle_client x t e s = Some (acts, s').
Proof.
  intros Hlaw Hm Hc. unfold handle_client. destruct (first_recv x) as [[|b bytes]|]; [eauto | | eauto].
  destruct (starts_with "WRITE|" _).
  { destruct (strchr _ _); [| eauto]. destruct (scan_range _ _) as [[[fid off] len]|]; [| eauto].
    unfold write_payload. rewrite Hm. cbn [negb andb].
    destruct (recv_payload_ends (more_recvs x) (take (Z.to_nat len) (drop (n + 1) (take 8191 (b :: bytes)))) len Hc)
      as [d ->]. destruct (StorageClient_Write _ _ _ _ _ _); eauto. }
  destruct (starts_with "READ|" _).
  { destruct (scan_range _ _) as [[[fid off] len]|]; [| eauto]. unfold StorageClient_Read, remote.
    destruct (request_lost t); [eauto |]. specialize (Hlaw e (MkGetReq fid (s64 off) (s64 len)) s).
    destruct (Get e _ s) as [r s1]. cbn [fst] in Hlaw. destruct (response_lost t); [eauto |].
    destruct r as [resp|]; [| eauto]. destruct (decide (get_status resp <> 0)) as [|Hst]; [eauto |].
    rewrite Hm. cbn [negb andb]. destruct (Hlaw resp eq_refl) as [Hr0 Hr1].
    { destruct (decide (get_status resp = 0)); tauto. }
    rewrite decide_False; [eauto |]. pose proof (Z.mod_le (read_count resp) (2 ^ 64)). unfold u64. lia. }
  destruct (starts_with "DELETE|" _).
  { destruct (scan_delete _); [| eauto]. destruct (StorageClient_Delete _ _ _ _); eauto. }
  destruct (starts_with _ _); eauto.
Qed.

(** A connection is always finished. Whatever the peer sends, in whatever pieces, and
    whatever becomes of the remote calls, [handle_client] returns once the stream has ended
    or failed, if memory does not run out and the service counts what it returns. *)
Theorem adapter_connection_ends {S E} `{FileSystemService S E} x t e (s : S) :
  counts_reads -> (forall n, conn_malloc x n = true) -> closes (more_recvs x) ->
  exists acts s', handle_client x t e s = Some (acts, s').
Proof. apply connection_ends. Qed.

(** A storage node keeps what it acknowledged. If [storage_interface_write] reports
    success after its request went through the adapter and the RPC server of a node, then
    a later [storage_interface_read] of that range from the node, through the same
    path, returns the same bytes. *)
Theorem storage_write_then_read se t e e' fid off data w x acts w1 h sends stale id iface resp iface'
    x' acts' w2 mo h' chunks :
  let len := Z.of_nat (length data) in
  fid_ok fid -> quiet_reachable w -> quiet (create_env e) -> quiet (io_env e) -> quiet (io_env e') ->
  (forall i, path_to_inode (g_state w) (String slash fid) = Some i ->
     S_ISDIR (mode (deref (g_state w) i)) = false) ->
  data <> [] -> 0 <= off -> off + len < 2 ^ 63 -> len < 2 ^ 31 ->
  buffer_ok e' len = true -> mo len = true ->
  carries (write_request fid off len) data x ->
  handle_client (H := rpc_service se) x t e w = Some (acts, w1) ->
  storage_interface_write (MkExch true h sends (Some (dec_str (sent_bytes acts))) stale) id fid off data iface =
    Some (0, resp, iface') ->
  carries (read_request fid off len) [] x' ->
  handle_client (H := rpc_service se) x' no_loss e' w1 = Some (acts', w2) ->
  sent_bytes acts' = concat chunks -> Forall (fun c => c <> []) chunks -> 0 <= h' ->
  exists iface'', storage_interface_read mo true h' (Some <$> chunks) id fid off len iface' =
    Some (0, MkResp 0 EmptyString (Some data) len len, iface'').
Proof.
  intros len Hf Hqr Hqc Hq Hq' Hreg Hne H0 Hoff Hlen Hb Hmo Hx Hh Hs Hx' Hh' Hbytes Hch Hsent.
  destruct (ok_reply_stored se t e e' fid off data w x acts w1) as (n & -> & Hg); try done.
  { by eapply storage_write_replied. }
  pose proof (storage_read_serves se e' fid off data w1 x' acts' w2 Hf Hne H0 Hoff Hlen Hg Hx' Hh') as Hd.
  rewrite Hd in Hbytes.
  unfold storage_interface_read.
  assert (Hnode : is_Some (storage_interface_get_node iface' id)).
  { revert Hs. unfold storage_interface_write.
    destruct (storage_interface_get_node iface id) as [nd|] eqn:Hn; [| done].
    cbn [connect_ok header_sent data_sent Storage.reply negb]. case_decide; [done |].
    destruct (send_loop _ _ _) as [[]|]; [| done ..]. case_decide; [| done].
    intros [= _ <-]. unfold storage_interface_get_node, find_node, count_write, on_wire in *.
    cbn [nodes num_nodes] in *. by rewrite Hn. }
  destruct Hnode as [nd ->]. cbn [negb]. rewrite decide_False, Hmo by lia. cbn [negb].
  unfold len. rewrite (recv_loop_all chunks [] data) by done. by eexists.
Qed.

(** ** The theorems at a concrete node *)

(** The whole of a request in one [recv], nothing after it. *)
Definition one_recv (line : string) (data : list Z) : tcp_conn :=
  MkConn (Some (str_bytes line ++ data)) [] (fun _ => true).

Lemma one_recv_carries line data :
  (length (str_bytes line ++ data) <= 8191)%nat -> carries line data (one_recv line data).
Proof.
  intros Hl. exists data, []. split_and!; try done. by rewrite app_nil_r.
Qed.

Definition demo_fid : string := "6ba7b810-9dad-11d1-80b4-00c04fd430c8".

Lemma demo_fid_ok : fid_ok demo_fid.
Proof.
  split; [done | vm_compute; lia | | | by vm_compute |];
    apply (bool_decide_unpack _); vm_compute; exact I.
Qed.

Definition demo_iface : storage_interface :=
  (storage_interface_register_node 0 101 "storage-node-1" 9000 1073741824 (storage_interface_init 16)).2.

Definition w_node : world := (rpc_Write no_text demo_rpc (MkWriteReq demo_fid [1; 2; 3] 0) w_empty).2.

Lemma adapter_write_delivers_witness :
  handle_client (H := rpc_service no_text) (one_recv (write_request demo_fid 0 3) [1; 2; 3]) no_loss demo_rpc
    w_empty = Some (answer_and_close (write_reply 3), w_node).
Proof.
  pose proof (adapter_write_delivers (H := rpc_service no_text)
    (one_recv (write_request demo_fid 0 3) [1; 2; 3]) no_loss demo_rpc w_empty demo_fid 0 [1; 2; 3]) as Hw.
  change (Z.of_nat (length [1; 2; 3])) with 3 in Hw. rewrite Hw.
  - vm_compute. reflexivity.
  - apply demo_fid_ok.
  - vm_compute. split; discriminate.
  - vm_compute. discriminate.
  - apply one_recv_carries. apply Nat.leb_le. vm_compute. reflexivity.
Defined.

Lemma w_node_served :
  handle_client (H := rpc_service no_text) (one_recv (write_request demo_fid 0 3) [1; 2; 3]) no_loss demo_rpc
    w_empty = Some (answer_and_close (write_reply 3), w_node).
Proof. vm_compute. reflexivity. Qed.

Definition iface_written : storage_interface :=
  count_write 3 (on_wire 101 (sent_line 60 (write_request demo_fid 0 3) ++ [1; 2; 3]) demo_iface).

Lemma storage_write_then_read_witness :
  exists iface'', storage_interface_read (fun _ => true) true 1 [Some [1]; Some [2; 3]] 101 demo_fid 0 3
      iface_written =
    Some (0, MkResp 0 EmptyString (Some [1; 2; 3]) 3 3, iface'').
Proof.
  apply (storage_write_then_read no_text no_loss demo_rpc demo_rpc demo_fid 0 [1; 2; 3] w_empty
           (one_recv (write_request demo_fid 0 3) [1; 2; 3]) (answer_and_close (write_reply 3)) w_node 60 [3] EmptyString 101
           demo_iface (MkResp 0 EmptyString None 0 3) iface_written
           (one_recv (read_request demo_fid 0 3) []) (answer_and_close [1; 2; 3])
           (rpc_Get no_text demo_rpc (MkGetReq demo_fid 0 3) w_node).2 (fun _ => true) 1 [[1]; [2; 3]]).
  - apply demo_fid_ok.
  - apply quiet_init.
  - apply demo_quiet.
  - apply demo_quiet.
  - apply demo_quiet.
  - intros i Hi. exfalso. revert Hi. vm_compute. discriminate.
  - discriminate.
  - lia.
  - vm_compute. reflexivity.
  - vm_compute. reflexivity.
  - reflexivity.
  - reflexivity.
  - apply one_recv_carries. apply Nat.leb_le. vm_compute. reflexivity.
  - apply w_node_served.
  - vm_compute. reflexivity.
  - apply one_recv_carries. apply Nat.leb_le. vm_compute. reflexivity.
  - vm_compute. reflexivity.
  - reflexivity.
  - repeat (apply list.Forall_cons; split; [discriminate |]). apply list.Forall_nil_2.
  - lia.
Defined.

(** A write whose sender goes away after the first byte. *)
Definition cut_conn : tcp_conn :=
  MkConn (Some (str_bytes (write_request demo_fid 0 3) ++ [1])) [Some []] (fun _ => true).

Lemma adapter_connection_ends_witness :
  exists acts w', handle_client (H := rpc_service no_text) cut_conn no_loss demo_rpc w_empty = Some (acts, w').
Proof.
  exact (adapter_connection_ends (H := rpc_service no_text) cut_conn no_loss demo_rpc w_empty
    (rpc_counts_reads no_text) (fun _ => eq_refl) (List.Exists_cons_hd _ _ _ (or_intror eq_refl))).
Defined.
