(* ===== verification/Client.v ===== *)
(** * The clients: [src/src/distributed_client.cpp], [src/proto/grpc_client.cc]

    Command-line programs over [FileSystemService].  A method returns its result code,
    the lines it prints on standard output and standard error, and the service after the
    call.  The channel is [transport]; the text of a failed gRPC status is a parameter. *)

From stdpp Require Import base strings list numbers pretty.
From Stdlib Require Import Ascii.
From S2P Require Import Prelude CString Proto TcpAdapter.

#[local] Open Scope Z_scope.

(** What a program has printed: standard output and standard error, line by line. *)
Record printed := MkPrinted { stdout : list string; stderr : list string }.

Definition out (l : list string) : printed := MkPrinted l [].
Definition err (l : list string) : printed := MkPrinted [] l.

(** The bytes as they are printed. *)
Definition bytes_str (bs : list Z) : string :=
  foldr (fun b s => String (ascii_of_N (Z.to_N b)) s) EmptyString bs.

(** [strtoull(s, nullptr, 10)] *)
Definition strtoull (s : string) : Z := default 0 (fst <$> scan_lu s).

#[local] Open Scope string_scope.

Section Client.
Context {S E : Type} `{FileSystemService S E} (rpc_error : string).

(** The common end of the methods: a failed call, an error status, or success. *)
Definition finish {Resp} (what : string) (code : Resp -> Z) (msg : Resp -> string)
    (ok : Resp -> list string) (r : option Resp * S) : Z * printed * S :=
  match r.1 with
  | None => (-1, err ["RPC failed: " +:+ rpc_error], r.2)
  | Some resp =>
      if decide (code resp <> 0) then (code resp, err [what +:+ (" failed: " +:+ msg resp)], r.2)
      else (0, out (ok resp), r.2)
  end%Z.

Definition client_Mkdir (t : transport) (e : E) (parent_path dirname : string) (mode : Z) (s : S)
  : Z * printed * S :=
  finish "Mkdir" status_code error_message
    (fun _ => ["✓ Directory created: " +:+ (parent_path +:+ ("/" +:+ dirname))])
    (remote Mkdir t e (MkMkdirReq parent_path dirname mode) s).

Definition client_Create (t : transport) (e : E) (parent_path filename : string) (mode : Z) (s : S)
  : Z * printed * S :=
  finish "Create" status_code error_message
    (fun _ => ["✓ File created: " +:+ (parent_path +:+ ("/" +:+ filename))])
    (remote Create t e (MkCreateReq parent_path filename mode) s).

Definition client_RemoveFile (t : transport) (e : E) (path : string) (s : S) : Z * printed * S :=
  finish "Remove" status_code error_message (fun _ => ["✓ File removed: " +:+ path])
    (remote Remove t e (MkRemoveReq path) s).

Definition client_RemoveDirectory (t : transport) (e : E) (path : string) (s : S) : Z * printed * S :=
  finish "Rmdir" status_code error_message (fun _ => ["✓ Directory removed: " +:+ path])
    (remote Rmdir t e (MkRmdirReq path) s).

Definition client_Write (t : transport) (e : E) (path : string) (data : list Z) (offset : Z) (s : S)
  : Z * printed * S :=
  finish "Write" write_status write_error
    (fun r => ["✓ Wrote " +:+ (pretty (written r) +:+ (" bytes to " +:+ path))])
    (remote Write t e (MkWriteReq path data (s64 offset)) s).

(** Also returns [data_out], the empty string unless the call succeeds. *)
Definition client_Read (t : transport) (e : E) (path : string) (offset size : Z) (s : S)
  : Z * printed * list Z * S :=
  let r := remote Get t e (MkGetReq path (s64 offset) (s64 size)) s in
  let '(rc, p, s') :=
    finish "Read" get_status get_error
      (fun r => ["✓ Read " +:+ (pretty (read_count r) +:+ (" bytes from " +:+ path))]) r in
  (rc, p, if decide (rc = 0)%Z then from_option got [] r.1 else [], s').

Definition list_line (x : FileEntry) : string :=
  "  " +:+ ((if is_directory x then "[DIR] " else "[FILE]") +:+
  (entry_name x +:+ (" (" +:+ (pretty (entry_size x) +:+ " bytes)")))).

Definition client_ListDirectory (t : transport) (e : E) (path : string) (s : S) : Z * printed * S :=
  finish "ReadDirectory" readdir_status readdir_error
    (fun r => ("Directory listing for " +:+ (path +:+ ":")) :: (list_line <$> listing r))
    (remote ReadDirectory t e (MkReaddirReq path) s).

(** The dispatch of [main]; [argv] with the program's name first.  The usage text of
    [print_usage] goes to standard output and is left out. *)
Definition client_main (t : transport) (e : E) (argv : list string) (s : S) : Z * printed * S :=
  let usage l := (1, err l, s)%Z in
  match argv with
  | _ :: _ :: command :: args =>
      if decide (command = "mkdir") then
        match args with
        | a :: b :: _ => client_Mkdir t e a b 493 s
        | _ => usage ["Usage: mkdir <parent_path> <dirname>"]
        end
      else if decide (command = "create") then
        match args with
        | a :: b :: _ => client_Create t e a b 420 s
        | _ => usage ["Usage: create <parent_path> <filename>"]
        end
      else if decide (command = "rm") then
        match args with
        | a :: _ => client_RemoveFile t e a s
        | _ => usage ["Usage: rm <file_path>"]
        end
      else if decide (command = "rmdir") then
        match args with
        | a :: _ => client_RemoveDirectory t e a s
        | _ => usage ["Usage: rmdir <directory_path>"]
        end
      else if decide (command = "write") then
        match args with
        | path :: text :: rest =>
            let offset := match rest with o :: _ => strtoull o | [] => 0%Z end in
            client_Write t e path (str_bytes text) offset s
        | _ => usage ["Usage: write <file_path> <text>"]
        end
      else if decide (command = "read") then
        match args with
        | path :: rest =>
            let offset := match rest with o :: _ => strtoull o | [] => 0%Z end in
            let size := match rest with _ :: z :: _ => strtoull z | _ => 0%Z end in
            let '(result, p, data, s') := client_Read t e path offset size s in
            (result,
             if decide (0 <= result)%Z
             then MkPrinted (stdout p ++ ["Content:"; bytes_str data]) (stderr p) else p, s')
        | [] => usage ["Usage: read <file_path>"]
        end
      else if decide (command = "ls") then
        match args with
        | a :: _ => client_ListDirectory t e a s
        | _ => usage ["Usage: ls <directory_path>"]
        end
      else usage ["Unknown command: " +:+ command]
  | _ => (1, out [], s)%Z
  end.

(** ** The demonstration client, [grpc_client.cc]

    Its methods print whatever response they have, the default one after a failed
    call, and return the status, which [main] ignores but for its details. *)

Definition grpc_Create (t : transport) (e : E) (parent_path name : string) (mode : Z) (s : S)
  : list string * S :=
  let '(r, s') := remote Create t e (MkCreateReq parent_path name mode) s in
  ([from_option error_message "" r], s').

Definition grpc_Mkdir (t : transport) (e : E) (parent_path name : string) (mode : Z) (s : S)
  : list string * S :=
  let '(r, s') := remote Mkdir t e (MkMkdirReq parent_path name mode) s in
  ([from_option error_message "" r], s').

Definition grpc_Write (t : transport) (e : E) (path : string) (data : list Z) (offset : Z) (s : S)
  : list string * S :=
  let '(r, s') := remote Write t e (MkWriteReq path data offset) s in
  (["Number of bytes written: " +:+ pretty (from_option written 0%Z r); from_option write_error "" r], s').

Definition grpc_Get (t : transport) (e : E) (path : string) (offset size : Z) (s : S)
  : list string * S :=
  let '(r, s') := remote Get t e (MkGetReq path offset size) s in
  (["The following was read: " +:+ bytes_str (from_option got [] r); from_option get_error "" r], s').

Definition grpc_ReadDirectory (t : transport) (e : E) (path : string) (s : S) : list string * S :=
  let '(r, s') := remote ReadDirectory t e (MkReaddirReq path) s in
  let entries := from_option listing [] r in
  (["Found " +:+ (pretty (Z.of_nat (Datatypes.length entries)) +:+ " items.")] ++
   ((fun x => "Filename: " +:+ entry_name x) <$> entries) ++ [from_option readdir_error "" r], s')%list.

(** The calls of [main], without the headlines between them. *)
Definition grpc_main (t : transport) (e : E) (s : S) : list string * S :=
  let '(l1, s1) := grpc_Create t e "/mnt/fused" "test.txt" 755 s in
  let '(l2, s2) := grpc_Mkdir t e "/mnt/fused" "testdir" 755 s1 in
  let '(l3, s3) := grpc_Write t e "/mnt/fused/test.txt"
                     (str_bytes "this message should be written to a file") 0 s2 in
  let '(l4, s4) := grpc_Get t e "/mnt/fused/test.txt" 0 250 s3 in
  let '(l5, s5) := grpc_ReadDirectory t e "/mnt/fused" s4 in
  (l1 ++ l2 ++ l3 ++ l4 ++ l5, s5)%list.

End Client.
