(* ===== verification/ClientThm.v ===== *)
(** * The clients: theorems

    The command line is a call of the service and the exit code its outcome; text written
    with one command is printed by the next. *)

From stdpp Require Import base gmap strings list numbers pretty.
From Stdlib Require Import Ascii.
From S2P Require Import Prelude CString FusedFs FusedInv FusedReach FusedRun.
From S2P Require Import FusedNames FusedData Proto RpcServer RpcThm TcpAdapter TcpThm.
From S2P Require Import Client.

#[local] Open Scope Z_scope.

(** ** Commands *)

(** Reference: the call a command line stands for. *)
Definition call_of (argv : list string) : option rpc_call :=
  match argv with
  | _ :: _ :: "mkdir"%string :: a :: b :: _ => Some (CallMkdir (MkMkdirReq a b 493))
  | _ :: _ :: "create"%string :: a :: b :: _ => Some (CallCreate (MkCreateReq a b 420))
  | _ :: _ :: "rm"%string :: a :: _ => Some (CallRemove (MkRemoveReq a))
  | _ :: _ :: "rmdir"%string :: a :: _ => Some (CallRmdir (MkRmdirReq a))
  | [_; _; "write"%string; a; b] => Some (CallWrite (MkWriteReq a (str_bytes b) 0))
  | _ :: _ :: "write"%string :: a :: b :: o :: _ =>
      Some (CallWrite (MkWriteReq a (str_bytes b) (s64 (strtoull o))))
  | [_; _; "read"%string; a] => Some (CallGet (MkGetReq a 0 0))
  | [_; _; "read"%string; a; o] => Some (CallGet (MkGetReq a (s64 (strtoull o)) 0))
  | _ :: _ :: "read"%string :: a :: o :: z :: _ =>
      Some (CallGet (MkGetReq a (s64 (strtoull o)) (s64 (strtoull z))))
  | _ :: _ :: "ls"%string :: a :: _ => Some (CallReadDirectory (MkReaddirReq a))
  | _ => None
  end.

Section Dispatch.
Context {S E : Type} `{FS : FileSystemService S E} (rpc_error : string).

(** The status the server answers a call with, if it answers. *)
Definition answered (e : E) (c : rpc_call) (s : S) : option Z :=
  match c with
  | CallCreate r => status_code <$> (Create e r s).1
  | CallMkdir r => status_code <$> (Mkdir e r s).1
  | CallRemove r => status_code <$> (Remove e r s).1
  | CallRmdir r => status_code <$> (Rmdir e r s).1
  | CallWrite r => write_status <$> (Write e r s).1
  | CallGet r => get_status <$> (Get e r s).1
  | CallReadDirectory r => readdir_status <$> (ReadDirectory e r s).1
  end.

(** The client's view of a call over the channel [t]. *)
Definition call_result (t : transport) (e : E) (c : rpc_call) (s : S) : Z :=
  if request_lost t || response_lost t then -1 else default (-1) (answered e c s).

Definition call_state (t : transport) (e : E) (c : rpc_call) (s : S) : S :=
  if request_lost t then s else serve e c s.

Lemma finish_spec {Req Resp} (call : E -> Req -> S -> option Resp * S) what code msg ok t e req s rc p s' :
  finish rpc_error what code msg ok (remote call t e req s) = (rc, p, s') ->
  rc = (if request_lost t || response_lost t then -1 else default (-1) (code <$> (call e req s).1)) /\
  s' = (if request_lost t then s else (call e req s).2) /\ (stderr p = [] <-> rc = 0).
Proof.
  unfold finish, remote. destruct (request_lost t); cbn [orb fst snd]; [by intros [= <- <- <-] |].
  destruct (call e req s) as [r s1]. destruct (response_lost t); cbn [fst snd]; [by intros [= <- <- <-] |].
  destruct r as [resp|]; cbn [fmap option_fmap option_map from_option id]; [| by intros [= <- <- <-]].
  case_decide as Hc; intros [= <- <- <-]; [done |]. split_and!; [| done | done].
  destruct (decide (code resp = 0)); [done | tauto].
Qed.

Lemma main_spec t e argv s rc p s' :
  client_main rpc_error t e argv s = (rc, p, s') ->
  match call_of argv with
  | Some c => rc = call_result t e c s /\ s' = call_state t e c s /\ (stderr p = [] <-> rc = 0)
  | None => rc = 1 /\ s' = s
  end.
Proof.
  unfold client_main. destruct argv as [|prog [|addr [|command args]]]; [by intros [= <- <- <-] .. |].
  destruct (decide (command = "mkdir"%string)) as [->|H1].
  { destruct args as [|a [|b args]]; [by intros [= <- <- <-] .. |]. apply finish_spec. }
  destruct (decide (command = "create"%string)) as [->|H2].
  { destruct args as [|a [|b args]]; [by intros [= <- <- <-] .. |]. apply finish_spec. }
  destruct (decide (command = "rm"%string)) as [->|H3].
  { destruct args as [|a args]; [by intros [= <- <- <-] .. |]. apply finish_spec. }
  destruct (decide (command = "rmdir"%string)) as [->|H4].
  { destruct args as [|a args]; [by intros [= <- <- <-] .. |]. apply finish_spec. }
  destruct (decide (command = "write"%string)) as [->|H5].
  { destruct args as [|a [|b [|o args]]]; [by intros [= <- <- <-] .. | apply finish_spec | apply finish_spec]. }
  destruct (decide (command = "read"%string)) as [->|H6].
  { destruct args as [|a args]; [by intros [= <- <- <-] |].
    set (off := match args with [] => _ | _ => _ end). set (sz := match args with _ :: z :: _ => _ | _ => _ end).
    assert (Hcall : call_of (prog :: addr :: "read"%string :: a :: args) = Some (CallGet (MkGetReq a (s64 off) (s64 sz))))
      by (by destruct args as [|o [|z args]]).
    rewrite Hcall. unfold client_Read.
    destruct (finish _ _ _ _ _ _) as [[rc0 p0] s0] eqn:Hf. apply finish_spec in Hf as (Hrc & Hs & Hp).
    intros [= <- <- <-]. split_and!; [done | done |]. by case_decide. }
  destruct (decide (command = "ls"%string)) as [->|H7].
  { destruct args as [|a args]; [by intros [= <- <- <-] .. |]. apply finish_spec. }
  intros [= <- <- <-].
  assert (Hcall : call_of (prog :: addr :: command :: args) = None); [| by rewrite Hcall].
  clear -H1 H2 H3 H4 H5 H6 H7. revert H1 H2 H3 H4 H5 H6 H7. unfold call_of.
  repeat (case_match; try done).
Qed.

End Dispatch.

(** C37: the command line client is its reference. For every command line that names a
    call the exit code is the status the server answers, or -1 if the call or its answer
    is lost or fails, the server is called exactly once, and nothing is printed on
    standard error exactly if the code is 0. Every other command line exits with 1
    without a call. *)
Theorem client_main_calls {S E} `{FS : FileSystemService S E} rpc_error t e argv s rc p s' :
  client_main rpc_error t e argv s = (rc, p, s') ->
  match call_of argv with
  | Some c => rc = call_result t e c s /\ s' = call_state t e c s /\ (stderr p = [] <-> rc = 0)
  | None => rc = 1 /\ s' = s
  end.
Proof. apply main_spec. Qed.

(** ** Writing and reading over the RPC server *)

Lemma bytes_str_bytes text : bytes_str (str_bytes text) = text.
Proof.
  induction text as [|a text IH]; [done |]. cbn [str_bytes bytes_str foldr].
  fold (bytes_str (str_bytes text)). by rewrite IH, N2Z.id, ascii_N_embedding.
Qed.

Definition reliable : transport := MkTransport false false.

Lemma strtoull_fmt z : 0 <= z <= UINT64_MAX -> strtoull (fmt_u z) = z.
Proof.
  intros Hz. unfold strtoull. rewrite <- (str_app_nil_r (fmt_u z)), scan_lu_fmt by done. done.
Qed.

(** Text written with the client's [write] command to a storage node's RPC server is
    printed by its [read] command. If [write] exits with 0 on a path that is new or names
    a regular file, then [read] of that many bytes exits with 0 and prints the text. *)
Theorem client_write_then_read rpc_error se e e' prog addr p text w pr w' :
  let path := c_str (normalize_path p) in let n := Z.of_nat (String.length text) in
  quiet_reachable w -> quiet (create_env e) -> quiet (io_env e) -> quiet (io_env e') -> has_slash path ->
  (forall i, path_to_inode (g_state w) path = Some i -> S_ISDIR (mode (deref (g_state w) i)) = false) ->
  text <> EmptyString -> n < 2 ^ 31 -> buffer_ok e' n = true ->
  client_main (H := rpc_service se) rpc_error reliable e [prog; addr; "write"%string; p; text] w = (0, pr, w') ->
  (client_main (H := rpc_service se) rpc_error reliable e' [prog; addr; "read"%string; p; "0"%string; fmt_u n] w').1 =
  (0, out [("✓ Read " +:+ (pretty n +:+ (" bytes from " +:+ p)))%string; "Content:"%string; text]).
Proof.
  intros path n Hqr Hqc Hq Hq' Hh Hreg Hne Hn Hb Hw.
  assert (Hlen : n = Z.of_nat (length (str_bytes text))) by (unfold n; by rewrite str_bytes_length).
  assert (Hmax : UINT64_MAX = 2 ^ 64 - 1) by reflexivity.
  unfold client_main in Hw |- *. cbv zeta in *. rewrite decide_False, decide_False, decide_False, decide_False,
    decide_True in Hw by done.
  rewrite !decide_False, decide_True by done. unfold client_Write, client_Read, finish, remote in *.
  cbn [reliable request_lost response_lost] in *. change (s64 0) with 0 in Hw. change (s64 (strtoull "0")) with 0.
  rewrite strtoull_fmt, s64_small by lia.
  cbn [Write rpc_service] in Hw. destruct (rpc_Write se e _ w) as [[r|] w1] eqn:Hwr; cbn [fst snd] in Hw; [| done].
  case_decide as Hst; [congruence |]. injection Hw as _ <-.
  assert (Hst0 : write_status r = 0) by (destruct (decide (write_status r = 0)); tauto).
  rewrite (write_ok_shape _ _ _ _ _ _ Hwr Hst0) in Hwr.
  destruct (write_then_get se e e' p (str_bytes text) 0 w (written r) w1) as [Hwn Hg]; try done.
  - destruct text; [done |]. discriminate.
  - lia.
  - by rewrite <- Hlen.
  - by rewrite <- Hlen.
  - cbn [Get rpc_service]. rewrite Hwn, <- Hlen in Hg.
    destruct (rpc_Get se e' _ w1) as [r2 w2]. cbn [fst snd] in *. rewrite Hg. cbn [get_status]. 
    rewrite decide_False by tauto. cbn [from_option got]. rewrite decide_True by done. 
    cbn [fst stdout stderr out app read_count]. rewrite decide_True by done. by rewrite bytes_str_bytes.
Qed.

(** ** Concrete commands *)

Definition demo_text : string := "hi".

Definition write_cmd : list string := ["client"; "localhost:60051"; "write"; "/a/g"; demo_text]%string.

Lemma client_main_calls_witness :
  (client_main (H := rpc_service no_text) "" reliable demo_rpc write_cmd w_rpc).1.1 =
  call_result (FS := rpc_service no_text) reliable demo_rpc (CallWrite (MkWriteReq "/a/g" [104; 105] 0)) w_rpc.
Proof.
  destruct (client_main (H := rpc_service no_text) "" reliable demo_rpc write_cmd w_rpc) as [[rc p] s'] eqn:Hm.
  exact (proj1 (client_main_calls (FS := rpc_service no_text) "" reliable demo_rpc write_cmd w_rpc rc p s' Hm)).
Defined.

Definition w_client : world :=
  (client_main (H := rpc_service no_text) "" reliable demo_rpc write_cmd w_rpc).2.

Lemma client_write_then_read_witness :
  (client_main (H := rpc_service no_text) "" reliable demo_rpc
     ["client"; "localhost:60051"; "read"; "/a/g"; "0"; fmt_u 2]%string w_client).1 =
  (0, out ["✓ Read 2 bytes from /a/g"; "Content:"; "hi"]%string).
Proof.
  apply (client_write_then_read "" no_text demo_rpc demo_rpc "client" "localhost:60051" "/a/g" demo_text w_rpc
    (out ["✓ Wrote 2 bytes to /a/g"]%string) w_client).
  - apply w_rpc_quiet.
  - apply demo_quiet.
  - apply demo_quiet.
  - apply demo_quiet.
  - apply (abs_has_slash "a/g").
  - intros i Hi. exfalso. revert Hi. vm_compute. discriminate.
  - discriminate.
  - vm_compute. reflexivity.
  - reflexivity.
  - unfold w_client. fold write_cmd. apply by_fst. vm_compute. reflexivity.
Defined.

(** The demonstration client reads back what it wrote. *)
Example grpc_client_prints :
  (grpc_main (H := rpc_service no_text) reliable demo_rpc w_empty).1 =
  [""; ""; "Number of bytes written: 40"; ""; "The following was read: this message should be written to a file"; "";
   "Found 2 items."; "Filename: test.txt"; "Filename: testdir"; ""]%string.
Proof. vm_compute. reflexivity. Qed.
