(* ===== verification/Frontend.v ===== *)
(** * The frontend coordinator: [src/src/distributed_frontend.cpp]

    The second implementation of [FileSystemService]: names live in the replicated
    metadata map, contents on the storage nodes.  A handler runs from start to end on the
    state of the process (Paxos node, metadata manager, storage interface), which
    [g_coordinator_lock] keeps to one handler at a time but for the checks at the start of
    [Create] and [Mkdir].  The network thread takes no such lock: while a handler waits in
    [paxos_propose], messages are handled in between, in the order an explicit schedule
    gives.  Messages that arrive elsewhere in a handler are not interleaved.

    A handler that is not done at the end of its schedule, or that runs into undefined
    behaviour, has result [None]. *)

From stdpp Require Import base gmap strings list pretty numbers.
From Stdlib Require Import Ascii.
From S2P Require Import Prelude CString FusedFs Proto Storage Paxos PaxosThm Metadata.
From S2P Require Import MetadataThm Replica.

#[local] Open Scope Z_scope.

Definition EINVAL : Z := 22.
Definition ENODEV : Z := 19.
Definition MAX_REPLICAS : nat := 3.

(** ** Paths *)

(** The loop of [trim_trailing_slash]: the final value of [end]. *)
Fixpoint trim_end (e : nat) (p : string) : nat :=
  match e with
  | O => e
  | S e' =>
      if decide (e' <> O /\ String.get e' p = Some slash) then trim_end e' p else e
  end.

Definition trim_trailing_slash (p : string) : string :=
  if decide (p = "/"%string) then p else str_take (trim_end (String.length p) p) p.

(** The name of [candidate] in [dir_path], if it is a direct child. *)
Definition is_direct_child_path (dir_path candidate : string) : option string :=
  if decide (candidate = EmptyString \/ candidate = dir_path) then None
  else
    let normalized_dir := trim_trailing_slash dir_path in
    let prefix := if decide (normalized_dir = "/"%string) then "/"%string
                  else (normalized_dir +:+ "/")%string in
    if negb (starts_with prefix candidate) then None
    else
      let remainder := str_drop (String.length prefix) candidate in
      if decide (remainder = EmptyString) then None
      else if decide (str_in slash remainder) then None
      else Some remainder.

Definition normalize_path (p : string) : string :=
  match p with
  | EmptyString => "/"%string
  | String a _ => if decide (a <> slash) then String slash p else p
  end.

Definition is_valid_name_component (name : string) : bool :=
  if decide (name = EmptyString \/ name = "."%string \/ name = ".."%string) then false
  else bool_decide (~ str_in slash name).

Definition join_path (parent name : string) : string :=
  let normalized_parent := trim_trailing_slash (normalize_path parent) in
  if decide (normalized_parent = "/"%string) then String slash name
  else (normalized_parent +:+ String slash name)%string.

Definition path_is_existing_directory (g : metadata_manager) (p : string) : bool :=
  let normalized := trim_trailing_slash (normalize_path p) in
  if decide (normalized = "/"%string) then true
  else
    match metadata_lookup_by_path g (c_str normalized) with
    | None => false
    | Some a => bool_decide (state (deref g a) <> FILE_STATE_DELETED) && S_ISDIR (mode (deref g a))
    end.

(** The name under which a hash node shows up in [dir]. *)
Definition child_in (g : metadata_manager) (dir : string) (node : string * nat) : option string :=
  if decide (state (deref g node.2) <> FILE_STATE_DELETED)
  then is_direct_child_path dir (trim_trailing_slash (path (deref g node.2)))
  else None.

Definition directory_has_children (g : metadata_manager) (dir_path : string) : bool :=
  let normalized_dir := trim_trailing_slash (normalize_path dir_path) in
  existsb (fun node => bool_decide (is_Some (child_in g normalized_dir node))) (concat (buckets g)).

(** ** State and surroundings *)

Record frontend := MkFrontend {
  g_paxos : paxos_node;
  g_metadata : metadata_manager;
  g_storage : storage_interface;
}.

(** What happens while a handler is in [paxos_propose]: the network thread handles a
    message, or the call goes on to its next lock release. *)
Inductive commit_event :=
| Msg (cb : cb_env) (m : paxos_message)
| Step (ob : observation) (cb : cb_env).

Record read_exchange := MkReadX {
  rx_malloc : Z -> bool;
  rx_connect : bool;
  rx_header : Z;
  rx_recvs : list (option (list Z));
}.

Record delete_exchange := MkDelX { dx_connect : bool; dx_sent : Z; dx_reply : option string }.

(** What one handler call observes.  The exchanges are numbered by replica; [fe_peer]
    answers a forwarded read, by address. *)
Record fe_env := MkFeEnv {
  fe_uuid : string;
  fe_uid : Z;
  fe_gid : Z;
  fe_time : Z;
  fe_serialize_ok : bool;
  fe_schedule : list commit_event;
  fe_writes : nat -> exchange;
  fe_reads : nat -> read_exchange;
  fe_deletes : nat -> delete_exchange;
  fe_no_forward : bool;
  fe_node_id : option Z;
  fe_total_nodes : option Z;
  fe_peer : string -> GetRequest -> option GetResponse;
}.

(** ** Consensus *)

(** [paxos_propose] with the callbacks carried out on the metadata manager. *)
Fixpoint propose_with (sched : list commit_event) (v : list Z) (pc : propose_pc)
    (r : paxos_node * metadata_manager) : option (Z * (paxos_node * metadata_manager)) :=
  match pc with
  | PDone rc => Some (rc, r)
  | _ =>
      match sched with
      | [] => None
      | Msg cb m :: sched' =>
          r' ← replica_step (M := metadata_machine) cb m r; propose_with sched' v pc r'
      | Step ob cb :: sched' =>
          let rc := match persist_wal cb (Some v) (Z.of_nat (length v)) r.2 with
                    | Some (rc, _) => rc
                    | None => -1
                    end in
          let ob' := MkObs (malloc_ok ob) rc (broadcast_rc ob) (woken ob) in
          let '(pc', n', eff) := propose_step ob' v pc r.1 in
          g' ← run_effects (M := metadata_machine) cb eff r.2; propose_with sched' v pc' (n', g')
      end
  end.

Definition commit_metadata_with_paxos (e : fe_env) (entry : metadata_entry) (s : frontend)
  : option (bool * frontend) :=
  if negb (fe_serialize_ok e) then Some (false, s)
  else
    '(paxos_result, (n, g)) ← propose_with (fe_schedule e) (metadata_serialize entry) PStart
                                (g_paxos s, g_metadata s);
    Some (bool_decide (paxos_result = 0), MkFrontend n g (g_storage s)).

(** ** Entries to propose *)

(** The common part of [Create] and [Mkdir]. *)
Definition proposed (e : fe_env) (full_path : string) (md : Z) : metadata_entry :=
  MkEntry (strncpy 63 (c_str (fe_uuid e))) (strncpy (MAX_PATH_LENGTH - 1) (c_str full_path))
    FILE_STATE_ACTIVE 0 md (fe_uid e) (fe_gid e) (fe_time e) (fe_time e) (fe_time e)
    (storage_nodes zero_entry) (storage_node_ips zero_entry) (storage_node_ports zero_entry)
    0 0 1 4194304 0.

Definition set_replica (i : nat) (id : Z) (ip : string) (prt : Z) (e : metadata_entry)
  : metadata_entry :=
  MkEntry (file_id e) (path e) (state e) (size e) (mode e) (uid e) (gid e) (created_time e)
    (modified_time e) (accessed_time e) (<[i := id]> (storage_nodes e))
    (<[i := strncpy 63 ip]> (storage_node_ips e)) (<[i := prt]> (storage_node_ports e))
    (num_storage_nodes e) (primary_node_idx e) (version e) (stripe_size e) (num_replicas e).

Definition set_counts (n : Z) (e : metadata_entry) : metadata_entry :=
  MkEntry (file_id e) (path e) (state e) (size e) (mode e) (uid e) (gid e) (created_time e)
    (modified_time e) (accessed_time e) (storage_nodes e) (storage_node_ips e)
    (storage_node_ports e) n 0 (version e) (stripe_size e) n.

(** The selected nodes from number [i] on. *)
Fixpoint assign_nodes (s : storage_interface) (i : nat) (selected : list Z) (e : metadata_entry)
  : metadata_entry :=
  match selected with
  | [] => e
  | id :: selected' =>
      if decide (i < MAX_STORAGE_NODES)%nat then
        let e' := match storage_interface_get_node s id with
                  | Some node => set_replica i id (ip_address node) (Storage.port node) e
                  | None => e
                  end in
        assign_nodes s (S i) selected' e'
      else e
  end.

Definition set_size (z : Z) (e : metadata_entry) : metadata_entry :=
  MkEntry (file_id e) (path e) (state e) z (mode e) (uid e) (gid e) (created_time e)
    (modified_time e) (accessed_time e) (storage_nodes e) (storage_node_ips e)
    (storage_node_ports e) (num_storage_nodes e) (primary_node_idx e) (version e)
    (stripe_size e) (num_replicas e).

(** The identifiers the loops over the replicas read; [None]: past the array. *)
Definition replica_ids (e : metadata_entry) : option (list Z) :=
  if decide (num_storage_nodes e <= Z.of_nat (length (storage_nodes e)))
  then Some (take (Z.to_nat (num_storage_nodes e)) (storage_nodes e)) else None.

Definition quorum_required (e : metadata_entry) : Z := num_storage_nodes e `div` 2 + 1.

(** ** Replicas *)

(** Writes to the replicas from number [i] on: how many succeeded, and [bytes_written]. *)
Fixpoint write_replicas (xs : nat -> exchange) (i : nat) (ids : list Z) (fid : string)
    (offset : Z) (bytes : list Z) (success_count bytes_written : Z) (s : storage_interface)
  : option (Z * Z * storage_interface) :=
  match ids with
  | [] => Some (success_count, bytes_written, s)
  | node_id :: ids' =>
      if decide (node_id = 0)
      then write_replicas xs (S i) ids' fid offset bytes success_count bytes_written s
      else
        match storage_interface_write (xs i) node_id fid (u64 offset) bytes s with
        | None => None
        | Some (rc, resp, s') =>
            if decide (rc = 0 /\ status resp = 0)
            then write_replicas xs (S i) ids' fid offset bytes (u32 (success_count + 1))
                   (bytes_transferred resp) s'
            else write_replicas xs (S i) ids' fid offset bytes success_count bytes_written s'
        end
  end.

Fixpoint delete_replicas (xs : nat -> delete_exchange) (i : nat) (ids : list Z) (fid : string)
    (success_count : Z) (s : storage_interface) : Z * storage_interface :=
  match ids with
  | [] => (success_count, s)
  | node_id :: ids' =>
      if decide (node_id = 0) then delete_replicas xs (S i) ids' fid success_count s
      else
        let x := xs i in
        let '(rc, resp, s') :=
          storage_interface_delete (dx_connect x) (dx_sent x) (dx_reply x) node_id fid s in
        delete_replicas xs (S i) ids' fid
          (if decide (rc = 0 /\ status resp = 0) then u32 (success_count + 1) else success_count) s'
  end.

(** Reads until a value has been reported [quorum] times. *)
Fixpoint read_replicas (xs : nat -> read_exchange) (i : nat) (ids : list Z) (fid : string)
    (offset len quorum : Z) (value_counts : gmap (list Z) Z) (s : storage_interface)
  : option (option (list Z) * storage_interface) :=
  match ids with
  | [] => Some (None, s)
  | node_id :: ids' =>
      if decide (node_id = 0)
      then read_replicas xs (S i) ids' fid offset len quorum value_counts s
      else
        let x := xs i in
        match storage_interface_read (rx_malloc x) (rx_connect x) (rx_header x) (rx_recvs x)
                node_id fid (u64 offset) len s with
        | None => None
        | Some (rc, resp, s') =>
            match data resp with
            | Some payload =>
                if decide (rc = 0 /\ status resp = 0) then
                  let count := u32 (default 0 (value_counts !! payload) + 1) in
                  if decide (quorum <= count) then Some (Some payload, s')
                  else read_replicas xs (S i) ids' fid offset len quorum
                         (<[payload := count]> value_counts) s'
                else read_replicas xs (S i) ids' fid offset len quorum value_counts s'
            | None => read_replicas xs (S i) ids' fid offset len quorum value_counts s'
            end
        end
  end.

(** ** Handlers *)

Definition answer (code : Z) (msg : string) (s : frontend) : option (StatusResponse * frontend) :=
  Some (MkStatus code msg, s).

(** The live entry a path resolves to. *)
Definition live_entry (g : metadata_manager) (p : string) : option metadata_entry :=
  a ← metadata_lookup_by_path g (c_str p);
  if decide (state (deref g a) = FILE_STATE_DELETED) then None else Some (deref g a).

(** The proposal and the answer to its outcome. *)
Definition commit_and_answer (e : fe_env) (entry : metadata_entry) (s : frontend)
  : option (StatusResponse * frontend) :=
  '(committed, s') ← commit_metadata_with_paxos e entry s;
  if (committed : bool) then answer 0 EmptyString s'
  else answer (- EIO) "Failed to commit metadata" s'.

(** [Create] once the checks that precede the lock have passed. *)
Definition create_locked (e : fe_env) (full_path : string) (md : Z) (s : frontend)
  : option (StatusResponse * frontend) :=
  let entry := proposed e full_path (Z.lor S_IFREG md) in
  let '(num_selected, selected, st) := storage_interface_select_nodes 0 MAX_REPLICAS (g_storage s) in
  let s1 := MkFrontend (g_paxos s) (g_metadata s) st in
  if decide (num_selected <= 0) then answer (- ENODEV) "No available storage nodes" s1
  else commit_and_answer e (set_counts num_selected (assign_nodes st 0 selected entry)) s1.

(** The checks that precede the lock in [Create] and [Mkdir]; an error, or the path to
    make. *)
Definition check_new (invalid exists_ : string) (pathname name : string) (g : metadata_manager)
  : StatusResponse + string :=
  let parent_path := trim_trailing_slash (normalize_path pathname) in
  if negb (is_valid_name_component name) then inl (MkStatus (- EINVAL) invalid)
  else if negb (path_is_existing_directory g parent_path)
  then inl (MkStatus (- ENOENT) "Parent directory not found")
  else
    let full_path := join_path parent_path name in
    match live_entry g full_path with
    | Some _ => inl (MkStatus (- EEXIST) exists_)
    | None => inr full_path
    end.

Definition fe_Create (e : fe_env) (req : CreateRequest) (s : frontend)
  : option (StatusResponse * frontend) :=
  match check_new "Invalid filename" "File already exists" (create_pathname req) (filename req)
          (g_metadata s) with
  | inl resp => Some (resp, s)
  | inr full_path => create_locked e full_path (create_mode req) s
  end.

Definition fe_Mkdir (e : fe_env) (req : MkdirRequest) (s : frontend)
  : option (StatusResponse * frontend) :=
  match check_new "Invalid directory name" "Directory already exists" (mkdir_pathname req)
          (dirname req) (g_metadata s) with
  | inl resp => Some (resp, s)
  | inr full_path => commit_and_answer e (proposed e full_path (Z.lor S_IFDIR (mkdir_mode req))) s
  end.

(** The entry as [Remove] and [Rmdir] propose it. *)
Definition tombstone (t : Z) (entry : metadata_entry) : metadata_entry :=
  bump t (set_state FILE_STATE_DELETED entry).

Definition fe_Remove (e : fe_env) (req : RemoveRequest) (s : frontend)
  : option (StatusResponse * frontend) :=
  let path := trim_trailing_slash (normalize_path (remove_pathname req)) in
  if decide (path = "/"%string) then answer (- EINVAL) "Cannot remove root path" s
  else
    match live_entry (g_metadata s) path with
    | None => answer (- ENOENT) "File not found" s
    | Some entry =>
        if S_ISDIR (mode entry) then answer (- EISDIR) "Path is a directory; use rmdir" s
        else if decide (0 < num_storage_nodes entry) then
          ids ← replica_ids entry;
          let '(success_count, st) :=
            delete_replicas (fe_deletes e) 0 ids (file_id entry) 0 (g_storage s) in
          let s1 := MkFrontend (g_paxos s) (g_metadata s) st in
          if decide (success_count < quorum_required entry)
          then answer (- EIO) "Delete quorum not reached" s1
          else commit_and_answer e (tombstone (fe_time e) entry) s1
        else commit_and_answer e (tombstone (fe_time e) entry) s
    end.

Definition fe_Rmdir (e : fe_env) (req : RmdirRequest) (s : frontend)
  : option (StatusResponse * frontend) :=
  let path := trim_trailing_slash (normalize_path (rmdir_pathname req)) in
  if decide (path = "/"%string) then answer (- EINVAL) "Cannot remove root directory" s
  else
    match live_entry (g_metadata s) path with
    | None => answer (- ENOENT) "Directory not found" s
    | Some entry =>
        if negb (S_ISDIR (mode entry)) then answer (- ENOTDIR) "Path is not a directory" s
        else if directory_has_children (g_metadata s) path
        then answer (- ENOTEMPTY) "Directory is not empty" s
        else commit_and_answer e (tombstone (fe_time e) entry) s
    end.

(** The entry [Write] proposes after writing [len] bytes at [offset]. *)
Definition grown (t offset len : Z) (entry : metadata_entry) : metadata_entry :=
  let written_end := u64 (u64 offset + len) in
  bump t (if decide (size entry < written_end) then set_size written_end entry else entry).

(** Where [Write] writes. *)
Definition write_position (offset : Z) (entry : metadata_entry) : Z :=
  if decide (offset = 0 /\ 0 < size entry) then s64 (size entry) else offset.

Definition fe_Write (e : fe_env) (req : WriteRequest) (s : frontend)
  : option (WriteResponse * frontend) :=
  let bytes := Proto.write_data req in
  match metadata_lookup_by_path (g_metadata s) (c_str (normalize_path (write_pathname req))) with
  | None => Some (MkWriteResp 0 (- ENOENT) "File not found", s)
  | Some a =>
      let entry := deref (g_metadata s) a in
      if decide (num_storage_nodes entry = 0)
      then Some (MkWriteResp 0 (- ENODEV) "No storage nodes available", s)
      else
        let original_size := size entry in
        let write_offset := write_position (Proto.write_offset req) entry in
        ids ← replica_ids entry;
        '(success_count, bytes_written, st) ←
          write_replicas (fe_writes e) 0 ids (file_id entry) write_offset bytes 0 0 (g_storage s);
        let s1 := MkFrontend (g_paxos s) (g_metadata s) st in
        if decide (quorum_required entry <= success_count) then
          '(committed, s2) ← commit_metadata_with_paxos e
             (grown (fe_time e) write_offset (Z.of_nat (length bytes)) entry) s1;
          if (committed : bool) then Some (MkWriteResp (s64 bytes_written) 0 EmptyString, s2)
          else if decide (original_size = 0 /\ write_offset = 0) then
            let entry' := deref (g_metadata s2) a in
            ids' ← replica_ids entry';
            let st' := (delete_replicas (fe_deletes e) 0 ids' (file_id entry') 0 (g_storage s2)).2 in
            Some (MkWriteResp 0 (- EIO)
                    "Write quorum reached but metadata consensus failed (rollback attempted)",
                  MkFrontend (g_paxos s2) (g_metadata s2) st')
          else Some (MkWriteResp 0 (- EIO) "Write quorum reached but metadata consensus failed", s2)
        else Some (MkWriteResp 0 (- EIO) "Write quorum not reached", s1)
  end.

Definition peer_addr (peer_id : Z) : string :=
  ("frontend-" +:+ (pretty peer_id +:+ (":" +:+ pretty (60050 + peer_id))))%string.

(** The first peer that serves the read. *)
Fixpoint forward_get (e : fe_env) (self_id : Z) (req : GetRequest) (peers : list Z)
  : option GetResponse :=
  match peers with
  | [] => None
  | peer_id :: peers' =>
      if decide (peer_id = self_id) then forward_get e self_id req peers'
      else
        match fe_peer e (peer_addr peer_id) req with
        | Some resp => if decide (get_status resp = 0) then Some resp
                       else forward_get e self_id req peers'
        | None => forward_get e self_id req peers'
        end
  end.

Definition fe_Get (e : fe_env) (req : GetRequest) (s : frontend) : option (GetResponse * frontend) :=
  let path := normalize_path (get_pathname req) in
  let offset := get_offset req in
  match metadata_lookup_by_path (g_metadata s) (c_str path) with
  | None =>
      let self_id := default 0 (fe_node_id e) in
      let total_nodes := match fe_total_nodes e with
                         | Some n => if decide (0 < n) then n else 3
                         | None => 3
                         end in
      let forwarded := if fe_no_forward e then None
                       else forward_get e self_id (MkGetReq path offset (get_size req))
                              (seqZ 1 total_nodes) in
      Some (default (MkGetResp [] 0 (- ENOENT) "File not found") forwarded, s)
  | Some a =>
      let entry := deref (g_metadata s) a in
      let sz := u64 (get_size req) in
      let sz := if decide (sz = 0) then
                  if decide (offset < s64 (size entry)) then u64 (size entry - offset) else 0
                else sz in
      if decide (num_storage_nodes entry = 0)
      then Some (MkGetResp [] 0 (- ENODEV) "No storage nodes available", s)
      else
        ids ← replica_ids entry;
        '(quorum_value, st) ← read_replicas (fe_reads e) 0 ids (file_id entry) offset sz
                                (quorum_required entry) ∅ (g_storage s);
        let s1 := MkFrontend (g_paxos s) (g_metadata s) st in
        match quorum_value with
        | Some v => Some (MkGetResp v (Z.of_nat (length v)) 0 EmptyString, s1)
        | None => Some (MkGetResp [] 0 (- EIO) "Read quorum not reached", s1)
        end
  end.

(** The listing built from the hash nodes [nodes]; [seen] are the names already in it. *)
Fixpoint list_entries (g : metadata_manager) (dir : string) (nodes : list (string * nat))
    (seen : gset string) : list FileEntry :=
  match nodes with
  | [] => []
  | node :: nodes' =>
      match child_in g dir node with
      | Some name =>
          if decide (name ∈ seen) then list_entries g dir nodes' seen
          else
            let entry := deref g node.2 in
            MkFileEntry name (S_ISDIR (mode entry)) (s64 (size entry)) (modified_time entry)
            :: list_entries g dir nodes' ({[name]} ∪ seen)
      | None => list_entries g dir nodes' seen
      end
  end.

Definition fe_ReadDirectory (req : ReadDirectoryRequest) (s : frontend)
  : option (ReadDirectoryResponse * frontend) :=
  let g := g_metadata s in
  let path := trim_trailing_slash (normalize_path (readdir_pathname req)) in
  let dir_path := trim_trailing_slash path in
  let list_it := Some (MkReaddirResp (list_entries g dir_path (concat (buckets g)) ∅) 0 EmptyString, s) in
  if decide (dir_path <> "/"%string) then
    match metadata_lookup_by_path g (c_str dir_path) with
    | None => Some (MkReaddirResp [] (- ENOENT) "Directory not found", s)
    | Some a => if negb (S_ISDIR (mode (deref g a)))
                then Some (MkReaddirResp [] (- ENOTDIR) "Not a directory", s) else list_it
    end
  else list_it.

(** A handler as a method of the service; the state is [None] once a call has not
    returned. *)
Definition as_method {E Req Resp} (h : E -> Req -> frontend -> option (Resp * frontend)) (e : E)
    (req : Req) (s : option frontend) : option Resp * option frontend :=
  match s ≫= h e req with
  | Some (resp, s') => (Some resp, Some s')
  | None => (None, None)
  end.

Definition frontend_service : FileSystemService (option frontend) fe_env := {|
  Create := as_method fe_Create;
  Mkdir := as_method fe_Mkdir;
  Remove := as_method fe_Remove;
  Rmdir := as_method fe_Rmdir;
  Write := as_method fe_Write;
  Get := as_method fe_Get;
  ReadDirectory := as_method (fun _ => fe_ReadDirectory);
|}.
