(* ===== verification/FrontendCommit.v ===== *)
(** * The frontend: committing a metadata entry

    What [commit_metadata_with_paxos] promises the handlers, whatever messages the network
    thread handles while the proposer waits. *)

From stdpp Require Import base gmap strings list numbers.
From S2P Require Import Prelude CString Storage Paxos PaxosThm Metadata MetadataThm.
From S2P Require Import MetadataPath Replica Frontend.

#[local] Open Scope Z_scope.

#[export] Instance propose_pc_eq_dec : EqDecision propose_pc.
Proof. solve_decision. Defined.

(** ** Views *)

(** The map after inserting the entries of [l] from the left. *)
Definition view_after (view : string -> option metadata_entry) (l : list metadata_entry)
  : string -> option metadata_entry :=
  foldl (fun w e id => if decide (id = file_id e) then Some e else w id) view l.

Lemma view_after_app view l l' : view_after view (l ++ l') = view_after (view_after view l) l'.
Proof. apply foldl_app. Qed.

Lemma view_after_ext l w w' :
  (forall id, w id = w' id) -> forall id, view_after w l id = view_after w' l id.
Proof.
  revert w w'. induction l as [|e l IH]; intros w w' Hw id; [exact (Hw id) |].
  simpl. apply IH. intros id'. by case_decide.
Qed.

(** An identifier keeps the last entry inserted under it. *)
Lemma view_after_last view l e :
  e ∈ l -> (forall x, x ∈ l -> file_id x = file_id e -> x = e) -> view_after view l (file_id e) = Some e.
Proof.
  revert view. induction l as [|x l IH] using rev_ind; intros view Hin Hu; [by apply elem_of_nil in Hin |].
  rewrite view_after_app. simpl. case_decide as Hid.
  - f_equal. apply Hu; [set_solver | done].
  - apply IH; [| set_solver]. apply elem_of_app in Hin as [?|Hin]; [done |].
    apply list_elem_of_singleton in Hin. congruence.
Qed.

Lemma view_after_other view l id :
  (forall x, x ∈ l -> file_id x <> id) -> view_after view l id = view id.
Proof.
  revert view. induction l as [|x l IH]; intros view Hne; [done |]. simpl.
  rewrite IH by set_solver. case_decide as Hid; [| done]. subst. by destruct (Hne x); [set_solver |].
Qed.

(** ** Schedules *)

(** Memory is available to the callbacks, and every LEARN carries a serialised entry. *)
Definition event_ok (ev : commit_event) : Prop :=
  match ev with
  | Msg cb m => cb_alloc cb = true /\ cb_alloc_node cb = true /\
      (phase m = PAXOS_PHASE_LEARN -> exists x, learns_entry m x)
  | Step _ _ => True
  end.

(** The entries other proposers announce in the schedule. *)
Definition learned (sched : list commit_event) (x : metadata_entry) : Prop :=
  exists cb m, Msg cb m ∈ sched /\ learns_entry m x.

Definition is_accepted_event (ev : commit_event) : Prop :=
  match ev with Msg _ m => phase m = PAXOS_PHASE_ACCEPTED | Step _ _ => False end.

#[export] Instance is_accepted_event_dec ev : Decision (is_accepted_event ev).
Proof. destruct ev; simpl; apply _. Defined.

(** How many ACCEPTED messages arrive. *)
Definition acceptances (sched : list commit_event) : Z :=
  Z.of_nat (length (filter is_accepted_event sched)).

Definition weight (ev : commit_event) : Z := if decide (is_accepted_event ev) then 1 else 0.

Lemma weight_nonneg ev : 0 <= weight ev.
Proof. unfold weight. case_decide; lia. Qed.

Lemma acceptances_cons ev sched : acceptances (ev :: sched) = weight ev + acceptances sched.
Proof. unfold acceptances, weight. rewrite filter_cons. case_decide; simpl; lia. Qed.

Lemma acceptances_nonneg sched : 0 <= acceptances sched.
Proof. unfold acceptances. lia. Qed.

(** ** The slot of the proposal *)

Section Commit.
Context (e : metadata_entry) (v : list Z) (Hv : decode_binding v = Some (file_id e, e)).

Definition slot_holds (p : paxos_proposal) : Prop :=
  in_use p = true /\ p_value p = Some v /\ p_len p = Z.of_nat (length v) /\ 0 <= accept_count p.

(** The node runs at most our proposal, in slot [o]. *)
Record held (o : option nat) (n : paxos_node) : Prop := {
  held_ok : node_ok n;
  held_apply : apply_callback n = true;
  held_only : forall j, in_use (slot n j) = true -> o = Some j;
  held_slot : forall i, o = Some i -> slot_holds (slot n i);
}.

Definition slot_of (pc : propose_pc) : option nat :=
  match pc with
  | PPrepare i _ _ | PWaitPromise i _ _ | PAccept i _ _ | PPersist i _ _ | PPersisted i _ _
  | PCount i _ _ | PBroadcast i _ _ | PWaitCommit i _ _ => Some i
  | _ => None
  end.

(** Committed, and how many acceptances are counted, our own included. *)
Definition flag (o : option nat) (n : paxos_node) : bool :=
  from_option (fun i => committed (slot n i)) false o.

Definition count (o : option nat) (n : paxos_node) : Z :=
  from_option (fun i => Z.max 1 (accept_count (slot n i))) 1 o.

Lemma held_frame o n n' :
  held o n -> active_proposals n' = active_proposals n -> max_proposals n' = max_proposals n ->
  apply_callback n' = apply_callback n ->
  held o n' /\ flag o n' = flag o n /\ count o n' = count o n.
Proof.
  intros [Hok Ha Honly Hsl] Hp Hm Hc. pose proof (slot_eq _ _ Hp) as Hs. split_and!.
  - split; [unfold node_ok in *; congruence | congruence | |];
      [intros j; rewrite Hs; apply Honly | intros i; rewrite Hs; apply Hsl].
  - destruct o; [| done]. simpl. by rewrite Hs.
  - destruct o; [| done]. simpl. by rewrite Hs.
Qed.

Lemma held_upd i n f :
  held (Some i) n -> active_proposals n !! i <> None ->
  (forall p, slot_holds p -> slot_holds (f p)) -> (forall p, in_use (f p) = in_use p) ->
  held (Some i) (upd_slot i f n) /\ slot (upd_slot i f n) i = f (slot n i).
Proof.
  intros [Hok Ha Honly Hsl] Hi Hf Hu.
  assert (Hs : forall j, slot (upd_slot i f n) j = if decide (j = i) then f (slot n i) else slot n j)
    by (intros j; by apply slot_upd).
  split; [| by rewrite Hs, decide_True]. split; [| done | |].
  - unfold node_ok in *. simpl. by rewrite length_alter.
  - intros j. rewrite Hs. case_decide as Hj; [by subst | apply Honly].
  - intros k [= <-]. rewrite Hs, decide_True by done. by apply Hf, Hsl.
Qed.

Lemma find_held o n pid k :
  held o n -> find_proposal n pid = Some k ->
  o = Some k /\ active_proposals n !! k <> None.
Proof.
  intros Hh Hk%find_proposal_Some. split; [apply (held_only _ _ Hh), Hk |].
  by rewrite (active_lookup _ _ _ Hk).
Qed.

(** ** The callbacks *)

Lemma persist_same_map cb bs len g rc g' :
  persist_wal cb bs len g = Some (rc, g') -> same_map g g'.
Proof.
  unfold persist_wal. destruct bs as [bs|]; [| by intros [= _ <-]]. case_decide; [by intros [= _ <-] |].
  destruct (metadata_deserialize _ _) as [[rc0 [x|]]|]; [| by intros [= _ <-] | done].
  destruct (wal_append _ _ _ _) as [lsn g1] eqn:Hw. intros [= _ <-]. by eapply append_same_map.
Qed.

Lemma persist_keeps cb bs len g rc g' :
  persist_wal cb bs len g = Some (rc, g') -> map_ok g ->
  map_ok g' /\ forall id, entry_at g' id = entry_at g id.
Proof.
  intros Hs%persist_same_map Hok. split; [by eapply same_map_map_ok |]. intros id. by apply same_map_at.
Qed.

Lemma run_persist cb seq bs len g g' :
  run_effects (M := metadata_machine) cb [Persist seq bs len] g = Some g' -> map_ok g ->
  map_ok g' /\ forall id, entry_at g' id = entry_at g id.
Proof.
  cbn [run_effects sm_persist metadata_machine].
  destruct (persist_wal cb bs len g) as [[rc g1]|] eqn:Hp; [| done]. intros [= <-]. by eapply persist_keeps.
Qed.

Lemma apply_keeps cb bs k x g g' :
  cb_alloc cb = true -> cb_alloc_node cb = true -> map_ok g -> decode_binding bs = Some (k, x) ->
  apply_state_machine cb (Some bs) (Z.of_nat (length bs)) g = Some g' ->
  map_ok g' /\ forall id, entry_at g' id = view_after (entry_at g) [x] id.
Proof.
  intros H1 H2 Hok Hd. apply decode_binding_Some in Hd as (-> & Hl & Hne & rc & Hd).
  unfold apply_state_machine. rewrite decide_False by (destruct bs; [done | simpl; lia]).
  rewrite Nat2Z.id, take_ge, H1, H2, Hd by done. intros [= <-].
  split; [by apply apply_map_ok |]. apply (apply_entry_refines x g (map_mgr_ok _ Hok) Hl).
Qed.

(** ** One event *)

(** What one event does: the map changes by the entries [l]. *)
Definition advances (o o' : option nat) (n n' : paxos_node) (g g' : metadata_manager)
    (l : list metadata_entry) : Prop :=
  held o' n' /\ map_ok g' /\ quorum_size n' = quorum_size n /\
  forall id, entry_at g' id = view_after (entry_at g) l id.

Lemma learn_effects cb m x b n g g' :
  event_ok (Msg cb m) -> learns_entry m x -> apply_callback n = true -> map_ok g ->
  run_effects (M := metadata_machine) cb
    ((if (b : bool) then [Persist (sequence_number m) (value m) (value_len m)] else []) ++
     (if apply_callback n then [Apply (sequence_number m) (value m) (value_len m)] else [])) g = Some g' ->
  map_ok g' /\ forall id, entry_at g' id = view_after (entry_at g) [x] id.
Proof.
  intros (Hc1 & Hc2 & _) (_ & Hx & Hval & Hlen) Ha Hok. rewrite Ha, Hval, Hlen.
  pose proof (decode_serialize_binding x Hx) as Hd. revert Hd. generalize (metadata_serialize x).
  intros bs Hd. destruct b; cbn [app run_effects sm_persist sm_apply metadata_machine].
  - destruct (persist_wal _ _ _ _) as [[rc g1]|] eqn:Hp; [| done].
    destruct (persist_keeps _ _ _ _ _ _ Hp Hok) as [Hok1 Hv1].
    destruct (apply_state_machine _ _ _ _) as [g2|] eqn:Hap; [| done]. intros [= <-].
    destruct (apply_keeps _ _ _ _ _ _ Hc1 Hc2 Hok1 Hd Hap) as [Hok2 Hv2]. split; [done |].
    intros id. rewrite Hv2. by apply view_after_ext.
  - destruct (apply_state_machine _ _ _ _) as [g2|] eqn:Hap; [| done]. intros [= <-].
    by eapply apply_keeps.
Qed.

(** The handler of ACCEPTED applies our entry exactly when it completes our proposal. *)
Lemma accepted_step o cb m n g g' :
  held o n -> map_ok g -> event_ok (Msg cb m) -> phase m = PAXOS_PHASE_ACCEPTED ->
  run_effects (M := metadata_machine) cb (handle_accepted n m).2 g = Some g' ->
  let n' := (handle_accepted n m).1.2 in
  exists l, advances o o n n' g g' l /\
    (l = [] /\ flag o n' = flag o n /\ count o n' <= count o n + 1 \/
     l = [e] /\ flag o n' = true /\ quorum_size n <= count o n + 1).
Proof.
  intros Hh Hok (Hc1 & Hc2 & _) _. unfold handle_accepted.
  destruct (find_proposal n (proposal_id m)) as [k|] eqn:Hk; cbn [fst snd].
  2:{ intros [= <-]. exists []. split; [by split_and! |]. left. split_and!; [done .. | lia]. }
  destruct (find_held _ _ _ _ Hh Hk) as [-> Hlk].
  destruct (held_upd k n add_accept Hh Hlk) as [Hh1 Hs1].
  { intros p (? & ? & ? & ?). split_and!; [done | done | done |]. apply Z.mod_pos_bound. lia. }
  { done. }
  pose proof (held_slot _ _ Hh k eq_refl) as (_ & _ & _ & Hac).
  assert (Hle : accept_count (slot (upd_slot k add_accept n) k) <= accept_count (slot n k) + 1).
  { rewrite Hs1. cbn [add_accept accept_count]. apply Z.mod_le; lia. }
  destruct (paxos_check_quorum n _) eqn:Hq; cbn [fst snd].
  - assert (Hlk1 : active_proposals (upd_slot k add_accept n) !! k <> None).
    { unfold upd_slot. simpl. rewrite list_lookup_alter_eq. by destruct (active_proposals n !! k). }
    destruct (held_upd k (upd_slot k add_accept n) mark_committed Hh1 Hlk1) as [Hh2 Hs2];
      [by intros p (? & ? & ? & ?) | done |].
    rewrite (held_apply _ _ Hh). pose proof (held_slot _ _ Hh1 k eq_refl) as (_ & -> & -> & _).
    intros Hrun. exists [e].
    assert (Hg : map_ok g' /\ forall id, entry_at g' id = view_after (entry_at g) [e] id).
    { revert Hrun. cbn [app run_effects sm_apply metadata_machine].
      destruct (apply_state_machine _ _ _ _) as [g1|] eqn:Hap; [| done].
      destruct (broadcast_callback n); intros [= <-]; by eapply apply_keeps. }
    assert (Hcase : forall b : bool, let n3 := if b then set_committed_seq (sequence_number m)
          (upd_slot k mark_committed (upd_slot k add_accept n))
        else upd_slot k mark_committed (upd_slot k add_accept n) in
      held (Some k) n3 /\ flag (Some k) n3 = true /\ quorum_size n3 = quorum_size n).
    { intros b. destruct (held_frame (Some k) _ (if b then set_committed_seq (sequence_number m)
          (upd_slot k mark_committed (upd_slot k add_accept n))
        else upd_slot k mark_committed (upd_slot k add_accept n)) Hh2) as (? & Hf & _);
        [by destruct b .. |]. split_and!; [done | | by destruct b].
      rewrite Hf. cbn [flag from_option]. by rewrite Hs2. }
    specialize (Hcase (bool_decide (highest_sequence_committed n < sequence_number m))).
    destruct Hg as [? ?], Hcase as (? & ? & ?).
    destruct (decide (highest_sequence_committed n < sequence_number m)) as [Hd|Hd];
      [rewrite bool_decide_eq_true_2 in * by done | rewrite bool_decide_eq_false_2 in * by done];
      (split; [by split_and! |]; right; split_and!; try done;
       apply bool_decide_eq_true in Hq; cbn [count from_option]; lia).
  - intros [= <-]. exists []. split; [by split_and! |]. left.
    cbn [flag count from_option]. split_and!; [done | by rewrite Hs1 | lia].
Qed.

#[local] Ltac returned := cbn [run_effects]; intros [= <- <-].

Lemma msg_step o cb m n g n' g' :
  held o n -> map_ok g -> event_ok (Msg cb m) ->
  replica_step (M := metadata_machine) cb m (n, g) = Some (n', g') ->
  exists l, advances o o n n' g g' l /\
    (Forall (learns_entry m) l /\ flag o n' = flag o n /\
       count o n' <= count o n + weight (Msg cb m) \/
     l = [e] /\ is_accepted_event (Msg cb m) /\ flag o n' = true /\ quorum_size n <= count o n + 1).
Proof.
  intros Hh Hok Hev. unfold replica_step. cbn [fst snd]. set (rc := match _ with Some _ => _ | None => _ end).
  pose proof (weight_nonneg (Msg cb m)) as Hw.
  assert (Hquiet : forall n1 : paxos_node, active_proposals n1 = active_proposals n ->
    max_proposals n1 = max_proposals n -> apply_callback n1 = apply_callback n ->
    quorum_size n1 = quorum_size n -> forall g1, (map_ok g1 /\ forall id, entry_at g1 id = entry_at g id) ->
    exists l, advances o o n n1 g g1 l /\
    (Forall (learns_entry m) l /\ flag o n1 = flag o n /\
       count o n1 <= count o n + weight (Msg cb m) \/
     l = [e] /\ is_accepted_event (Msg cb m) /\ flag o n1 = true /\ quorum_size n <= count o n + 1)).
  { intros n1 H1 H2 H3 H4 g1 [Hok1 Hv1]. destruct (held_frame o n n1 Hh H1 H2 H3) as (Hh1 & Hf & Hc).
    exists []. split; [by split_and! |]. left. split_and!; [done | done | lia]. }
  unfold paxos_handle_message.
  destruct (decide (phase m = PAXOS_PHASE_PREPARE)).
  { unfold handle_prepare. case_decide; returned; by apply Hquiet. }
  destruct (decide (phase m = PAXOS_PHASE_PROMISE)) as [Hph|].
  { unfold handle_promise. destruct (find_proposal n (proposal_id m)) as [k|] eqn:Hk;
      returned; [| by apply Hquiet].
    destruct (find_held _ _ _ _ Hh Hk) as [-> Hlk].
    destruct (held_upd k n add_promise Hh Hlk) as [Hh1 Hs1]; [by intros p (? & ? & ? & ?) | done |].
    exists []. split; [by split_and! |]. left. cbn [flag count from_option]. rewrite Hs1.
    split_and!; [done | done |]. simpl. lia. }
  destruct (decide (phase m = PAXOS_PHASE_ACCEPT)).
  { unfold handle_accept. case_decide; [| returned; by apply Hquiet].
    destruct (_ && _); [| returned; by apply Hquiet].
    destruct (decide (rc <> 0)); destruct (run_effects (M := metadata_machine) cb _ g) as [g1|] eqn:Hr; try done;
      returned; (apply Hquiet; [done .. | by eapply run_persist]). }
  destruct (decide (phase m = PAXOS_PHASE_ACCEPTED)) as [Hph|].
  { destruct (run_effects (M := metadata_machine) cb (handle_accepted n m).2 g) as [g1|] eqn:Hr.
    - pose proof (accepted_step o cb m n g g1 Hh Hok Hev Hph Hr) as (l & Hadv & Hl).
      destruct (handle_accepted n m) as [[[rc1 resp1] nd] eff1]. cbn [fst snd] in *. rewrite Hr.
      returned. exists l. split; [done |]. unfold weight. rewrite decide_True by done.
      destruct Hl as [(-> & ? & ?)|(-> & ? & ?)]; [left | right]; split_and!; try done.
    - destruct (handle_accepted n m) as [[[rc1 resp1] nd] eff1]. cbn [fst snd] in *. by rewrite Hr. }
  destruct (decide (phase m = PAXOS_PHASE_LEARN)) as [Hph|]; [| returned; by apply Hquiet].
  unfold handle_learn. case_decide; [| returned; by apply Hquiet].
  pose proof Hev as (_ & _ & Hle). destruct (Hle Hph) as [x Hx].
  destruct (run_effects (M := metadata_machine) cb _ g) as [g1|] eqn:Hr; [| done]. returned.
  destruct (learn_effects _ _ _ _ _ _ _ Hev Hx (held_apply _ _ Hh) Hok Hr) as [Hok1 Hv1].
  destruct (held_frame o n (set_committed_seq (sequence_number m)
      (if persist_callback n && bool_decide (highest_sequence_persisted n < sequence_number m)
       then set_persisted (sequence_number m) n else n)) Hh) as (Hh1 & Hf & Hc);
    [by destruct (_ && _) .. |].
  exists [x]. split; [split_and!; [done | done | by destruct (_ && _) | done] |].
  left. split_and!; [by constructor | done |]. lia.
Qed.

Lemma held_in i n : held (Some i) n -> active_proposals n !! i <> None.
Proof.
  intros Hh Hn. destruct (held_slot _ _ Hh i eq_refl) as (Hu & _). revert Hu. unfold slot. by rewrite Hn.
Qed.

Lemma held_release i n : held (Some i) n -> held None (upd_slot i paxos_release_proposal_slot n).
Proof.
  intros Hh. pose proof (held_in _ _ Hh) as Hi. destruct Hh as [Hok Ha Honly _].
  split; [| done | | done].
  - unfold node_ok in *. simpl. by rewrite length_alter.
  - intros j. rewrite slot_upd by done. case_decide as Hj; [done |]. intros [=]%Honly. congruence.
Qed.

Lemma held_claim i n f :
  held None n -> active_proposals n !! i <> None ->
  (in_use (f (slot n i)) = true -> slot_holds (f (slot n i))) ->
  held (if in_use (f (slot n i)) then Some i else None) (upd_slot i f n).
Proof.
  intros [Hok Ha Honly _] Hi Hf. split; [| done | |].
  - unfold node_ok in *. simpl. by rewrite length_alter.
  - intros j. rewrite slot_upd by done. case_decide as Hj; [by subst; intros -> |].
    by intros [=]%Honly.
  - intros j. destruct (in_use _) eqn:Hu; [| done]. intros [= <-].
    rewrite slot_upd, decide_True by done. by apply Hf.
Qed.

(** What a step of the proposer itself leaves behind. *)
Definition own_result (pc pc' : propose_pc) (n n' : paxos_node) (g g' : metadata_manager) : Prop :=
  advances (slot_of pc) (slot_of pc') n n' g g' [] /\
  count (slot_of pc') n' <= count (slot_of pc) n /\
  match pc' with
  | PDone rc => rc = 0 -> flag (slot_of pc) n = true
  | _ => flag (slot_of pc') n' = flag (slot_of pc) n
  end.

Lemma own_frame pc pc' n n' g g' :
  held (slot_of pc) n -> (map_ok g' /\ forall id, entry_at g' id = entry_at g id) ->
  slot_of pc' = slot_of pc -> (forall rc, pc' = PDone rc -> rc = -1) ->
  active_proposals n' = active_proposals n -> max_proposals n' = max_proposals n ->
  apply_callback n' = apply_callback n -> quorum_size n' = quorum_size n ->
  own_result pc pc' n n' g g'.
Proof.
  intros Hh [Hok Hg] Ho Hrc H1 H2 H3 H4. destruct (held_frame _ _ _ Hh H1 H2 H3) as (Hh' & Hf & Hc).
  unfold own_result. rewrite Ho. split_and!; [by split_and! | lia |].
  destruct pc'; try done. intros ->. by discriminate (Hrc 0 eq_refl).
Qed.

Lemma own_release i pc rc n g g' :
  slot_of pc = Some i -> held (Some i) n -> (map_ok g' /\ forall id, entry_at g' id = entry_at g id) ->
  (rc = 0 -> committed (slot n i) = true) ->
  own_result pc (PDone rc) n (upd_slot i paxos_release_proposal_slot n) g g'.
Proof.
  intros Ho Hh [Hok Hg] Hrc. unfold own_result. rewrite Ho.
  split_and!; [split_and!; [by apply held_release | done ..] | simpl; lia | done].
Qed.

Lemma own_step ob cb pc n g pc' n' eff g' :
  (forall rc, pc <> PDone rc) -> held (slot_of pc) n -> map_ok g ->
  propose_step ob v pc n = (pc', n', eff) ->
  run_effects (M := metadata_machine) cb eff g = Some g' -> own_result pc pc' n n' g g'.
Proof.
  intros Hpc Hh Hok. assert (Hsame : map_ok g /\ forall id, entry_at g id = entry_at g id) by done.
  destruct pc as [|pid|pid seq|i pid seq|i pid seq|i pid seq|i pid seq|i pid seq|i pid seq|i pid seq
                 |i pid seq|rc]; cbn [propose_step slot_of] in *.
  - case_decide; [intros [= <- <- <-] [= <-]; (apply own_frame; try done; by intros ? [= <-]) |].
    destruct (broadcast_callback n); cbn [negb].
    + intros [= <- <- <-] [= <-]. by apply own_frame.
    + intros [= <- <- <-] [= <-]. (apply own_frame; try done; by intros ? [= <-]).
  - intros [= <- <- <-] [= <-]. by apply own_frame.
  - destruct (first_idx _ _ _) as [i|] eqn:Hi.
    + apply first_idx_Some in Hi as (p & Hp & _). assert (Hne : active_proposals n !! i <> None) by (by rewrite Hp).
      destruct (malloc_ok ob); intros [= <- <- <-] [= <-].
      * pose proof (held_claim i n (claim_slot pid seq v) Hh Hne) as Hc.
        cbn [claim_slot in_use] in Hc. unfold own_result. cbn [slot_of flag count from_option].
        rewrite slot_upd, decide_True by done. split_and!; [split_and!; [apply Hc | done ..] | simpl; lia | done].
        by intros _.
      * pose proof (held_claim i n (abandon_slot pid seq) Hh Hne) as Hc.
        cbn [abandon_slot in_use] in Hc. unfold own_result. cbn [slot_of].
        split_and!; [split_and!; [by apply Hc | done ..] | simpl; lia | done].
    + intros [= <- <- <-] [= <-]. (apply own_frame; try done; by intros ? [= <-]).
  - case_decide; intros [= <- <- <-] [= <-]; [by apply own_release | by apply own_frame].
  - unfold paxos_wait_for_condition.
    destruct (match woken ob with Woken => _ | _ => _ end) as [rc|]; [case_decide |];
      intros [= <- <- <-] [= <-]; [by apply own_release | by apply own_frame ..].
  - intros [= <- <- <-] [= <-]. apply own_frame; try done; by case_decide.
  - destruct (persist_callback n); [case_decide |]; intros [= <- <- <-] Hr.
    + apply run_persist in Hr; [| done]. by apply own_release.
    + apply run_persist in Hr; [| done]. by apply own_frame.
    + injection Hr as <-. by apply own_frame.
  - intros [= <- <- <-] [= <-]. apply own_frame; try done; by case_decide.
  - intros [= <- <- <-] [= <-]. pose proof (held_in _ _ Hh) as Hi.
    destruct (held_upd i n count_self Hh Hi) as [Hh' Hs]; [by intros p (? & ? & ? & ?) | done |].
    unfold own_result. cbn [slot_of flag count from_option]. rewrite Hs. cbn [count_self accept_count committed].
    split_and!; [by split_and! | lia | done].
  - case_decide; intros [= <- <- <-] [= <-]; [by apply own_release | by apply own_frame].
  - destruct (paxos_wait_for_condition _ _ _ _) as [rc|]; intros [= <- <- <-] [= <-]; [| by apply own_frame].
    apply own_release; try done. by case_decide as Hd; [intros _; apply Hd |].
  - by destruct (Hpc rc).
Qed.

(** ** The whole proposal *)

(** How a proposal at [pc] that returns [rc] leaves the map: the entries [l] have been
    inserted, ours among them if [rc] is 0, ours not if the acceptances fall short. *)
Definition outcome (sched : list commit_event) (pc : propose_pc) (n : paxos_node)
    (g : metadata_manager) (rc : Z) (n' : paxos_node) (g' : metadata_manager) : Prop :=
  held None n' /\ map_ok g' /\ quorum_size n' = quorum_size n /\
  exists l, (forall id, entry_at g' id = view_after (entry_at g) l id) /\
    Forall (fun x => x = e \/ learned sched x) l /\
    (rc = 0 -> flag (slot_of pc) n = true \/ e ∈ l) /\
    (count (slot_of pc) n + acceptances sched < quorum_size n -> flag (slot_of pc) n = false ->
     rc <> 0 /\ Forall (learned sched) l).

Lemma outcome_done sched rc n g :
  held None n -> map_ok g -> rc <> 0 -> outcome sched (PDone rc) n g rc n g.
Proof. intros Hh Hok Hrc. split_and!; try done. exists []. by split_and!. Qed.

Lemma learned_cons ev sched x : learned sched x -> learned (ev :: sched) x.
Proof. intros (cb & m & Hin & Hx). exists cb, m. split; [by constructor | done]. Qed.

Lemma learned_here cb m sched x : learns_entry m x -> learned (Msg cb m :: sched) x.
Proof. intros Hx. exists cb, m. split; [by constructor | done]. Qed.

#[local] Hint Resolve learned_cons learned_here : core.

Lemma outcome_msg sched cb m pc n g n1 g1 rc n' g' :
  held (slot_of pc) n -> map_ok g -> event_ok (Msg cb m) ->
  replica_step (M := metadata_machine) cb m (n, g) = Some (n1, g1) ->
  (held (slot_of pc) n1 -> map_ok g1 -> outcome sched pc n1 g1 rc n' g') ->
  outcome (Msg cb m :: sched) pc n g rc n' g'.
Proof.
  intros Hh Hok Hev Hst IH.
  destruct (msg_step _ _ _ _ _ _ _ Hh Hok Hev Hst) as (l1 & (Hh1 & Hok1 & Hq1 & Hv1) & Hl1).
  destruct (IH Hh1 Hok1) as (Hh2 & Hok2 & Hq2 & l2 & Hv2 & Hl2 & Hrc & Hno).
  split_and!; [done | done | congruence |]. exists (l1 ++ l2). rewrite acceptances_cons. split_and!.
  - intros id. rewrite Hv2, view_after_app. by apply view_after_ext.
  - apply list.Forall_app. split; [| eapply list.Forall_impl; [exact Hl2 | naive_solver]].
    destruct Hl1 as [(Hl1 & _)|(-> & _)]; [eapply list.Forall_impl; [exact Hl1 | naive_solver] |].
    by constructor; [left |].
  - intros H0. destruct (Hrc H0) as [Hf|Hf]; [| by right; apply elem_of_app; right].
    destruct Hl1 as [(_ & Hfl & _)|(-> & _)]; [left; congruence | right; set_solver].
  - intros Hlt Hf. pose proof (acceptances_nonneg sched).
    destruct Hl1 as [(Hl1 & Hfl & Hc)|(_ & Hacc & _ & Hq)].
    + destruct Hno as [Hne Hno]; [rewrite Hq1; lia | congruence |]. split; [done |].
      apply list.Forall_app. split; (eapply list.Forall_impl; [eassumption | simpl; eauto]).
    + unfold weight in Hlt. rewrite decide_True in Hlt by done. lia.
Qed.

Lemma outcome_own sched ev pc pc1 n g n1 g1 rc n' g' :
  own_result pc pc1 n n1 g g1 -> (pc1 = PDone 0 -> rc = 0 /\ n' = n1 /\ g' = g1) ->
  (pc1 <> PDone 0 -> held (slot_of pc1) n1 -> map_ok g1 -> outcome sched pc1 n1 g1 rc n' g') ->
  outcome (ev :: sched) pc n g rc n' g'.
Proof.
  intros ((Hh1 & Hok1 & Hq1 & Hv1) & Hc & Hfl) Hdone IH.
  destruct (decide (pc1 = PDone 0)) as [->|Hne0].
  - destruct (Hdone eq_refl) as (-> & -> & ->). split_and!; try done. exists []. split_and!; try done.
    + intros _. left. by apply Hfl.
    + intros _ Hf. rewrite (Hfl eq_refl) in Hf. discriminate.
  - destruct (IH Hne0 Hh1 Hok1) as (Hh2 & Hok2 & Hq2 & l2 & Hv2 & Hl2 & Hrc & Hno).
    split_and!; [done | done | congruence |]. exists l2. rewrite acceptances_cons.
    assert (Hfl' : flag (slot_of pc1) n1 = true -> flag (slot_of pc) n = true)
      by (destruct pc1; simpl in *; congruence).
    split_and!.
    + intros id. rewrite Hv2. by apply view_after_ext.
    + eapply list.Forall_impl; [exact Hl2 | naive_solver].
    + intros H0. destruct (Hrc H0); [left | right]; auto.
    + intros Hlt Hf. pose proof (weight_nonneg ev). destruct Hno as [? Hno]; [rewrite Hq1; lia | |].
      { destruct (flag (slot_of pc1) n1); [| done]. by rewrite Hfl' in Hf. }
      split; [done |]. eapply list.Forall_impl; [exact Hno | simpl; eauto].
Qed.

Lemma propose_done sched rc r : propose_with sched v (PDone rc) r = Some (rc, r).
Proof. by destruct sched. Qed.

Lemma propose_spec sched pc n g rc n' g' :
  Forall event_ok sched -> held (slot_of pc) n -> map_ok g -> pc <> PDone 0 ->
  propose_with sched v pc (n, g) = Some (rc, (n', g')) -> outcome sched pc n g rc n' g'.
Proof.
  intros Hev. revert pc n g. induction Hev as [|ev sched Hev _ IH]; intros pc n g Hh Hok Hpc0 Hrun.
  { destruct pc; try discriminate. injection Hrun as <- <- <-. apply outcome_done; [done | done | by intros ->]. }
  assert (Hdone : (exists rc0, pc = PDone rc0) \/ forall rc0, pc <> PDone rc0)
    by (destruct pc; [right; discriminate .. | left; eauto]).
  destruct Hdone as [[rc0 ->]|Hpc].
  { injection Hrun as <- <- <-. apply outcome_done; [done | done | by intros ->]. }
  destruct ev as [cb m|ob cb].
  - assert (Hrun' : (r' ← replica_step (M := metadata_machine) cb m (n, g);
      propose_with sched v pc r') = Some (rc, (n', g'))) by (destruct pc; try done; by edestruct Hpc).
    apply bind_Some in Hrun' as ([n1 g1] & Hst & Hrun1).
    eapply outcome_msg; [done | done | done | exact Hst |]. intros. by apply IH.
  - set (prc := match persist_wal cb (Some v) (Z.of_nat (length v)) g with Some (rc, _) => rc | None => -1 end).
    set (ob' := MkObs (malloc_ok ob) prc (broadcast_rc ob) (woken ob)).
    assert (Hrun' : (let '(pc', n1, eff) := propose_step ob' v pc n in
      g1 ← run_effects (M := metadata_machine) cb eff g; propose_with sched v pc' (n1, g1))
      = Some (rc, (n', g'))) by (destruct pc; try done; by edestruct Hpc).
    destruct (propose_step ob' v pc n) as [[pc1 n1] eff] eqn:Hst.
    apply bind_Some in Hrun' as (g1 & Heff & Hrun1).
    apply (outcome_own sched _ pc pc1 n g n1 g1); [by eapply own_step | | intros; by apply IH].
    intros ->. rewrite propose_done in Hrun1. by injection Hrun1 as <- <- <-.
Qed.

End Commit.

(** ** Theorem *)

(** No proposal is in progress and committed values are applied. *)
Record idle (n : paxos_node) : Prop := {
  idle_ok : node_ok n;
  idle_apply : apply_callback n = true;
  idle_free : forall j, in_use (slot n j) = false;
}.

Lemma idle_held v n : idle n <-> held v None n.
Proof.
  split; intros [H1 H2 H3]; split; try done.
  - intros j Hj. by rewrite H3 in Hj.
  - intros j. destruct (in_use (slot n j)) eqn:Hj; [| done]. by apply H3 in Hj.
Qed.

Record frontend_ok (s : frontend) : Prop := {
  fok_paxos : idle (g_paxos s);
  fok_map : map_ok (g_metadata s);
}.

(** The map of the process. *)
Definition view (s : frontend) : string -> option metadata_entry := entry_at (g_metadata s).

Lemma commit_ok env e s b s' :
  entry_ok e -> frontend_ok s -> Forall event_ok (fe_schedule env) ->
  commit_metadata_with_paxos env e s = Some (b, s') ->
  frontend_ok s' /\ g_storage s' = g_storage s /\ quorum_size (g_paxos s') = quorum_size (g_paxos s) /\
  exists l, (forall id, view s' id = view_after (view s) l id) /\
    Forall (fun x => x = e \/ learned (fe_schedule env) x) l /\
    (b = true -> e ∈ l) /\
    (1 + acceptances (fe_schedule env) < quorum_size (g_paxos s) ->
     b = false /\ Forall (learned (fe_schedule env)) l).
Proof.
  intros He Hok Hev. unfold commit_metadata_with_paxos.
  destruct (fe_serialize_ok env); cbn [negb].
  2:{ intros [= <- <-]. split_and!; try done. exists []. by split_and!. }
  pose proof (decode_serialize_binding e He) as Hv. revert Hv. generalize (metadata_serialize e).
  intros v Hv ([rc [n g]] & Hrun & [= <- <-])%bind_Some.
  apply (propose_spec e v Hv) in Hrun; [| done | by apply idle_held, Hok | apply Hok | done].
  destruct Hrun as (Hh & Hok' & Hq & l & Hl & Hin & Hrc & Hno).
  split_and!; [split; [by eapply idle_held | done] | done | done |].
  exists l. split_and!; try done.
  - intros ->%bool_decide_eq_true. by destruct (Hrc eq_refl).
  - intros Hlt. destruct Hno as [Hne ?]; [done | done |]. split; [by apply bool_decide_eq_false | done].
Qed.

(** C5: committing through Paxos. Whatever messages the node handles meanwhile, if
    [commit_metadata_with_paxos] returns true then the entry has been applied to the map of
    this process; if fewer acceptances arrive than a quorum needs then it returns false
    and the map has only changed by entries other proposers announced. In both cases no
    slot stays in use and the storage interface is untouched. The callbacks find memory and
    LEARN messages carry serialised entries ([event_ok]). *)
Theorem frontend_commit_spec env e s b s' :
  entry_ok e -> frontend_ok s -> Forall event_ok (fe_schedule env) ->
  commit_metadata_with_paxos env e s = Some (b, s') ->
  frontend_ok s' /\ g_storage s' = g_storage s /\ quorum_size (g_paxos s') = quorum_size (g_paxos s) /\
  exists l, (forall id, view s' id = view_after (view s) l id) /\
    Forall (fun x => x = e \/ learned (fe_schedule env) x) l /\
    (b = true -> e ∈ l) /\
    (1 + acceptances (fe_schedule env) < quorum_size (g_paxos s) ->
     b = false /\ Forall (learned (fe_schedule env)) l).
Proof. apply commit_ok. Qed.

(** ** Schedules without announcements *)

(** No other proposer's entry is announced. *)
Definition undisturbed (sched : list commit_event) : Prop := forall x, ~ learned sched x.

(** Then the entry is the only thing that can change. *)
Lemma commit_alone env e s b s' :
  entry_ok e -> frontend_ok s -> Forall event_ok (fe_schedule env) -> undisturbed (fe_schedule env) ->
  commit_metadata_with_paxos env e s = Some (b, s') ->
  frontend_ok s' /\ g_storage s' = g_storage s /\
  ((forall id, view s' id = if decide (id = file_id e) then Some e else view s id) \/
   b = false /\ forall id, view s' id = view s id) /\
  (1 + acceptances (fe_schedule env) < quorum_size (g_paxos s) -> forall id, view s' id = view s id).
Proof.
  intros He Hok Hev Hun Hc. destruct (commit_ok _ _ _ _ _ He Hok Hev Hc) as (? & ? & _ & l & Hl & Hin & Hb & Hno).
  rewrite list.Forall_forall in Hin.
  assert (Hle : forall x, x ∈ l -> x = e) by (intros x Hx; by destruct (Hin x Hx) as [|?%Hun]).
  split_and!; try done.
  - destruct (decide (l = [])) as [->|Hne].
    + right. split; [| done]. destruct b; [| done]. by apply elem_of_nil in Hb.
    + left. assert (e ∈ l).
      { destruct l as [|x l]; [done |]. rewrite <- (Hle x); constructor. }
      intros id. rewrite Hl. case_decide as Hid; subst.
      * apply view_after_last; [done |]. intros x Hx _. by apply Hle.
      * apply view_after_other. intros x Hx. rewrite (Hle x Hx). congruence.
  - intros Hlt id. rewrite Hl. apply view_after_other. intros x Hx.
    destruct (Hno Hlt) as [_ Hall]. rewrite list.Forall_forall in Hall. by apply Hall, Hun in Hx.
Qed.

(** ** What the callbacks keep *)

(** A property of the manager that appending to the log and applying an entry keep is kept
    by everything that happens during a proposal. *)
Section Kept.
Context (P : metadata_manager -> Prop).
Context (P_append : forall io op e g, P g -> P (wal_append io op e g).2).
Context (P_apply : forall ok e g, P g -> P (metadata_apply_entry ok e g).2).

Lemma persist_kept cb v len g rc g' : P g -> persist_wal cb v len g = Some (rc, g') -> P g'.
Proof.
  intros Hg. unfold persist_wal. destruct v as [bs|]; [| by intros [= _ <-]]. case_decide; [by intros [= _ <-] |].
  destruct (metadata_deserialize _ _) as [[rc0 [x|]]|]; [| by intros [= _ <-] | done].
  pose proof (P_append (cb_io cb) WAL_OP_UPDATE x g Hg) as Ha.
  destruct (wal_append _ _ _ _) as [lsn g1]. by intros [= _ <-].
Qed.

Lemma apply_kept cb v len g g' : P g -> apply_state_machine cb v len g = Some g' -> P g'.
Proof.
  intros Hg. unfold apply_state_machine. destruct v as [bs|]; [| by intros [= <-]].
  case_decide; [by intros [= <-] |]. destruct (metadata_deserialize _ _) as [[rc [x|]]|]; [| by intros [= <-] | done].
  intros [= <-]. by apply P_apply.
Qed.

Lemma effects_kept cb eff g g' :
  P g -> run_effects (M := metadata_machine) cb eff g = Some g' -> P g'.
Proof.
  revert g. induction eff as [|[s v l|s v l|m] eff IH]; intros g Hg; cbn [run_effects sm_persist sm_apply metadata_machine].
  - by intros [= <-].
  - destruct (persist_wal cb v l g) as [[rc g1]|] eqn:Hp; [| done]. apply IH. by eapply persist_kept.
  - destruct (apply_state_machine cb v l g) as [g1|] eqn:Ha; [| done]. apply IH. by eapply apply_kept.
  - by apply IH.
Qed.

Lemma message_kept cb m n g n' g' :
  P g -> replica_step (M := metadata_machine) cb m (n, g) = Some (n', g') -> P g'.
Proof.
  intros Hg. unfold replica_step. destruct (paxos_handle_message _ _ _) as [[[rc x] n1] eff]. cbn [snd].
  destruct (run_effects _ _ _) as [g1|] eqn:He; [| done]. intros [= _ <-]. by eapply effects_kept.
Qed.

Lemma propose_kept sched v pc n g rc n' g' :
  P g -> propose_with sched v pc (n, g) = Some (rc, (n', g')) -> P g'.
Proof.
  revert pc n g. induction sched as [|[cb m|ob cb] sched IH]; intros pc n g Hg Hp; destruct pc;
    cbn [propose_with] in Hp; try discriminate Hp; try (by injection Hp as _ _ <-).
  all: first
    [ apply bind_Some in Hp as ([n1 g1] & Hr & Hp); eapply IH; [by eapply message_kept | exact Hp]
    | destruct (propose_step _ _ _ _) as [[pc1 n1] eff]; apply bind_Some in Hp as (g1 & Hr & Hp);
      eapply IH; [by eapply effects_kept | exact Hp] ].
Qed.

Lemma commit_kept env e s b s' :
  P (g_metadata s) -> commit_metadata_with_paxos env e s = Some (b, s') -> P (g_metadata s').
Proof.
  intros Hg. unfold commit_metadata_with_paxos. destruct (negb _); [by intros [= _ <-] |].
  intros ([rc [n g]] & Hp & [= _ <-])%bind_Some. by eapply propose_kept.
Qed.

End Kept.

(** Nodes of the hash map stay. *)
Lemma node_kept x env e s b s' :
  x ∈ concat (buckets (g_metadata s)) -> commit_metadata_with_paxos env e s = Some (b, s') ->
  x ∈ concat (buckets (g_metadata s')).
Proof.
  apply (commit_kept (fun g => x ∈ concat (buckets g))).
  - intros io op e0 g Hx. destruct (wal_append io op e0 g) as [lsn g1] eqn:Hw.
    apply append_same_map in Hw as (_ & _ & Hb). cbn [snd]. by rewrite Hb.
  - intros ok e0 g Hx. unfold metadata_apply_entry. destruct (metadata_lookup g (file_id e0)) as [a|]; [done |].
    destruct ok; [| done]. destruct x as [k a]. apply elem_of_buckets in Hx as (i & l & Hi & Hx).
    apply elem_of_buckets. cbn [insert_node buckets snd].
    destruct (decide (Z.to_nat (hash_string (file_id e0)) = i)) as [<-|Hne].
    + pose proof (lookup_lt_Some _ _ _ Hi) as Hlt. eexists _, _. split; [by apply list_lookup_insert_eq |].
      unfold bucket. rewrite (list_lookup_total_correct _ _ _ Hi). by right.
    + exists i, l. by rewrite list_lookup_insert_ne.
Qed.
