(* ===== verification/FrontendPath.v ===== *)
(** * The frontend: paths

    Normal forms of paths, and that joining a name to a directory and recognising a
    directory's child are inverse to each other. *)

From stdpp Require Import base gmap strings list numbers.
From Stdlib Require Import Ascii.
From S2P Require Import Prelude CString Frontend.

#[local] Open Scope Z_scope.

(** ** Single characters *)

Lemma get_take n k p : (k < n)%nat -> String.get k (str_take n p) = String.get k p.
Proof.
  revert k p. induction n as [|n IH]; intros k [|a p] Hk; try done; [lia |].
  destruct k as [|k]; [done |]. simpl. apply IH. lia.
Qed.

Lemma get_app_r p q k : String.get (String.length p + k) (p +:+ q) = String.get k q.
Proof. induction p as [|a p IH]; [done |]. by rewrite str_app_cons. Qed.

Lemma get_str_in c p k : String.get k p = Some c -> str_in c p.
Proof.
  revert k. induction p as [|a p IH]; intros k; [done |]. destruct k as [|k]; simpl; [naive_solver |].
  intros Hk%IH. by right.
Qed.

(** ** Normal forms *)

(** ["/"], or starting but not ending with a separator. *)
Definition canonical (d : string) : Prop :=
  d = "/"%string \/
  exists p, d = String slash p /\ p <> EmptyString /\
    String.get (String.length p - 1) p <> Some slash.

Lemma trim_end_le k p : (trim_end k p <= k)%nat.
Proof. induction k as [|k IH]; simpl; [done |]. case_decide; lia. Qed.

Lemma trim_end_pos k p : (0 < k -> 0 < trim_end k p)%nat.
Proof.
  induction k as [|k IH]; simpl; [done |]. case_decide as Hd; [| lia]. intros _. apply IH. lia.
Qed.

(** The loop stops at the first character that is not a separator. *)
Lemma trim_end_stop k p :
  (trim_end k p <= 1)%nat \/ String.get (trim_end k p - 1) p <> Some slash.
Proof.
  induction k as [|k IH]; simpl; [left; lia |]. case_decide as Hd; [done |].
  destruct (decide (k = O)) as [->|Hk]; [left; lia | right]. replace (S k - 1)%nat with k by lia. tauto.
Qed.

(** ... and only passes separators. *)
Lemma trim_end_slashes k p j :
  (trim_end k p <= j < k)%nat -> String.get j p = Some slash.
Proof.
  induction k as [|k IH]; simpl; [lia |]. case_decide as Hd; [| lia]. intros Hj.
  destruct (decide (j = k)) as [->|Hne]; [tauto | apply IH; lia].
Qed.

Lemma normalize_slash p : exists q, normalize_path p = String slash q.
Proof. destruct p as [|a p]; [by exists EmptyString |]. simpl. case_decide; [by eexists |]. exists p. f_equal. by destruct (decide (a = slash)). Qed.

Lemma trim_canonical q : canonical (trim_trailing_slash (String slash q)).
Proof.
  unfold trim_trailing_slash. case_decide as Hq; [by left |].
  set (k := trim_end _ _).
  pose proof (trim_end_pos (String.length (String slash q)) (String slash q)) as Hpos.
  pose proof (trim_end_stop (String.length (String slash q)) (String slash q)) as Hstop.
  pose proof (trim_end_le (String.length (String slash q)) (String slash q)) as Hle.
  fold k in Hpos, Hstop, Hle. cbn [String.length] in Hpos, Hle.
  destruct k as [|[|k]]; [lia | by left |]. right. cbn [str_take].
  exists (str_take (S k) q). destruct Hstop as [Hs|Hs]; [lia |].
  assert (Hlen : String.length (str_take (S k) q) = S k) by (rewrite str_length_take; lia).
  split_and!; [done | by intros Hn; rewrite Hn in Hlen |].
  rewrite Hlen. replace (S k - 1)%nat with k by lia. rewrite get_take by lia. done.
Qed.

Lemma normal_canonical p : canonical (trim_trailing_slash (normalize_path p)).
Proof. destruct (normalize_slash p) as [q ->]. apply trim_canonical. Qed.

Lemma canonical_trim d : canonical d -> trim_trailing_slash d = d.
Proof.
  unfold trim_trailing_slash. intros [->|(p & -> & Hne & Hl)]; [done |].
  rewrite decide_False by congruence. cbn [String.length trim_end].
  destruct p as [|a p]; [done |]. cbn [String.length] in *. simpl in Hl. rewrite Nat.sub_0_r in Hl.
  rewrite decide_False by (intros [_ ?]; by apply Hl). apply str_take_ge. simpl. lia.
Qed.

Lemma canonical_normal d : canonical d -> normalize_path d = d.
Proof. intros [->|(p & -> & _)]; done. Qed.

Lemma canonical_both d : canonical d -> trim_trailing_slash (normalize_path d) = d.
Proof. intros Hd. rewrite canonical_normal by done. by apply canonical_trim. Qed.

(** ** Names *)

Lemma valid_name_spec n :
  is_valid_name_component n = true <->
  n <> EmptyString /\ n <> "."%string /\ n <> ".."%string /\ ~ str_in slash n.
Proof.
  unfold is_valid_name_component. case_decide; [split; [done | naive_solver] |].
  rewrite bool_decide_eq_true. naive_solver.
Qed.

(** The part of a child's path before its name. *)
Definition dir_prefix (d : string) : string :=
  if decide (d = "/"%string) then "/"%string else (d +:+ "/")%string.

Lemma join_prefix d n : canonical d -> join_path d n = (dir_prefix d +:+ n)%string.
Proof.
  intros Hd. unfold join_path, dir_prefix. rewrite canonical_both by done.
  case_decide; [done |]. by rewrite str_app_assoc.
Qed.

Lemma join_canonical d n :
  canonical d -> n <> EmptyString -> ~ str_in slash n -> canonical (join_path d n).
Proof.
  intros Hd Hne Hn. rewrite join_prefix by done. right.
  assert (Hlast : forall q, String.get (String.length (q +:+ n) - 1) (q +:+ n) <> Some slash).
  { intros q Hq. apply Hn. eapply (get_str_in _ _ (String.length n - 1)). rewrite <- Hq.
    rewrite <- (get_app_r q). rewrite str_length_app. f_equal. destruct n; [done |]. simpl. lia. }
  unfold dir_prefix. case_decide as Hroot.
  - exists n. split_and!; [done | done |]. apply (Hlast EmptyString).
  - destruct Hd as [|(p & -> & _)]; [done |]. exists ((p +:+ "/") +:+ n)%string.
    split_and!; [done | by destruct p | apply Hlast].
Qed.

(** ** Children *)

Lemma direct_child_spec d c n :
  canonical d ->
  is_direct_child_path d c = Some n <-> c = join_path d n /\ n <> EmptyString /\ ~ str_in slash n.
Proof.
  intros Hd. rewrite join_prefix by done. unfold is_direct_child_path. rewrite canonical_trim by done.
  change (if decide (d = "/"%string) then "/"%string else (d +:+ "/")%string) with (dir_prefix d).
  split.
  - case_decide; [done |]. destruct (starts_with (dir_prefix d) c) eqn:Hs; [| done]. cbn [negb].
    apply starts_with_app in Hs as [t ->]. rewrite str_drop_app. case_decide; [done |].
    case_decide; [done |]. by intros [= <-].
  - intros (-> & Hne & Hn). rewrite decide_False.
    + assert (Hs : starts_with (dir_prefix d) (dir_prefix d +:+ n) = true) by (apply starts_with_app; eauto).
      rewrite Hs. cbn [negb]. rewrite str_drop_app, !decide_False by done. done.
    + intros [He|He]; apply (f_equal String.length) in He; rewrite str_length_app in He;
        unfold dir_prefix in He; case_decide; rewrite ?str_length_app in He; simpl in He; subst; simpl in He;
        destruct n; simpl in *; try done; lia.
Qed.

(** A path is the child of at most one directory, under one name. *)
Lemma join_inj d n n' : canonical d -> join_path d n = join_path d n' -> n = n'.
Proof. intros Hd. rewrite !join_prefix by done. apply str_app_inj_l. Qed.

(** Joining and recognising children are inverse. For a directory path as handlers
    normalise it (one separator in front, none at the end but for the root), a candidate
    is its direct child under [name] exactly if it is the directory joined with that
    non-empty name without separators; and the joined path is again in normal form. *)
Theorem frontend_child_roundtrip p c name :
  let d := trim_trailing_slash (normalize_path p) in
  (is_direct_child_path d c = Some name <->
   c = join_path d name /\ name <> EmptyString /\ ~ str_in slash name) /\
  (is_valid_name_component name = true ->
   trim_trailing_slash (normalize_path (join_path p name)) = join_path p name /\
   join_path d name = join_path p name).
Proof.
  intros d. pose proof (normal_canonical p) as Hd. fold d in Hd.
  split; [by apply direct_child_spec |]. intros (Hne & _ & _ & Hn)%valid_name_spec.
  assert (Hj : join_path d name = join_path p name).
  { unfold join_path. rewrite canonical_both by done. done. }
  split; [| done]. rewrite <- Hj. apply canonical_both. by apply join_canonical.
Qed.
