(* ===== verification/FrontendQuorum.v ===== *)
(** * The frontend: quorums of replicas

    What the loops over the replicas of [Write], [Get] and [Remove] count, and that an
    acknowledged write and a successful read share a replica. *)

From stdpp Require Import base gmap strings list numbers.
From S2P Require Import Prelude CString Storage Metadata Frontend.

#[local] Open Scope Z_scope.

(** ** Requests and the node table *)

(** The same registered nodes; only statistics and the round-robin position differ. *)
Definition same_nodes (st st' : storage_interface) : Prop :=
  nodes st' = nodes st /\ num_nodes st' = num_nodes st.

#[export] Instance same_nodes_pre : PreOrder same_nodes.
Proof. split; [by intros st | intros st1 st2 st3 [? ?] [? ?]; split; congruence]. Qed.

Lemma same_nodes_get st st' id :
  same_nodes st st' -> storage_interface_get_node st' id = storage_interface_get_node st id.
Proof. intros [Hn Hk]. unfold storage_interface_get_node, Storage.find_node. by rewrite Hn, Hk. Qed.

(** A branch in which the request fails: its conditions contradict the acknowledgement. *)
#[local] Ltac refused :=
  intros; simplify_eq/=; split_and!; [done | split; [by intros [? _] | naive_solver lia] | done].

(** The exchange with replica [id] ends in an acknowledgement. *)
Definition write_ack (x : exchange) (id : Z) (len : Z) (st : storage_interface) : Prop :=
  is_Some (storage_interface_get_node st id) /\ connect_ok x = true /\ 0 <= header_sent x /\
  send_loop (data_sent x) 0 len = Some true /\
  from_option (fun r => str_take 3 r = "OK|"%string) False (reply x).

#[export] Instance write_ack_dec x id len st : Decision (write_ack x id len st).
Proof. unfold write_ack. destruct (reply x); simpl; apply _. Defined.

Lemma write_result x id fid off bytes st rc resp st' :
  storage_interface_write x id fid off bytes st = Some (rc, resp, st') ->
  same_nodes st st' /\
  (rc = 0 /\ status resp = 0 <-> write_ack x id (Z.of_nat (length bytes)) st) /\
  (rc = 0 -> bytes_transferred resp = Z.of_nat (length bytes)).
Proof.
  unfold storage_interface_write, write_ack.
  destruct (storage_interface_get_node st id) as [nd|]; [| refused].
  destruct (connect_ok x); cbn [negb]; [| refused].
  case_decide; [refused |].
  destruct (send_loop _ _ _) as [[|]|]; [| refused | done].
  destruct (reply x) as [r|]; [case_decide as Hr |]; [| refused ..].
  intros [= <- <- <-]. split_and!; try done. split; [| done]. intros _. split_and!; [done | done | lia | done ..].
Qed.

(** The bytes replica [id] answers a read with. *)
Definition read_value (x : read_exchange) (id len : Z) (st : storage_interface) : option (list Z) :=
  _ ← storage_interface_get_node st id;
  if rx_connect x && bool_decide (0 <= rx_header x) && rx_malloc x len
  then mjoin (recv_loop (rx_recvs x) [] len) else None.

Lemma read_result x id fid off len st rc resp st' :
  storage_interface_read (rx_malloc x) (rx_connect x) (rx_header x) (rx_recvs x) id fid off len st
    = Some (rc, resp, st') ->
  same_nodes st st' /\
  forall w, (data resp = Some w /\ rc = 0 /\ status resp = 0) <-> read_value x id len st = Some w.
Proof.
  unfold storage_interface_read, read_value.
  destruct (storage_interface_get_node st id) as [nd|]; [| intros [= <- <- <-]; split; [done | naive_solver]].
  destruct (rx_connect x); cbn [negb andb mbind option_bind]; [| intros [= <- <- <-]; split; [done | naive_solver]].
  case_decide; [intros [= <- <- <-]; rewrite bool_decide_eq_false_2 by lia; split; [done | naive_solver] |].
  rewrite bool_decide_eq_true_2 by lia. cbn [andb].
  destruct (rx_malloc x len); cbn [negb]; [| intros [= <- <- <-]; split; [done | naive_solver]].
  destruct (recv_loop _ _ _) as [[got|]|]; [| | done]; intros [= <- <- <-]; simpl; (split; [done | naive_solver]).
Qed.

Definition delete_ack (x : delete_exchange) (id : Z) (st : storage_interface) : Prop :=
  is_Some (storage_interface_get_node st id) /\ dx_connect x = true /\ 0 <= dx_sent x /\
  from_option (fun r => str_take 2 r = "OK"%string) True (dx_reply x).

Lemma delete_result x id fid st rc resp st' :
  storage_interface_delete (dx_connect x) (dx_sent x) (dx_reply x) id fid st = (rc, resp, st') ->
  same_nodes st st' /\ (rc = 0 /\ status resp = 0 <-> delete_ack x id st).
Proof.
  unfold storage_interface_delete, delete_ack.
  destruct (storage_interface_get_node st id) as [nd|];
    [| intros [= <- <- <-]; split; [done |]; split; [by intros [? _] | by intros [[? [=]] _]]].
  destruct (dx_connect x); cbn [negb];
    [| intros [= <- <- <-]; split; [done |]; split; [by intros [? _] | by intros (_ & [=] & _)]].
  case_decide; [intros [= <- <- <-]; split; [done |]; split; [by intros [? _] | lia] |].
  destruct (dx_reply x) as [r|]; [case_decide as Hr |]; intros [= <- <- <-]; (split; [done |]); simpl.
  - split; [intros _; split_and!; [done | done | lia | done] | done].
  - split; [by intros [? _] | by intros (_ & _ & _ & ?)].
  - split; [intros _; split_and!; [done | done | lia | done] | done].
Qed.

(** ** Counting *)

(** How many of the replicas [ids], numbered from [i], satisfy [P]. *)
Fixpoint tally (P : nat -> Z -> Prop) `{forall i id, Decision (P i id)} (i : nat) (ids : list Z) : Z :=
  match ids with
  | [] => 0
  | id :: ids' => (if decide (id <> 0 /\ P i id) then 1 else 0) + tally P (S i) ids'
  end.

Section Tally.
Context (P Q : nat -> Z -> Prop) `{forall i id, Decision (P i id)} `{forall i id, Decision (Q i id)}.

Lemma tally_bounds i ids : 0 <= tally P i ids <= Z.of_nat (length ids).
Proof.
  revert i. induction ids as [|id ids IH]; intros i; simpl; [lia |]. specialize (IH (S i)).
  case_decide; lia.
Qed.

(** Two majorities share a replica. *)
Lemma tally_meet i ids :
  Z.of_nat (length ids) < tally P i ids + tally Q i ids ->
  exists k id, ids !! k = Some id /\ id <> 0 /\ P (i + k)%nat id /\ Q (i + k)%nat id.
Proof.
  revert i. induction ids as [|id ids IH]; intros i; simpl; [lia |]. intros Hlt.
  destruct (decide (id <> 0 /\ P i id /\ Q i id)) as [(? & ? & ?)|Hn].
  { exists O, id. rewrite Nat.add_0_r. done. }
  destruct (IH (S i)) as (k & id' & Hk & ? & ? & ?).
  { repeat case_decide; try lia; naive_solver. }
  exists (S k), id'. rewrite <- Nat.add_succ_comm. done.
Qed.

Lemma tally_ext i ids :
  (forall k id, P k id <-> Q k id) -> tally P i ids = tally Q i ids.
Proof.
  intros He. revert i. induction ids as [|id ids IH]; intros i; simpl; [done |]. rewrite IH.
  destruct (decide (id <> 0 /\ P i id)) as [Hd|Hd], (decide (id <> 0 /\ Q i id)) as [Hd'|Hd']; try done;
    rewrite He in Hd; tauto.
Qed.

End Tally.

Definition reports (x : read_exchange) (id len : Z) (st : storage_interface) (w : list Z) : Prop :=
  read_value x id len st = Some w.

#[export] Instance reports_dec x id len st w : Decision (reports x id len st w).
Proof. unfold reports. apply _. Defined.

#[export] Instance delete_ack_dec x id st : Decision (delete_ack x id st).
Proof. unfold delete_ack. destruct (dx_reply x); simpl; apply _. Defined.

Lemma write_ack_nodes x id len st st' :
  same_nodes st st' -> write_ack x id len st' <-> write_ack x id len st.
Proof. intros Hs. unfold write_ack. by rewrite (same_nodes_get _ _ id Hs). Qed.

Lemma delete_ack_nodes x id st st' : same_nodes st st' -> delete_ack x id st' <-> delete_ack x id st.
Proof. intros Hs. unfold delete_ack. by rewrite (same_nodes_get _ _ id Hs). Qed.

Lemma read_value_nodes x id len st st' :
  same_nodes st st' -> read_value x id len st' = read_value x id len st.
Proof. intros Hs. unfold read_value. by rewrite (same_nodes_get _ _ id Hs). Qed.

(** ** The loops *)

Lemma write_replicas_spec xs i ids fid off bytes c b st c' b' st' :
  write_replicas xs i ids fid off bytes c b st = Some (c', b', st') ->
  0 <= c -> c + Z.of_nat (length ids) < 2 ^ 32 ->
  same_nodes st st' /\
  c' = c + tally (fun k id => write_ack (xs k) id (Z.of_nat (length bytes)) st) i ids /\
  b' = (if decide (c < c') then Z.of_nat (length bytes) else b).
Proof.
  revert i c b st. induction ids as [|id ids IH]; intros i c b st; cbn [write_replicas tally length].
  { intros [= <- <- <-] Hc Hlen. split_and!; [done | lia |]. by rewrite decide_False by lia. }
  intros Hrun Hc Hlen. destruct (decide (id = 0)) as [->|Hid].
  { destruct (IH (S i) c b st Hrun) as (? & -> & ->); [lia .. |].
    rewrite (decide_False (P := 0 <> 0 /\ _)) by tauto. by rewrite Z.add_0_l. }
  destruct (storage_interface_write _ _ _ _ _ _) as [[[rc resp] st1]|] eqn:Hw; [| done].
  destruct (write_result _ _ _ _ _ _ _ _ _ Hw) as (Hs & Hack & Hb).
  assert (Ht : tally (fun k id => write_ack (xs k) id (Z.of_nat (length bytes)) st1) (S i) ids =
               tally (fun k id => write_ack (xs k) id (Z.of_nat (length bytes)) st) (S i) ids)
    by (apply tally_ext; intros; by apply write_ack_nodes).
  pose proof (tally_bounds (fun k id => write_ack (xs k) id (Z.of_nat (length bytes)) st) (S i) ids).
  destruct (decide (rc = 0 /\ status resp = 0)) as [Hd|Hd].
  - rewrite u32_small in Hrun by lia.
    destruct (IH _ _ _ _ Hrun) as (Hs' & Hc' & ->); [lia .. |]. rewrite Ht in Hc'.
    rewrite (decide_True (P := id <> 0 /\ _)) by (split; [done | by apply Hack]).
    split_and!; [by etrans | lia |]. rewrite Hb by tauto. rewrite (decide_True (P := c < c')) by lia.
    by case_decide.
  - destruct (IH _ _ _ _ Hrun) as (Hs' & Hc' & ->); [lia .. |]. rewrite Ht in Hc'.
    rewrite (decide_False (P := id <> 0 /\ _)) by (intros [_ ?]; by apply Hd, Hack).
    split_and!; [by etrans | lia | done].
Qed.

Lemma delete_replicas_spec xs i ids fid c st c' st' :
  delete_replicas xs i ids fid c st = (c', st') -> 0 <= c -> c + Z.of_nat (length ids) < 2 ^ 32 ->
  same_nodes st st' /\ c' = c + tally (fun k id => delete_ack (xs k) id st) i ids.
Proof.
  revert i c st. induction ids as [|id ids IH]; intros i c st; cbn [delete_replicas tally length].
  { intros [= <- <-] Hc Hlen. split; [done | lia]. }
  intros Hrun Hc Hlen. destruct (decide (id = 0)) as [->|Hid].
  { destruct (IH (S i) c st Hrun) as (? & ->); [lia .. |].
    rewrite (decide_False (P := 0 <> 0 /\ _)) by tauto. by rewrite Z.add_0_l. }
  destruct (storage_interface_delete _ _ _ _ _ _) as [[rc resp] st1] eqn:Hw.
  destruct (delete_result _ _ _ _ _ _ _ Hw) as (Hs & Hack).
  assert (Ht : tally (fun k id => delete_ack (xs k) id st1) (S i) ids =
               tally (fun k id => delete_ack (xs k) id st) (S i) ids)
    by (apply tally_ext; intros; by apply delete_ack_nodes).
  destruct (decide (rc = 0 /\ status resp = 0)) as [Hd|Hd].
  - rewrite u32_small in Hrun by lia. destruct (IH _ _ _ Hrun) as (Hs' & ->); [lia .. |].
    rewrite Ht, (decide_True (P := id <> 0 /\ _)) by (split; [done | by apply Hack]).
    split; [by etrans | lia].
  - destruct (IH _ _ _ Hrun) as (Hs' & ->); [lia .. |].
    rewrite Ht, (decide_False (P := id <> 0 /\ _)) by (intros [_ ?]; by apply Hd, Hack).
    split; [by etrans | lia].
Qed.

(** [m] counts the values seen so far. *)
Lemma read_replicas_spec xs i ids fid off len q m st res st' :
  read_replicas xs i ids fid off len q m st = Some (res, st') ->
  (forall w, 0 <= default 0 (m !! w) /\ default 0 (m !! w) < q /\
             default 0 (m !! w) + Z.of_nat (length ids) < 2 ^ 32) ->
  let votes w := default 0 (m !! w) + tally (fun k id => reports (xs k) id len st w) i ids in
  same_nodes st st' /\
  match res with
  | Some w => q <= votes w
  | None => forall w, votes w < q
  end.
Proof.
  revert i m st. induction ids as [|id ids IH]; intros i m st; cbn [read_replicas tally length].
  { intros [= <- <-] Hm. split; [done |]. intros w. destruct (Hm w) as (? & ? & ?). lia. }
  intros Hrun Hm. destruct (decide (id = 0)) as [->|Hid].
  { destruct (IH (S i) m st Hrun) as [Hs Hr]; [intros w; destruct (Hm w) as (? & ? & ?); lia |].
    split; [done |]. destruct res as [w|]; [| intros w; specialize (Hr w)];
      rewrite (decide_False (P := 0 <> 0 /\ _)) by tauto; lia. }
  destruct (storage_interface_read _ _ _ _ _ _ _ _ _) as [[[rc resp] st1]|] eqn:Hw; [| done].
  destruct (read_result _ _ _ _ _ _ _ _ _ Hw) as [Hs Hval].
  assert (Ht : forall w, tally (fun k id => reports (xs k) id len st1 w) (S i) ids =
                         tally (fun k id => reports (xs k) id len st w) (S i) ids)
    by (intros w; apply tally_ext; intros; unfold reports; by rewrite (read_value_nodes _ _ _ _ _ Hs)).
  pose proof (fun w => tally_bounds (fun k id => reports (xs k) id len st w) (S i) ids) as Htb.
  destruct (read_value (xs i) id len st) as [w0|] eqn:Hrv.
  - destruct (proj2 (Hval w0) eq_refl) as (Hdata & Hrc & Hst). rewrite Hdata, decide_True in Hrun by done.
    rewrite u32_small in Hrun by (destruct (Hm w0) as (? & ? & ?); lia).
    destruct (decide (q <= default 0 (m !! w0) + 1)) as [Hq|Hq].
    + injection Hrun as <- <-. split; [done |]. rewrite decide_True by done. specialize (Htb w0). lia.
    + apply IH in Hrun as [Hs' Hr].
      2:{ intros w. destruct (Hm w) as (? & ? & ?). destruct (decide (w = w0)) as [->|Hne].
          - rewrite lookup_insert_eq. simpl. lia.
          - rewrite lookup_insert_ne by done. lia. }
      split; [by etrans |].
      assert (Hstep : forall w, default 0 (<[w0 := default 0 (m !! w0) + 1]> m !! w) +
          tally (fun k id => reports (xs k) id len st1 w) (S i) ids =
        default 0 (m !! w) + ((if decide (id <> 0 /\ reports (xs i) id len st w) then 1 else 0) +
          tally (fun k id => reports (xs k) id len st w) (S i) ids)).
      { intros w. rewrite Ht. destruct (decide (w = w0)) as [->|Hne].
        - rewrite lookup_insert_eq, decide_True by done. simpl. lia.
        - rewrite lookup_insert_ne by done. rewrite decide_False by (unfold reports; rewrite Hrv; naive_solver). lia. }
      destruct res as [w|]; [by rewrite <- Hstep | intros w; by rewrite <- Hstep].
  - assert (Hno : forall w, ~ (data resp = Some w /\ rc = 0 /\ status resp = 0))
      by (intros w Hw'; apply Hval in Hw'; discriminate).
    assert (Hrun' : read_replicas xs (S i) ids fid off len q m st1 = Some (res, st')).
    { destruct (data resp) as [w|]; [| done]. case_decide; [by destruct (Hno w) | done]. }
    apply IH in Hrun' as [Hs' Hr]; [| intros w; destruct (Hm w) as (? & ? & ?); lia].
    split; [by etrans |]. destruct res as [w|]; [| intros w; specialize (Hr w)]; rewrite Ht in Hr;
      rewrite decide_False by (unfold reports; rewrite Hrv; naive_solver); lia.
Qed.

(** ** What is sent *)

(** What the exchanges send to replica [id]. *)
Definition write_sent (x : exchange) (id : Z) (fid : string) (off : Z) (bytes : list Z)
    (st : storage_interface) : list (Z * list Z) :=
  let len := Z.of_nat (length bytes) in
  if decide (is_Some (storage_interface_get_node st id) /\ connect_ok x = true /\ 0 <= header_sent x)
  then [(id, sent_line (header_sent x) (write_request fid off len) ++
             take (Z.to_nat (send_total (data_sent x) 0 len)) bytes)]
  else [].

Definition read_sent (x : read_exchange) (id : Z) (fid : string) (off len : Z)
    (st : storage_interface) : list (Z * list Z) :=
  if decide (is_Some (storage_interface_get_node st id) /\ rx_connect x = true /\ 0 <= rx_header x)
  then [(id, sent_line (rx_header x) (read_request fid off len))] else [].

Definition delete_sent (x : delete_exchange) (id : Z) (fid : string) (st : storage_interface)
  : list (Z * list Z) :=
  if decide (is_Some (storage_interface_get_node st id) /\ dx_connect x = true /\ 0 <= dx_sent x)
  then [(id, sent_line (dx_sent x) (delete_request fid))] else [].

(** Conditions under which nothing is sent, and those under which a line is sent. *)
#[local] Ltac sends :=
  intros; simplify_eq; cbn [wire on_wire count_write count_read count_delete]; first
    [ rewrite decide_True by (split_and!; [done | done | lia]); done
    | rewrite decide_False by (intros ([? ?] & ? & ?); first [discriminate | lia]); by rewrite app_nil_r ].

Lemma write_wire x id fid off bytes st rc resp st' :
  storage_interface_write x id fid off bytes st = Some (rc, resp, st') ->
  wire st' = wire st ++ write_sent x id fid off bytes st.
Proof.
  unfold storage_interface_write, write_sent.
  destruct (storage_interface_get_node st id) as [nd|]; [| sends].
  destruct (connect_ok x); cbn [negb]; [| sends]. case_decide; [sends |].
  destruct (send_loop _ _ _) as [[|]|]; [| sends | done].
  destruct (reply x) as [rp|]; [case_decide |]; sends.
Qed.

Lemma read_wire x id fid off len st rc resp st' :
  storage_interface_read (rx_malloc x) (rx_connect x) (rx_header x) (rx_recvs x) id fid off len st
    = Some (rc, resp, st') ->
  wire st' = wire st ++ read_sent x id fid off len st.
Proof.
  unfold storage_interface_read, read_sent.
  destruct (storage_interface_get_node st id) as [nd|]; [| sends].
  destruct (rx_connect x); cbn [negb]; [| sends]. case_decide; [sends |].
  destruct (rx_malloc x len); cbn [negb]; [| sends].
  destruct (recv_loop _ _ _) as [[got|]|]; [sends | sends | done].
Qed.

Lemma delete_wire x id fid st rc resp st' :
  storage_interface_delete (dx_connect x) (dx_sent x) (dx_reply x) id fid st = (rc, resp, st') ->
  wire st' = wire st ++ delete_sent x id fid st.
Proof.
  unfold storage_interface_delete, delete_sent.
  destruct (storage_interface_get_node st id) as [nd|]; [| sends].
  destruct (dx_connect x); cbn [negb]; [| sends]. case_decide; [sends |].
  destruct (dx_reply x) as [rp|]; [case_decide |]; sends.
Qed.

Lemma send_loop_total sends total len :
  send_loop sends total len = Some true -> len <= send_total sends total len.
Proof.
  revert total. induction sends as [|z sends IH]; intros total; cbn [send_loop send_total];
    case_decide; try done; [lia | | lia]. case_decide; [done |]. apply IH.
Qed.

(** An acknowledged write was sent whole after the part of its line that was sent. *)
Lemma write_sent_ack x id fid off bytes st :
  write_ack x id (Z.of_nat (length bytes)) st ->
  write_sent x id fid off bytes st =
    [(id, sent_line (header_sent x) (write_request fid off (Z.of_nat (length bytes))) ++ bytes)].
Proof.
  intros (Hn & Hc & Hh & Hd & _). unfold write_sent. rewrite decide_True by done.
  apply send_loop_total in Hd. by rewrite (take_ge bytes) by lia.
Qed.

Lemma read_sent_value x id fid off len st v :
  reports x id len st v -> read_sent x id fid off len st = [(id, sent_line (rx_header x) (read_request fid off len))].
Proof.
  unfold reports, read_value, read_sent. destruct (storage_interface_get_node st id) as [nd|]; [| done].
  cbn [mbind option_bind]. destruct (rx_connect x); [| done]. cbn [andb].
  destruct (bool_decide (0 <= rx_header x)) eqn:Hh; [| done]. apply bool_decide_eq_true in Hh. intros _.
  by rewrite decide_True.
Qed.

(** What is sent to the replicas [ids], numbered from [i]. *)
Fixpoint traffic (f : nat -> Z -> list (Z * list Z)) (i : nat) (ids : list Z) : list (Z * list Z) :=
  match ids with
  | [] => []
  | id :: ids' => (if decide (id = 0) then [] else f i id) ++ traffic f (S i) ids'
  end.

Lemma traffic_ext f g i ids : (forall k id, f k id = g k id) -> traffic f i ids = traffic g i ids.
Proof. intros He. revert i. induction ids as [|id ids IH]; intros i; simpl; [done |]. by rewrite IH, He. Qed.

Lemma elem_of_traffic f i ids x :
  x ∈ traffic f i ids <-> exists k id, ids !! k = Some id /\ id <> 0 /\ x ∈ f (i + k)%nat id.
Proof.
  revert i. induction ids as [|id ids IH]; intros i; cbn [traffic].
  { rewrite elem_of_nil. split; [done |]. by intros (k & id & Hk & _). }
  rewrite elem_of_app, IH. split.
  - intros [Hx|(k & id' & Hk & Hx)].
    + destruct (decide (id = 0)); [by apply elem_of_nil in Hx |]. exists O, id. by rewrite Nat.add_0_r.
    + exists (S k), id'. by rewrite <- Nat.add_succ_comm.
  - intros ([|k] & id' & Hk & Hne & Hx).
    + injection Hk as ->. left. rewrite decide_False by done. by rewrite Nat.add_0_r in Hx.
    + right. exists k, id'. by rewrite <- Nat.add_succ_comm in Hx.
Qed.

Lemma write_replicas_wire xs i ids fid off bytes c b st c' b' st' :
  write_replicas xs i ids fid off bytes c b st = Some (c', b', st') ->
  wire st' = wire st ++ traffic (fun k id => write_sent (xs k) id fid (u64 off) bytes st) i ids.
Proof.
  revert i c b st. induction ids as [|id ids IH]; intros i c b st; cbn [write_replicas traffic].
  { intros [= _ _ <-]. by rewrite app_nil_r. }
  destruct (decide (id = 0)); [apply IH |].
  destruct (storage_interface_write _ _ _ _ _ _) as [[[rc resp] st1]|] eqn:Hw; [| done]. intros Hrun.
  pose proof (write_wire _ _ _ _ _ _ _ _ _ Hw) as H1. apply write_result in Hw as [Hs _].
  assert (Ht : traffic (fun k id => write_sent (xs k) id fid (u64 off) bytes st1) (S i) ids =
               traffic (fun k id => write_sent (xs k) id fid (u64 off) bytes st) (S i) ids).
  { apply traffic_ext. intros k id'. unfold write_sent. by rewrite (same_nodes_get _ _ id' Hs). }
  destruct (decide (rc = 0 /\ status resp = 0)); apply IH in Hrun; by rewrite Hrun, H1, Ht, <- app_assoc.
Qed.

Lemma delete_replicas_wire xs i ids fid c st :
  wire (delete_replicas xs i ids fid c st).2 =
    wire st ++ traffic (fun k id => delete_sent (xs k) id fid st) i ids.
Proof.
  revert i c st. induction ids as [|id ids IH]; intros i c st; cbn [delete_replicas traffic].
  { by rewrite app_nil_r. }
  destruct (decide (id = 0)); [apply IH |].
  destruct (storage_interface_delete _ _ _ _ _ _) as [[rc resp] st1] eqn:Hd.
  pose proof (delete_wire _ _ _ _ _ _ _ Hd) as H1. apply delete_result in Hd as [Hs _].
  rewrite IH, H1, <- app_assoc. do 2 f_equal. apply traffic_ext. intros k id'. unfold delete_sent.
  by rewrite (same_nodes_get _ _ id' Hs).
Qed.

(** Only the replicas before the loop ends are asked; the quorum is among them. *)
Lemma read_replicas_wire xs i ids fid off len q m st res st' :
  read_replicas xs i ids fid off len q m st = Some (res, st') ->
  (forall w, 0 <= default 0 (m !! w) /\ default 0 (m !! w) + Z.of_nat (length ids) < 2 ^ 32) ->
  exists n,
    wire st' = wire st ++ traffic (fun k id => read_sent (xs k) id fid (u64 off) len st) i (take n ids) /\
    forall w, res = Some w ->
      q <= default 0 (m !! w) + tally (fun k id => reports (xs k) id len st w) i (take n ids).
Proof.
  revert i m st. induction ids as [|id ids IH]; intros i m st; cbn [read_replicas length].
  { intros [= <- <-] _. exists O. simpl. by rewrite app_nil_r. }
  intros Hrun Hm. destruct (decide (id = 0)) as [->|Hid].
  { destruct (IH (S i) m st Hrun) as (n & Hw & Hq); [intros w; destruct (Hm w); lia |].
    exists (S n). split; [exact Hw |]. intros w Hr. specialize (Hq w Hr). cbn [take tally].
    rewrite (decide_False (P := 0 <> 0 /\ _)) by tauto. lia. }
  destruct (storage_interface_read _ _ _ _ _ _ _ _ _) as [[[rc resp] st1]|] eqn:Hw; [| done].
  pose proof (read_wire _ _ _ _ _ _ _ _ _ Hw) as H1.
  destruct (read_result _ _ _ _ _ _ _ _ _ Hw) as [Hs Hval].
  assert (Hnext : forall m', (forall w, 0 <= default 0 (m' !! w) /\
      default 0 (m' !! w) + Z.of_nat (length ids) < 2 ^ 32 /\
      default 0 (m' !! w) <= default 0 (m !! w) + (if decide (reports (xs i) id len st w) then 1 else 0)) ->
    read_replicas xs (S i) ids fid off len q m' st1 = Some (res, st') ->
    exists n,
      wire st' = wire st ++ traffic (fun k id => read_sent (xs k) id fid (u64 off) len st) i (take n (id :: ids)) /\
      forall w, res = Some w ->
        q <= default 0 (m !! w) + tally (fun k id => reports (xs k) id len st w) i (take n (id :: ids))).
  { intros m' Hm' Hrun'. destruct (IH (S i) m' st1 Hrun') as (n & Hwn & Hq); [intros w; destruct (Hm' w); lia |].
    exists (S n). cbn [take traffic tally]. rewrite decide_False by done. split.
    - rewrite Hwn, H1, <- app_assoc. do 2 f_equal. apply traffic_ext. intros k id'. unfold read_sent.
      by rewrite (same_nodes_get _ _ id' Hs).
    - intros w Hr. specialize (Hq w Hr). destruct (Hm' w) as (_ & _ & Hle).
      rewrite (tally_ext _ (fun k id => reports (xs k) id len st w)) in Hq
        by (intros; unfold reports; by rewrite (read_value_nodes _ _ _ _ _ Hs)).
      destruct (decide (reports (xs i) id len st w)) as [Hr'|Hr'];
        [rewrite decide_True by done | rewrite (decide_False (P := id <> 0 /\ _)) by tauto]; lia. }
  assert (Hskip : read_replicas xs (S i) ids fid off len q m st1 = Some (res, st') ->
    exists n,
      wire st' = wire st ++ traffic (fun k id => read_sent (xs k) id fid (u64 off) len st) i (take n (id :: ids)) /\
      forall w, res = Some w ->
        q <= default 0 (m !! w) + tally (fun k id => reports (xs k) id len st w) i (take n (id :: ids))).
  { apply Hnext. intros w. destruct (Hm w). destruct (decide (reports (xs i) id len st w)); split_and!; first [done | lia]. }
  destruct (data resp) as [w0|] eqn:Hdata; [| by apply Hskip].
  destruct (decide (rc = 0 /\ status resp = 0)) as [Hok|]; [| by apply Hskip].
  assert (Hr0 : reports (xs i) id len st w0) by (apply Hval; by split).
  rewrite u32_small in Hrun by (destruct (Hm w0); lia).
  destruct (decide (q <= default 0 (m !! w0) + 1)) as [Hq|Hq].
  - injection Hrun as <- <-. exists 1%nat. cbn [take traffic tally]. rewrite decide_False, app_nil_r by done.
    split; [exact H1 |]. intros w [= <-]. rewrite decide_True by done. rewrite take_0. cbn [tally]. lia.
  - apply (Hnext (<[w0 := default 0 (m !! w0) + 1]> m)); [| done]. intros w. destruct (Hm w).
    destruct (decide (w = w0)) as [->|Hne].
    + rewrite lookup_insert_eq. simpl. rewrite decide_True by done. lia.
    + rewrite lookup_insert_ne by done. destruct (decide (reports (xs i) id len st w)); split_and!; first [done | lia].
Qed.

(** The replicas counted in a first part are counted in the whole. *)
Lemma tally_take (P : nat -> Z -> Prop) `{forall i id, Decision (P i id)} i n ids :
  tally P i (take n ids) = tally (fun k id => (k < i + n)%nat /\ P k id) i ids.
Proof.
  revert i n. induction ids as [|id ids IH]; intros i n; [by rewrite take_nil |].
  assert (Hext : forall j, tally (fun k id => (k < i + S j)%nat /\ P k id) (S i) ids =
                           tally (fun k id => (k < S i + j)%nat /\ P k id) (S i) ids)
    by (intros j; apply tally_ext; intros; by rewrite Nat.add_succ_comm).
  destruct n as [|n]; cbn [take tally].
  - rewrite decide_False by (intros (_ & ? & _); lia). rewrite Z.add_0_l.
    enough (Hz : forall l j, (i + 0 <= j)%nat -> tally (fun k id => (k < i + 0)%nat /\ P k id) j l = 0)
      by (symmetry; apply Hz; lia).
    induction l as [|x l IHl]; intros j Hj; cbn [tally]; [done |].
    rewrite decide_False by (intros (_ & ? & _); lia). rewrite IHl by lia. done.
  - rewrite Hext, IH. f_equal. destruct (decide (id <> 0 /\ P i id)) as [Hd|Hd].
    + rewrite decide_True; [done |]. destruct Hd. split_and!; [done | lia | done].
    + rewrite decide_False; [done |]. intros (? & _ & ?). by apply Hd.
Qed.
