(* ===== verification/FrontendInv.v ===== *)
(** * The frontend: its invariant and the name space

    What holds of the process between calls, the name space it implements (the entry a
    path resolves to), and what a commit does to both while no other proposer announces
    entries. *)

From stdpp Require Import base gmap strings list numbers.
From Stdlib Require Import Ascii.
From S2P Require Import Prelude CString FusedFs Proto Storage Paxos PaxosThm Metadata.
From S2P Require Import MetadataThm MetadataPath Replica Frontend FrontendCommit.
From S2P Require Import FrontendQuorum.

#[local] Open Scope Z_scope.

(** ** Strings in fixed arrays *)

Lemma no_nul_c_str s : no_nul (c_str s).
Proof. induction s as [|a s IH]; simpl; [done |]. by case_decide. Qed.

Lemma no_nul_take n s : no_nul s -> no_nul (str_take n s).
Proof. revert s. induction n as [|n IH]; intros [|a s]; simpl; try done. intros [? ?]. split; auto. Qed.

Lemma str_ok_strncpy n s : no_nul s -> str_ok (S n) (strncpy n s).
Proof.
  intros Hs. split; [by apply no_nul_take |]. unfold strncpy. rewrite str_length_take. lia.
Qed.

(** ** The storage table *)

Definition node_info_ok (x : storage_node_info) : Prop :=
  u32_ok (Storage.node_id x) /\ no_nul (ip_address x) /\ u32_ok (Storage.port x).

Definition storage_ok (st : storage_interface) : Prop := Forall node_info_ok (nodes st).

Lemma storage_ok_same st st' : same_nodes st st' -> storage_ok st -> storage_ok st'.
Proof. intros [Hn _]. unfold storage_ok. by rewrite Hn. Qed.

Lemma get_node_ok st id x :
  storage_ok st -> storage_interface_get_node st id = Some x -> node_info_ok x /\ Storage.node_id x = id.
Proof.
  intros Hok (i & Hf & Hi)%bind_Some. apply first_idx_Some in Hf as (y & Hy & _ & Hid & _).
  rewrite Hi in Hy. injection Hy as <-. split; [| done]. by eapply Forall_lookup_1.
Qed.

Lemma select_loop_length a fs k ns n next sel :
  (length sel <= k)%nat -> (length (select_loop a fs k ns n next sel).1 <= k)%nat.
Proof.
  revert next sel. induction a as [|a IH]; intros next sel Hl; [done |]. simpl.
  case_decide; [| done]. apply IH. case_decide; [rewrite length_app; simpl; lia | done].
Qed.

Lemma select_result fs k st num sel st' :
  storage_interface_select_nodes fs k st = (num, sel, st') -> k <> O ->
  same_nodes st st' /\ num = Z.of_nat (length sel) /\ (length sel <= k)%nat.
Proof.
  unfold storage_interface_select_nodes. intros Hs Hk. rewrite decide_False in Hs by done.
  pose proof (select_loop_length (num_nodes st * 2) fs k (nodes st) (num_nodes st) (next_node_idx st) []) as Hl.
  destruct (select_loop _ _ _ _ _ _ _) as [sel0 next]. injection Hs as <- <- <-.
  split_and!; [done | done | apply Hl; simpl; lia].
Qed.

(** ** Proposed entries are well-formed *)

Definition env_ok (env : fe_env) : Prop :=
  u32_ok (fe_uid env) /\ u32_ok (fe_gid env) /\ time_ok (fe_time env) /\
  Forall event_ok (fe_schedule env) /\ undisturbed (fe_schedule env).

(** Projects fields out of an entry written as a record, and nothing else. *)
Ltac fields := cbn [file_id path state size mode uid gid created_time modified_time accessed_time
  storage_nodes storage_node_ips storage_node_ports num_storage_nodes primary_node_idx version
  stripe_size num_replicas zero_entry] in *.

Lemma u32_ok_0 : u32_ok 0.
Proof. unfold u32_ok. lia. Qed.

Lemma proposed_typed env p md :
  u32_ok (fe_uid env) -> u32_ok (fe_gid env) -> time_ok (fe_time env) -> u32_ok md ->
  entry_ok (proposed env p md).
Proof.
  intros Hu Hg Ht Hm. pose proof u32_ok_0. unfold proposed. split; fields.
  - apply (str_ok_strncpy 63), no_nul_c_str.
  - apply (str_ok_strncpy 4095), no_nul_c_str.
  - rewrite !list.Forall_cons. unfold u32_ok, FILE_STATE_ACTIVE in *. split_and!; (lia || constructor).
  - rewrite !list.Forall_cons. unfold u64_ok. split_and!; (lia || constructor).
  - rewrite !list.Forall_cons. split_and!; (done || constructor).
  - split; [done |]. by apply Forall_replicate.
  - split; [done |]. apply Forall_replicate. split; simpl; [done | lia].
  - split; [done |]. by apply Forall_replicate.
Qed.

Lemma proposed_ok env p md : env_ok env -> u32_ok md -> entry_ok (proposed env p md).
Proof. intros (Hu & Hg & Ht & _) Hm. by apply proposed_typed. Qed.

Lemma set_replica_ok i id ip prt e :
  entry_ok e -> u32_ok id -> no_nul ip -> u32_ok prt -> entry_ok (set_replica i id ip prt e).
Proof.
  intros [? ? ? ? ? [Hn1 Hn2] [Hi1 Hi2] [Hp1 Hp2]] Hid Hip Hprt. unfold set_replica.
  split; fields; try done; (split; [by rewrite length_insert | apply Forall_insert; try done]).
  by apply (str_ok_strncpy 63).
Qed.

Lemma assign_nodes_ok st i sel e :
  storage_ok st -> entry_ok e -> entry_ok (assign_nodes st i sel e).
Proof.
  intros Hst. revert i e. induction sel as [|id sel IH]; intros i e He; [done |].
  cbn [assign_nodes]. case_decide; [| done]. apply IH.
  destruct (storage_interface_get_node st id) as [x|] eqn:Hx; [| done].
  destruct (get_node_ok _ _ _ Hst Hx) as [(? & ? & ?) <-]. by apply set_replica_ok.
Qed.

(** The fields node assignment leaves alone. *)
Lemma assign_nodes_frame st i sel e :
  let e' := assign_nodes st i sel e in
  file_id e' = file_id e /\ path e' = path e /\ state e' = state e /\ size e' = size e /\ mode e' = mode e.
Proof.
  revert i e. induction sel as [|id sel IH]; intros i e; [done |]. cbn [assign_nodes].
  case_decide; [| done]. cbv zeta in IH |- *.
  destruct (storage_interface_get_node st id) as [x|]; [| apply IH].
  destruct (IH (S i) (set_replica i id (ip_address x) (Storage.port x) e)) as (-> & -> & -> & -> & ->). done.
Qed.

Lemma set_counts_ok n e : entry_ok e -> u32_ok n -> entry_ok (set_counts n e).
Proof.
  intros [? ? Hu ? ? ? ? ?] Hn. pose proof u32_ok_0. split; try done.
  rewrite !list.Forall_cons in Hu |- *. unfold set_counts. fields. naive_solver.
Qed.

Lemma bump_ok t e : entry_ok e -> time_ok t -> entry_ok (bump t e).
Proof.
  intros [? ? ? Hu Ht ? ? ?] Htime. split; try done.
  - rewrite !list.Forall_cons in Hu |- *. unfold bump. fields. destruct Hu as (? & _ & ? & ?).
    split_and!; try done; apply Z.mod_pos_bound; lia.
  - rewrite !list.Forall_cons in Ht |- *. unfold bump. fields. naive_solver.
Qed.

Lemma tombstone_ok t e : entry_ok e -> time_ok t -> entry_ok (tombstone t e).
Proof.
  intros He Ht. apply bump_ok; [| done]. destruct He as [? ? Hu ? ? ? ? ?]. split; try done.
  rewrite !list.Forall_cons in Hu |- *. unfold set_state, u32_ok, FILE_STATE_DELETED in *. fields. naive_solver lia.
Qed.

Lemma grown_ok t off len e : entry_ok e -> time_ok t -> entry_ok (grown t off len e).
Proof.
  intros He Ht. apply bump_ok; [| done]. case_decide; [| done]. destruct He as [? ? ? Hu ? ? ? ?]. split; try done.
  rewrite !list.Forall_cons in Hu |- *. unfold set_size. fields. destruct Hu as (_ & ? & ? & ?).
  split_and!; try done; apply Z.mod_pos_bound; lia.
Qed.

(** ** The invariant *)

Definition live (e : metadata_entry) : Prop := state e <> FILE_STATE_DELETED.

Record fe_inv (s : frontend) : Prop := {
  inv_ok : frontend_ok s;
  inv_entries : forall id e, view s id = Some e -> entry_ok e;
  inv_paths : forall id id' e e', view s id = Some e -> view s id' = Some e' ->
    live e -> live e' -> path e = path e' -> id = id';
  inv_storage : storage_ok (g_storage s);
}.

Lemma view_id s id e : fe_inv s -> view s id = Some e -> file_id e = id.
Proof. intros Hs. apply entry_at_id, map_mgr_ok, fok_map, inv_ok, Hs. Qed.

(** ** The name space *)

(** The entry a path resolves to. *)
Definition resolve (s : frontend) (p : string) : option metadata_entry :=
  a ← metadata_lookup_by_path (g_metadata s) p; Some (deref (g_metadata s) a).

Lemma resolve_spec s p e :
  fe_inv s -> resolve s p = Some e <-> view s (file_id e) = Some e /\ path e = p /\ live e.
Proof.
  intros Hs. unfold resolve. pose proof (by_path_spec (g_metadata s) p (fok_map _ (inv_ok _ Hs))) as Hp.
  split.
  - intros (a & Ha & [= <-])%bind_Some. rewrite Ha in Hp. by destruct Hp as (? & ? & ?).
  - intros (Hv & <- & Hl). destruct (metadata_lookup_by_path _ _) as [a|]; [| by apply Hp in Hv].
    destruct Hp as (Hpath & Hst & Ha). cbn [mbind option_bind]. f_equal.
    pose proof (inv_paths _ Hs _ _ _ _ Hv Ha Hl Hst (eq_sym Hpath)) as Hid.
    unfold view in Hv. rewrite Hid, Ha in Hv. congruence.
Qed.

Lemma resolve_None s p id e :
  fe_inv s -> resolve s p = None -> view s id = Some e -> path e = p -> ~ live e.
Proof.
  intros Hs Hr Hv Hp Hl. pose proof (view_id _ _ _ Hs Hv) as Hid. subst id.
  assert (resolve s p = Some e) by (by apply resolve_spec). congruence.
Qed.

Lemma live_entry_resolve s p : live_entry (g_metadata s) p = resolve s (c_str p).
Proof.
  unfold live_entry, resolve. destruct (metadata_lookup_by_path _ _) as [a|] eqn:Ha; [| done]. simpl.
  apply by_path_Some in Ha as (_ & ? & _). by rewrite decide_False.
Qed.

(** The name space with [p] rebound to [v]. *)
Definition rebinds (s s' : frontend) (p : string) (v : option metadata_entry) : Prop :=
  forall q, resolve s' q = if decide (q = p) then v else resolve s q.

Definition unchanged (s s' : frontend) : Prop := forall q, resolve s' q = resolve s q.

Lemma option_ext {A} (x y : option A) : (forall a, x = Some a <-> y = Some a) -> x = y.
Proof. destruct x, y; naive_solver. Qed.

Lemma view_unchanged s s' :
  fe_inv s -> fe_inv s' -> (forall id, view s' id = view s id) -> unchanged s s'.
Proof.
  intros Hs Hs' Hv q. apply option_ext. intros e. rewrite !resolve_spec by done. by rewrite Hv.
Qed.

(** [e] replaces the only live entry with its path, if there is one. *)
Definition owns_path (s : frontend) (e : metadata_entry) : Prop :=
  (forall id e', view s id = Some e' -> live e' -> path e' = path e -> id = file_id e) /\
  (forall e0, view s (file_id e) = Some e0 -> path e0 = path e).

Lemma insert_inv s s' e :
  fe_inv s -> frontend_ok s' -> g_storage s' = g_storage s -> entry_ok e -> owns_path s e ->
  (forall id, view s' id = if decide (id = file_id e) then Some e else view s id) ->
  fe_inv s' /\ rebinds s s' (path e) (if decide (live e) then Some e else None).
Proof.
  intros Hs Hok Hst He [Hown Hold] Hv.
  assert (Hs' : fe_inv s').
  { split; [done | | | by rewrite Hst; apply Hs].
    - intros id x. rewrite Hv. case_decide; [by intros [= <-] | apply Hs].
    - intros id id' x x'. rewrite !Hv. do 2 case_decide; intros; simplify_eq; try done.
      + symmetry. by eapply Hown; [| | symmetry].
      + by eapply Hown.
      + by eapply (inv_paths _ Hs). }
  split; [done |]. intros q. apply option_ext. intros x. rewrite resolve_spec, Hv by done.
  destruct (decide (q = path e)) as [->|Hq].
  - split.
    + intros (Hx & Hp & Hl). destruct (decide (file_id x = file_id e)) as [Hid|Hid].
      * injection Hx as <-. by rewrite decide_True.
      * by destruct Hid; eapply Hown.
    + case_decide as Hl; [| done]. intros [= <-]. by rewrite decide_True.
  - rewrite resolve_spec by done. destruct (decide (file_id x = file_id e)) as [Hid|Hid]; [| done].
    split.
    + intros (Hx & Hp & _). simplify_eq.
    + intros (Hx & Hp & _). destruct Hq. rewrite <- Hp. apply Hold. by rewrite <- Hid.
Qed.

(** A commit either rebinds the path or, reporting failure, changes nothing. *)
Lemma commit_inv env e s b s' :
  fe_inv s -> env_ok env -> entry_ok e -> owns_path s e ->
  commit_metadata_with_paxos env e s = Some (b, s') ->
  fe_inv s' /\ g_storage s' = g_storage s /\
  (rebinds s s' (path e) (if decide (live e) then Some e else None) \/ b = false /\ unchanged s s') /\
  (1 + acceptances (fe_schedule env) < quorum_size (g_paxos s) -> b = false /\ unchanged s s').
Proof.
  intros Hs (_ & _ & _ & Hev & Hun) He Hown Hc.
  destruct (commit_alone _ _ _ _ _ He (inv_ok _ Hs) Hev Hun Hc) as (Hok & Hst & Hcase & Hshort).
  assert (Hb : 1 + acceptances (fe_schedule env) < quorum_size (g_paxos s) -> b = false).
  { intros Hlt. destruct (commit_ok _ _ _ _ _ He (inv_ok _ Hs) Hev Hc) as (_ & _ & _ & l & _ & _ & _ & Hno).
    by apply Hno. }
  assert (Hsame : (forall id, view s' id = view s id) -> fe_inv s' /\ unchanged s s').
  { intros Hv. assert (fe_inv s'); [| split; [done | by apply view_unchanged]].
    split; [done | | | by rewrite Hst; apply Hs].
    - intros id x. rewrite Hv. apply Hs.
    - intros id id' x x'. rewrite !Hv. apply Hs. }
  destruct Hcase as [Hv|[-> Hv]].
  - destruct (insert_inv _ _ _ Hs Hok Hst He Hown Hv) as [Hs' Hr]. split_and!; [done | done | by left |].
    intros Hlt. split; [by apply Hb | by apply Hsame, Hshort].
  - destruct (Hsame Hv). split_and!; [done | done | by right |]. intros Hlt. by split.
Qed.

Lemma storage_inv s st :
  fe_inv s -> same_nodes (g_storage s) st -> fe_inv (MkFrontend (g_paxos s) (g_metadata s) st).
Proof.
  intros [[? ?] ? ? ?] Hst. split; [by split | done | done |]. by eapply storage_ok_same.
Qed.

(** Updates of a resolved entry own its path. *)
Lemma resolved_owns s p e e' :
  fe_inv s -> resolve s p = Some e -> file_id e' = file_id e -> path e' = path e -> owns_path s e'.
Proof.
  intros Hs (Hv & Hp & Hl)%resolve_spec Hid Hpath; [| done]. split.
  - intros id x Hx Hlx Hpx. rewrite Hid. eapply (inv_paths _ Hs); try done. congruence.
  - intros e0. rewrite Hid, Hv. intros [= <-]. congruence.
Qed.

(** So does a new entry at a path that does not resolve. *)
Lemma fresh_owns s e :
  fe_inv s -> view s (file_id e) = None -> resolve s (path e) = None -> owns_path s e.
Proof.
  intros Hs Hf Hr. split; [| congruence]. intros id x Hx Hl Hp. by eapply resolve_None in Hr.
Qed.
