(* ===== verification/FrontendThm.v ===== *)
(** * The frontend: what the handlers do to the name space

    Each handler that changes names, on every branch, as an operation on the map from
    paths to entries; the invariant is kept by all of them. *)

From stdpp Require Import base gmap strings list numbers.
From Stdlib Require Import Ascii.
From S2P Require Import Prelude CString FusedFs Proto Storage StorageThm Paxos.
From S2P Require Import PaxosThm Metadata MetadataThm MetadataPath Replica Frontend.
From S2P Require Import FrontendCommit FrontendPath FrontendQuorum FrontendInv.

#[local] Open Scope Z_scope.

(** ** Commit and answer *)

(** The acceptances that arrive, with the node's own, make a quorum. *)
Definition quorum_arrives (env : fe_env) (s : frontend) : Prop :=
  quorum_size (g_paxos s) <= 1 + acceptances (fe_schedule env).

(** Committing [e] was attempted: on success its path is rebound, on failure nothing
    changed unless a quorum of acceptances did arrive. *)
Definition committed_as (env : fe_env) (s s' : frontend) (code : Z) (e : metadata_entry) : Prop :=
  let v := if decide (live e) then Some e else None in
  code = 0 /\ rebinds s s' (path e) v \/
  code = - EIO /\ (unchanged s s' \/ quorum_arrives env s /\ rebinds s s' (path e) v).

Lemma commit_as env e s b s' :
  fe_inv s -> env_ok env -> entry_ok e -> owns_path s e ->
  commit_metadata_with_paxos env e s = Some (b, s') ->
  fe_inv s' /\ g_storage s' = g_storage s /\ committed_as env s s' (if b then 0 else - EIO) e.
Proof.
  intros Hs Henv He Hown Hc. destruct (commit_inv _ _ _ _ _ Hs Henv He Hown Hc) as (? & ? & Hcase & Hshort).
  split_and!; [done | done |]. unfold committed_as, quorum_arrives.
  destruct (decide (quorum_size (g_paxos s) <= 1 + acceptances (fe_schedule env))) as [Hq|Hq].
  - destruct b; [left | right]; (split; [done |]); naive_solver.
  - destruct Hshort as [-> ?]; [lia |]. right. split; [done | by left].
Qed.

Lemma answer_as env e s resp s' :
  fe_inv s -> env_ok env -> entry_ok e -> owns_path s e ->
  commit_and_answer env e s = Some (resp, s') ->
  fe_inv s' /\ g_storage s' = g_storage s /\ committed_as env s s' (status_code resp) e.
Proof.
  intros Hs Henv He Hown ([b s1] & Hc & Ha)%bind_Some.
  destruct (commit_as _ _ _ _ _ Hs Henv He Hown Hc) as (? & ? & ?).
  destruct b; injection Ha as <- <-; done.
Qed.

Lemma unchanged_storage s st : unchanged s (MkFrontend (g_paxos s) (g_metadata s) st).
Proof. by intros q. Qed.

(** Changing the storage interface first makes no difference. *)
Lemma committed_storage env s st s' code e :
  committed_as env (MkFrontend (g_paxos s) (g_metadata s) st) s' code e -> committed_as env s s' code e.
Proof. done. Qed.

(** ** Making names *)

(** [d] is the root or resolves to a directory. *)
Definition is_dir (s : frontend) (d : string) : Prop :=
  d = "/"%string \/ exists e, resolve s (c_str d) = Some e /\ S_ISDIR (mode e) = true.

Lemma existing_directory_spec s d :
  canonical d -> path_is_existing_directory (g_metadata s) d = true <-> is_dir s d.
Proof.
  intros Hd. unfold path_is_existing_directory, is_dir. rewrite canonical_both by done.
  case_decide as Hroot; [by split; [left |] |]. unfold resolve.
  destruct (metadata_lookup_by_path _ _) as [a|] eqn:Ha; simpl.
  - apply by_path_Some in Ha as (_ & Hst & _). rewrite bool_decide_eq_true_2 by done. simpl. naive_solver.
  - naive_solver.
Qed.

(** The path [Create] and [Mkdir] are to make, as a C string. *)
Definition new_path (pathname name : string) : string :=
  c_str (join_path (trim_trailing_slash (normalize_path pathname)) name).

Definition parent_of (pathname : string) : string := trim_trailing_slash (normalize_path pathname).

(** Which error the checks report. *)
Definition refused (s : frontend) (pathname name : string) (code : Z) : Prop :=
  code = - EINVAL /\ is_valid_name_component name = false \/
  code = - ENOENT /\ is_valid_name_component name = true /\ ~ is_dir s (parent_of pathname) \/
  code = - EEXIST /\ is_valid_name_component name = true /\ is_dir s (parent_of pathname) /\
    is_Some (resolve s (new_path pathname name)).

Definition admitted (s : frontend) (pathname name : string) : Prop :=
  is_valid_name_component name = true /\ is_dir s (parent_of pathname) /\
  resolve s (new_path pathname name) = None.

Lemma check_new_spec m1 m2 pathname name s :
  match check_new m1 m2 pathname name (g_metadata s) with
  | inl resp => refused s pathname name (status_code resp)
  | inr p => c_str p = new_path pathname name /\ admitted s pathname name
  end.
Proof.
  unfold check_new, refused, admitted. fold (parent_of pathname).
  destruct (is_valid_name_component name); cbn [negb]; [| by left].
  pose proof (existing_directory_spec s (parent_of pathname) (normal_canonical _)) as Hdir.
  destruct (path_is_existing_directory _ _); cbn [negb].
  2:{ right. left. split_and!; [done | done |]. intros Hx%Hdir. discriminate. }
  rewrite live_entry_resolve. unfold new_path. fold (parent_of pathname).
  destruct (resolve s _) eqn:Hr.
  - right. right. split_and!; [done | done | by apply Hdir | eauto].
  - split_and!; [done | done | by apply Hdir | done].
Qed.

(** A new name: refused by the checks, or committed with an entry that satisfies [K]. *)
Definition makes (env : fe_env) (s s' : frontend) (pathname name : string) (code : Z)
    (K : metadata_entry -> Prop) : Prop :=
  refused s pathname name code /\ s' = s \/
  admitted s pathname name /\
  exists e, path e = new_path pathname name /\ live e /\ K e /\ committed_as env s s' code e.

(** The identifier drawn for the new entry is not in use. *)
Definition fresh_id (env : fe_env) (s : frontend) : Prop :=
  view s (strncpy 63 (c_str (fe_uuid env))) = None.

Lemma proposed_path env p md :
  (String.length (c_str p) < MAX_PATH_LENGTH)%nat -> path (proposed env p md) = c_str p.
Proof. intros Hl. apply str_take_ge. unfold MAX_PATH_LENGTH in *. lia. Qed.

Lemma lor_u32 a b : u32_ok a -> u32_ok b -> u32_ok (Z.lor a b).
Proof.
  unfold u32_ok. intros [Ha1 Ha2] [Hb1 Hb2].
  assert (Hnn : 0 <= Z.lor a b) by (by apply Z.lor_nonneg). split; [done |].
  destruct (decide (Z.lor a b = 0)) as [->|]; [lia |]. apply Z.log2_lt_pow2; [lia |].
  rewrite Z.log2_lor by done.
  apply Z.max_lub_lt; (destruct (decide (0 < a)), (decide (0 < b)));
    (by apply Z.log2_lt_pow2) || (by replace a with 0 by lia) || (by replace b with 0 by lia).
Qed.

(** ** The replicas of a new file *)

Lemma assign_nodes_ids st i sel e :
  (forall id, id ∈ sel -> is_Some (storage_interface_get_node st id)) ->
  (i + length sel <= MAX_STORAGE_NODES)%nat -> length (storage_nodes e) = MAX_STORAGE_NODES ->
  storage_nodes (assign_nodes st i sel e) =
  take i (storage_nodes e) ++ sel ++ drop (i + length sel) (storage_nodes e).
Proof.
  revert i e. induction sel as [|id sel IH]; intros i e Hget Hl He; cbn [assign_nodes length app] in *.
  { by rewrite Nat.add_0_r, take_drop. }
  rewrite decide_True by lia. destruct (Hget id) as [x ->]; [constructor |].
  rewrite IH; [| intros; apply Hget; by constructor | lia | by unfold set_replica; fields; rewrite length_insert].
  unfold set_replica. fields. rewrite (take_S_r _ _ id) by (apply list_lookup_insert_eq; lia).
  rewrite take_insert_ge, drop_insert_lt by lia. rewrite <- (assoc app).
  by replace (S i + length sel)%nat with (i + S (length sel))%nat by lia.
Qed.

Lemma selected_registered fs k st num sel st' id :
  storage_interface_select_nodes fs k st = (num, sel, st') -> k <> O -> id ∈ sel ->
  NoDup sel /\ is_Some (storage_interface_get_node st' id).
Proof.
  intros Hsel Hk Hid. destruct (select_result _ _ _ _ _ _ Hsel Hk) as (Hs & _ & _).
  rewrite (same_nodes_get _ _ id Hs). revert Hsel. unfold storage_interface_select_nodes.
  rewrite decide_False by done. destruct (decide (num_nodes st = O)) as [Hn|Hn].
  { rewrite Hn. intros [= _ <- _]. by apply elem_of_nil in Hid. }
  pose proof (select_loop_ok fs k (nodes st) (num_nodes st) ltac:(lia) (num_nodes st * 2)
    (next_node_idx st) []) as Hok.
  destruct (select_loop _ _ _ _ _ _ _) as [sel0 next]. intros [= _ <- _].
  destruct Hok as (Hnd & _ & Hall); [split_and!; [constructor | simpl; lia | by intros ? ?%elem_of_nil] |].
  split; [done |]. destruct (Hall id Hid) as (j & Hj & [Hon _] & <-).
  destruct (nodes st !! j) as [x|] eqn:Hx.
  2:{ rewrite list_lookup_total_alt, Hx in Hon. discriminate. }
  rewrite (list_lookup_total_correct _ _ _ Hx). unfold storage_interface_get_node, Storage.find_node.
  destruct (first_idx _ _ _) as [m|] eqn:Hm.
  - apply first_idx_Some in Hm as (y & Hy & _). simpl. rewrite Hy. eauto.
  - by eapply first_idx_None in Hm.
Qed.

(** An empty file on [sel] distinct registered storage nodes, at most three. *)
Definition new_file (md : Z) (e : metadata_entry) : Prop :=
  mode e = Z.lor S_IFREG md /\ size e = 0 /\
  exists sel, replica_ids e = Some sel /\ NoDup sel /\ (1 <= length sel <= MAX_REPLICAS)%nat.

Definition new_dir (md : Z) (e : metadata_entry) : Prop :=
  mode e = Z.lor S_IFDIR md /\ num_storage_nodes e = 0.

Lemma create_locked_spec env p md s resp s' :
  fe_inv s -> env_ok env -> u32_ok md -> fresh_id env s ->
  (String.length (c_str p) < MAX_PATH_LENGTH)%nat -> resolve s (c_str p) = None ->
  create_locked env p md s = Some (resp, s') ->
  fe_inv s' /\
  (status_code resp = - ENODEV /\ unchanged s s' \/
   exists e, path e = c_str p /\ live e /\ new_file md e /\ committed_as env s s' (status_code resp) e).
Proof.
  intros Hs Henv Hmd Hfresh Hlen Hres. unfold create_locked.
  destruct (storage_interface_select_nodes 0 MAX_REPLICAS (g_storage s)) as [[num sel] st] eqn:Hsel.
  destruct (select_result _ _ _ _ _ _ Hsel ltac:(done)) as (Hsame & Hnum & Hle).
  pose proof (storage_inv s st Hs Hsame) as Hs1. case_decide as Hpos.
  { intros [= <- <-]. split; [done |]. left. split; [done | apply unchanged_storage]. }
  set (e := set_counts num (assign_nodes st 0 sel (proposed env p (Z.lor S_IFREG md)))).
  destruct (assign_nodes_frame st 0 sel (proposed env p (Z.lor S_IFREG md))) as (Hid & Hpath & Hstate & Hsize & Hmode).
  assert (Hpe : path e = c_str p) by (unfold e, set_counts; fields; by rewrite Hpath, proposed_path).
  assert (He : entry_ok e).
  { apply set_counts_ok; [| unfold u32_ok, MAX_REPLICAS in *; lia].
    apply assign_nodes_ok; [by eapply storage_ok_same; [| apply Hs] |]. apply proposed_ok; [done |].
    apply lor_u32; [unfold u32_ok, S_IFREG; lia | done]. }
  intros Hc. apply answer_as in Hc as (? & _ & Hcm); try done.
  2:{ apply fresh_owns; [done | | by rewrite Hpe].
      unfold e, set_counts. fields. rewrite Hid. exact Hfresh. }
  split; [done |]. right. exists e. split_and!; [done | | | done].
  - unfold live, e, set_counts. fields. by rewrite Hstate.
  - unfold new_file, e, set_counts, replica_ids. fields. split_and!; [done | done |]. exists sel.
    assert (Hids : storage_nodes (assign_nodes st 0 sel (proposed env p (Z.lor S_IFREG md))) =
      sel ++ drop (length sel) (replicate MAX_STORAGE_NODES 0)).
    { apply assign_nodes_ids; [| unfold MAX_STORAGE_NODES, MAX_REPLICAS in *; lia | done].
      intros id Hin. by eapply selected_registered. }
    rewrite Hids, length_app. rewrite decide_True by lia. rewrite Hnum, Nat2Z.id, take_app_length.
    split_and!; [done | | lia | done].
    destruct sel as [|id sel]; [constructor |]. eapply (selected_registered _ _ _ _ _ _ id); [done | done |]. constructor.
Qed.

Lemma create_branches env req s resp s' :
  fe_inv s -> env_ok env -> u32_ok (create_mode req) -> fresh_id env s ->
  (String.length (new_path (create_pathname req) (filename req)) < MAX_PATH_LENGTH)%nat ->
  fe_Create env req s = Some (resp, s') ->
  fe_inv s' /\
  (makes env s s' (create_pathname req) (filename req) (status_code resp) (new_file (create_mode req)) \/
   admitted s (create_pathname req) (filename req) /\ status_code resp = - ENODEV /\ unchanged s s').
Proof.
  intros Hs Henv Hmd Hfresh Hlen. unfold fe_Create.
  pose proof (check_new_spec "Invalid filename" "File already exists" (create_pathname req) (filename req) s) as Hck.
  destruct (check_new _ _ _ _ _) as [r|p].
  - intros [= <- <-]. split; [done |]. left. by left.
  - destruct Hck as [Hp Had]. rewrite <- Hp in Hlen. intros Hc.
    apply create_locked_spec in Hc as (? & Hcase); try done; [| rewrite Hp; apply Had].
    split; [done |]. destruct Hcase as [?|(e & Hpe & Hl & Hnew & Hcm)]; [by right |].
    left. right. split; [done |]. exists e. by rewrite Hpe.
Qed.

(** C9: creating a file. The checks refuse an invalid name, a parent that is no directory
    and a path that resolves, changing nothing; without a storage node the answer is
    ENODEV and no name changes. Otherwise an empty file on one to three distinct
    registered nodes is committed at the path: success means that the path resolves to it
    and every other path resolves as before, failure that nothing changed unless a quorum
    of acceptances arrived. The path fits its array, the new identifier is not in use and
    no other proposer's entry arrives during the call. *)
Theorem frontend_create_refines env req s resp s' :
  fe_inv s -> env_ok env -> u32_ok (create_mode req) -> fresh_id env s ->
  (String.length (new_path (create_pathname req) (filename req)) < MAX_PATH_LENGTH)%nat ->
  fe_Create env req s = Some (resp, s') ->
  fe_inv s' /\
  (makes env s s' (create_pathname req) (filename req) (status_code resp) (new_file (create_mode req)) \/
   admitted s (create_pathname req) (filename req) /\ status_code resp = - ENODEV /\ unchanged s s').
Proof. apply create_branches. Qed.

Lemma mkdir_branches env req s resp s' :
  fe_inv s -> env_ok env -> u32_ok (mkdir_mode req) -> fresh_id env s ->
  (String.length (new_path (mkdir_pathname req) (dirname req)) < MAX_PATH_LENGTH)%nat ->
  fe_Mkdir env req s = Some (resp, s') ->
  fe_inv s' /\
  makes env s s' (mkdir_pathname req) (dirname req) (status_code resp) (new_dir (mkdir_mode req)).
Proof.
  intros Hs Henv Hmd Hfresh Hlen. unfold fe_Mkdir.
  pose proof (check_new_spec "Invalid directory name" "Directory already exists"
    (mkdir_pathname req) (dirname req) s) as Hck.
  destruct (check_new _ _ _ _ _) as [r|p]; [intros [= <- <-]; split; [done | by left] |].
  destruct Hck as [Hp Had]. rewrite <- Hp in Hlen. intros Hc.
  pose proof (proposed_path env p (Z.lor S_IFDIR (mkdir_mode req)) Hlen) as Hpe.
  apply answer_as in Hc as (? & _ & Hcm); try done.
  - split; [done |]. right. split; [done |]. eexists. split_and!; [| | | exact Hcm]; [by rewrite Hpe | done | done].
  - apply proposed_ok; [done |]. apply lor_u32; [unfold u32_ok, S_IFDIR; lia | done].
  - apply fresh_owns; [done | exact Hfresh |]. rewrite Hpe, Hp. apply Had.
Qed.

(** Creating a directory, as for files; a directory has no replicas. *)
Theorem frontend_mkdir_refines env req s resp s' :
  fe_inv s -> env_ok env -> u32_ok (mkdir_mode req) -> fresh_id env s ->
  (String.length (new_path (mkdir_pathname req) (dirname req)) < MAX_PATH_LENGTH)%nat ->
  fe_Mkdir env req s = Some (resp, s') ->
  fe_inv s' /\
  makes env s s' (mkdir_pathname req) (dirname req) (status_code resp) (new_dir (mkdir_mode req)).
Proof. apply mkdir_branches. Qed.

(** ** Removing names *)

Lemma replica_ids_len e ids :
  entry_ok e -> replica_ids e = Some ids ->
  Z.of_nat (length ids) = num_storage_nodes e /\ Z.of_nat (length ids) < 2 ^ 32.
Proof.
  intros He. unfold replica_ids. case_decide as Hn; [| done]. intros [= <-].
  destruct (eok_nodes e He) as [Hl _]. pose proof (eok_u32 e He) as Hu.
  rewrite !list.Forall_cons in Hu. destruct Hu as (_ & _ & _ & _ & [? ?] & _).
  rewrite length_take. lia.
Qed.

Lemma tombstone_dead t e : ~ live (tombstone t e).
Proof. unfold live, tombstone, bump, set_state. fields. tauto. Qed.

(** Unbinding [p], reported as [code]. *)
Definition unbinds (env : fe_env) (s s' : frontend) (p : string) (code : Z) : Prop :=
  code = 0 /\ rebinds s s' p None \/
  code = - EIO /\ (unchanged s s' \/ quorum_arrives env s /\ rebinds s s' p None).

Lemma tombstone_answer env s p e resp s' :
  fe_inv s -> env_ok env -> resolve s p = Some e ->
  commit_and_answer env (tombstone (fe_time env) e) s = Some (resp, s') ->
  fe_inv s' /\ unbinds env s s' p (status_code resp).
Proof.
  intros Hs Henv Hr Hc. pose proof Hr as (Hv & Hp & _)%resolve_spec; [| done].
  apply answer_as in Hc as (? & _ & Hcm); try done.
  - split; [done |]. revert Hcm. unfold committed_as. rewrite decide_False by apply tombstone_dead.
    change (path (tombstone (fe_time env) e)) with (path e). by rewrite Hp.
  - apply tombstone_ok; [by eapply (inv_entries _ Hs) | apply Henv].
  - by eapply resolved_owns.
Qed.

(** The entry [Remove] and [Rmdir] look at. *)
Definition target_of (pathname : string) : string := trim_trailing_slash (normalize_path pathname).

Lemma remove_branches env req s resp s' :
  fe_inv s -> env_ok env -> fe_Remove env req s = Some (resp, s') ->
  let path := target_of (remove_pathname req) in let p := c_str path in
  fe_inv s' /\
  (status_code resp = - EINVAL /\ path = "/"%string /\ s' = s \/
   status_code resp = - ENOENT /\ resolve s p = None /\ s' = s \/
   exists e, resolve s p = Some e /\
     if S_ISDIR (mode e) then status_code resp = - EISDIR /\ s' = s
     else if decide (0 < num_storage_nodes e) then
       exists ids, replica_ids e = Some ids /\
         if decide (quorum_required e <= tally (fun k id => delete_ack (fe_deletes env k) id (g_storage s)) 0 ids)
         then unbinds env s s' p (status_code resp)
         else status_code resp = - EIO /\ unchanged s s'
     else unbinds env s s' p (status_code resp)).
Proof.
  intros Hs Henv Hrun path p. revert Hrun. unfold fe_Remove. fold (target_of (remove_pathname req)). fold path.
  case_decide as Hroot; [intros [= <- <-]; split; [done | by left] |].
  rewrite live_entry_resolve. fold p. destruct (resolve s p) as [e|] eqn:Hr.
  2:{ intros [= <- <-]. split; [done |]. right. by left. }
  destruct (S_ISDIR (mode e)) eqn:Hdir.
  { intros [= <- <-]. split; [done |]. right. right. exists e. by rewrite Hdir. }
  destruct (decide (0 < num_storage_nodes e)) as [Hn|Hn].
  - intros (ids & Hids & Hrun)%bind_Some. pose proof Hr as (Hv & _)%resolve_spec; [| done].
    destruct (replica_ids_len e ids) as [_ Hlen]; [by eapply (inv_entries _ Hs) | done |].
    destruct (delete_replicas _ _ _ _ _ _) as [c st] eqn:Hd.
    destruct (delete_replicas_spec _ _ _ _ _ _ _ _ Hd) as [Hsame Hc]; [lia | lia |]. rewrite Z.add_0_l in Hc.
    pose proof (storage_inv _ _ Hs Hsame) as Hs1. subst c.
    destruct (decide (_ < quorum_required e)) as [Hq|Hq].
    + injection Hrun as <- <-. split; [done |]. right. right. exists e. split; [done |].
      rewrite Hdir, decide_True by done. exists ids. rewrite decide_False by lia. split; [done |].
      split; [done | apply unchanged_storage].
    + apply (tombstone_answer _ _ p) in Hrun as [? Hun]; try done. split; [done |]. right. right.
      exists e. split; [done |]. rewrite Hdir, decide_True by done. exists ids.
      rewrite decide_True by lia. done.
  - intros Hrun. apply (tombstone_answer _ _ p) in Hrun as [? Hun]; try done. split; [done |].
    right. right. exists e. by rewrite Hdir, decide_False.
Qed.

(** C11: removing a file. The root, a path that does not resolve and a directory are
    refused. The replicas are asked to delete; short of a majority of them the answer is
    EIO and no name changes. Otherwise the entry is committed as deleted: on success the
    path no longer resolves and every other path resolves as before. *)
Theorem frontend_remove_refines env req s resp s' :
  fe_inv s -> env_ok env -> fe_Remove env req s = Some (resp, s') ->
  let path := target_of (remove_pathname req) in let p := c_str path in
  fe_inv s' /\
  (status_code resp = - EINVAL /\ path = "/"%string /\ s' = s \/
   status_code resp = - ENOENT /\ resolve s p = None /\ s' = s \/
   exists e, resolve s p = Some e /\
     if S_ISDIR (mode e) then status_code resp = - EISDIR /\ s' = s
     else if decide (0 < num_storage_nodes e) then
       exists ids, replica_ids e = Some ids /\
         if decide (quorum_required e <= tally (fun k id => delete_ack (fe_deletes env k) id (g_storage s)) 0 ids)
         then unbinds env s s' p (status_code resp)
         else status_code resp = - EIO /\ unchanged s s'
     else unbinds env s s' p (status_code resp)).
Proof. apply remove_branches. Qed.

(** ** Listings *)

(** [e] is listed in directory [d] under [name]. *)
Definition child_of (s : frontend) (d name : string) (e : metadata_entry) : Prop :=
  view s (file_id e) = Some e /\ live e /\
  is_direct_child_path d (trim_trailing_slash (path e)) = Some name.

Lemma child_nodes s d name e :
  fe_inv s ->
  child_of s d name e <->
  exists node, node ∈ concat (buckets (g_metadata s)) /\ deref (g_metadata s) node.2 = e /\
    child_in (g_metadata s) d node = Some name.
Proof.
  intros Hs. pose proof (fok_map _ (inv_ok _ Hs)) as Hok. unfold child_of, child_in, live. split.
  - intros (Hv & Hl & Hc). apply nodes_entries in Hv as (k & a & Hin & <-); [| done].
    exists (k, a). rewrite decide_True by done. done.
  - intros ([k a] & Hin & <- & Hc). simpl in *. case_decide as Hl; [| done].
    split_and!; [| done | done]. apply nodes_entries; [done |]. eauto.
Qed.

Lemma has_children_spec s d :
  fe_inv s -> canonical d ->
  directory_has_children (g_metadata s) d = true <-> exists name e, child_of s d name e.
Proof.
  intros Hs Hd. unfold directory_has_children. rewrite canonical_both, existsb_exists by done. split.
  - intros (node & Hin%list_elem_of_In & [name Hc]%bool_decide_eq_true). exists name, (deref (g_metadata s) node.2).
    apply child_nodes; [done |]. eauto.
  - intros (name & e & (node & Hin & _ & Hc)%child_nodes); [| done]. exists node.
    split; [by apply list_elem_of_In |]. apply bool_decide_eq_true. eauto.
Qed.

Lemma rmdir_branches env req s resp s' :
  fe_inv s -> env_ok env -> fe_Rmdir env req s = Some (resp, s') ->
  let path := target_of (rmdir_pathname req) in let p := c_str path in
  fe_inv s' /\
  (status_code resp = - EINVAL /\ path = "/"%string /\ s' = s \/
   status_code resp = - ENOENT /\ resolve s p = None /\ s' = s \/
   exists e, resolve s p = Some e /\
     (status_code resp = - ENOTDIR /\ S_ISDIR (mode e) = false /\ s' = s \/
      status_code resp = - ENOTEMPTY /\ S_ISDIR (mode e) = true /\ s' = s /\
        (exists name x, child_of s path name x) \/
      S_ISDIR (mode e) = true /\ (forall name x, ~ child_of s path name x) /\
        unbinds env s s' p (status_code resp))).
Proof.
  intros Hs Henv Hrun path p. revert Hrun. unfold fe_Rmdir. fold (target_of (rmdir_pathname req)). fold path.
  case_decide as Hroot; [intros [= <- <-]; split; [done | by left] |].
  rewrite live_entry_resolve. fold p. destruct (resolve s p) as [e|] eqn:Hr.
  2:{ intros [= <- <-]. split; [done |]. right. by left. }
  destruct (S_ISDIR (mode e)) eqn:Hdir; cbn [negb].
  2:{ intros [= <- <-]. split; [done |]. right. right. exists e. split; [done | by left]. }
  pose proof (has_children_spec s path Hs (normal_canonical _)) as Hch.
  destruct (directory_has_children _ _).
  - intros [= <- <-]. split; [done |]. right. right. exists e. split; [done |]. right. left.
    split_and!; try done. by apply Hch.
  - intros Hrun. apply (tombstone_answer _ _ p) in Hrun as [? Hun]; try done. split; [done |].
    right. right. exists e. split; [done |]. right. right. split_and!; [done | | done].
    intros name x Hx. assert (false = true) by (apply Hch; eauto). discriminate.
Qed.

(** C8: removing a directory. The root, a path that does not resolve, a file, and a
    directory with a live entry directly below it are refused; otherwise the entry is
    committed as deleted: on success the path no longer resolves and every other path
    resolves as before; a commit that fails answers EIO. The path has no embedded NUL and
    no other proposer's entry arrives during the call. *)
Theorem frontend_rmdir_refines env req s resp s' :
  fe_inv s -> env_ok env -> fe_Rmdir env req s = Some (resp, s') ->
  let path := target_of (rmdir_pathname req) in let p := c_str path in
  fe_inv s' /\
  (status_code resp = - EINVAL /\ path = "/"%string /\ s' = s \/
   status_code resp = - ENOENT /\ resolve s p = None /\ s' = s \/
   exists e, resolve s p = Some e /\
     (status_code resp = - ENOTDIR /\ S_ISDIR (mode e) = false /\ s' = s \/
      status_code resp = - ENOTEMPTY /\ S_ISDIR (mode e) = true /\ s' = s /\
        (exists name x, child_of s path name x) \/
      S_ISDIR (mode e) = true /\ (forall name x, ~ child_of s path name x) /\
        unbinds env s s' p (status_code resp))).
Proof. apply rmdir_branches. Qed.
