(* ===== verification/FrontendLive.v ===== *)
(** * The frontend: calls that succeed

    Total correctness of the commit and of [Create]: if a quorum answers and nothing fails
    locally, the call returns and reports success, whatever the answers look like and
    however many more of them arrive. *)

From stdpp Require Import base gmap strings list numbers.
From S2P Require Import Prelude CString FusedFs Proto Storage StorageThm Paxos.
From S2P Require Import PaxosThm PaxosLive Metadata MetadataThm MetadataPath Replica.
From S2P Require Import Frontend FrontendCommit FrontendPath FrontendQuorum.
From S2P Require Import FrontendInv FrontendThm.

#[local] Open Scope Z_scope.

(** A message that answers a proposal. *)
Definition is_answer (m : paxos_message) : Prop :=
  phase m = PAXOS_PHASE_PROMISE \/ phase m = PAXOS_PHASE_ACCEPTED.

(** The log takes every record. *)
Definition cb_ok (cb : cb_env) : Prop := cb_alloc cb = true /\ cb_alloc_node cb = true /\ io_ok (cb_io cb).

Lemma answer_rc rc n m : is_answer m -> paxos_handle_message rc n m = paxos_handle_message 0 n m.
Proof. unfold paxos_handle_message. by intros [-> | ->]. Qed.

Section Succeeds.
Context (e : metadata_entry) (v : list Z) (Hv : decode_binding v = Some (file_id e, e)).
Context (cb : cb_env) (Hcb : cb_ok cb).

(** The proposal at [pc], with [j] more records to come before the log numbers run out. *)
Definition running (pc : propose_pc) (n : paxos_node) (g : metadata_manager) (j : Z) : Prop :=
  held v (slot_of pc) n /\ map_ok g /\ 0 <= current_lsn g /\ current_lsn g + j < UINT64_MAX.

Lemma persist_ok g :
  map_ok g -> 0 <= current_lsn g -> current_lsn g + 1 < UINT64_MAX ->
  exists g', persist_wal cb (Some v) (Z.of_nat (length v)) g = Some (0, g') /\
    map_ok g' /\ current_lsn g' = current_lsn g + 1.
Proof.
  intros Hok H0 Hlsn. destruct Hcb as (Ha & _ & Hio).
  apply decode_binding_Some in Hv as (_ & _ & Hne & rc & Hd).
  unfold persist_wal. rewrite decide_False by (destruct v; [done | simpl; lia]).
  rewrite Nat2Z.id, take_ge, Ha, Hd by done.
  assert (Hu : UINT64_MAX = 2 ^ 64 - 1) by reflexivity. destruct Hio as (H1 & H2 & H3 & H4 & _).
  destruct (wal_append (cb_io cb) WAL_OP_UPDATE e g) as [lsn g'] eqn:Hw.
  pose proof (append_same_map _ _ _ _ _ _ Hw) as Hs. revert Hw.
  unfold wal_append. rewrite H1, H2, H3, H4. cbn [negb]. rewrite u64_small by lia.
  intros [<- <-]%pair_equal_spec. rewrite decide_False by lia.
  eexists. split_and!; [done | by eapply same_map_map_ok | done].
Qed.

(** ** Steps of the proposer *)

(** A step makes at most one call that can fail, and it is the persist callback. *)
Lemma step_effects ob pc n pc' n' eff :
  propose_step ob v pc n = (pc', n', eff) ->
  eff = [] \/ (exists m, eff = [Broadcast m]) \/ exists seq, eff = [Persist seq (Some v) (Z.of_nat (length v))].
Proof.
  unfold propose_step. destruct pc; repeat (case_match; try done); intros; simplify_eq; eauto.
Qed.

Lemma run_step ob pc n g j pc' n' eff sched :
  obs_ok ob -> running pc n g (j + 1) -> 0 <= j -> propose_step ob v pc n = (pc', n', eff) ->
  exists g', running pc' n' g' j /\
    propose_with (Step ob cb :: sched) v pc (n, g) = propose_with sched v pc' (n', g').
Proof.
  intros Hob (Hh & Hok & H0 & Hj) Hj0 Hst.
  assert (Hdone : (exists rc0, pc = PDone rc0) \/ forall rc0, pc <> PDone rc0)
    by (destruct pc; [right; discriminate .. | left; eauto]).
  destruct Hdone as [[rc ->]|Hpc].
  { injection Hst as <- <- <-. exists g. split; [split_and!; [done | done | done | lia] |].
    by rewrite !propose_done. }
  destruct (persist_ok g Hok H0) as (g1 & Hp & Hok1 & Hl1); [lia |].
  assert (Hun : propose_with (Step ob cb :: sched) v pc (n, g) =
    g2 ← run_effects (M := metadata_machine) cb eff g; propose_with sched v pc' (n', g2)).
  { assert (Hob' : MkObs (malloc_ok ob) 0 (broadcast_rc ob) (woken ob) = ob)
      by (destruct ob; destruct Hob as (_ & Hrc & _); simpl in *; by subst).
    destruct pc; try (by edestruct Hpc); cbn [propose_with]; cbn [fst snd]; rewrite Hp, Hob', Hst; done. }
  assert (Heff : exists g2, run_effects (M := metadata_machine) cb eff g = Some g2 /\
    0 <= current_lsn g2 /\ current_lsn g2 + j < UINT64_MAX).
  { destruct (step_effects _ _ _ _ _ _ Hst) as [->|[[m ->]|[seq ->]]].
    - exists g. split_and!; [done | done | lia].
    - exists g. split_and!; [done | done | lia].
    - exists g1. cbn [run_effects sm_persist metadata_machine]. rewrite Hp. split_and!; [done | lia | lia]. }
  destruct Heff as (g2 & Hr & Hl2 & Hj2). exists g2. rewrite Hun, Hr. cbn [mbind option_bind]. split; [| done].
  destruct (own_step v _ _ _ _ _ _ _ _ _ Hpc Hh Hok Hst Hr) as ((Hh' & Hok' & _) & _). by split_and!.
Qed.

Lemma run_steps k ob pc n g j pc' n' eff sched :
  obs_ok ob -> running pc n g (Z.of_nat k + j) -> 0 <= j -> propose_run k ob v pc n = (pc', n', eff) ->
  exists g', running pc' n' g' j /\
    propose_with (replicate k (Step ob cb) ++ sched) v pc (n, g) = propose_with sched v pc' (n', g').
Proof.
  intros Hob. revert pc n g eff. induction k as [|k IH]; intros pc n g eff Hrun Hj; cbn [propose_run].
  { intros [= <- <- <-]. exists g. split; [done | done]. }
  destruct (propose_step ob v pc n) as [[pc1 n1] e1] eqn:Hst.
  destruct (propose_run k ob v pc1 n1) as [[pc2 n2] e2] eqn:Hr. intros [= <- <- <-].
  replace (Z.of_nat (S k) + j) with (Z.of_nat k + j + 1) in Hrun by lia.
  destruct (run_step ob pc n g (Z.of_nat k + j) pc1 n1 e1 (replicate k (Step ob cb) ++ sched))
    as (g1 & Hrun1 & Heq); [done | done | lia | done |].
  destruct (IH pc1 n1 g1 e2 Hrun1 Hj Hr) as (g2 & ? & ?). exists g2. split; [done |].
  cbn [replicate app]. congruence.
Qed.

(** ** Answers *)

Lemma run_answer pc n g j m sched :
  (forall rc0, pc <> PDone rc0) -> running pc n g j -> is_answer m ->
  exists g', running pc (paxos_handle_message 0 n m).1.2 g' j /\
    propose_with (Msg cb m :: sched) v pc (n, g) =
    propose_with sched v pc ((paxos_handle_message 0 n m).1.2, g').
Proof.
  intros Hpc (Hh & Hok & H0 & Hj) Hm. pose proof Hcb as (Hc1 & Hc2 & _).
  assert (Heff : exists g1, run_effects (M := metadata_machine) cb (paxos_handle_message 0 n m).2 g = Some g1 /\
    current_lsn g1 = current_lsn g).
  { unfold paxos_handle_message. destruct Hm as [-> | ->]; cbn.
    - unfold handle_promise. destruct (find_proposal n _); eauto.
    - change (exists g1, run_effects (M := metadata_machine) cb (handle_accepted n m).2 g = Some g1 /\
        current_lsn g1 = current_lsn g).
      unfold handle_accepted. destruct (find_proposal n _) as [k|] eqn:Hk; [| eauto].
      destruct (paxos_check_quorum _ _); [| eauto]. cbn [snd].
      destruct (find_held v _ _ _ _ Hh Hk) as [Ho Hlk]. pose proof (held_slot _ _ _ Hh k Ho) as (_ & Hpv & Hpl & _).
      rewrite (held_apply _ _ _ Hh), slot_upd, decide_True by done. cbn [add_accept p_value p_len].
      rewrite Hpv, Hpl. cbn [app run_effects sm_apply metadata_machine].
      destruct (decode_binding_Some _ _ _ Hv) as (_ & Hlen & Hne & rc & Hd).
      assert (Hap : apply_state_machine cb (Some v) (Z.of_nat (length v)) g =
        Some (metadata_apply_entry true e g).2).
      { unfold apply_state_machine. rewrite decide_False by (destruct v; [done | simpl; lia]).
        by rewrite Nat2Z.id, take_ge, Hc1, Hc2, Hd by done. }
      rewrite Hap. exists (metadata_apply_entry true e g).2. split; [by destruct (broadcast_callback n) |].
      destruct (metadata_apply_entry true e g) as [rc1 g1] eqn:Ha.
      by destruct (apply_refines e g rc1 g1 (map_mgr_ok _ Hok) Hlen Ha) as (_ & _ & _ & ? & _). }
  destruct Heff as (g1 & Hr & Hl).
  assert (Hst : replica_step (M := metadata_machine) cb m (n, g) = Some ((paxos_handle_message 0 n m).1.2, g1)).
  { unfold replica_step. cbn [fst snd]. rewrite answer_rc by done.
    destruct (paxos_handle_message 0 n m) as [[[rc resp] n1] eff]. cbn [fst snd] in *. by rewrite Hr. }
  exists g1. split.
  - destruct (msg_step e v Hv (slot_of pc) cb m n g (paxos_handle_message 0 n m).1.2 g1 Hh Hok) as (l & (Hh1 & Hok1 & _) & _); [| done |].
    + split_and!; [done | done |]. intros Hph. destruct Hm as [Hx|Hx]; rewrite Hx in Hph; discriminate.
    + split_and!; [done | done | lia | lia].
  - destruct pc; try (by edestruct Hpc); cbn [propose_with]; rewrite Hst; done.
Qed.

Lemma run_answers pc n g j ms sched :
  (forall rc0, pc <> PDone rc0) -> running pc n g j -> Forall is_answer ms ->
  exists g', running pc (handle_run 0 ms n).1 g' j /\
    propose_with ((Msg cb <$> ms) ++ sched) v pc (n, g) =
    propose_with sched v pc ((handle_run 0 ms n).1, g').
Proof.
  intros Hpc Hrun Hms. revert n g Hrun. induction Hms as [|m ms Hm _ IH]; intros n g Hrun; [by exists g |].
  destruct (run_answer pc n g j m ((Msg cb <$> ms) ++ sched) Hpc Hrun Hm) as (g1 & Hrun1 & Heq).
  destruct (IH _ _ Hrun1) as (g2 & Hrun2 & Heq2). exists g2.
  destruct (run_cons 0 m ms n) as [-> _]. split; [done |]. cbn [fmap list_fmap app]. congruence.
Qed.

(** ** The whole proposal *)

(** The schedule: the call runs to its first wait, [ms1] arrive, it runs to its second
    wait, [ms2] arrive, it wakes up; [more] may follow. *)
Definition answered_by (ob : observation) (ms1 ms2 : list paxos_message) (more : list commit_event)
  : list commit_event :=
  replicate 4 (Step ob cb) ++ (Msg cb <$> ms1) ++ replicate 6 (Step ob cb) ++ (Msg cb <$> ms2) ++
  Step ob cb :: more.

Lemma propose_returns ob n g ms1 ms2 more :
  let pid := (paxos_next_proposal_id n).1 in
  obs_ok ob -> v <> [] -> idle n -> map_ok g -> broadcast_callback n = true -> (0 < max_proposals n)%nat ->
  1 < quorum_size n -> 0 <= current_lsn g -> current_lsn g + 11 < UINT64_MAX ->
  Forall is_answer ms1 -> Forall is_answer ms2 ->
  Z.of_nat (length ms1) < 2 ^ 31 -> Z.of_nat (length ms2) < 2 ^ 31 -> accepts pid ms1 = 0 ->
  quorum_size n <= 1 + promises pid ms1 -> quorum_size n <= 1 + accepts pid ms2 ->
  exists r, propose_with (answered_by ob ms1 ms2 more) v PStart (n, g) = Some (0, r).
Proof.
  intros pid Hob Hne Hidle Hok Hbc Hmax Hq1 H0 Hlsn Hm1 Hm2 Hl1 Hl2 Ha1 Hp1 Ha2.
  assert (Hfree : exists j p, active_proposals n !! j = Some p /\ in_use p = false).
  { destruct (active_proposals n) as [|p ps] eqn:Hps.
    - pose proof (idle_ok _ Hidle) as Hno. unfold node_ok in Hno. rewrite Hps in Hno. simpl in Hno. lia.
    - exists O, p. split; [done |]. pose proof (idle_free _ Hidle O) as Hf. unfold slot in Hf. by rewrite Hps in Hf. }
  assert (Hfin : finished n pid) by (intros j (_ & Hu & _); by rewrite (idle_free _ Hidle) in Hu).
  pose proof (propose_succeeds ob 0 v n ms1 ms2 Hob Hne (idle_ok _ Hidle) Hbc Hfree Hfin Hq1 Hl1 Hl2 Ha1 Hp1 Ha2) as Hsucc.
  assert (Hrun : running PStart n g (4 + (6 + 1))) by (split_and!; [by apply idle_held | done | done | lia]).
  unfold answered_by. destruct (propose_run 4 ob v PStart n) as [[pc1 n1] e1] eqn:Hr1.
  destruct (run_steps 4 ob PStart n g 7 pc1 n1 e1
    ((Msg cb <$> ms1) ++ replicate 6 (Step ob cb) ++ (Msg cb <$> ms2) ++ Step ob cb :: more))
    as (g1 & Hrun1 & ->); [done | done | lia | done |].
  assert (Hpc1 : exists i, pc1 = PWaitPromise i pid (next_sequence_number n)).
  { destruct (propose_to_promise ob v n Hob Hne (idle_ok _ Hidle) Hbc Hfree Hfin) as (i & n1' & Hr1' & _).
    rewrite Hr1 in Hr1'. injection Hr1' as -> _ _. by exists i. }
  destruct Hpc1 as [i ->].
  destruct (run_answers (PWaitPromise i pid (next_sequence_number n)) n1 g1 7 ms1
    (replicate 6 (Step ob cb) ++ (Msg cb <$> ms2) ++ Step ob cb :: more)) as (g2 & Hrun2 & ->); [done | done | done |].
  destruct (handle_run 0 ms1 n1) as [n2 e2]. cbn [fst] in *.
  destruct (propose_run 6 ob v (PWaitPromise i pid (next_sequence_number n)) n2) as [[pc2 n3] e3] eqn:Hr3.
  destruct (run_steps 6 ob (PWaitPromise i pid (next_sequence_number n)) n2 g2 1 pc2 n3 e3 ((Msg cb <$> ms2) ++ Step ob cb :: more))
    as (g3 & Hrun3 & ->); [done | done | lia | done |].
  destruct (handle_run 0 ms2 n3) as [n4 e4] eqn:Hh4. cbn [fst] in *. destruct Hsucc as [Hsucc _].
  assert (Hdone : (exists rc0, pc2 = PDone rc0) \/ forall rc0, pc2 <> PDone rc0)
    by (destruct pc2; [right; discriminate .. | left; eauto]).
  destruct Hdone as [[rc0 ->]|Hnd].
  { cbn [propose_step fst] in Hsucc. injection Hsucc as ->. rewrite propose_done. eauto. }
  destruct (run_answers pc2 n3 g3 1 ms2 (Step ob cb :: more)) as (g4 & Hrun4 & ->); [done | done | done |].
  rewrite Hh4 in Hrun4 |- *. cbn [fst] in *.
  destruct (propose_step ob v pc2 n4) as [[pc3 n5] e5] eqn:Hst. cbn [fst] in Hsucc. subst pc3.
  destruct (run_step ob pc2 n4 g4 0 (PDone 0) n5 e5 more) as (g5 & _ & ->); [done | done | lia | done |].
  rewrite propose_done. eauto.
Qed.

End Succeeds.

(** ** Handlers that return *)

(** Nothing fails locally and a quorum answers: [ms1] with promises before the first and
    [ms2] with acceptances before the second wait of the proposal ends. *)
Record quorum_answers (env : fe_env) (s : frontend) (cb : cb_env) (ob : observation)
    (ms1 ms2 : list paxos_message) (more : list commit_event) : Prop := {
  qa_schedule : fe_schedule env = answered_by cb ob ms1 ms2 more;
  qa_serialize : fe_serialize_ok env = true;
  qa_cb : cb_ok cb;
  qa_obs : obs_ok ob;
  qa_answers : Forall is_answer ms1 /\ Forall is_answer ms2;
  qa_lengths : Z.of_nat (length ms1) < 2 ^ 31 /\ Z.of_nat (length ms2) < 2 ^ 31;
  qa_early : accepts (paxos_next_proposal_id (g_paxos s)).1 ms1 = 0;
  qa_promises : quorum_size (g_paxos s) <= 1 + promises (paxos_next_proposal_id (g_paxos s)).1 ms1;
  qa_accepts : quorum_size (g_paxos s) <= 1 + accepts (paxos_next_proposal_id (g_paxos s)).1 ms2;
}.

(** A node set up to propose, with room in the log. *)
Record can_propose (s : frontend) : Prop := {
  cp_broadcast : broadcast_callback (g_paxos s) = true;
  cp_slots : (0 < max_proposals (g_paxos s))%nat;
  cp_quorum : 1 < quorum_size (g_paxos s);
  cp_lsn : 0 <= current_lsn (g_metadata s) /\ current_lsn (g_metadata s) + 11 < UINT64_MAX;
}.

Lemma commit_returns env e s cb ob ms1 ms2 more :
  entry_ok e -> frontend_ok s -> can_propose s -> quorum_answers env s cb ob ms1 ms2 more ->
  exists s', commit_metadata_with_paxos env e s = Some (true, s').
Proof.
  intros He [Hidle Hok] [Hbc Hmax Hq1 [H0 Hlsn]] [Hs Hser Hcb Hob [Ha1 Ha2] [Hl1 Hl2] Hearly Hp Ha].
  unfold commit_metadata_with_paxos. rewrite Hser, Hs. cbn [negb].
  pose proof (decode_serialize_binding e He) as Hv. revert Hv. generalize (metadata_serialize e). intros v Hv.
  assert (Hne : v <> []) by (by apply decode_binding_Some in Hv as (_ & _ & ? & _)).
  destruct (propose_returns e v Hv cb Hcb ob (g_paxos s) (g_metadata s) ms1 ms2 more) as ([n g] & ->); try done.
  cbn [mbind option_bind]. rewrite bool_decide_eq_true_2 by done. eauto.
Qed.

(** An online node is selected. *)
Lemma select_nonempty k st i :
  k <> O -> (i < num_nodes st)%nat -> eligible 0 (nodes st !!! i) ->
  0 < (storage_interface_select_nodes 0 k st).1.1.
Proof.
  intros Hk Hi He. unfold storage_interface_select_nodes. rewrite decide_False by done.
  destruct (slot_passed (num_nodes st) ltac:(lia) (next_node_idx st) i Hi) as (j & Hj & Hmod).
  pose proof (select_loop_seen 0 k (nodes st) (num_nodes st) ltac:(lia) (num_nodes st * 2) (next_node_idx st) [] j) as Hseen.
  rewrite Hmod in Hseen. destruct (select_loop _ _ _ _ _ _ _) as [[|id sel] next]; cbn [fst length] in *; [| lia].
  assert (Storage.node_id (nodes st !!! i) ∈ @nil Z) as Hin by (apply Hseen; [lia | lia | done]).
  by apply elem_of_nil in Hin.
Qed.

(** C10: a create that has what it needs succeeds. The checks admit the request, some
    storage node is online, nothing fails locally and a quorum of nodes answers the
    proposal: then [Create] returns, with status 0, and the path resolves to a new empty
    file. *)
Theorem frontend_create_succeeds env req s cb ob ms1 ms2 more i :
  fe_inv s -> env_ok env -> u32_ok (create_mode req) -> fresh_id env s ->
  (String.length (new_path (create_pathname req) (filename req)) < MAX_PATH_LENGTH)%nat ->
  admitted s (create_pathname req) (filename req) ->
  (i < num_nodes (g_storage s))%nat -> eligible 0 (nodes (g_storage s) !!! i) ->
  can_propose s -> quorum_answers env s cb ob ms1 ms2 more ->
  exists s' e, fe_Create env req s = Some (MkStatus 0 EmptyString, s') /\ fe_inv s' /\
    new_file (create_mode req) e /\ resolve s' (new_path (create_pathname req) (filename req)) = Some e.
Proof.
  intros Hs Henv Hmd Hfresh Hlen Had Hi Hel Hcp Hqa.
  pose proof (check_new_spec "Invalid filename" "File already exists" (create_pathname req) (filename req) s) as Hck.
  unfold fe_Create. destruct (check_new _ _ _ _ _) as [r|p].
  { exfalso. destruct Had as (Hval & Hdir & Hnone).
    destruct Hck as [[_ Hx]|[(_ & _ & Hx)|(_ & _ & _ & [x Hx])]]; congruence. }
  destruct Hck as [Hp _]. rewrite <- Hp in *.
  assert (Hret : exists s', create_locked env p (create_mode req) s = Some (MkStatus 0 EmptyString, s')).
  { unfold create_locked. pose proof (select_nonempty MAX_REPLICAS (g_storage s) i ltac:(done) Hi Hel) as Hpos.
    destruct (storage_interface_select_nodes 0 MAX_REPLICAS (g_storage s)) as [[num sel] st] eqn:Hsel.
    destruct (select_result _ _ _ _ _ _ Hsel ltac:(done)) as (Hsame & Hnum & Hle). cbn [fst] in Hpos.
    rewrite decide_False by lia. unfold commit_and_answer.
    destruct (commit_returns env (set_counts num (assign_nodes st 0 sel (proposed env p (Z.lor S_IFREG (create_mode req)))))
      (MkFrontend (g_paxos s) (g_metadata s) st) cb ob ms1 ms2 more) as [s' ->].
    - apply set_counts_ok; [| unfold u32_ok, MAX_REPLICAS in *; lia].
      apply assign_nodes_ok; [by eapply storage_ok_same; [| apply Hs] |]. apply proposed_ok; [done |].
      apply lor_u32; [unfold u32_ok, S_IFREG; lia | done].
    - apply (inv_ok _ (storage_inv _ _ Hs Hsame)).
    - destruct Hcp. by split.
    - destruct Hqa. by split.
    - cbn [mbind option_bind]. by exists s'. }
  destruct Hret as [s' Hret]. exists s'. pose proof Hret as Hb.
  apply create_locked_spec in Hb as (Hs' & Hb); try done; [| apply Had || (rewrite Hp; apply Had)].
  destruct Hb as [[[=] _]|(e & Hpe & Hl & Hnew & Hcm)]. exists e. split_and!; [done | done | done |].
  destruct Hcm as [[_ Hr]|[[=] _]]. rewrite Hpe in Hr. by rewrite Hr, !decide_True.
Qed.
