(* ===== verification/FrontendData.v ===== *)
(** * The frontend: file contents and listings

    [Write] and [Get] go through majorities of the replicas; [ReadDirectory] lists
    exactly the live entries directly below a directory. *)

From stdpp Require Import base gmap strings list numbers.
From Stdlib Require Import Ascii.
From S2P Require Import Prelude CString FusedFs Proto Storage Paxos PaxosThm Metadata.
From S2P Require Import MetadataThm MetadataPath Replica Frontend FrontendCommit.
From S2P Require Import FrontendPath FrontendQuorum FrontendInv FrontendThm.

#[local] Open Scope Z_scope.

(** ** Writing *)

(** How many replicas acknowledge the write. *)
Definition write_acks (env : fe_env) (s : frontend) (ids : list Z) (bytes : list Z) : Z :=
  tally (fun k id => write_ack (fe_writes env k) id (Z.of_nat (length bytes)) (g_storage s)) 0 ids.

Lemma rebinds_live s s' p e (Hl : live e) :
  rebinds s s' p (if decide (live e) then Some e else None) -> rebinds s s' p (Some e).
Proof. by rewrite decide_True. Qed.

Lemma grown_live t off len e : live (grown t off len e) <-> live e.
Proof. unfold grown, live. by case_decide. Qed.

Lemma grown_frame t off len e :
  file_id (grown t off len e) = file_id e /\ path (grown t off len e) = path e /\
  storage_nodes (grown t off len e) = storage_nodes e /\
  num_storage_nodes (grown t off len e) = num_storage_nodes e.
Proof. unfold grown. by case_decide. Qed.

(** What [Write] does with a resolved entry that has replicas. *)
Definition writes (env : fe_env) (s s' : frontend) (p : string) (e : metadata_entry) (offset : Z)
    (bytes : list Z) (resp : WriteResponse) : Prop :=
  let off := write_position offset e in
  let e' := grown (fe_time env) off (Z.of_nat (length bytes)) e in
  exists ids, replica_ids e = Some ids /\
    if decide (quorum_required e <= write_acks env s ids bytes) then
      write_status resp = 0 /\ written resp = s64 (Z.of_nat (length bytes)) /\ rebinds s s' p (Some e') \/
      write_status resp = - EIO /\ written resp = 0 /\
        (unchanged s s' \/ quorum_arrives env s /\ rebinds s s' p (Some e'))
    else write_status resp = - EIO /\ written resp = 0 /\ unchanged s s'.

Lemma quorum_pos e : entry_ok e -> 1 <= quorum_required e.
Proof.
  intros He. pose proof (eok_u32 e He) as Hu. rewrite !list.Forall_cons in Hu.
  destruct Hu as (_ & _ & _ & _ & [? ?] & _). unfold quorum_required.
  pose proof (Z.div_pos (num_storage_nodes e) 2). lia.
Qed.

(** The deletions of the rollback do not touch the names. *)
Lemma delete_replicas_nodes xs i ids fid c st : same_nodes st (delete_replicas xs i ids fid c st).2.
Proof.
  revert i c st. induction ids as [|id ids IH]; intros i c st; [done |]. cbn [delete_replicas].
  case_decide; [apply IH |]. destruct (storage_interface_delete _ _ _ _ _ _) as [[rc resp] st1] eqn:Hd.
  apply delete_result in Hd as [Hs _]. etrans; [exact Hs | apply IH].
Qed.

Lemma deref_ok s a p :
  fe_inv s -> metadata_lookup_by_path (g_metadata s) p = Some a ->
  resolve s p = Some (deref (g_metadata s) a) /\ entry_ok (deref (g_metadata s) a).
Proof.
  intros Hs Ha. assert (Hr : resolve s p = Some (deref (g_metadata s) a)) by (unfold resolve; by rewrite Ha).
  split; [done |]. apply resolve_spec in Hr as (Hv & _); [| done]. by eapply (inv_entries _ Hs).
Qed.

Lemma write_branches env req s resp s' :
  fe_inv s -> env_ok env -> fe_Write env req s = Some (resp, s') ->
  let p := c_str (normalize_path (write_pathname req)) in
  fe_inv s' /\
  (write_status resp = - ENOENT /\ resolve s p = None /\ s' = s \/
   exists e, resolve s p = Some e /\
     if decide (num_storage_nodes e = 0) then write_status resp = - ENODEV /\ s' = s
     else writes env s s' p e (Proto.write_offset req) (Proto.write_data req) resp).
Proof.
  intros Hs Henv Hrun p. revert Hrun. unfold fe_Write. fold p.
  destruct (metadata_lookup_by_path (g_metadata s) p) as [a|] eqn:Ha.
  2:{ intros [= <- <-]. split; [done |]. left. unfold resolve. by rewrite Ha. }
  destruct (deref_ok _ _ _ Hs Ha) as [Hr He]. set (e := deref (g_metadata s) a) in *.
  case_decide as Hn.
  { intros [= <- <-]. split; [done |]. right. exists e. by rewrite decide_True. }
  intros Hrun. enough (Hw : fe_inv s' /\ writes env s s' p e (Proto.write_offset req) (Proto.write_data req) resp).
  { split; [apply Hw |]. right. exists e. rewrite decide_False by done. split; [done | apply Hw]. }
  unfold writes. set (off := write_position (Proto.write_offset req) e) in *.
  set (bytes := Proto.write_data req) in *.
  apply bind_Some in Hrun as (ids & Hids & Hrun). apply bind_Some in Hrun as ([[c b] st] & Hwr & Hrun).
  destruct (replica_ids_len e ids He Hids) as [_ Hlen].
  destruct (write_replicas_spec _ _ _ _ _ _ _ _ _ _ _ _ Hwr) as (Hsame & Hc & Hb); [lia | lia |].
  rewrite Z.add_0_l in Hc. fold (write_acks env s ids bytes) in Hc.
  pose proof (storage_inv _ _ Hs Hsame) as Hs1. pose proof (quorum_pos e He) as Hqp.
  rewrite Hc in Hrun. destruct (decide (quorum_required e <= write_acks env s ids bytes)) as [Hq|Hq].
  2:{ injection Hrun as <- <-. split; [done |]. exists ids. rewrite decide_False by done. done. }
  apply bind_Some in Hrun as ([ok s2] & Hcm & Hrun).
  destruct (grown_frame (fe_time env) off (Z.of_nat (length bytes)) e) as (Hgi & Hgp & _).
  pose proof Hr as (Hv & Hpath & Hl)%resolve_spec; [| done].
  apply commit_as in Hcm as (Hs2 & _ & Hcase); try done.
  2:{ apply grown_ok; [done | apply Henv]. }
  2:{ by eapply (resolved_owns _ p e). }
  unfold committed_as in Hcase. rewrite decide_True in Hcase by (by apply grown_live).
  rewrite Hgp, Hpath in Hcase. destruct ok.
  - injection Hrun as <- <-. split; [done |]. exists ids. rewrite decide_True by done. split; [done |].
    destruct Hcase as [[_ Hre]|[[=] _]]. left. split_and!; [done | | done]. simpl.
    rewrite Hb, decide_True; [done |]. lia.
  - destruct Hcase as [[[=] _]|[_ Hcase]].
    destruct (decide (size e = 0 /\ off = 0)).
    + apply bind_Some in Hrun as (ids' & _ & [= <- <-]).
      split; [apply storage_inv; [done | apply delete_replicas_nodes] |].
      exists ids. rewrite decide_True by done. split; [done |]. by right.
    + injection Hrun as <- <-. split; [done |]. exists ids. rewrite decide_True by done. split; [done |]. by right.
Qed.

(** *** Against a specification of its own *)

(** Where a write goes: offset 0 means the end of the file. *)
Definition written_at (offset : Z) (e : metadata_entry) : Z :=
  if decide (offset = 0) then size e else u64 offset.

(** The entry after [len] bytes were written at [pos] at time [t]: the file reaches at least
    to their end. *)
Definition after_write (t pos len : Z) (e : metadata_entry) : metadata_entry :=
  MkEntry (file_id e) (path e) (state e) (Z.max (size e) (u64 (pos + len))) (mode e) (uid e) (gid e)
    (created_time e) t (accessed_time e) (storage_nodes e) (storage_node_ips e) (storage_node_ports e)
    (num_storage_nodes e) (primary_node_idx e) (u64 (version e + 1)) (stripe_size e) (num_replicas e).

Lemma size_u64 e : entry_ok e -> 0 <= size e < 2 ^ 64.
Proof. intros He. pose proof (eok_u64 e He) as Hu. by apply list.Forall_cons in Hu as [? _]. Qed.

Lemma s64_u64 z : u64 (s64 z) = u64 z.
Proof.
  unfold u64, s64, swrap. rewrite Zminus_mod, Z.mod_mod, <- Zminus_mod by lia. f_equal. lia.
Qed.

Lemma written_at_position offset e : entry_ok e -> u64 (write_position offset e) = written_at offset e.
Proof.
  intros He%size_u64. unfold write_position, written_at. destruct (decide (offset = 0)) as [->|Hne].
  - case_decide as Hs; [rewrite s64_u64; apply u64_small; lia |]. rewrite u64_small by lia. lia.
  - rewrite decide_False by tauto. done.
Qed.

Lemma grown_after_write t offset len e :
  entry_ok e ->
  grown t (write_position offset e) len e = after_write t (written_at offset e) len e.
Proof.
  intros He. unfold grown. rewrite (written_at_position offset e He). unfold after_write.
  case_decide; [rewrite Z.max_r by lia | rewrite Z.max_l by lia]; done.
Qed.

Lemma majority_quorum e n : quorum_required e <= n <-> num_storage_nodes e < 2 * n.
Proof.
  unfold quorum_required. pose proof (Z.div_mod (num_storage_nodes e) 2).
  pose proof (Z.mod_pos_bound (num_storage_nodes e) 2). lia.
Qed.

(** A failed commit leaves the entry that was looked up with its identifier and replicas. *)
Lemma looked_up_kept env s p a e e' b s' :
  fe_inv s -> env_ok env -> entry_ok e' -> fe_inv s' ->
  metadata_lookup_by_path (g_metadata s) p = Some a -> deref (g_metadata s) a = e -> file_id e' = file_id e ->
  storage_nodes e' = storage_nodes e -> num_storage_nodes e' = num_storage_nodes e ->
  commit_metadata_with_paxos env e' s = Some (b, s') ->
  file_id (deref (g_metadata s') a) = file_id e /\ replica_ids (deref (g_metadata s') a) = replica_ids e.
Proof.
  intros Hs Henv He' Hs' Ha He Hid Hn1 Hn2 Hc.
  pose proof (fok_map _ (inv_ok _ Hs)) as Hm. pose proof (fok_map _ (inv_ok _ Hs')) as Hm'.
  apply by_path_Some in Ha as (_ & _ & i & l & k & Hi & Hk).
  destruct (ok_node _ (map_mgr_ok _ Hm) _ _ _ _ Hi Hk) as (_ & _ & e0 & He0 & Hk0).
  assert (He0' : e0 = e) by (unfold deref in He; by rewrite He0 in He). subst e0.
  assert (Hin : (k, a) ∈ concat (buckets (g_metadata s))) by (apply elem_of_buckets; eauto).
  pose proof (map_once _ Hm' _ _ (node_kept _ _ _ _ _ _ Hin Hc)) as Hlook.
  pose proof (map_once _ Hm _ _ Hin) as Hlook0.
  pose proof (deref_at _ _ _ Hlook (map_mgr_ok _ Hm')) as Hat.
  pose proof (deref_at _ _ _ Hlook0 (map_mgr_ok _ Hm)) as Hat0.
  fold (view s') in Hat. fold (view s) in Hat0. rewrite He in Hat0. rewrite Hk0.
  destruct (commit_alone env e' s b s') as (_ & _ & Hv & _); [done | apply Hs | apply Henv | apply Henv | done |].
  assert (Hor : deref (g_metadata s') a = e' \/ deref (g_metadata s') a = e).
  { destruct Hv as [Hv|[_ Hv]]; rewrite Hv in Hat; [| right; congruence]. case_decide; [left | right]; congruence. }
  unfold replica_ids. destruct Hor as [Heq|Heq]; rewrite Heq; [| by subst k].
  rewrite Hid, Hn1, Hn2. by subst k.
Qed.

(** What [Write] sends: the request to every replica and, when the commit of a first write
    fails, deletions. *)
Lemma write_traffic env req s resp s' e ids :
  let pos := written_at (Proto.write_offset req) e in
  fe_inv s -> env_ok env -> fe_Write env req s = Some (resp, s') ->
  resolve s (c_str (normalize_path (write_pathname req))) = Some e -> num_storage_nodes e <> 0 ->
  replica_ids e = Some ids ->
  exists rollback,
    wire (g_storage s') = wire (g_storage s) ++
      traffic (fun k id => write_sent (fe_writes env k) id (file_id e) pos (Proto.write_data req) (g_storage s)) 0 ids ++
      rollback /\
    (rollback = [] \/
     write_status resp = - EIO /\ size e = 0 /\ pos = 0 /\
     rollback = traffic (fun k id => delete_sent (fe_deletes env k) id (file_id e) (g_storage s)) 0 ids).
Proof.
  intros pos Hs Henv Hrun Hr Hn Hids. revert Hrun. unfold fe_Write.
  set (p := c_str _) in *. pose proof Hr as Hr0. unfold resolve in Hr. apply bind_Some in Hr as (a & Ha & [= He]).
  destruct (deref_ok _ _ _ Hs Ha) as [_ Hok]. rewrite He in Hok. rewrite Ha, He, decide_False by done.
  set (off := write_position (Proto.write_offset req) e).
  assert (Hpos : u64 off = pos) by (by apply written_at_position).
  intros (ids' & Hids' & ([[c b] st] & Hwr & Hrun)%bind_Some)%bind_Some.
  rewrite Hids in Hids'. injection Hids' as <-.
  destruct (replica_ids_len e ids Hok Hids) as [_ Hlen].
  pose proof (write_replicas_wire _ _ _ _ _ _ _ _ _ _ _ _ Hwr) as Hwire. rewrite Hpos in Hwire.
  destruct (write_replicas_spec _ _ _ _ _ _ _ _ _ _ _ _ Hwr) as (Hsame & _); [lia | lia |].
  pose proof (storage_inv _ _ Hs Hsame) as Hs1.
  destruct (decide (quorum_required e <= c)) as [Hq|Hq].
  2:{ injection Hrun as <- <-. exists []. split; [by rewrite app_nil_r | by left]. }
  apply bind_Some in Hrun as ([ok s2] & Hcm & Hrun).
  set (e' := grown (fe_time env) off (Z.of_nat (length (Proto.write_data req))) e) in *.
  destruct (grown_frame (fe_time env) off (Z.of_nat (length (Proto.write_data req))) e) as (Hg1 & Hg2 & Hg3 & Hg4).
  assert (He' : entry_ok e') by (apply grown_ok; [done | apply Henv]).
  pose proof Hcm as Hcm'. apply commit_as in Hcm' as (Hs2 & Hst & _); try done.
  2:{ apply (resolved_owns _ p e); done. }
  destruct ok; [injection Hrun as <- <-; exists []; rewrite Hst; split; [by rewrite app_nil_r | by left] |].
  destruct (decide (size e = 0 /\ off = 0)) as [[Hz Ho]|].
  2:{ injection Hrun as <- <-. exists []. rewrite Hst. split; [by rewrite app_nil_r | by left]. }
  destruct (looked_up_kept env _ p a e e' false s2 Hs1 Henv He' Hs2 Ha He Hg1 Hg3 Hg4 Hcm) as [Hf Hi].
  apply bind_Some in Hrun as (ids2 & Hids2 & [= <- <-]). rewrite Hi, Hids in Hids2. injection Hids2 as <-.
  rewrite Hf. eexists. split.
  - cbn [g_storage]. rewrite delete_replicas_wire, Hst. cbn [g_storage]. by rewrite Hwire, <- app_assoc.
  - right. split_and!; [done | done | by rewrite <- Hpos, Ho |]. apply traffic_ext.
    intros k id. unfold delete_sent. cbn [g_storage]. by rewrite (same_nodes_get _ _ id Hsame).
Qed.

(** What a write to the file of entry [e] comes to. *)
Definition write_outcome (env : fe_env) (s s' : frontend) (p : string) (e : metadata_entry) (offset : Z)
    (bytes : list Z) (resp : WriteResponse) : Prop :=
  let len := Z.of_nat (length bytes) in
  let pos := written_at offset e in
  let line := write_request (file_id e) pos len in
  let e' := after_write (fe_time env) pos len e in
  exists ids new, replica_ids e = Some ids /\ wire (g_storage s') = wire (g_storage s) ++ new /\
    (forall id b, (id, b) ∈ new -> id ∈ ids /\
       ((exists h n, b = sent_line h line ++ take n bytes) \/
        write_status resp = - EIO /\ size e = 0 /\ pos = 0 /\
          exists h, b = sent_line h (delete_request (file_id e)))) /\
    (forall k id, ids !! k = Some id -> id <> 0 -> write_ack (fe_writes env k) id len (g_storage s) ->
       (id, sent_line (header_sent (fe_writes env k)) line ++ bytes) ∈ new) /\
    if decide (num_storage_nodes e < 2 * write_acks env s ids bytes) then
      write_status resp = 0 /\ written resp = s64 len /\ rebinds s s' p (Some e') \/
      write_status resp = - EIO /\ written resp = 0 /\
        (unchanged s s' \/ quorum_arrives env s /\ rebinds s s' p (Some e'))
    else write_status resp = - EIO /\ written resp = 0 /\ unchanged s s'.

Lemma write_sent_elem x id fid off bytes st y b :
  (y, b) ∈ write_sent x id fid off bytes st ->
  y = id /\ exists h n, b = sent_line h (write_request fid off (Z.of_nat (length bytes))) ++ take n bytes.
Proof.
  unfold write_sent. case_decide; [| by intros ?%elem_of_nil]. intros [= -> ->]%list_elem_of_singleton. eauto.
Qed.

Lemma write_refines_outcome env req s resp s' e :
  let p := c_str (normalize_path (write_pathname req)) in
  fe_inv s -> env_ok env -> fe_Write env req s = Some (resp, s') -> resolve s p = Some e ->
  num_storage_nodes e <> 0 ->
  writes env s s' p e (Proto.write_offset req) (Proto.write_data req) resp ->
  write_outcome env s s' p e (Proto.write_offset req) (Proto.write_data req) resp.
Proof.
  intros p Hs Henv Hrun Hr Hn (ids & Hids & Hw).
  destruct (write_traffic env req s resp s' e ids Hs Henv Hrun Hr Hn Hids) as (rb & Hwire & Hrb).
  assert (He : entry_ok e) by (apply resolve_spec in Hr as (Hv & _); [| done]; by eapply (inv_entries _ Hs)).
  exists ids. eexists. split; [done |]. split; [exact Hwire |]. split_and!.
  - intros id b [Hin|Hin]%elem_of_app.
    + apply elem_of_traffic in Hin as (k & id' & Hk & _ & [-> Hb]%write_sent_elem).
      split; [by eapply list_elem_of_lookup_2 | by left].
    + destruct Hrb as [->|(H1 & H2 & H3 & ->)]; [by apply elem_of_nil in Hin |].
      apply elem_of_traffic in Hin as (k & id' & Hk & _ & Hin). unfold delete_sent in Hin. case_decide; [| by apply elem_of_nil in Hin].
      apply list_elem_of_singleton in Hin as [= -> ->]. split; [by eapply list_elem_of_lookup_2 |]. right. eauto.
  - intros k id Hk Hid Hack. apply elem_of_app. left. apply elem_of_traffic. exists k, id.
    split_and!; [done | done |]. cbn [Nat.add]. rewrite write_sent_ack by done. by apply list_elem_of_singleton.
  - rewrite (grown_after_write _ _ _ _ He) in Hw. unfold write_acks in *.
    set (n := tally _ 0 ids) in *. pose proof (majority_quorum e n).
    destruct (decide (num_storage_nodes e < 2 * n)); [rewrite decide_True in Hw by tauto | rewrite decide_False in Hw by tauto]; done.
Qed.

(** C6: writing a file. A path that does not resolve and an entry without replicas are
    refused. Otherwise the replicas are sent the request line for this file and position
    (the end of the file if the request says offset 0) and then the bytes, and every
    replica that acknowledges was sent all of them; when the commit of a first write
    fails, deletions of this file may follow; nothing else is sent. If more than half of
    the replicas acknowledge, the entry is committed with a size that reaches to the end
    of the bytes, and success means that the path resolves to it and no other name
    changed; if not, the answer is EIO and no name changes. No other proposer's entry
    arrives during the call. *)
Theorem frontend_write_refines env req s resp s' :
  fe_inv s -> env_ok env -> fe_Write env req s = Some (resp, s') ->
  let p := c_str (normalize_path (write_pathname req)) in
  fe_inv s' /\
  (write_status resp = - ENOENT /\ resolve s p = None /\ s' = s \/
   exists e, resolve s p = Some e /\
     if decide (num_storage_nodes e = 0) then write_status resp = - ENODEV /\ s' = s
     else write_outcome env s s' p e (Proto.write_offset req) (Proto.write_data req) resp).
Proof.
  intros Hs Henv Hrun p. destruct (write_branches _ _ _ _ _ Hs Henv Hrun) as [Hs' Hw]. split; [done |].
  destruct Hw as [Hw|(e & Hr & Hw)]; [by left |]. right. exists e. split; [done |].
  case_decide; [done |]. by apply write_refines_outcome.
Qed.

(** ** Reading *)

(** How many bytes [Get] asks the replicas for. *)
Definition read_length (offset sz : Z) (e : metadata_entry) : Z :=
  if decide (u64 sz = 0) then
    if decide (offset < s64 (size e)) then u64 (size e - offset) else 0
  else u64 sz.

(** How many replicas report [w]. *)
Definition reported (env : fe_env) (s : frontend) (ids : list Z) (len : Z) (w : list Z) : Z :=
  tally (fun k id => reports (fe_reads env k) id len (g_storage s) w) 0 ids.

Lemma get_spec env req s resp s' e ids :
  fe_inv s -> resolve s (c_str (normalize_path (get_pathname req))) = Some e ->
  num_storage_nodes e <> 0 -> replica_ids e = Some ids ->
  fe_Get env req s = Some (resp, s') ->
  let len := read_length (get_offset req) (get_size req) e in
  fe_inv s' /\ unchanged s s' /\
  ((exists w, quorum_required e <= reported env s ids len w /\
      resp = MkGetResp w (Z.of_nat (length w)) 0 EmptyString) \/
   (forall w, reported env s ids len w < quorum_required e) /\
     resp = MkGetResp [] 0 (- EIO) "Read quorum not reached").
Proof.
  intros Hs Hr Hn Hids Hrun len. revert Hrun. unfold fe_Get.
  set (p := c_str _) in *. unfold resolve in Hr. apply bind_Some in Hr as (a & Ha & [= He]).
  destruct (deref_ok _ _ _ Hs Ha) as [_ Hok]. rewrite He in Hok. rewrite Ha, He, decide_False by done.
  fold len. intros (ids' & Hids' & ([v st] & Hrd & Hrun)%bind_Some)%bind_Some.
  rewrite Hids in Hids'. injection Hids' as <-.
  destruct (replica_ids_len e ids Hok Hids) as [_ Hlen]. pose proof (quorum_pos e Hok).
  apply read_replicas_spec in Hrd as [Hsame Hres].
  2:{ intros w. rewrite lookup_empty. simpl. lia. }
  pose proof (storage_inv _ _ Hs Hsame) as Hs1.
  destruct v as [w|]; injection Hrun as <- <-; (split_and!; [done | apply unchanged_storage |]).
  - left. exists w. rewrite lookup_empty in Hres. by split.
  - right. split; [| done]. intros w. specialize (Hres w). by rewrite lookup_empty in Hres.
Qed.

(** C12: reading a file that resolves here returns the value a majority of its replicas
    report, and fails exactly when no value is reported by a majority; names do not
    change. *)
Theorem frontend_get_majority env req s resp s' e ids :
  fe_inv s -> resolve s (c_str (normalize_path (get_pathname req))) = Some e ->
  num_storage_nodes e <> 0 -> replica_ids e = Some ids ->
  fe_Get env req s = Some (resp, s') ->
  let len := read_length (get_offset req) (get_size req) e in
  fe_inv s' /\ unchanged s s' /\
  ((exists w, quorum_required e <= reported env s ids len w /\
      resp = MkGetResp w (Z.of_nat (length w)) 0 EmptyString) \/
   (forall w, reported env s ids len w < quorum_required e) /\
     resp = MkGetResp [] 0 (- EIO) "Read quorum not reached").
Proof. apply get_spec. Qed.

Lemma read_meets_write env req s resp s' e ids env2 req2 s2 resp2 s2' e2 :
  fe_inv s -> env_ok env -> fe_Write env req s = Some (resp, s') -> write_status resp = 0 ->
  resolve s (c_str (normalize_path (write_pathname req))) = Some e -> replica_ids e = Some ids ->
  fe_inv s2 -> resolve s2 (c_str (normalize_path (get_pathname req2))) = Some e2 ->
  replica_ids e2 = Some ids -> num_storage_nodes e2 = num_storage_nodes e ->
  num_storage_nodes e <> 0 ->
  fe_Get env2 req2 s2 = Some (resp2, s2') -> get_status resp2 = 0 ->
  exists k id, ids !! k = Some id /\ id <> 0 /\
    write_ack (fe_writes env k) id (Z.of_nat (length (Proto.write_data req))) (g_storage s) /\
    reports (fe_reads env2 k) id (read_length (get_offset req2) (get_size req2) e2) (g_storage s2) (got resp2).
Proof.
  intros Hs Henv Hw Hw0 Hr Hids Hs2 Hr2 Hids2 Hn2 Hn Hg Hg0.
  assert (Hack : quorum_required e <= write_acks env s ids (Proto.write_data req)).
  { apply write_branches in Hw as [_ Hw]; try done. destruct Hw as [(Hbad & _)|(e' & Hr' & Hw)];
      [rewrite Hbad in Hw0; discriminate |]. rewrite Hr in Hr'. injection Hr' as <-.
    rewrite decide_False in Hw by done. destruct Hw as (ids' & Hids' & Hw).
    rewrite Hids in Hids'. injection Hids' as <-. case_decide as Hq; [done |].
    destruct Hw as (Hbad & _). rewrite Hbad in Hw0. discriminate. }
  apply (get_spec _ _ _ _ _ e2 ids) in Hg as (_ & _ & Hg); try done; [| by rewrite Hn2].
  destruct Hg as [(w & Hrep & ->)|[_ ->]]; [| discriminate]. cbn [got].
  assert (He2 : entry_ok e2).
  { apply resolve_spec in Hr2 as (Hv & _); [| done]. by eapply (inv_entries _ Hs2). }
  destruct (replica_ids_len e2 ids He2 Hids2) as [Hlen _].
  unfold quorum_required in *. rewrite Hn2 in Hrep, Hlen.
  destruct (tally_meet
    (fun k id => write_ack (fe_writes env k) id (Z.of_nat (length (Proto.write_data req))) (g_storage s))
    (fun k id => reports (fe_reads env2 k) id (read_length (get_offset req2) (get_size req2) e2) (g_storage s2) w)
    0 ids) as (k & id & Hk & Hid & Hp & Hq).
  - fold (write_acks env s ids (Proto.write_data req)). fold (reported env2 s2 ids (read_length (get_offset req2) (get_size req2) e2) w).
    pose proof (Z.div_mod (num_storage_nodes e) 2). pose proof (Z.mod_pos_bound (num_storage_nodes e) 2). lia.
  - exists k, id. done.
Qed.

(** C7: a read sees a replica that took the write. When a write of a file is answered
    with success and so is a later read of a file with the same replicas, then some
    replica acknowledged the write and reported the value the read returns. *)
Theorem frontend_read_meets_write env req s resp s' e ids env2 req2 s2 resp2 s2' e2 :
  fe_inv s -> env_ok env -> fe_Write env req s = Some (resp, s') -> write_status resp = 0 ->
  resolve s (c_str (normalize_path (write_pathname req))) = Some e -> replica_ids e = Some ids ->
  fe_inv s2 -> resolve s2 (c_str (normalize_path (get_pathname req2))) = Some e2 ->
  replica_ids e2 = Some ids -> num_storage_nodes e2 = num_storage_nodes e ->
  num_storage_nodes e <> 0 ->
  fe_Get env2 req2 s2 = Some (resp2, s2') -> get_status resp2 = 0 ->
  exists k id, ids !! k = Some id /\ id <> 0 /\
    write_ack (fe_writes env k) id (Z.of_nat (length (Proto.write_data req))) (g_storage s) /\
    reports (fe_reads env2 k) id (read_length (get_offset req2) (get_size req2) e2) (g_storage s2) (got resp2).
Proof. apply read_meets_write. Qed.

(** ** Listing *)

Lemma list_entries_spec g dir nodes seen :
  NoDup (entry_name <$> list_entries g dir nodes seen) /\
  forall fe, fe ∈ list_entries g dir nodes seen ->
    entry_name fe ∉ seen /\
    exists node, node ∈ nodes /\ child_in g dir node = Some (entry_name fe) /\
      let e := deref g node.2 in
      fe = MkFileEntry (entry_name fe) (S_ISDIR (mode e)) (s64 (size e)) (modified_time e).
Proof.
  revert seen. induction nodes as [|node nodes IH]; intros seen; cbn [list_entries].
  { split; [constructor | by intros fe ?%elem_of_nil]. }
  assert (Hskip : forall s0 fe, fe ∈ list_entries g dir nodes s0 -> entry_name fe ∉ s0 /\
    exists node0, node0 ∈ node :: nodes /\ child_in g dir node0 = Some (entry_name fe) /\
      let e := deref g node0.2 in
      fe = MkFileEntry (entry_name fe) (S_ISDIR (mode e)) (s64 (size e)) (modified_time e)).
  { intros s0 fe Hin. destruct (proj2 (IH s0) fe Hin) as (Hs & nd & Hnd & ?). split; [done |].
    exists nd. split; [by constructor | done]. }
  destruct (child_in g dir node) as [name|] eqn:Hc; [| split; [apply IH | apply Hskip]].
  case_decide as Hseen; [split; [apply IH | apply Hskip] |]. split.
  - cbn [fmap list_fmap entry_name]. apply list.NoDup_cons. split; [| apply IH].
    intros (fe & Hname & Hin)%list_elem_of_fmap. destruct (proj2 (IH _) fe Hin) as [Hns _]. set_solver.
  - intros fe [->|Hin]%elem_of_cons.
    + split; [done |]. exists node. split_and!; [constructor | done | done].
    + apply Hskip in Hin as [? ?]. split; [set_solver | done].
Qed.

Lemma list_entries_all g dir nodes seen node name :
  node ∈ nodes -> child_in g dir node = Some name -> name ∉ seen ->
  exists fe, fe ∈ list_entries g dir nodes seen /\ entry_name fe = name.
Proof.
  revert seen. induction nodes as [|nd nodes IH]; intros seen Hin Hc Hs; [by apply elem_of_nil in Hin |].
  cbn [list_entries]. apply elem_of_cons in Hin as [<-|Hin].
  - rewrite Hc, decide_False by done. eexists. split; [constructor | done].
  - destruct (child_in g dir nd) as [n|]; [| by apply IH]. case_decide as Hn; [by apply IH |].
    destruct (decide (n = name)) as [->|Hne]; [eexists; split; [constructor | done] |].
    destruct (IH ({[n]} ∪ seen) Hin Hc) as (fe & Hfe & ?); [set_solver |].
    exists fe. split; [by constructor | done].
Qed.

(** The listing of a directory in normal form. *)
Lemma listing_ok s d :
  fe_inv s -> canonical d ->
  let l := list_entries (g_metadata s) d (concat (buckets (g_metadata s))) ∅ in
  NoDup (entry_name <$> l) /\
  (forall name, name ∈ entry_name <$> l <-> exists e, child_of s d name e) /\
  (forall fe, fe ∈ l -> exists e, child_of s d (entry_name fe) e /\
    fe = MkFileEntry (entry_name fe) (S_ISDIR (mode e)) (s64 (size e)) (modified_time e)) /\
  (l = [] <-> directory_has_children (g_metadata s) d = false).
Proof.
  intros Hs Hcan l.
  destruct (list_entries_spec (g_metadata s) d (concat (buckets (g_metadata s))) ∅) as [Hnd Hall]. fold l in Hnd, Hall.
  assert (Hfe : forall fe, fe ∈ l -> exists e, child_of s d (entry_name fe) e /\
    fe = MkFileEntry (entry_name fe) (S_ISDIR (mode e)) (s64 (size e)) (modified_time e)).
  { intros fe Hin. destruct (Hall fe Hin) as (_ & node & Hnode & Hc & Heq).
    exists (deref (g_metadata s) node.2). split; [| done]. apply child_nodes; [done |]. eauto. }
  assert (Hnames : forall name, name ∈ entry_name <$> l <-> exists e, child_of s d name e).
  { intros name. rewrite list_elem_of_fmap. split.
    - intros (fe & -> & Hin). destruct (Hfe fe Hin) as (e & ? & _). eauto.
    - intros (e & (node & Hin & _ & Hc)%child_nodes); [| done].
      destruct (list_entries_all _ d _ ∅ _ _ Hin Hc) as (fe & ? & <-); [set_solver |]. eauto. }
  split_and!; try done. pose proof (has_children_spec s d Hs Hcan) as Hch.
  destruct (directory_has_children _ _).
  - destruct (proj1 Hch eq_refl) as (name & Hx). apply Hnames in Hx. split; [| done].
    intros ->. by apply elem_of_nil in Hx.
  - split; [done |]. intros _. destruct l as [|fe l0] eqn:Heq; [done |].
    destruct (Hfe fe) as (e & Hx & _); [constructor |].
    assert (false = true) by (apply Hch; eauto). discriminate.
Qed.

(** [p] is the root or resolves to a directory; otherwise the error. *)
Definition dir_status (s : frontend) (d : string) : Z :=
  if decide (d = "/"%string) then 0
  else match resolve s (c_str d) with
       | None => - ENOENT
       | Some e => if S_ISDIR (mode e) then 0 else - ENOTDIR
       end.

(** C33: listing a directory. The root or a path that resolves to a directory is listed
    with distinct names: every live entry directly below it appears under its name, every
    listed item describes such an entry, and the listing is empty exactly if [Rmdir]'s
    test says so. Nothing changes. *)
Theorem frontend_readdir_spec req s resp s' :
  fe_inv s -> fe_ReadDirectory req s = Some (resp, s') ->
  let d := target_of (readdir_pathname req) in
  s' = s /\ readdir_status resp = dir_status s d /\
  NoDup (entry_name <$> listing resp) /\
  (readdir_status resp = 0 ->
   (forall name, name ∈ entry_name <$> listing resp <-> exists e, child_of s d name e) /\
   (forall fe, fe ∈ listing resp -> exists e, child_of s d (entry_name fe) e /\
      fe = MkFileEntry (entry_name fe) (S_ISDIR (mode e)) (s64 (size e)) (modified_time e)) /\
   (listing resp = [] <-> directory_has_children (g_metadata s) d = false)) /\
  (readdir_status resp <> 0 -> listing resp = []).
Proof.
  intros Hs Hrun d. revert Hrun. unfold fe_ReadDirectory. fold (target_of (readdir_pathname req)). fold d.
  assert (Hcan : canonical d) by apply normal_canonical. rewrite (canonical_trim d Hcan).
  destruct (listing_ok s d Hs Hcan) as (Hnd & Hnames & Hfe & Hempty). unfold dir_status, resolve.
  destruct (decide (d = "/"%string)) as [Hroot|Hroot].
  - rewrite decide_False by tauto. intros [= <- <-]. by split_and!.
  - rewrite decide_True by done. destruct (metadata_lookup_by_path _ _) as [a|]; cbn [mbind option_bind].
    + destruct (S_ISDIR (mode (deref (g_metadata s) a))) eqn:Hd; cbn [negb]; intros [= <- <-]; split_and!; try done.
      constructor.
    + intros [= <- <-]. split_and!; try done. constructor.
Qed.
