(* ===== verification/FrontendInit.v ===== *)
(** * The frontend: start-up and executions

    [initialize_distributed_system] of [src/src/distributed_frontend.cpp], and the states
    the process can be in between calls.  The arguments of [init_env] are what the calls
    it makes observe; [getenv] and [strtol] results are among them. *)

From stdpp Require Import base gmap strings list numbers.
From Stdlib Require Import Ascii.
From S2P Require Import Prelude CString FusedFs Proto RpcServer TcpAdapter Network.
From S2P Require Import Storage Paxos PaxosThm Metadata MetadataThm MetadataPath.
From S2P Require Import Replica Frontend FrontendCommit FrontendPath FrontendQuorum.
From S2P Require Import FrontendInv FrontendThm FrontendData.

#[local] Open Scope Z_scope.

(** ** Addresses *)

Definition colon : ascii := ":"%char.

(** ["%[^:]"] into 64 bytes; [None]: the name overruns them. *)
Definition scan_host (s : string) : option (option (string * string)) :=
  let '(p, r) := span_not (String.length s) colon s in
  if decide (63 < String.length p)%nat then None
  else Some (if decide (p = EmptyString) then None else Some (p, r)).

(** [":%hu"] *)
Definition scan_port (s : string) : option Z :=
  s1 ← scan_lit ":" s; '(v, _) ← scan_lu s1; Some (v `mod` 2 ^ 16).

(** [sscanf(addr, "%u@%[^:]:%hu", ...) == 3] *)
Definition scan_peer (addr : string) : option (option (Z * string * Z)) :=
  match scan_lu addr with
  | None => Some None
  | Some (v, s1) =>
      match scan_lit "@" s1 with
      | None => Some None
      | Some s2 =>
          host ← scan_host s2;
          Some ('(ip, s3) ← host; prt ← scan_port s3; Some (u32 v, ip, prt))
      end
  end.

(** [sscanf(token, "%[^:]:%hu", ...) == 2] *)
Definition scan_storage (token : string) : option (option (string * Z)) :=
  host ← scan_host token; Some ('(ip, s1) ← host; prt ← scan_port s1; Some (ip, prt)).

(** ** Initialisation *)

Record init_env := MkInitEnv {
  paxos_alloc : bool;
  metadata_alloc : bool;
  md_malloc : Z -> bool;
  md_garbage : Z;
  md_junk : list Z;
  md_header : list Z;
  md_file : list Z;
  network_alloc : bool;
  net_fd : Z;
  net_bind : bool;
  net_listen : bool;
  net_thread : bool;
  timeout_env : option Z;
  peer_conns : nat -> option (Z * Z);
  storage_alloc : bool;
  storage_nodes_env : option string;
  clock : Z;
}.

(** Peers [addrs] from number [i] on. *)
Fixpoint add_peers (e : init_env) (i : nat) (addrs : list string) (net : network_engine)
  : option network_engine :=
  match addrs with
  | [] => Some net
  | addr :: addrs' =>
      peer ← scan_peer addr;
      add_peers e (S i) addrs'
        match peer with
        | Some (id, ip, prt) => (network_engine_add_peer (peer_conns e i) id ip prt net).2
        | None => net
        end
  end.

Definition one_gb : Z := 1024 * 1024 * 1024.

(** The nodes named by the tokens of [STORAGE_NODES]. *)
Fixpoint register_tokens (now storage_id : Z) (tokens : list string) (st : storage_interface)
  : option storage_interface :=
  match tokens with
  | [] => Some st
  | token :: tokens' =>
      parsed ← scan_storage token;
      match parsed with
      | Some (ip, prt) =>
          register_tokens now (u32 (storage_id + 1)) tokens'
            (storage_interface_register_node now storage_id ip prt one_gb st).2
      | None => register_tokens now storage_id tokens' st
      end
  end.

Definition register_defaults (now : Z) (st : storage_interface) : storage_interface :=
  let reg id ip st := (storage_interface_register_node now id ip 9000 one_gb st).2 in
  reg 103 "storage-node-3"%string (reg 102 "storage-node-2"%string (reg 101 "storage-node-1"%string st)).

Definition proposal_timeout (e : init_env) : Z :=
  match timeout_env e with
  | Some t => if decide (1000 <= t <= 60000) then t else 8000
  | None => 8000
  end.

(** Outer [None]: undefined behaviour; inner [None]: returns false. *)
Definition initialize_distributed_system (e : init_env) (node_id listen_port total_nodes : Z)
    (peer_addrs : list string) : option (option (frontend * network_engine)) :=
  match paxos_init (paxos_alloc e) node_id total_nodes true true with
  | None => Some None
  | Some paxos =>
      if negb (metadata_alloc e) then Some None
      else
        metadata ← metadata_manager_init (md_malloc e) (md_garbage e) (md_junk e) (md_header e) (md_file e);
        if negb (network_alloc e) then Some None
        else
          let '(rc, net, _) := network_engine_start (net_fd e) (net_bind e) (net_listen e) (net_thread e)
                                 (network_engine_init node_id listen_port) in
          if decide (rc <> 0) then Some None
          else
            let paxos := paxos_set_proposal_timeout (proposal_timeout e)
                           (paxos_set_broadcast_callback true paxos) in
            net ← add_peers e 0 peer_addrs net;
            if negb (storage_alloc e) then Some None
            else
              let st := storage_interface_init MAX_STORAGE_NODES in
              st ← match storage_nodes_env e with
                   | Some s => register_tokens (clock e) 100 (strtok " "%char s) st
                   | None => Some (register_defaults (clock e) st)
                   end;
              Some (Some (MkFrontend paxos metadata st, net))
  end.

(** ** Executions *)

(** Requests as the wire format allows them, without embedded NULs in names that are
    made or removed as directories; paths that fit their array, and an identifier that is
    not in use. *)
Definition call_ok (env : fe_env) (c : rpc_call) (s : frontend) : Prop :=
  env_ok env /\
  match c with
  | CallCreate r => u32_ok (create_mode r) /\ fresh_id env s /\
      no_nul (create_pathname r) /\ no_nul (filename r) /\
      (String.length (new_path (create_pathname r) (filename r)) < MAX_PATH_LENGTH)%nat
  | CallMkdir r => u32_ok (mkdir_mode r) /\ fresh_id env s /\
      no_nul (mkdir_pathname r) /\ no_nul (dirname r) /\
      (String.length (new_path (mkdir_pathname r) (dirname r)) < MAX_PATH_LENGTH)%nat
  | CallRmdir r => no_nul (rmdir_pathname r)
  | _ => True
  end.

(** A Paxos message arrives between calls: not a LEARN, whose entry may be anyone's. *)
Definition message_between (cb : cb_env) (m : paxos_message) : Prop :=
  cb_alloc cb = true /\ cb_alloc_node cb = true /\ phase m <> PAXOS_PHASE_LEARN.

(** States between calls: after start-up, after a call that returns, after a message.
    Each call runs from its checks to its end with no other call in between. *)
Inductive fe_reachable : frontend -> Prop :=
| fe_start e node_id listen_port total_nodes peer_addrs s net :
    from_option no_nul True (storage_nodes_env e) ->
    initialize_distributed_system e node_id listen_port total_nodes peer_addrs = Some (Some (s, net)) ->
    fe_reachable s
| fe_call env c s s' :
    fe_reachable s -> call_ok env c s ->
    serve (H := frontend_service) env c (Some s) = Some s' -> fe_reachable s'
| fe_message cb m s n g :
    fe_reachable s -> message_between cb m ->
    replica_step (M := metadata_machine) cb m (g_paxos s, g_metadata s) = Some (n, g) ->
    fe_reachable (MkFrontend n g (g_storage s)).

(** ** The start state *)

Lemma no_nul_drop n s : no_nul s -> no_nul (str_drop n s).
Proof. revert s. induction n as [|n IH]; intros [|a s]; simpl; try done. intros [_ ?]. auto. Qed.

Lemma no_nul_split c s t : no_nul s -> t ∈ str_split c s -> no_nul t.
Proof.
  revert t. induction s as [|a s IH]; intros t Hs; simpl.
  - by intros ->%list_elem_of_singleton.
  - destruct Hs as [Ha Hs]. case_decide; [rewrite elem_of_cons; intros [->|?]; [done | auto] |].
    destruct (str_split c s) as [|p ps] eqn:E; [by destruct (str_split_nil c s) |].
    rewrite elem_of_cons. intros [->|Ht]; [split; [done |]; apply IH; [done | left] | apply IH; [done | by right]].
Qed.

Lemma no_nul_span n c s : no_nul s -> no_nul (span_not n c s).1.
Proof.
  revert s. induction n as [|n IH]; intros [|a s] Hs; cbn [span_not]; try done.
  case_decide; [done |]. destruct Hs as [Ha Hs]. specialize (IH s Hs).
  by destruct (span_not n c s).
Qed.

Lemma scan_storage_ok token ip prt :
  no_nul token -> scan_storage token = Some (Some (ip, prt)) -> no_nul ip /\ u32_ok prt.
Proof.
  intros Ht. unfold scan_storage, scan_host. pose proof (no_nul_span (String.length token) colon token Ht) as Hn.
  destruct (span_not _ _ _) as [p r]. case_decide; [done |]. cbn [mbind option_bind]. case_decide; [done |].
  cbn [mbind option_bind]. intros [= Hx]. apply bind_Some in Hx as (v & Hv & [= <- <-]). split; [done |].
  unfold scan_port in Hv. apply bind_Some in Hv as (s1 & _ & Hv). apply bind_Some in Hv as ([w r'] & _ & [= <-]).
  unfold u32_ok. pose proof (Z.mod_pos_bound w (2 ^ 16)). lia.
Qed.

Lemma register_ok now id ip prt st :
  storage_ok st -> u32_ok id -> no_nul ip -> u32_ok prt ->
  storage_ok (storage_interface_register_node now id ip prt one_gb st).2.
Proof.
  intros Hst Hid Hip Hprt. unfold storage_interface_register_node. case_decide; [done |].
  apply Forall_insert; [done |]. split_and!; [done | by apply no_nul_take | done].
Qed.

Lemma register_tokens_ok now id tokens st st' :
  storage_ok st -> u32_ok id -> (forall t, t ∈ tokens -> no_nul t) ->
  register_tokens now id tokens st = Some st' -> storage_ok st'.
Proof.
  revert id st. induction tokens as [|t tokens IH]; intros id st Hst Hid Ht; cbn [register_tokens].
  { by intros [= <-]. }
  intros ([[ip prt]|] & Hp & Hrun)%bind_Some.
  - destruct (scan_storage_ok t ip prt) as [Hip Hprt]; [apply Ht; constructor | done |].
    eapply IH; [| | | exact Hrun]; [by apply register_ok | apply Z.mod_pos_bound; lia |].
    intros; apply Ht; by constructor.
  - eapply IH; [done | done | | exact Hrun]. intros; apply Ht; by constructor.
Qed.

Lemma init_storage_ok n : storage_ok (storage_interface_init n).
Proof. apply Forall_replicate. unfold node_info_ok, u32_ok. simpl. lia. Qed.

Lemma register_defaults_ok now st : storage_ok st -> storage_ok (register_defaults now st).
Proof.
  intros Hst. unfold register_defaults. repeat apply register_ok; try done.
Qed.

Lemma zero_slots j : in_use (default zero_proposal (replicate 256 zero_proposal !! j)) = false.
Proof.
  destruct (replicate 256 zero_proposal !! j) eqn:Hj; [| done]. by apply lookup_replicate in Hj as [-> _].
Qed.

Lemma init_paxos_idle alloc id total n t :
  paxos_init alloc id total true true = Some n ->
  idle (paxos_set_proposal_timeout t (paxos_set_broadcast_callback true n)).
Proof.
  unfold paxos_init. case_decide; [done |]. destruct alloc; [| done]. intros [= <-].
  unfold paxos_set_proposal_timeout. split; [by case_decide | by case_decide |].
  intros j. case_decide; exact (zero_slots j).
Qed.

Lemma init_map mo gb junk hdr file g :
  metadata_manager_init mo gb junk hdr file = Some g ->
  map_ok g /\ forall id, entry_at g id = None.
Proof.
  unfold metadata_manager_init. destruct (wal_replay _ _ _ _ _) as [[rc g']|] eqn:Hr; [| done].
  intros [= <-]. apply replay_no_node in Hr as [Hb _]. split; [by apply no_node_map_ok | by apply no_node_at].
Qed.

Lemma start_inv e id port total addrs s net :
  from_option no_nul True (storage_nodes_env e) ->
  initialize_distributed_system e id port total addrs = Some (Some (s, net)) ->
  fe_inv s /\ forall q, resolve s q = None.
Proof.
  intros Henv. unfold initialize_distributed_system.
  destruct (paxos_init _ _ _ _ _) as [n|] eqn:Hn; [| done]. destruct (metadata_alloc e); [| done].
  intros (g & Hg & Hrun)%bind_Some. destruct (network_alloc e); [| done]. cbn [negb] in Hrun.
  destruct (network_engine_start _ _ _ _ _) as [[rc net0] acts]. case_decide; [done |].
  apply bind_Some in Hrun as (net1 & _ & Hrun). destruct (storage_alloc e); [| done].
  apply bind_Some in Hrun as (st & Hst & [= <- <-]). destruct (init_map _ _ _ _ _ _ Hg) as [Hok Hempty].
  assert (Hs : fe_inv (MkFrontend (paxos_set_proposal_timeout (proposal_timeout e)
    (paxos_set_broadcast_callback true n)) g st)).
  { split.
    - split; [by eapply init_paxos_idle | done].
    - intros k x. unfold view. simpl. by rewrite Hempty.
    - intros k k' x x'. unfold view. simpl. by rewrite Hempty.
    - simpl. destruct (storage_nodes_env e) as [str|].
      + eapply register_tokens_ok; [apply init_storage_ok | | | exact Hst]; [unfold u32_ok; lia |].
        intros t Ht. unfold strtok in Ht. apply list_elem_of_filter in Ht as [_ Ht]. by eapply no_nul_split.
      + injection Hst as <-. apply register_defaults_ok, init_storage_ok. }
  split; [done |]. intros q. destruct (resolve _ q) as [x|] eqn:Hq; [| done].
  apply resolve_spec in Hq as (Hv & _); [| done]. unfold view in Hv. simpl in Hv. by rewrite Hempty in Hv.
Qed.

(** ** The name space is a tree *)

(** Every path that resolves is a name in the root or in a path that resolves to a
    directory. *)
Definition fe_tree (s : frontend) : Prop :=
  forall p e, resolve s p = Some e ->
    no_nul p /\ exists d name, canonical d /\ is_valid_name_component name = true /\
      p = join_path d name /\ is_dir s d.

Lemma no_nul_prefix d name : canonical d -> no_nul (join_path d name) <-> no_nul d /\ no_nul name.
Proof.
  intros Hd. rewrite join_prefix, no_nul_app by done. unfold dir_prefix. case_decide; [subst; simpl |].
  - split; [intros [_ ?]; by split | intros [_ ?]; by split].
  - rewrite no_nul_app. simpl. split; [tauto |]. intros [? ?]. split_and!; try done.
Qed.

Lemma is_dir_mono s s' d :
  (forall e, resolve s (c_str d) = Some e -> exists e', resolve s' (c_str d) = Some e' /\ mode e' = mode e) ->
  is_dir s d -> is_dir s' d.
Proof.
  intros Hm [->|(e & He & Hdir)]; [by left | right]. destruct (Hm e He) as (e' & ? & Hmode).
  exists e'. by rewrite Hmode.
Qed.

Lemma tree_unchanged s s' : fe_tree s -> unchanged s s' -> fe_tree s'.
Proof.
  intros Ht Hu p e. rewrite Hu. intros (Hp & d & name & Hd & Hn & Hj & Hdir)%Ht. split; [done |].
  exists d, name. split_and!; try done. eapply is_dir_mono; [| exact Hdir]. intros x Hx. rewrite Hu. eauto.
Qed.

Lemma tree_new s s' p e d name :
  fe_tree s -> rebinds s s' p (Some e) -> resolve s p = None -> no_nul p ->
  canonical d -> is_valid_name_component name = true -> p = join_path d name -> is_dir s d -> fe_tree s'.
Proof.
  intros Ht Hr Hnone Hp Hd Hn Hj Hdir.
  assert (Hkeep : forall x, is_dir s x -> is_dir s' x).
  { intros x. apply is_dir_mono. intros e0 He0. exists e0. rewrite Hr, decide_False by congruence. done. }
  intros q e'. rewrite Hr. case_decide as Hq.
  - intros _. subst q. split; [done |]. exists d, name. by split_and!; [.. | apply Hkeep].
  - intros (Hnq & d' & name' & ? & ? & ? & ?)%Ht. split; [done |]. exists d', name'. split_and!; auto.
Qed.

Lemma tree_update s s' p e e' :
  fe_tree s -> rebinds s s' p (Some e') -> resolve s p = Some e -> mode e' = mode e -> fe_tree s'.
Proof.
  intros Ht Hr He Hm.
  assert (Hkeep : forall x, is_dir s x -> is_dir s' x).
  { intros x. apply is_dir_mono. intros e0 He0. rewrite Hr. case_decide as Hx; [| eauto].
    exists e'. split; [done |]. rewrite Hx, He in He0. congruence. }
  intros q x Hq. assert (Hs : is_Some (resolve s q)) by (rewrite Hr in Hq; case_decide; subst; eauto).
  destruct Hs as [y (Hnq & d & name & ? & ? & ? & ?)%Ht]. split; [done |]. exists d, name. split_and!; auto.
Qed.

Lemma tree_unbind s s' p :
  fe_tree s -> rebinds s s' p None ->
  (forall d name e, canonical d -> is_valid_name_component name = true -> is_dir s d -> d <> "/"%string ->
     no_nul d -> resolve s (join_path d name) = Some e -> d <> p) -> fe_tree s'.
Proof.
  intros Ht Hr Hleaf q e. rewrite Hr. case_decide as Hq; [done |]. intros Hres.
  pose proof (Ht q e Hres) as (Hnq & d & name & Hd & Hn & -> & Hdir). split; [done |]. exists d, name.
  split_and!; try done. apply no_nul_prefix in Hnq as [Hnd _]; [| done].
  destruct Hdir as [->|(x & Hx & Hmx)]; [by left |]. right. exists x.
  rewrite Hr, decide_False; [done |]. rewrite c_str_id in Hx |- * by done. intros ->.
  destruct (decide (p = "/"%string)) as [->|Hroot].
  - apply (Ht "/"%string x) in Hx as (_ & d' & n' & Hd' & Hn' & Hj & _).
    apply valid_name_spec in Hn' as (Hne & _). rewrite join_prefix in Hj by done.
    apply (f_equal String.length) in Hj. rewrite str_length_app in Hj. unfold dir_prefix in Hj.
    case_decide; rewrite ?str_length_app in Hj; destruct n'; simpl in *; done || lia.
  - apply (Hleaf p name e Hd Hn); [right; exists x; by rewrite c_str_id | done ..].
Qed.

Lemma no_nul_normal p : no_nul p -> no_nul (trim_trailing_slash (normalize_path p)).
Proof.
  intros Hp. assert (Hn : no_nul (normalize_path p)).
  { destruct p as [|a p]; [done |]. simpl. by case_decide. }
  unfold trim_trailing_slash. case_decide; [done | by apply no_nul_take].
Qed.

Lemma makes_tree env s s' pathname name code K :
  fe_tree s -> no_nul pathname -> no_nul name -> makes env s s' pathname name code K -> fe_tree s'.
Proof.
  intros Ht Hp Hn [[_ ->]|((Hvalid & Hdir & Hnone) & e & Hpath & Hl & _ & Hcm)]; [done |].
  pose proof (normal_canonical pathname : canonical (parent_of pathname)) as Hcan.
  assert (Hnj : no_nul (join_path (parent_of pathname) name))
    by (apply no_nul_prefix; [done |]; split; [by apply no_nul_normal | done]).
  assert (Hnp : new_path pathname name = join_path (parent_of pathname) name) by (by apply c_str_id).
  revert Hcm. unfold committed_as. rewrite decide_True, Hpath by done. rewrite Hnp in *.
  assert (Hnew : rebinds s s' (join_path (parent_of pathname) name) (Some e) -> fe_tree s')
    by (intros Hr; by eapply tree_new).
  intros [[_ ?]|[_ [?|[_ ?]]]]; [by apply Hnew | by eapply tree_unchanged | by apply Hnew].
Qed.

Lemma unbinds_tree env s s' p code :
  fe_tree s -> unbinds env s s' p code ->
  (forall d name e, canonical d -> is_valid_name_component name = true -> is_dir s d -> d <> "/"%string ->
     no_nul d -> resolve s (join_path d name) = Some e -> d <> p) -> fe_tree s'.
Proof.
  intros Ht Hu Hleaf. destruct Hu as [[_ ?]|[_ [?|[_ ?]]]];
    [by eapply tree_unbind | by eapply tree_unchanged | by eapply tree_unbind].
Qed.

Lemma remove_tree env req s resp s' :
  fe_inv s -> fe_tree s -> env_ok env -> fe_Remove env req s = Some (resp, s') -> fe_tree s'.
Proof.
  intros Hs Ht Henv Hrun. apply remove_branches in Hrun as [_ Hrun]; [| done ..].
  destruct Hrun as [(_ & _ & ->)|[(_ & _ & ->)|(e & He & Hcase)]]; [done | done |].
  destruct (S_ISDIR (mode e)) eqn:Hdir; [by destruct Hcase as [_ ->] |].
  assert (Hun : unbinds env s s' (c_str (target_of (remove_pathname req))) (status_code resp) -> fe_tree s').
  { intros Hu. eapply unbinds_tree; [done | exact Hu |].
    intros d name x Hd Hn [?|(y & Hy & Hmy)] Hr Hnd _ ->; [done |]. rewrite c_str_id in Hy by done. congruence. }
  case_decide; [| by apply Hun]. destruct Hcase as (ids & _ & Hcase).
  case_decide; [by apply Hun |]. eapply tree_unchanged; [done | apply Hcase].
Qed.

Lemma rmdir_tree env req s resp s' :
  fe_inv s -> fe_tree s -> env_ok env -> no_nul (rmdir_pathname req) ->
  fe_Rmdir env req s = Some (resp, s') -> fe_tree s'.
Proof.
  intros Hs Ht Henv Hnul Hrun. apply rmdir_branches in Hrun as [_ Hrun]; [| done ..].
  set (path := target_of (rmdir_pathname req)) in *.
  assert (Hc : c_str path = path) by (by apply c_str_id, no_nul_normal).
  destruct Hrun as [(_ & _ & ->)|[(_ & _ & ->)|(e & He & Hcase)]]; [done | done |].
  destruct Hcase as [(_ & _ & ->)|[(_ & _ & -> & _)|(_ & Hch & Hu)]]; [done | done |].
  eapply unbinds_tree; [done | exact Hu |]. rewrite Hc.
  intros d name x Hd Hn _ _ _ Hx ->. pose proof Hx as (Hv & Hpx & Hlx)%resolve_spec; [| done].
  apply (Hch name x). apply valid_name_spec in Hn as (Hne & _ & _ & Hns).
  split_and!; [done | done |]. rewrite Hpx, canonical_trim by (by apply join_canonical).
  by apply direct_child_spec.
Qed.

Lemma grown_mode t off len e : mode (grown t off len e) = mode e.
Proof. unfold grown. by case_decide. Qed.

Lemma write_tree env req s resp s' :
  fe_inv s -> fe_tree s -> env_ok env -> fe_Write env req s = Some (resp, s') -> fe_tree s'.
Proof.
  intros Hs Ht Henv Hrun. apply write_branches in Hrun as [_ Hrun]; [| done ..].
  destruct Hrun as [(_ & _ & ->)|(e & He & Hcase)]; [done |].
  case_decide; [by destruct Hcase as [_ ->] |]. destruct Hcase as (ids & _ & Hcase).
  case_decide; [| eapply tree_unchanged; [done | apply Hcase]].
  destruct Hcase as [(_ & _ & Hr)|(_ & _ & [Hu|[_ Hr]])];
    [eapply tree_update; [done | exact Hr | done | apply grown_mode] | by eapply tree_unchanged |
     eapply tree_update; [done | exact Hr | done | apply grown_mode]].
Qed.

(** ** Reads change no names *)

Lemma read_replicas_nodes xs i ids fid off len q m st res st' :
  read_replicas xs i ids fid off len q m st = Some (res, st') -> same_nodes st st'.
Proof.
  revert i m st. induction ids as [|id ids IH]; intros i m st; cbn [read_replicas]; [by intros [= _ <-] |].
  case_decide; [apply IH |].
  destruct (storage_interface_read _ _ _ _ _ _ _ _ _) as [[[rc resp] st1]|] eqn:Hr; [| done].
  apply read_result in Hr as [Hs _]. repeat case_match; try (intros Hrun; etrans; [exact Hs | by eapply IH]).
  by intros [= _ <-].
Qed.

Lemma get_keeps env req s resp s' :
  fe_inv s -> fe_Get env req s = Some (resp, s') -> fe_inv s' /\ unchanged s s'.
Proof.
  intros Hs. unfold fe_Get. destruct (metadata_lookup_by_path _ _) as [a|]; [| by intros [= _ <-]].
  case_decide; [by intros [= _ <-] |]. intros (ids & _ & ([v st] & Hrd & Hrun)%bind_Some)%bind_Some.
  apply read_replicas_nodes in Hrd. pose proof (storage_inv _ _ Hs Hrd).
  destruct v; injection Hrun as _ <-; (split; [done | apply unchanged_storage]).
Qed.

Lemma readdir_keeps req s resp s' : fe_ReadDirectory req s = Some (resp, s') -> s' = s.
Proof.
  unfold fe_ReadDirectory. case_decide; [| congruence].
  destruct (metadata_lookup_by_path _ _) as [a|]; [| congruence].
  destruct (S_ISDIR _); cbn [negb]; congruence.
Qed.

Lemma as_method_Some {E Req Resp} (h : E -> Req -> frontend -> option (Resp * frontend)) e req s s' :
  (as_method h e req (Some s)).2 = Some s' -> exists resp, h e req s = Some (resp, s').
Proof.
  unfold as_method. cbn [mbind option_bind]. destruct (h e req s) as [[resp s1]|]; [| done].
  intros [= <-]. eauto.
Qed.

Lemma call_keeps env c s s' :
  fe_inv s -> fe_tree s -> call_ok env c s -> serve (H := frontend_service) env c (Some s) = Some s' ->
  fe_inv s' /\ fe_tree s'.
Proof.
  intros Hs Ht [Henv Hc]. destruct c as [r|r|r|r|r|r|r]; cbn [serve frontend_service Create Mkdir Remove Rmdir Write Get ReadDirectory];
    intros [resp Hrun]%as_method_Some.
  - destruct Hc as (Hm & Hf & Hn1 & Hn2 & Hlen). apply create_branches in Hrun as [Hs' Hcase]; try done.
    split; [done |]. destruct Hcase as [Hmk|(_ & _ & Hu)]; [by eapply (makes_tree env s s'); [.. | exact Hmk] | by eapply tree_unchanged].
  - destruct Hc as (Hm & Hf & Hn1 & Hn2 & Hlen). apply mkdir_branches in Hrun as [Hs' Hmk]; try done.
    split; [done | by eapply (makes_tree env s s'); [.. | exact Hmk]].
  - split; [by eapply remove_branches | by eapply remove_tree].
  - split; [by eapply rmdir_branches | by eapply rmdir_tree].
  - split; [by eapply write_branches | by eapply write_tree].
  - apply get_keeps in Hrun as [? Hu]; [| done]. split; [done | by eapply tree_unchanged].
  - apply readdir_keeps in Hrun as ->. done.
Qed.

(** Such a message changes no entry: no proposal of this node is under way. *)
Lemma message_keeps cb m s n g :
  fe_inv s -> message_between cb m ->
  replica_step (M := metadata_machine) cb m (g_paxos s, g_metadata s) = Some (n, g) ->
  let s' := MkFrontend n g (g_storage s) in fe_inv s' /\ forall id, view s' id = view s id.
Proof.
  intros [Hok He Hp Hst] (Hc1 & Hc2 & Hph) Hrun s'.
  assert (Hev : event_ok (Msg cb m)) by done.
  pose proof (decode_serialize_binding demo_entry demo_entry_ok) as Hv. revert Hv.
  generalize (metadata_serialize demo_entry). intros v Hv.
  destruct (msg_step demo_entry v Hv None cb m _ _ n g (proj1 (idle_held v _) (fok_paxos _ Hok))
    (fok_map _ Hok) Hev Hrun) as (l & (Hh & Hm & _ & Hl) & Hcase).
  assert (Hview : forall id, view s' id = view s id).
  { intros id. unfold view at 1. cbn [s' g_metadata]. rewrite Hl.
    destruct Hcase as [(Hall & _)|(_ & _ & Hf & _)]; [| done].
    destruct l as [|x l]; [done |]. apply list.Forall_cons in Hall as [(? & _) _]. done. }
  split; [| done]. split; [split; [by apply (idle_held v) | done] | | | done].
  - intros id e. rewrite Hview. apply He.
  - intros id id' e e'. rewrite !Hview. apply Hp.
Qed.

Lemma reachable_inv s : fe_reachable s -> fe_inv s /\ fe_tree s.
Proof.
  induction 1 as [e id port total addrs s net Henv Hinit|env c s s' _ [Hs Ht] Hc Hrun
                 |cb m s n g _ [Hs Ht] Hm Hrun].
  - destruct (start_inv _ _ _ _ _ _ _ Henv Hinit) as [Hs Hempty]. split; [done |].
    intros p x. by rewrite Hempty.
  - by eapply call_keeps.
  - destruct (message_keeps cb m s n g Hs Hm Hrun) as [Hs' Hview]. split; [done |].
    eapply tree_unchanged; [done |]. by apply view_unchanged.
Qed.

(** C2: the frontend's name space is a tree while calls do not overlap. A frontend that is
    started, answers calls one after the other and between them handles Paxos messages
    other than LEARN keeps its hash map and entries well-formed, has no proposal slot in
    use and no two live entries at one path, and every path that resolves is a valid name
    in the root or in a path that resolves to a directory. During a call no other
    proposer's entry arrives, names are free of embedded NULs, new paths fit their array
    and new identifiers are not in use ([call_ok]). Overlapping calls can break this
    ([frontend_create_races]). *)
Theorem frontend_reachable_tree s : fe_reachable s -> fe_inv s /\ fe_tree s.
Proof. apply reachable_inv. Qed.
