(* ===== verification/FrontendDemo.v ===== *)
(** * The frontend: a concrete cluster

    A frontend of three with the default storage nodes makes a directory and a file in
    it, writes and reads the file, lists the directory and removes both: one concrete
    run that meets the hypotheses of the frontend's theorems. *)

From stdpp Require Import base gmap strings list numbers.
From S2P Require Import Prelude CString FusedFs Proto RpcServer Network Storage Paxos.
From S2P Require Import PaxosThm PaxosLive Metadata MetadataThm MetadataPath Replica.
From S2P Require Import Frontend FrontendCommit FrontendPath FrontendQuorum.
From S2P Require Import FrontendInv FrontendThm FrontendLive FrontendData FrontendInit.

#[local] Open Scope Z_scope.

(** ** The surroundings *)

Definition demo_init : init_env :=
  MkInitEnv true true (fun _ => true) 0 [] [] [] true 3 true true true None (fun _ => None) true None 100.

Definition demo_start : option (option (frontend * network_engine)) :=
  initialize_distributed_system demo_init 1 8001 3 ["2@metadata-node-2:7002"%string].

Definition stuck : frontend * network_engine :=
  (MkFrontend live_node fresh_manager (storage_interface_init 0), network_engine_init 0 0).

Definition fe0 : frontend := (default stuck (default None demo_start)).1.

Definition demo_step : commit_event := Step (MkObs true 0 1 Woken) (MkCb true true demo_io).

Definition demo_msg (ph pid : Z) : commit_event := Msg (MkCb true true demo_io) (PaxosLive.answer ph pid).

(** A proposal that one of the two other nodes promises and accepts. *)
Definition demo_schedule (pid : Z) : list commit_event :=
  replicate 4 demo_step ++ [demo_msg PAXOS_PHASE_PROMISE pid] ++ replicate 6 demo_step ++
  [demo_msg PAXOS_PHASE_ACCEPTED pid; demo_step].

Definition demo_bytes : list Z := [104; 105; 33].

Definition demo_env (uuid : string) (pid : Z) : fe_env :=
  MkFeEnv uuid 1000 1000 1700000000 true (demo_schedule pid)
    (fun k => MkExch true 20 [3] (if decide (k = 2)%nat then None else Some "OK|3"%string) EmptyString)
    (fun k => MkReadX (fun _ => true) true 20 [if decide (k = 0)%nat then None else Some demo_bytes])
    (fun _ => MkDelX true 20 (Some "OK"%string)) false (Some 1) (Some 3) (fun _ _ => None).

Lemma demo_schedule_phases pid cb m :
  Msg cb m ∈ demo_schedule pid ->
  cb = MkCb true true demo_io /\ phase m <> PAXOS_PHASE_LEARN.
Proof.
  unfold demo_schedule. intros Hin. repeat setoid_rewrite elem_of_app in Hin.
  destruct Hin as [Hin|[Hin|[Hin|Hin]]].
  - apply elem_of_replicate in Hin as [Hin _]. discriminate.
  - apply list_elem_of_singleton in Hin. injection Hin as -> ->. split; [done |]. simpl. discriminate.
  - apply elem_of_replicate in Hin as [Hin _]. discriminate.
  - apply elem_of_cons in Hin as [Hin|Hin].
    + injection Hin as -> ->. split; [done |]. simpl. discriminate.
    + apply list_elem_of_singleton in Hin. discriminate.
Qed.

Lemma demo_env_ok uuid pid : env_ok (demo_env uuid pid).
Proof.
  unfold env_ok, u32_ok, time_ok. cbn [demo_env fe_uid fe_gid fe_time fe_schedule].
  split_and!; try lia.
  - apply list.Forall_forall. intros [cb m|ob cb] Hin; [| done].
    apply demo_schedule_phases in Hin as [-> Hph]. split_and!; done.
  - intros x (cb & m & [_ Hph]%demo_schedule_phases & Hx & _). done.
Qed.

Lemma demo_started : demo_start = Some (Some (fe0, (default stuck (default None demo_start)).2)).
Proof. vm_compute. reflexivity. Qed.

Lemma fe0_reachable : fe_reachable fe0.
Proof. eapply fe_start; [| exact demo_started]. exact I. Qed.

(** ** The run *)

Definition mkdir_req : MkdirRequest := MkMkdirReq "" "videos" 493.
Definition create_req : CreateRequest := MkCreateReq "videos/" "a.mp4" 420.
Definition write_req : WriteRequest := MkWriteReq "/videos/a.mp4" demo_bytes 0.
Definition get_req : GetRequest := MkGetReq "/videos/a.mp4" 0 0.

Definition after {Resp} (r : option (Resp * frontend)) : frontend := default fe0 (snd <$> r).

Definition fe1 : frontend := after (fe_Mkdir (demo_env "id-1" 65537) mkdir_req fe0).
Definition fe2 : frontend := after (fe_Create (demo_env "id-2" 131073) create_req fe1).
Definition fe3 : frontend := after (fe_Write (demo_env "" 196609) write_req fe2).

Definition answers {Resp} (r : option (Resp * frontend)) : option Resp := fst <$> r.

Lemma after_eq {Resp} (r : option (Resp * frontend)) resp :
  answers r = Some resp -> r = Some (resp, after r).
Proof. destruct r as [[x s]|]; [| done]. by intros [= ->]. Qed.

Lemma mkdir_call : call_ok (demo_env "id-1" 65537) (CallMkdir mkdir_req) fe0.
Proof.
  split; [apply demo_env_ok |]. unfold u32_ok, fresh_id. cbn [mkdir_req mkdir_mode mkdir_pathname dirname].
  split_and!; [lia | lia | vm_compute; reflexivity | done | vm_compute; by split_and! | vm_compute; lia].
Qed.

Lemma fe1_eq : fe_Mkdir (demo_env "id-1" 65537) mkdir_req fe0 = Some (MkStatus 0 "", fe1).
Proof. unfold fe1. apply after_eq. vm_compute. reflexivity. Qed.

Lemma as_method_serve {E Req Resp} (h : E -> Req -> frontend -> option (Resp * frontend)) e req s resp s' :
  h e req s = Some (resp, s') -> (as_method h e req (Some s)).2 = Some s'.
Proof. unfold as_method. cbn [mbind option_bind]. by intros ->. Qed.

Lemma fe1_reachable : fe_reachable fe1.
Proof.
  eapply fe_call; [apply fe0_reachable | apply mkdir_call |].
  exact (as_method_serve fe_Mkdir _ _ _ _ _ fe1_eq).
Qed.

Lemma create_call : call_ok (demo_env "id-2" 131073) (CallCreate create_req) fe1.
Proof.
  split; [apply demo_env_ok |]. unfold u32_ok, fresh_id.
  cbn [create_req create_mode create_pathname filename].
  split_and!; [lia | lia | vm_compute; reflexivity | vm_compute; by split_and! .. | vm_compute; lia].
Qed.

Lemma fe2_eq : fe_Create (demo_env "id-2" 131073) create_req fe1 = Some (MkStatus 0 "", fe2).
Proof. unfold fe2. apply after_eq. vm_compute. reflexivity. Qed.

Lemma fe2_reachable : fe_reachable fe2.
Proof.
  eapply fe_call; [apply fe1_reachable | apply create_call |].
  exact (as_method_serve fe_Create _ _ _ _ _ fe2_eq).
Qed.

Lemma fe3_eq : fe_Write (demo_env "" 196609) write_req fe2 = Some (MkWriteResp 3 0 "", fe3).
Proof. unfold fe3. apply after_eq. vm_compute. reflexivity. Qed.

Lemma fe3_reachable : fe_reachable fe3.
Proof.
  eapply (fe_call (demo_env "" 196609) (CallWrite write_req)); [apply fe2_reachable | split; [apply demo_env_ok | exact I] |].
  exact (as_method_serve fe_Write _ _ _ _ _ fe3_eq).
Qed.

Lemma demo_inv s : fe_reachable s -> fe_inv s.
Proof. intros Hs. apply (reachable_inv s Hs). Qed.

(** ** Witnesses *)

Lemma frontend_reachable_tree_witness : fe_inv fe3 /\ fe_tree fe3.
Proof. exact (frontend_reachable_tree fe3 fe3_reachable). Defined.

Lemma frontend_commit_spec_witness :
  exists s', commit_metadata_with_paxos (demo_env "" 65537) demo_entry fe0 = Some (true, s') /\
    exists l, (forall id, view s' id = view_after (view fe0) l id) /\ demo_entry ∈ l.
Proof.
  destruct (commit_metadata_with_paxos (demo_env "" 65537) demo_entry fe0) as [[b s']|] eqn:Hc.
  - assert (Hb : (fst <$> commit_metadata_with_paxos (demo_env "" 65537) demo_entry fe0) = Some true)
      by (vm_compute; reflexivity).
    rewrite Hc in Hb. injection Hb as ->.
    destruct (frontend_commit_spec (demo_env "" 65537) demo_entry fe0 true s' demo_entry_ok
      (inv_ok _ (demo_inv _ fe0_reachable)) (proj1 (proj2 (proj2 (proj2 (demo_env_ok "" 65537))))) Hc)
      as (_ & _ & _ & l & Hv & _ & Hin & _).
    exists s'. split; [reflexivity |]. exists l. split; [exact Hv | exact (Hin eq_refl)].
  - assert (Hn : bool_decide (is_Some (commit_metadata_with_paxos (demo_env "" 65537) demo_entry fe0)) = true)
      by (vm_compute; reflexivity).
    rewrite Hc in Hn. discriminate.
Defined.

Lemma frontend_child_roundtrip_witness :
  is_direct_child_path "/videos" "/videos/a.mp4" = Some "a.mp4"%string /\
  join_path "/videos" "a.mp4" = join_path "videos//" "a.mp4".
Proof.
  destruct (frontend_child_roundtrip "videos//" "/videos/a.mp4" "a.mp4") as [H1 H2]. split.
  - apply H1. vm_compute. split_and!; [reflexivity | discriminate | intuition discriminate].
  - apply H2. vm_compute. reflexivity.
Defined.

Lemma frontend_mkdir_refines_witness :
  makes (demo_env "id-1" 65537) fe0 fe1 "" "videos" 0 (new_dir 493).
Proof.
  destruct mkdir_call as [Henv (Hm & Hf & _ & _ & Hl)].
  exact (proj2 (frontend_mkdir_refines (demo_env "id-1" 65537) mkdir_req fe0 (MkStatus 0 "") fe1
    (demo_inv _ fe0_reachable) Henv Hm Hf Hl fe1_eq)).
Defined.

Lemma frontend_create_refines_witness :
  makes (demo_env "id-2" 131073) fe1 fe2 "videos/" "a.mp4" 0 (new_file 420) \/
  admitted fe1 "videos/" "a.mp4" /\ 0 = - ENODEV /\ unchanged fe1 fe2.
Proof.
  destruct create_call as [Henv (Hm & Hf & _ & _ & Hl)].
  exact (proj2 (frontend_create_refines (demo_env "id-2" 131073) create_req fe1 (MkStatus 0 "") fe2
    (demo_inv _ fe1_reachable) Henv Hm Hf Hl fe2_eq)).
Defined.

Definition remove_req : RemoveRequest := MkRemoveReq "/videos/a.mp4/".

Lemma remove_eq :
  fe_Remove (demo_env "" 262145) remove_req fe3 =
  Some (MkStatus 0 "", after (fe_Remove (demo_env "" 262145) remove_req fe3)).
Proof. apply after_eq. vm_compute. reflexivity. Qed.

Lemma frontend_remove_refines_witness : fe_inv (after (fe_Remove (demo_env "" 262145) remove_req fe3)).
Proof.
  exact (proj1 (frontend_remove_refines (demo_env "" 262145) remove_req fe3 _ _
    (demo_inv _ fe3_reachable) (demo_env_ok _ _) remove_eq)).
Defined.

Definition rmdir_req : RmdirRequest := MkRmdirReq "videos".

Lemma rmdir_eq :
  fe_Rmdir (demo_env "" 131073) rmdir_req fe1 =
  Some (MkStatus 0 "", after (fe_Rmdir (demo_env "" 131073) rmdir_req fe1)).
Proof. apply after_eq. vm_compute. reflexivity. Qed.

Lemma frontend_rmdir_refines_witness : fe_inv (after (fe_Rmdir (demo_env "" 131073) rmdir_req fe1)).
Proof.
  exact (proj1 (frontend_rmdir_refines (demo_env "" 131073) rmdir_req fe1 _ _
    (demo_inv _ fe1_reachable) (demo_env_ok _ _) rmdir_eq)).
Defined.

Lemma frontend_write_refines_witness : fe_inv fe3.
Proof.
  exact (proj1 (frontend_write_refines (demo_env "" 196609) write_req fe2 (MkWriteResp 3 0 "") fe3
    (demo_inv _ fe2_reachable) (demo_env_ok _ _) fe3_eq)).
Defined.

(** The file before and after the write. *)
Definition entry2 : metadata_entry := default zero_entry (resolve fe2 "/videos/a.mp4").
Definition entry3 : metadata_entry := default zero_entry (resolve fe3 "/videos/a.mp4").

Lemma resolve_default s p :
  is_Some (resolve s p) -> resolve s p = Some (default zero_entry (resolve s p)).
Proof. by intros [e ->]. Qed.

Definition demo_ids : list Z := [101; 102; 103].

Definition get_resp : GetResponse := MkGetResp demo_bytes 3 0 "".

Lemma get_eq :
  fe_Get (demo_env "" 0) get_req fe3 = Some (get_resp, after (fe_Get (demo_env "" 0) get_req fe3)).
Proof. apply after_eq. vm_compute. reflexivity. Qed.

Lemma entry2_resolved : resolve fe2 (c_str (normalize_path (write_pathname write_req))) = Some entry2.
Proof. apply resolve_default. apply (bool_decide_eq_true_1 _). vm_compute. reflexivity. Qed.

Lemma entry3_resolved : resolve fe3 (c_str (normalize_path (get_pathname get_req))) = Some entry3.
Proof. apply resolve_default. apply (bool_decide_eq_true_1 _). vm_compute. reflexivity. Qed.

Lemma frontend_get_majority_witness :
  unchanged fe3 (after (fe_Get (demo_env "" 0) get_req fe3)).
Proof.
  refine (proj1 (proj2 (frontend_get_majority (demo_env "" 0) get_req fe3 get_resp _ entry3 demo_ids
    (demo_inv _ fe3_reachable) entry3_resolved _ _ get_eq))).
  - vm_compute. discriminate.
  - vm_compute. reflexivity.
Defined.

Lemma frontend_read_meets_write_witness :
  exists k id, demo_ids !! k = Some id /\ id <> 0 /\
    write_ack (fe_writes (demo_env "" 196609) k) id 3 (g_storage fe2) /\
    reports (fe_reads (demo_env "" 0) k) id 3 (g_storage fe3) demo_bytes.
Proof.
  refine (frontend_read_meets_write (demo_env "" 196609) write_req fe2 (MkWriteResp 3 0 "") fe3 entry2 demo_ids
    (demo_env "" 0) get_req fe3 get_resp _ entry3 (demo_inv _ fe2_reachable) (demo_env_ok _ _) fe3_eq eq_refl
    entry2_resolved _ (demo_inv _ fe3_reachable) entry3_resolved _ _ _ get_eq eq_refl).
  - vm_compute. reflexivity.
  - vm_compute. reflexivity.
  - vm_compute. reflexivity.
  - vm_compute. discriminate.
Defined.

Definition readdir_req : ReadDirectoryRequest := MkReaddirReq "/videos".

Definition readdir_resp : ReadDirectoryResponse :=
  MkReaddirResp [MkFileEntry "a.mp4" false 3 1700000000] 0 "".

Lemma readdir_eq :
  fe_ReadDirectory readdir_req fe3 = Some (readdir_resp, after (fe_ReadDirectory readdir_req fe3)).
Proof. apply after_eq. vm_compute. reflexivity. Qed.

Lemma frontend_readdir_spec_witness : exists e, child_of fe3 (target_of "/videos") "a.mp4" e.
Proof.
  destruct (frontend_readdir_spec readdir_req fe3 readdir_resp _ (demo_inv _ fe3_reachable) readdir_eq)
    as (_ & _ & _ & H & _).
  apply (proj1 (H eq_refl)). left.
Defined.

Definition demo_cb : cb_env := MkCb true true demo_io.

Lemma demo_answers :
  quorum_answers (demo_env "id-2" 131073) fe1 demo_cb (MkObs true 0 1 Woken)
    [PaxosLive.answer PAXOS_PHASE_PROMISE 131073] [PaxosLive.answer PAXOS_PHASE_ACCEPTED 131073] [].
Proof.
  split; [reflexivity | reflexivity | by split_and! | | | | vm_compute; reflexivity | vm_compute; discriminate ..].
  - unfold obs_ok. simpl. split_and!; [done | done | lia | done].
  - split; (constructor; [| constructor]); [by left | by right].
  - by vm_compute.
Qed.

Lemma demo_can_propose : can_propose fe1.
Proof.
  split; [vm_compute; reflexivity | vm_compute; lia | vm_compute; reflexivity |].
  split; [vm_compute; discriminate | vm_compute; reflexivity].
Qed.

Lemma demo_admitted : admitted fe1 "videos/" "a.mp4".
Proof.
  split_and!; [vm_compute; reflexivity | right | vm_compute; reflexivity].
  exists (default zero_entry (resolve fe1 "/videos")). split; [| vm_compute; reflexivity].
  change (c_str (parent_of "videos/")) with "/videos"%string. apply resolve_default.
  apply (bool_decide_eq_true_1 _). vm_compute. reflexivity.
Qed.

Lemma frontend_create_succeeds_witness :
  exists s' e, fe_Create (demo_env "id-2" 131073) create_req fe1 = Some (MkStatus 0 "", s') /\ fe_inv s' /\
    new_file 420 e /\ resolve s' (new_path "videos/" "a.mp4") = Some e.
Proof.
  destruct create_call as [Henv (Hm & Hf & _ & _ & Hl)].
  refine (frontend_create_succeeds (demo_env "id-2" 131073) create_req fe1 demo_cb _ _ _ _ 0
    (demo_inv _ fe1_reachable) Henv Hm Hf Hl demo_admitted _ _ demo_can_propose demo_answers).
  - vm_compute. lia.
  - vm_compute. split; [reflexivity | discriminate].
Defined.
