(* ===== verification/FrontendConc.v ===== *)
(** * The frontend: interleaved requests

    gRPC runs handlers in several threads.  [g_coordinator_lock] makes all of a handler one
    step, except that [Create] and [Mkdir] check their request before they take it: here
    they are two steps, and any steps of other handlers and of the network thread may come
    in between, entries announced by other frontends included. *)

From stdpp Require Import base gmap strings list numbers.
From S2P Require Import Prelude CString FusedFs Proto RpcServer Network Storage Paxos.
From S2P Require Import PaxosThm Metadata MetadataThm MetadataPath Replica.
From S2P Require Import Frontend FrontendCommit FrontendPath FrontendQuorum.
From S2P Require Import FrontendInv FrontendThm FrontendData FrontendInit FrontendDemo.

#[local] Open Scope Z_scope.

(** ** Steps *)

(** A request whose checks have passed and that waits for the lock, with the path to make. *)
Inductive task :=
| TCreate (full_path : string) (md : Z)
| TMkdir (full_path : string) (md : Z).

(** The process; [answered] are the status codes of the requests answered so far. *)
Record process := MkProcess { core : frontend; tasks : list task; answered : list Z }.

(** [Create] and [Mkdir] under the lock. *)
Definition run_task (e : fe_env) (t : task) (s : frontend) : option (StatusResponse * frontend) :=
  match t with
  | TCreate p md => create_locked e p md s
  | TMkdir p md => commit_and_answer e (proposed e p (Z.lor S_IFDIR md)) s
  end.

(** The status code of a call and the state after it. *)
Definition call_status (e : fe_env) (c : rpc_call) (s : frontend) : option (Z * frontend) :=
  match c with
  | CallCreate r => prod_map status_code id <$> fe_Create e r s
  | CallMkdir r => prod_map status_code id <$> fe_Mkdir e r s
  | CallRemove r => prod_map status_code id <$> fe_Remove e r s
  | CallRmdir r => prod_map status_code id <$> fe_Rmdir e r s
  | CallWrite r => prod_map write_status id <$> fe_Write e r s
  | CallGet r => prod_map get_status id <$> fe_Get e r s
  | CallReadDirectory r => prod_map readdir_status id <$> fe_ReadDirectory r s
  end.

Inductive proc_event :=
| ECheck (c : rpc_call)
| ELocked (e : fe_env) (i : nat)
| ECall (e : fe_env) (c : rpc_call)
| EMessage (cb : cb_env) (m : paxos_message).

(** What the checks of a request leave to do: the answer, or a task. *)
Definition checked (c : rpc_call) (s : frontend) : option (StatusResponse + task) :=
  let wrap (mk : string -> task) (r : StatusResponse + string) :=
    match r with inl resp => inl resp | inr p => inr (mk p) end in
  match c with
  | CallCreate r => Some (wrap (fun p => TCreate p (create_mode r))
      (check_new "Invalid filename" "File already exists" (create_pathname r) (filename r) (g_metadata s)))
  | CallMkdir r => Some (wrap (fun p => TMkdir p (mkdir_mode r))
      (check_new "Invalid directory name" "Directory already exists" (mkdir_pathname r) (dirname r) (g_metadata s)))
  | _ => None
  end.

(** [None]: the step does not return, or there is no such step. *)
Definition proc_step (ev : proc_event) (p : process) : option process :=
  match ev with
  | ECheck c =>
      r ← checked c (core p);
      Some (match r with
            | inl resp => MkProcess (core p) (tasks p) (answered p ++ [status_code resp])
            | inr t => MkProcess (core p) (tasks p ++ [t]) (answered p)
            end)
  | ELocked e i =>
      t ← tasks p !! i;
      '(resp, s) ← run_task e t (core p);
      Some (MkProcess s (delete i (tasks p)) (answered p ++ [status_code resp]))
  | ECall e c =>
      '(code, s) ← call_status e c (core p);
      Some (MkProcess s (tasks p) (answered p ++ [code]))
  | EMessage cb m =>
      '(n, g) ← replica_step (M := metadata_machine) cb m (g_paxos (core p), g_metadata (core p));
      Some (MkProcess (MkFrontend n g (g_storage (core p))) (tasks p) (answered p))
  end.

Definition proc_run (evs : list proc_event) (p : process) : option process :=
  foldl (fun p ev => p ≫= proc_step ev) (Some p) evs.

(** The two steps of a request with nothing in between are the handler of [Frontend]. *)
Lemma check_then_lock e c s :
  (exists r, c = CallCreate r) \/ (exists r, c = CallMkdir r) ->
  call_status e c s =
    match checked c s with
    | Some (inl resp) => Some (status_code resp, s)
    | Some (inr t) => prod_map status_code id <$> run_task e t s
    | None => None
    end.
Proof.
  intros [[r ->]|[r ->]]; cbn [call_status checked]; unfold fe_Create, fe_Mkdir;
    by destruct (check_new _ _ _ _ _).
Qed.

(** ** What every interleaving keeps *)

Record base_inv (s : frontend) : Prop := {
  base_ok : frontend_ok s;
  base_entries : forall id e, view s id = Some e -> entry_ok e;
  base_storage : storage_ok (g_storage s);
}.

(** Caller and clock give values of their types; announced entries are entries. *)
Definition env_typed (env : fe_env) : Prop :=
  u32_ok (fe_uid env) /\ u32_ok (fe_gid env) /\ time_ok (fe_time env) /\ Forall event_ok (fe_schedule env).

Definition task_mode (t : task) : Z := match t with TCreate _ md | TMkdir _ md => md end.

Definition call_mode (c : rpc_call) : Z :=
  match c with CallCreate r => create_mode r | CallMkdir r => mkdir_mode r | _ => 0 end.

Definition proc_event_ok (ev : proc_event) : Prop :=
  match ev with
  | ECheck c => u32_ok (call_mode c)
  | ELocked e _ => env_typed e
  | ECall e c => env_typed e /\ u32_ok (call_mode c)
  | EMessage cb m => event_ok (Msg cb m)
  end.

Lemma base_view s s' l :
  base_inv s -> frontend_ok s' -> storage_ok (g_storage s') ->
  (forall id, view s' id = view_after (view s) l id) -> Forall entry_ok l -> base_inv s'.
Proof.
  intros Hs Hok Hst Hl He. split; [done | | done]. intros id e. rewrite Hl.
  assert (Hgen : forall w : string -> option metadata_entry, (forall i x, w i = Some x -> entry_ok x) ->
    view_after w l id = Some e -> entry_ok e); [| apply Hgen, Hs].
  clear Hl. induction He as [|x l Hx _ IH]; intros w Hw Hv; [exact (Hw _ _ Hv) |].
  refine (IH _ _ Hv). intros i y. case_decide; [by intros [= <-] | apply Hw].
Qed.

Lemma base_commit env e s b s' :
  base_inv s -> env_typed env -> entry_ok e -> commit_metadata_with_paxos env e s = Some (b, s') ->
  base_inv s'.
Proof.
  intros Hs (_ & _ & _ & Hev) He Hc.
  destruct (commit_ok _ _ _ _ _ He (base_ok _ Hs) Hev Hc) as (Hok & Hst & _ & l & Hl & Hfrom & _).
  eapply (base_view s); [done | done | rewrite Hst; apply Hs | exact Hl |].
  eapply list.Forall_impl; [exact Hfrom |]. intros x [->|(cb & m & _ & (_ & ? & _))]; done.
Qed.

Lemma base_answer env e s resp s' :
  base_inv s -> env_typed env -> entry_ok e -> commit_and_answer env e s = Some (resp, s') -> base_inv s'.
Proof.
  intros Hs Henv He ([b s1] & Hc & Hr)%bind_Some. pose proof (base_commit _ _ _ _ _ Hs Henv He Hc).
  destruct b; by injection Hr as _ <-.
Qed.

Lemma base_nodes s st :
  base_inv s -> same_nodes (g_storage s) st -> base_inv (MkFrontend (g_paxos s) (g_metadata s) st).
Proof. intros [[? ?] ? ?] Hst. split; [by split | done |]. by eapply storage_ok_same. Qed.

Lemma base_message cb m s n g :
  base_inv s -> event_ok (Msg cb m) ->
  replica_step (M := metadata_machine) cb m (g_paxos s, g_metadata s) = Some (n, g) ->
  base_inv (MkFrontend n g (g_storage s)).
Proof.
  intros Hs Hev Hr. pose proof (base_ok _ Hs) as [Hi Hm].
  assert (Hv : decode_binding (metadata_serialize zero_entry) = Some (file_id zero_entry, zero_entry))
    by (vm_compute; reflexivity).
  destruct (msg_step zero_entry _ Hv None cb m _ _ _ _ (proj1 (idle_held _ _) Hi) Hm Hev Hr)
    as (l & (Hh & Hok & _ & Hl) & Hcase).
  eapply (base_view s _ l); [done | split; [by eapply idle_held | done] | apply Hs | exact Hl |].
  destruct Hcase as [(Hlearn & _)|(-> & _ & Hf & _)]; [| discriminate Hf].
  eapply list.Forall_impl; [exact Hlearn |]. by intros x (_ & ? & _).
Qed.

(** A looked-up entry is well-formed. *)
Lemma base_lookup s p a :
  base_inv s -> metadata_lookup_by_path (g_metadata s) p = Some a -> entry_ok (Metadata.deref (g_metadata s) a).
Proof.
  intros Hs Ha. pose proof (by_path_spec (g_metadata s) p (fok_map _ (base_ok _ Hs))) as Hp. rewrite Ha in Hp.
  destruct Hp as (_ & _ & Hv). by eapply (base_entries _ Hs).
Qed.

Lemma base_live s p e : base_inv s -> live_entry (g_metadata s) p = Some e -> entry_ok e.
Proof.
  intros Hs (a & Ha & He)%bind_Some. case_decide; [done |]. injection He as <-. by eapply base_lookup.
Qed.

Lemma task_keeps env t s resp s' :
  base_inv s -> env_typed env -> u32_ok (task_mode t) -> run_task env t s = Some (resp, s') -> base_inv s'.
Proof.
  intros Hs Henv Hmd. pose proof Henv as (Hu & Hg & Ht & _). destruct t as [p md|p md]; cbn [run_task task_mode] in *.
  - unfold create_locked. destruct (storage_interface_select_nodes _ _ _) as [[num sel] st] eqn:Hsel.
    destruct (select_result _ _ _ _ _ _ Hsel ltac:(done)) as (Hsame & Hnum & Hle).
    pose proof (base_nodes s st Hs Hsame) as Hs1. case_decide; [by intros [= _ <-] |].
    apply base_answer; [done | done |]. apply set_counts_ok; [| unfold u32_ok, MAX_REPLICAS in *; lia].
    apply assign_nodes_ok; [apply Hs1 |]. apply proposed_typed; try done.
    apply lor_u32; [unfold u32_ok, S_IFREG; lia | done].
  - apply base_answer; [done | done |]. apply proposed_typed; try done.
    apply lor_u32; [unfold u32_ok, S_IFDIR; lia | done].
Qed.

Lemma remove_keeps env req s resp s' :
  base_inv s -> env_typed env -> fe_Remove env req s = Some (resp, s') -> base_inv s'.
Proof.
  intros Hs Henv. unfold fe_Remove. case_decide; [by intros [= _ <-] |].
  destruct (live_entry _ _) as [e|] eqn:He; [| by intros [= _ <-]].
  assert (Hok : entry_ok (tombstone (fe_time env) e)) by (apply tombstone_ok; [by eapply base_live | apply Henv]).
  destruct (S_ISDIR _); [by intros [= _ <-] |]. case_decide; [| by apply base_answer].
  intros (ids & _ & Hr)%bind_Some. destruct (delete_replicas _ _ _ _ _ _) as [c st] eqn:Hd.
  assert (Hs1 : base_inv (MkFrontend (g_paxos s) (g_metadata s) st)).
  { apply base_nodes; [done |]. pose proof (delete_replicas_nodes (fe_deletes env) 0 ids (file_id e) 0 (g_storage s)) as Hn.
    by rewrite Hd in Hn. }
  case_decide; [by injection Hr as _ <- |]. by eapply base_answer.
Qed.

Lemma rmdir_keeps env req s resp s' :
  base_inv s -> env_typed env -> fe_Rmdir env req s = Some (resp, s') -> base_inv s'.
Proof.
  intros Hs Henv. unfold fe_Rmdir. case_decide; [by intros [= _ <-] |].
  destruct (live_entry _ _) as [e|] eqn:He; [| by intros [= _ <-]].
  destruct (negb _); [by intros [= _ <-] |]. destruct (directory_has_children _ _); [by intros [= _ <-] |].
  apply base_answer; [done | done |]. apply tombstone_ok; [by eapply base_live | apply Henv].
Qed.

Lemma write_nodes xs i ids fid off bytes c b st r :
  write_replicas xs i ids fid off bytes c b st = Some r -> same_nodes st r.2.
Proof.
  revert i c b st. induction ids as [|id ids IH]; intros i c b st; cbn [write_replicas]; [by intros [= <-] |].
  case_decide; [apply IH |].
  destruct (storage_interface_write _ _ _ _ _ _) as [[[rc resp] st1]|] eqn:Hw; [| done].
  apply write_result in Hw as [Hs _]. case_decide; intros Hr; (etrans; [exact Hs | by eapply IH]).
Qed.

Lemma write_keeps env req s resp s' :
  base_inv s -> env_typed env -> fe_Write env req s = Some (resp, s') -> base_inv s'.
Proof.
  intros Hs Henv. unfold fe_Write. destruct (metadata_lookup_by_path _ _) as [a|] eqn:Ha; [| by intros [= _ <-]].
  pose proof (base_lookup _ _ _ Hs Ha) as He. case_decide; [by intros [= _ <-] |].
  intros (ids & _ & ([[c b] st] & Hw & Hr)%bind_Some)%bind_Some.
  pose proof (base_nodes s st Hs (write_nodes _ _ _ _ _ _ _ _ _ _ Hw)) as Hs1.
  case_decide; [| by injection Hr as _ <-]. apply bind_Some in Hr as ([ok s2] & Hc & Hr).
  assert (Hs2 : base_inv s2) by (eapply (base_commit _ _ _ _ _ Hs1 Henv); [| exact Hc]; apply grown_ok; [done | apply Henv]).
  destruct ok; [by injection Hr as _ <- |]. case_decide; [| by injection Hr as _ <-].
  apply bind_Some in Hr as (ids' & _ & [= _ <-]). apply base_nodes; [done | apply delete_replicas_nodes].
Qed.

Lemma read_keeps env req s resp s' :
  base_inv s -> fe_Get env req s = Some (resp, s') -> base_inv s'.
Proof.
  intros Hs. unfold fe_Get. destruct (metadata_lookup_by_path _ _) as [a|]; [| by intros [= _ <-]].
  case_decide; [by intros [= _ <-] |]. intros (ids & _ & ([v st] & Hrd & Hrun)%bind_Some)%bind_Some.
  apply read_replicas_nodes in Hrd. pose proof (base_nodes _ _ Hs Hrd). destruct v; by injection Hrun as _ <-.
Qed.

Lemma checked_mode c s t : checked c s = Some (inr t) -> task_mode t = call_mode c.
Proof. destruct c; cbn [checked]; try done; destruct (check_new _ _ _ _ _); by intros [= <-]. Qed.

Lemma call_keeps_base env c s code s' :
  base_inv s -> env_typed env -> u32_ok (call_mode c) -> call_status env c s = Some (code, s') -> base_inv s'.
Proof.
  intros Hs Henv Hmd Hc.
  destruct (checked c s) as [[resp|t]|] eqn:Hck.
  1,2: rewrite check_then_lock, Hck in Hc
    by (destruct c; try discriminate Hck; [by left; eexists | by right; eexists]).
  - by injection Hc as _ <-.
  - apply fmap_Some in Hc as ([r s1] & Hr & [= _ ->]). eapply task_keeps; [done | done | | exact Hr].
    by rewrite (checked_mode _ _ _ Hck).
  - destruct c; try discriminate Hck; cbn [call_status] in Hc; apply fmap_Some in Hc as ([r s1] & Hr & [= _ ->]).
    + by eapply remove_keeps.
    + by eapply rmdir_keeps.
    + by eapply write_keeps.
    + by eapply read_keeps.
    + apply readdir_keeps in Hr. unfold id. by subst.
Qed.

(** The state of a process whose waiting tasks have modes of their type. *)
Record proc_inv (p : process) : Prop := {
  proc_base : base_inv (core p);
  proc_tasks : Forall (fun t => u32_ok (task_mode t)) (tasks p);
}.

Lemma proc_step_inv ev p p' :
  proc_inv p -> proc_event_ok ev -> proc_step ev p = Some p' -> proc_inv p'.
Proof.
  intros [Hs Ht] Hev. destruct ev as [c|e i|e c|cb m]; cbn [proc_step proc_event_ok] in *.
  - intros (r & Hc & [= <-])%bind_Some. destruct r as [resp|t]; split; simpl; try done.
    apply list.Forall_app. split; [done |]. apply Forall_singleton. by rewrite (checked_mode _ _ _ Hc).
  - intros (t & Hi & ([resp s] & Hr & [= <-])%bind_Some)%bind_Some. split; simpl; [| by apply Forall_delete].
    eapply task_keeps; [done | done | | exact Hr]. exact (proj1 (Forall_lookup _ _) Ht _ _ Hi).
  - intros ([code s] & Hr & [= <-])%bind_Some. split; simpl; [| done]. by eapply call_keeps_base; [| apply Hev | apply Hev |].
  - intros ([n g] & Hr & [= <-])%bind_Some. split; simpl; [| done]. by eapply base_message.
Qed.

Lemma proc_run_inv evs p p' :
  proc_inv p -> Forall proc_event_ok evs -> proc_run evs p = Some p' -> proc_inv p'.
Proof.
  intros Hp Hev. revert p Hp. unfold proc_run. induction Hev as [|ev evs Hok _ IH]; intros p Hp; [by intros [= <-] |].
  simpl. destruct (proc_step ev p) as [p1|] eqn:Hs.
  - intros Hrun. apply (IH p1); [by eapply proc_step_inv | exact Hrun].
  - intros Hrun. exfalso. clear -Hrun. induction evs as [|ev evs IH]; [done |]. simpl in Hrun. auto.
Qed.

(** ** Theorems *)

(** The states of a started process under any interleaving. *)
Definition proc_started (s : frontend) : Prop :=
  exists e node_id listen_port total_nodes peer_addrs net,
    from_option no_nul True (storage_nodes_env e) /\
    initialize_distributed_system e node_id listen_port total_nodes peer_addrs = Some (Some (s, net)).

Lemma started_inv s : proc_started s -> proc_inv (MkProcess s [] []).
Proof.
  intros (e & i & lp & tn & pa & net & He & Hi). destruct (start_inv _ _ _ _ _ _ _ He Hi) as [[H1 H2 _ H4] _].
  split; [by split | constructor].
Qed.

(** Lookup by path under the weaker invariant. *)
Lemma base_resolve s q :
  base_inv s -> resolve s q = None <-> forall id e, view s id = Some e -> path e = q -> ~ live e.
Proof.
  intros Hs. unfold resolve. pose proof (by_path_spec (g_metadata s) q (fok_map _ (base_ok _ Hs))) as Hp.
  destruct (metadata_lookup_by_path _ _) as [a|]; cbn [mbind option_bind].
  - destruct Hp as (Hpath & Hst & Hv). split; [done |]. intros Hno. by destruct (Hno _ _ Hv Hpath).
  - split; [| done]. intros _ id e Hv Hpe Hl. apply Hl. by eapply Hp.
Qed.

(** C13: requests may interleave freely. Whatever requests a started frontend has in
    progress, with their checks made before or after other requests took effect, and
    whatever entries of other frontends arrive in between, no proposal slot stays in use,
    the hash map and all its entries are well-formed, and a path fails to resolve exactly
    when no live entry has it. *)
Theorem frontend_interleaving_keeps s evs p :
  proc_started s -> Forall proc_event_ok evs -> proc_run evs (MkProcess s [] []) = Some p ->
  base_inv (core p) /\
  forall q, resolve (core p) q = None <-> forall id e, view (core p) id = Some e -> path e = q -> ~ live e.
Proof.
  intros Hs Hev Hrun. pose proof (proc_base _ (proc_run_inv _ _ _ (started_inv s Hs) Hev Hrun)) as Hb.
  split; [done |]. intros q. by apply base_resolve.
Qed.

Lemma fe0_started : proc_started fe0.
Proof.
  pose proof demo_started as Hs. unfold demo_start at 1 in Hs.
  unfold proc_started. do 6 eexists. split; [| exact Hs]. exact I.
Qed.

(** Two requests for one file, both checked before the first is carried out; then the file
    is removed. *)
Definition twice : list proc_event :=
  [ECall (demo_env "id-1" 65537) (CallMkdir mkdir_req); ECheck (CallCreate create_req); ECheck (CallCreate create_req);
   ELocked (demo_env "id-2" 131073) 0; ELocked (demo_env "id-3" 196609) 0;
   ECall (demo_env "" 262145) (CallRemove remove_req)].

(** A directory is removed between the checks and the creation of a file in it. *)
Definition orphaned : list proc_event :=
  [ECall (demo_env "id-1" 65537) (CallMkdir mkdir_req); ECheck (CallCreate create_req);
   ECall (demo_env "" 131073) (CallRmdir rmdir_req); ELocked (demo_env "id-2" 196609) 0].

Definition shown (q : string) (p : process) : bool := bool_decide (is_Some (resolve (core p) q)).

Lemma twice_shows :
  (fun p => (answered p, shown "/videos/a.mp4" p)) <$> proc_run twice (MkProcess fe0 [] []) =
    Some ([0; 0; 0; 0], true).
Proof. vm_compute. reflexivity. Qed.

Lemma orphaned_shows :
  (fun p => (answered p, shown "/videos/a.mp4" p, shown "/videos" p)) <$> proc_run orphaned (MkProcess fe0 [] []) =
    Some ([0; 0; 0], true, false).
Proof. vm_compute. reflexivity. Qed.

(** The checks of Create are not protected. Two requests for the same new file that
    are checked before either takes the lock both report success, and the file is still
    there after it has been removed successfully; a directory that is removed between the
    checks and the lock gets a file all the same, which then has no parent. *)
Theorem frontend_create_races :
  exists s p1 p2, proc_started s /\
  proc_run twice (MkProcess s [] []) = Some p1 /\ answered p1 = [0; 0; 0; 0] /\
  resolve (core p1) "/videos/a.mp4" <> None /\
  proc_run orphaned (MkProcess s [] []) = Some p2 /\ answered p2 = [0; 0; 0] /\
  resolve (core p2) "/videos/a.mp4" <> None /\ resolve (core p2) "/videos" = None.
Proof.
  destruct (fmap_Some_1 _ _ _ twice_shows) as (p1 & H1 & [= Ha1 Hr1]).
  destruct (fmap_Some_1 _ _ _ orphaned_shows) as (p2 & H2 & [= Ha2 Hr2 Hd2]).
  symmetry in Hr1, Hr2, Hd2. apply bool_decide_eq_true in Hr1, Hr2. apply bool_decide_eq_false in Hd2.
  exists fe0, p1, p2. split; [apply fe0_started |]. split; [exact H1 |]. split; [by rewrite Ha1 |].
  split; [by apply not_eq_None_Some |]. split; [exact H2 |]. split; [by rewrite Ha2 |].
  split; [by apply not_eq_None_Some | by apply eq_None_not_Some].
Qed.

Lemma demo_env_typed uuid pid : env_typed (demo_env uuid pid).
Proof. destruct (demo_env_ok uuid pid) as (? & ? & ? & ? & _). done. Qed.

Lemma twice_ok : Forall proc_event_ok twice.
Proof.
  repeat (apply list.Forall_cons; split; [simpl; unfold u32_ok; first [lia | split; [apply demo_env_typed | simpl; lia] | apply demo_env_typed] |]).
  by apply list.Forall_nil.
Qed.

Lemma frontend_interleaving_keeps_witness :
  exists p, proc_run twice (MkProcess fe0 [] []) = Some p /\ base_inv (core p).
Proof.
  destruct (fmap_Some_1 _ _ _ twice_shows) as (p & Hp & _). exists p. split; [exact Hp |].
  refine (proj1 (frontend_interleaving_keeps fe0 twice p _ twice_ok Hp)).
  apply fe0_started.
Defined.
