(* ===== verification/Lifecycle.v ===== *)
(** * Start-up and shutdown of the processes

    The [main] functions of the frontend, the RPC server and the TCP adapter, opening
    connections to storage nodes, the accept loop of the adapter, and what the destroy
    functions release. *)

From stdpp Require Import base gmap strings list pretty numbers.
From Stdlib Require Import Ascii.
From S2P Require Import Prelude CString FusedFs FusedRun Proto RpcServer RpcThm TcpAdapter TcpThm.
From S2P Require Import Network Storage Paxos PaxosThm Metadata MetadataThm MetadataPath Replica.
From S2P Require Import Frontend FrontendCommit FrontendInv FrontendThm FrontendInit FrontendDemo FrontendConc.

#[local] Open Scope Z_scope.

(** ** What is released *)

Inductive release :=
| SyncWal
| CloseWal
| FreeEntry (a : nat)
| FreeNode (key : string) (a : nat)
| FreeMap
| FreeManager
| FreeValue (i : nat)
| FreeProposals
| FreePaxos
| FreeNodes
| FreeStorage
| CloseFd (fd : Z).

(** One bucket, node by node. *)
Fixpoint free_bucket (nodes : list (string * nat)) : list release :=
  match nodes with
  | [] => []
  | (k, a) :: nodes' => FreeEntry a :: FreeNode k a :: free_bucket nodes'
  end.

(** [wal_fd] of an initialised manager is a descriptor. *)
Definition metadata_manager_destroy (g : metadata_manager) : list release :=
  [SyncWal; CloseWal] ++ (buckets g ≫= free_bucket) ++ [FreeMap; FreeManager].

(** A slot's value is freed if it is there, whether the slot is in use or not. *)
Definition paxos_destroy (n : paxos_node) : list release :=
  (FreeValue <$> filter (fun i => is_Some (p_value (slot n i))) (seq 0 (max_proposals n))) ++
  [FreeProposals; FreePaxos].

Definition storage_interface_destroy (st : storage_interface) : list release := [FreeNodes; FreeStorage].

Definition close_fds (acts : list action) : list release :=
  acts ≫= (fun a => match a with Close fd => [CloseFd fd] | _ => [] end).

(** [network_engine_stop] joins the event thread before anything it uses is freed. *)
Definition cleanup_distributed_system (s : frontend) (net : network_engine) : list release :=
  storage_interface_destroy (g_storage s) ++
  close_fds (network_engine_destroy (network_engine_stop net)) ++
  metadata_manager_destroy (g_metadata s) ++
  paxos_destroy (g_paxos s).

(** ** Opening connections *)

(** [flags]: what [fcntl(fd, F_GETFL, 0)] returns. *)
Definition network_set_nonblocking (flags set_rc : Z) : Z := if decide (flags = -1) then -1 else set_rc.

(** Results of the three [setsockopt] calls; a later one is only made if the earlier succeed. *)
Definition network_set_socket_options (keepalive nodelay reuseaddr : Z) : Z :=
  if decide (keepalive < 0) then -1
  else if decide (nodelay < 0) then -1
  else if decide (reuseaddr < 0) then -1 else 0.

(** What the calls of [connect_to_storage_node] return. *)
Record connect_io := MkConnIo { io_socket : Z; io_getaddrinfo : Z; io_pton : Z; io_connect : Z }.

(** The descriptor or -1, and the descriptors closed on the way. *)
Definition connect_to_storage_node (io : connect_io) : Z * list Z :=
  let sock_fd := io_socket io in
  if decide (sock_fd < 0) then (-1, [])
  else if decide (io_getaddrinfo io <> 0 /\ io_pton io <= 0) then (-1, [sock_fd])
  else if decide (io_connect io < 0) then (-1, [sock_fd])
  else (sock_fd, []).

(** A connection that is not handed to the caller is closed, once. *)
Lemma connect_no_leak io :
  let '(fd, closed) := connect_to_storage_node io in
  (0 <= fd -> fd = io_socket io /\ closed = []) /\
  (fd < 0 -> fd = -1 /\ closed = if decide (io_socket io < 0) then [] else [io_socket io]).
Proof. unfold connect_to_storage_node. repeat case_decide; split; intros; by auto || lia. Qed.

(** ** The main functions *)

(** [atoi]: [strtol], which saturates, converted to [int]. *)
Definition atoi (s : string) : Z :=
  let s := skip_space s in
  let '(neg, s) := match s with
                   | String "-"%char s' => (true, s')
                   | String "+"%char s' => (false, s')
                   | _ => (false, s)
                   end in
  let v := (scan_digits s 0).1 in
  s32 (if neg then Z.max (- v) (- 2 ^ 63) else Z.min v (2 ^ 63 - 1)).

Definition listen_address (port : string) : string := ("0.0.0.0:" +:+ port)%string.

(** How [main] of the frontend goes on: it exits at once; it serves requests at an address
    until it is told to stop, cleans up and exits with 0; or, when the gRPC server cannot
    be built, it serves no request, handles the messages of its peers until it is told to
    stop and then calls a method of a null pointer. *)
Inductive main_outcome :=
| Exits (code : Z)
| Serves (s : frontend) (net : network_engine) (address : string)
| Deaf (s : frontend) (net : network_engine).

(** [built]: whether [BuildAndStart] returns a server. [None]: undefined behaviour at
    start-up. *)
Definition frontend_main (e : init_env) (grpc_port : option string) (built : bool) (argv : list string)
  : option main_outcome :=
  match argv with
  | _ :: a1 :: a2 :: a3 :: peer_addrs =>
      started ← initialize_distributed_system e (u32 (atoi a1)) (atoi a2 `mod` 2 ^ 16) (u32 (atoi a3)) peer_addrs;
      Some (match started with
            | None => Exits 1
            | Some (s, net) =>
                if built then Serves s net (listen_address (default "60051"%string grpc_port))
                else Deaf s net
            end)
  | _ => Some (Exits 1)
  end.

(** The RPC server: its address; the state is that of [RunServer]. *)
Definition rpc_main (rpc_port : option string) : string := listen_address (default "50051"%string rpc_port).

(** The adapter: its exit code if it does not come to listen, otherwise its port and the
    address of the RPC server. [fd] and the flags are what the socket calls return. *)
Definition adapter_main (port_env grpc_env : option string) (fd : Z) (bind_ok listen_ok : bool)
  : Z + Z * string :=
  let port := match port_env with Some p => atoi p | None => 9000 end in
  let grpc_addr := default "localhost:50051"%string grpc_env in
  if decide (fd < 0) then inl 1
  else if negb bind_ok then inl 1
  else if negb listen_ok then inl 1
  else inr (port `mod` 2 ^ 16, grpc_addr).

(** ** The accept loop of the adapter *)

Section Accept.
Context {S E : Type} `{FileSystemService S E}.

(** The process: connections whose thread has not finished, and what was done to which
    descriptor, in order. *)
Record adapter := MkAdapter {
  backend : S;
  pending : list (Z * tcp_conn);
  trace : list (Z * conn_action);
}.

(** One turn of the loop: whether there is memory for the descriptor, what [accept]
    returns, whether the thread can be created; or the thread of connection [i] runs. *)
Inductive adapter_event :=
| Accept (memory : bool) (fd : Z) (thread : bool) (x : tcp_conn)
| Serve (i : nat) (t : transport) (e : E).

(** [None]: a write through NULL, [pthread_detach] of a thread that was not created, or a
    thread that crashes or waits for ever. *)
Definition adapter_step (ev : adapter_event) (a : adapter) : option adapter :=
  match ev with
  | Accept memory fd thread x =>
      if negb memory then None
      else if decide (fd < 0) then Some a
      else if negb thread then None
      else Some (MkAdapter (backend a) (pending a ++ [(fd, x)]) (trace a))
  | Serve i t e =>
      '(fd, x) ← pending a !! i;
      '(acts, s) ← handle_client x t e (backend a);
      Some (MkAdapter s (delete i (pending a)) (trace a ++ (pair fd <$> acts)))
  end.

(** The descriptors closed, in order. *)
Definition closed (a : adapter) : list Z :=
  omap (fun x => match x.2 with CloseConn => Some x.1 | SendBytes _ => None end) (trace a).

Definition adapter_run (evs : list adapter_event) (a : adapter) : option adapter :=
  foldl (fun a ev => a ≫= adapter_step ev) (Some a) evs.

(** The descriptors [accept] returned. *)
Definition accepted (evs : list adapter_event) : list Z :=
  evs ≫= (fun ev => match ev with Accept _ fd _ _ => if decide (fd < 0) then [] else [fd] | Serve _ _ _ => [] end).

Lemma run_None evs : foldl (fun a ev => a ≫= adapter_step ev) None evs = None.
Proof. by induction evs. Qed.

Lemma closed_serve s p fd acts (a : adapter) :
  closings acts = 1%nat -> closed (MkAdapter s p (trace a ++ (pair fd <$> acts))) = closed a ++ [fd].
Proof.
  intros Hc. unfold closed. cbn [trace]. rewrite omap_app. f_equal. unfold closings in Hc.
  assert (Hall : forall l, omap (fun x : Z * conn_action => match x.2 with CloseConn => Some x.1 | SendBytes _ => None end)
    (pair fd <$> l) = replicate (length (filter (fun a => a = CloseConn) l)) fd).
  { induction l as [|[d|] l IH]; [done | |]; rewrite fmap_cons, filter_cons; cbn [omap list_omap snd fst];
      rewrite IH; by case_decide. }
  by rewrite Hall, Hc.
Qed.

Lemma run_fds evs a a' :
  adapter_run evs a = Some a' ->
  closed a ++ (pending a).*1 ++ accepted evs ≡ₚ closed a' ++ (pending a').*1.
Proof.
  revert a. induction evs as [|ev evs IH]; intros a; unfold adapter_run.
  { intros [= <-]. cbn. by rewrite app_nil_r. }
  cbn [foldl]. intros Hrun. destruct (adapter_step ev a) as [a1|] eqn:Hs; cbn [mbind option_bind] in Hrun; rewrite ?Hs in Hrun.
  2:{ by rewrite run_None in Hrun. }
  pose proof (IH a1 Hrun) as Hp. destruct ev as [memory fd thread x|i t e]; cbn [adapter_step] in Hs.
  - unfold accepted in *. cbn [mbind list_bind]. destruct memory; [| done]. cbn [negb] in Hs.
    case_decide; [by injection Hs as <- |]. destruct thread; [| done]. injection Hs as <-.
    cbn [pending] in Hp. rewrite fmap_app, <- app_assoc in Hp. exact Hp.
  - apply bind_Some in Hs as ([fd x] & Hi & ([acts s] & Hh & [= <-])%bind_Some).
    apply handle_closes in Hh as [Hc _]. rewrite closed_serve in Hp by done.
    unfold accepted in *. cbn [mbind list_bind pending app] in *.
    rewrite <- Hp, <- app_assoc. apply Permutation_app_head. rewrite app_assoc. apply Permutation_app_tail.
    exact (fmap_Permutation fst _ _ (delete_Permutation (pending a) i (fd, x) Hi)).
Qed.

(** Connections whose peers close or fail, served one after the other. *)
Lemma serve_all t e a :
  counts_reads (H := H) -> Forall (fun p => (forall n, conn_malloc p.2 n = true) /\ closes (more_recvs p.2)) (pending a) ->
  exists a', adapter_run (replicate (length (pending a)) (Serve 0 t e)) a = Some a' /\ pending a' = [].
Proof.
  intros Hlaw. remember (length (pending a)) as k eqn:Hk. revert a Hk. induction k as [|k IH]; intros a Hk Hall.
  { exists a. split; [done |]. by destruct (pending a). }
  destruct (pending a) as [|[fd x] rest] eqn:Hp; [done |]. apply list.Forall_cons in Hall as [[Hm Hc] Hall].
  destruct (connection_ends x t e (backend a) Hlaw Hm Hc) as (acts & s & Hh).
  destruct (IH (MkAdapter s rest (trace a ++ (pair fd <$> acts)))) as (a' & Hrun & He);
    [simpl in *; lia | done |].
  exists a'. split; [| done]. unfold adapter_run in *. cbn [replicate foldl mbind option_bind adapter_step].
  rewrite Hp. cbn [lookup list_lookup mbind option_bind]. rewrite Hh. cbn [mbind option_bind]. exact Hrun.
Qed.

End Accept.

(** ** Every entry is freed once *)

(** The calls of [metadata_manager.h] on a manager that was started with [k] entries
    leaked by replay. *)
Inductive mgr_reachable (k : nat) : metadata_manager -> Prop :=
| mr_init mo gb junk hdr file g :
    metadata_manager_init mo gb junk hdr file = Some g -> next_addr g = k -> mgr_reachable k g
| mr_create ok io p md u g_ t t' g :
    mgr_reachable k g -> mgr_reachable k (metadata_create_entry ok io p md u g_ t t' g).2
| mr_update io t a g : mgr_reachable k g -> mgr_reachable k (metadata_update_entry io t a g).2
| mr_delete io id g : mgr_reachable k g -> mgr_reachable k (metadata_delete_entry io id g).2
| mr_assign io t a ips ports n g :
    mgr_reachable k g -> mgr_reachable k (metadata_assign_storage_nodes io t a ips ports n g).2
| mr_apply ok e g : mgr_reachable k g -> mgr_reachable k (metadata_apply_entry ok e g).2
| mr_append io op e g : mgr_reachable k g -> mgr_reachable k (wal_append io op e g).2
| mr_truncate lsn g : mgr_reachable k g -> mgr_reachable k (wal_truncate lsn g).2.

Section Owned.
Context (k : nat).

(** The entries allocated after start-up and the nodes of the map correspond one to one. *)
Record owns_heap (g : metadata_manager) : Prop := {
  oh_len : length (buckets g) = HASH_MAP_SIZE;
  oh_once : NoDup (concat (buckets g)).*2;
  oh_dom : forall a, a ∈ (concat (buckets g)).*2 <-> (k <= a)%nat /\ is_Some (heap g !! a);
  oh_fresh : forall a, is_Some (heap g !! a) -> (a < next_addr g)%nat;
  oh_start : (k <= next_addr g)%nat;
}.

Lemma owns_same g g' : same_map g g' -> owns_heap g -> owns_heap g'.
Proof. intros (Hh & Hn & Hb) [H1 H2 H3 H4 H5]. split; rewrite ?Hh, ?Hn, ?Hb; done. Qed.

Lemma owns_upd a f g : owns_heap g -> owns_heap (upd_heap a f g).
Proof.
  intros [H1 H2 H3 H4 H5]. assert (Hd : forall b, is_Some (heap (upd_heap a f g) !! b) <-> is_Some (heap g !! b)).
  { intros b. unfold upd_heap. cbn [heap]. destruct (decide (a = b)) as [<-|].
    - rewrite lookup_alter_eq. by rewrite fmap_is_Some.
    - by rewrite lookup_alter_ne. }
  split; [done | done | intros b; rewrite Hd; apply H3 | intros b; rewrite Hd; apply H4 | done].
Qed.

Lemma concat_insert_cons {A} (ls : list (list A)) i x :
  (i < length ls)%nat -> concat (<[i := x :: ls !!! i]> ls) ≡ₚ x :: concat ls.
Proof.
  intros Hi. destruct (lookup_lt_is_Some_2 _ _ Hi) as [l Hl]. rewrite (list_lookup_total_correct _ _ _ Hl).
  rewrite insert_take_drop by done. rewrite <- (take_drop_middle _ _ _ Hl) at 3.
  rewrite !concat_app. cbn [concat]. rewrite Permutation_middle. done.
Qed.

Lemma owns_insert e n s g : owns_heap g -> owns_heap (insert_node e n s g).
Proof.
  intros [H1 H2 H3 H4 H5]. pose proof (hash_range (file_id e)) as Hh.
  assert (Hi : (Z.to_nat (hash_string (file_id e)) < length (buckets g))%nat)
    by (rewrite H1; unfold HASH_MAP_SIZE; lia).
  pose proof (concat_insert_cons (buckets g) _ (strncpy 63 (file_id e), next_addr g) Hi) as Hp.
  assert (Hp2 : (concat (buckets (insert_node e n s g))).*2 ≡ₚ next_addr g :: (concat (buckets g)).*2)
    by exact (fmap_Permutation snd _ _ Hp).
  assert (Hnew : next_addr g ∉ (concat (buckets g)).*2).
  { intros [_ Hin%H4]%H3. lia. }
  split.
  - cbn [insert_node buckets]. by rewrite length_insert.
  - rewrite Hp2. by apply list.NoDup_cons.
  - intros a. rewrite Hp2, elem_of_cons. cbn [insert_node heap].
    destruct (decide (next_addr g = a)) as [<-|Hne]; [rewrite lookup_insert_eq; split; [by eauto | by left] |].
    rewrite lookup_insert_ne by done. rewrite H3. split; [by intros [->|] | by right].
  - intros a. cbn [insert_node heap next_addr]. intros [x Hx].
    apply lookup_insert_Some in Hx as [[<- _]|[_ Hx]]; [lia |]. assert (a < next_addr g)%nat by eauto. lia.
  - cbn [insert_node next_addr]. lia.
Qed.

#[local] Hint Resolve owns_same owns_upd owns_insert : cfs.

Lemma append_owns io op e g : owns_heap g -> owns_heap (wal_append io op e g).2.
Proof.
  intros Hg. destruct (wal_append io op e g) as [lsn g1] eqn:Hw. cbn [snd].
  by eapply owns_same; [eapply append_same_map |].
Qed.

Lemma update_owns io t a g : owns_heap g -> owns_heap (metadata_update_entry io t a g).2.
Proof.
  intros Hg. unfold metadata_update_entry. pose proof (append_owns io WAL_OP_UPDATE (Metadata.deref g a) g Hg) as H1.
  destruct (wal_append _ _ _ _) as [lsn g1]. case_decide; [done |]. by apply owns_upd.
Qed.

(** At start-up all entries are leaked ones. *)
Lemma owns_start mo gb junk hdr file g :
  metadata_manager_init mo gb junk hdr file = Some g -> next_addr g = k -> owns_heap g.
Proof.
  unfold metadata_manager_init, wal_replay. cbn [wal current_lsn].
  destruct (wal_replay_loop _ _ _ _ _ _ _ _) as [[[rc lsn] leaked]|]; [| done]. intros <-%(inj Some).
  set (g0 := set_wal _ _ _). destruct (alloc_entries leaked g0) as (Hb & _ & _ & _ & Hn & Hh). intros Hk.
  assert (Hc : forall j, concat (replicate j (@nil (string * nat))) = []) by (intros j; by induction j).
  assert (Hdom : forall a, is_Some (heap (foldl alloc_entry g0 leaked) !! a) -> (a < k)%nat).
  { intros a. rewrite Hh, <- Hk, Hn. cbn [g0 set_wal next_addr heap].
    case_decide; [lia |]. rewrite lookup_empty. by intros [? ?]. }
  split; rewrite ?Hb; cbn [g0 set_wal buckets]; rewrite ?Hc.
  - apply length_replicate.
  - constructor.
  - intros a. split; [by intros ?%elem_of_nil |]. intros [Ha Hs%Hdom]. lia.
  - intros a Ha%Hdom. lia.
  - lia.
Qed.

Lemma reachable_owns g : mgr_reachable k g -> owns_heap g.
Proof.
  induction 1 as [mo gb junk hdr file g Hi Hk|ok io p md u g_ t t' g _ IH|io t a g _ IH|io id g _ IH
                 |io t a ips ports n g _ IH|ok e g _ IH|io op e g _ IH|lsn g _ IH].
  - by eapply owns_start.
  - unfold metadata_create_entry. destruct (negb ok); [done |].
    pose proof (append_owns io WAL_OP_CREATE (new_entry p md u g_ t t') g IH) as H1.
    destruct (wal_append _ _ _ _) as [lsn g1]. case_decide; [done |]. by apply owns_insert.
  - by apply update_owns.
  - unfold metadata_delete_entry. destruct (metadata_lookup g id) as [a|]; [| done].
    pose proof (append_owns io WAL_OP_DELETE (Metadata.deref (upd_heap a (set_state FILE_STATE_DELETED) g) a) _
      (owns_upd a (set_state FILE_STATE_DELETED) g IH)) as H1.
    destruct (wal_append _ _ _ _) as [lsn g1]. case_decide; [done |]. by eapply owns_same; [| exact H1].
  - unfold metadata_assign_storage_nodes. case_decide; [done |]. by apply update_owns, owns_upd.
  - unfold metadata_apply_entry. destruct (metadata_lookup g (file_id e)) as [a|].
    + eapply owns_same; [| by apply (owns_upd a (fun _ => e))]. done.
    + destruct ok; [by apply owns_insert | done].
  - by apply append_owns.
  - by eapply owns_same; [| exact IH].
Qed.

End Owned.

(** The entries among what is released. *)
Definition freed_entries (rs : list release) : list nat :=
  omap (fun r => match r with FreeEntry a => Some a | _ => None end) rs.

Lemma freed_bucket l : freed_entries (free_bucket l) = l.*2.
Proof. induction l as [|[k a] l IH]; [done |]. cbn. by rewrite <- IH. Qed.

Lemma freed_buckets ls : freed_entries (ls ≫= free_bucket) = (concat ls).*2.
Proof.
  induction ls as [|l ls IH]; [done |]. unfold freed_entries in *. cbn [mbind list_bind concat].
  by rewrite omap_app, fmap_app, IH, <- (freed_bucket l).
Qed.

Lemma freed_manager g : freed_entries (metadata_manager_destroy g) = (concat (buckets g)).*2.
Proof.
  unfold metadata_manager_destroy, freed_entries. rewrite !omap_app. cbn [omap list_omap app].
  rewrite app_nil_r. apply freed_buckets.
Qed.

(** ** The frontend keeps to these calls *)

Section Calls.
Context (k : nat).

Lemma commit_reachable env e s b s' :
  mgr_reachable k (g_metadata s) -> commit_metadata_with_paxos env e s = Some (b, s') ->
  mgr_reachable k (g_metadata s').
Proof. apply (commit_kept (mgr_reachable k) (mr_append k) (mr_apply k)). Qed.

Lemma answer_reachable env e s resp s' :
  mgr_reachable k (g_metadata s) -> commit_and_answer env e s = Some (resp, s') -> mgr_reachable k (g_metadata s').
Proof.
  intros Hg ([b s1] & Hc & Hr)%bind_Some. apply commit_reachable in Hc; [| done]. destruct b; by injection Hr as _ <-.
Qed.

Lemma task_reachable env t s resp s' :
  mgr_reachable k (g_metadata s) -> run_task env t s = Some (resp, s') -> mgr_reachable k (g_metadata s').
Proof.
  intros Hg. destruct t; cbn [run_task]; [unfold create_locked | by apply answer_reachable].
  destruct (storage_interface_select_nodes _ _ _) as [[num sel] st]. case_decide; [by intros [= _ <-] |].
  by apply answer_reachable.
Qed.

Lemma remove_reachable env req s resp s' :
  mgr_reachable k (g_metadata s) -> fe_Remove env req s = Some (resp, s') -> mgr_reachable k (g_metadata s').
Proof.
  intros Hg. unfold fe_Remove. case_decide; [by intros [= _ <-] |].
  destruct (live_entry _ _) as [e|]; [| by intros [= _ <-]]. destruct (S_ISDIR _); [by intros [= _ <-] |].
  case_decide; [| by apply answer_reachable]. intros (ids & _ & Hr)%bind_Some.
  destruct (delete_replicas _ _ _ _ _ _) as [c st]. case_decide; [by injection Hr as _ <- |].
  by eapply answer_reachable in Hr.
Qed.

Lemma rmdir_reachable env req s resp s' :
  mgr_reachable k (g_metadata s) -> fe_Rmdir env req s = Some (resp, s') -> mgr_reachable k (g_metadata s').
Proof.
  intros Hg. unfold fe_Rmdir. case_decide; [by intros [= _ <-] |].
  destruct (live_entry _ _) as [e|]; [| by intros [= _ <-]]. destruct (negb _); [by intros [= _ <-] |].
  destruct (directory_has_children _ _); [by intros [= _ <-] |]. by apply answer_reachable.
Qed.

Lemma write_reachable env req s resp s' :
  mgr_reachable k (g_metadata s) -> fe_Write env req s = Some (resp, s') -> mgr_reachable k (g_metadata s').
Proof.
  intros Hg. unfold fe_Write. destruct (metadata_lookup_by_path _ _) as [a|]; [| by intros [= _ <-]].
  case_decide; [by intros [= _ <-] |]. intros (ids & _ & ([[c b] st] & _ & Hr)%bind_Some)%bind_Some.
  case_decide; [| by injection Hr as _ <-]. apply bind_Some in Hr as ([ok s2] & Hc & Hr).
  apply commit_reachable in Hc; [| done]. destruct ok; [by injection Hr as _ <- |].
  case_decide; [| by injection Hr as _ <-]. by apply bind_Some in Hr as (ids' & _ & [= _ <-]).
Qed.

Lemma get_reachable env req s resp s' :
  mgr_reachable k (g_metadata s) -> fe_Get env req s = Some (resp, s') -> mgr_reachable k (g_metadata s').
Proof.
  intros Hg. unfold fe_Get. destruct (metadata_lookup_by_path _ _) as [a|]; [| by intros [= _ <-]].
  case_decide; [by intros [= _ <-] |]. intros (ids & _ & ([v st] & _ & Hr)%bind_Some)%bind_Some.
  destruct v; by injection Hr as _ <-.
Qed.

Lemma status_reachable env c s code s' :
  mgr_reachable k (g_metadata s) -> call_status env c s = Some (code, s') -> mgr_reachable k (g_metadata s').
Proof.
  intros Hg Hc. destruct (checked c s) as [[resp|t]|] eqn:Hck.
  1,2: rewrite check_then_lock, Hck in Hc
    by (destruct c; try discriminate Hck; [by left; eexists | by right; eexists]).
  - by injection Hc as _ <-.
  - apply fmap_Some in Hc as ([r s1] & Hr & [= _ ->]). by eapply task_reachable.
  - destruct c; try discriminate Hck; cbn [call_status] in Hc; apply fmap_Some in Hc as ([r s1] & Hr & [= _ ->]).
    + by eapply remove_reachable.
    + by eapply rmdir_reachable.
    + by eapply write_reachable.
    + by eapply get_reachable.
    + apply readdir_keeps in Hr. unfold id. by subst.
Qed.

Lemma proc_reachable ev p p' :
  mgr_reachable k (g_metadata (core p)) -> proc_step ev p = Some p' -> mgr_reachable k (g_metadata (core p')).
Proof.
  intros Hg. destruct ev as [c|e i|e c|cb m]; cbn [proc_step].
  - intros ([resp|t] & _ & [= <-])%bind_Some; done.
  - intros (t & _ & ([resp s] & Hr & [= <-])%bind_Some)%bind_Some. by eapply task_reachable.
  - intros ([code s] & Hr & [= <-])%bind_Some. by eapply status_reachable.
  - intros ([n g] & Hr & [= <-])%bind_Some. by eapply (message_kept (mgr_reachable k) (mr_append k) (mr_apply k)).
Qed.

Lemma proc_run_cons ev evs p p' :
  proc_run (ev :: evs) p = Some p' -> exists p1, proc_step ev p = Some p1 /\ proc_run evs p1 = Some p'.
Proof.
  unfold proc_run. cbn [foldl mbind option_bind]. destruct (proc_step ev p) as [p1|]; [by eexists |].
  intros Hrun. exfalso. induction evs; [done | auto].
Qed.

Lemma proc_run_reachable evs p p' :
  mgr_reachable k (g_metadata (core p)) -> proc_run evs p = Some p' -> mgr_reachable k (g_metadata (core p')).
Proof.
  revert p. induction evs as [|ev evs IH]; intros p Hg; [by intros [= <-] |].
  intros (p1 & Hs & Hr)%proc_run_cons. eapply IH; [by eapply proc_reachable | exact Hr].
Qed.

End Calls.

(** ** Theorems *)

Lemma reachable_freed k g :
  mgr_reachable k g ->
  NoDup (freed_entries (metadata_manager_destroy g)) /\
  forall a, a ∈ freed_entries (metadata_manager_destroy g) <-> (k <= a)%nat /\ is_Some (heap g !! a).
Proof.
  intros Hg%reachable_owns. rewrite freed_manager. split; [apply Hg |]. intros a. apply (oh_dom _ _ Hg).
Qed.

Lemma freed_app l l' : freed_entries (l ++ l') = freed_entries l ++ freed_entries l'.
Proof. apply omap_app. Qed.

Lemma freed_none l : Forall (fun r => forall a, r <> FreeEntry a) l -> freed_entries l = [].
Proof.
  induction 1 as [|r l Hr _ IH]; [done |]. unfold freed_entries in *. cbn [omap list_omap].
  destruct r; try exact IH. by destruct (Hr a).
Qed.

Lemma freed_cleanup s net :
  freed_entries (cleanup_distributed_system s net) = freed_entries (metadata_manager_destroy (g_metadata s)).
Proof.
  unfold cleanup_distributed_system. rewrite !freed_app.
  rewrite (freed_none (storage_interface_destroy _)) by (by repeat constructor).
  rewrite (freed_none (close_fds _)), (freed_none (paxos_destroy _)); [by rewrite app_nil_r | |].
  - unfold paxos_destroy. apply list.Forall_app. split; [| by repeat constructor]. by apply list.Forall_fmap, list.Forall_true.
  - apply list.Forall_forall. intros r (x & Hx & _)%list_elem_of_bind. intros a ->.
    destruct x; by apply list_elem_of_In in Hx; destruct Hx as [?|[]] || destruct Hx.
Qed.

Lemma started_reachable e id port total addrs s net :
  initialize_distributed_system e id port total addrs = Some (Some (s, net)) ->
  mgr_reachable (next_addr (g_metadata s)) (g_metadata s).
Proof.
  unfold initialize_distributed_system. destruct (paxos_init _ _ _ _ _) as [n|]; [| done].
  destruct (metadata_alloc e); [| done]. intros (g & Hg & Hrun)%bind_Some. destruct (network_alloc e); [| done].
  cbn [negb] in Hrun. destruct (network_engine_start _ _ _ _ _) as [[rc net0] acts]. case_decide; [done |].
  apply bind_Some in Hrun as (net1 & _ & Hrun). destruct (storage_alloc e); [| done].
  apply bind_Some in Hrun as (st & _ & [= <- _]). by eapply mr_init.
Qed.

Lemma main_starts e port built argv out :
  frontend_main e port built argv = Some out ->
  match out with
  | Exits code => code = 1
  | Serves s net _ | Deaf s net => exists id lp total addrs,
      initialize_distributed_system e id lp total addrs = Some (Some (s, net))
  end /\
  match out with
  | Exits _ => True
  | Serves _ _ addr => built = true /\ addr = listen_address (default "60051"%string port)
  | Deaf _ _ => built = false
  end.
Proof.
  unfold frontend_main. destruct argv as [|prog [|a1 [|a2 [|a3 addrs]]]]; try (by intros [= <-]).
  intros (st & Hi & Hr)%bind_Some. destruct st as [[s net]|]; [| by injection Hr as <-].
  destruct built; injection Hr as <-; (split; [by do 4 eexists | done]).
Qed.

(** C39: a frontend from start to exit. [main] exits with status 1; or the gRPC server
    cannot be built and no request is served; or it serves at the configured port. In the
    last two cases its state is well-formed and no path resolves. Whatever requests and
    messages it then serves, interleaved in whatever way, the clean-up before it exits
    frees exactly the entries that were put into the map since start-up, none twice; the
    entries that replay of the log leaked at start-up are not freed. *)
Theorem frontend_lifecycle e port built argv out :
  from_option no_nul True (storage_nodes_env e) ->
  frontend_main e port built argv = Some out ->
  match out with
  | Exits code => code = 1
  | Serves s net addr =>
      built = true /\ addr = listen_address (default "60051"%string port) /\
      fe_inv s /\ (forall q, resolve s q = None) /\
      forall evs p, proc_run evs (MkProcess s [] []) = Some p ->
        let freed := freed_entries (cleanup_distributed_system (core p) net) in
        NoDup freed /\
        forall a, a ∈ freed <->
          (next_addr (g_metadata s) <= a)%nat /\ is_Some (heap (g_metadata (core p)) !! a)
  | Deaf s net => built = false /\ fe_inv s /\ forall q, resolve s q = None
  end.
Proof.
  intros He Hm%main_starts. destruct out as [code|s net addr|s net]; [by destruct Hm | |];
    destruct Hm as [(id & lp & total & addrs & Hi) Hm];
    destruct (start_inv _ _ _ _ _ _ _ He Hi) as [Hinv Hres]; [| done].
  destruct Hm as [Hb Ha].
  split_and!; [done | done | done | done |]. intros evs p Hrun. cbv zeta. rewrite freed_cleanup.
  apply reachable_freed. eapply proc_run_reachable; [| exact Hrun]. by eapply started_reachable.
Qed.

(** C40: the adapter closes its connections. After any turns of the accept loop, in each of
    which memory and a thread were to be had, and any finished threads, in any order,
    whose peers close or fail and for which memory does not run out, the threads still
    waiting can all be run to their end, and then every descriptor that [accept] returned
    has been closed exactly once. *)
Theorem adapter_accept_loop {S E} `{H : FileSystemService S E} evs (s : S) a t e :
  counts_reads (H := H) ->
  adapter_run evs (MkAdapter s [] []) = Some a ->
  Forall (fun p => (forall n, conn_malloc p.2 n = true) /\ closes (more_recvs p.2)) (pending a) ->
  exists a', adapter_run (evs ++ replicate (length (pending a)) (Serve 0 t e)) (MkAdapter s [] []) = Some a' /\
    pending a' = [] /\ closed a' ≡ₚ accepted evs.
Proof.
  intros Hlaw Hrun Hall. destruct (serve_all t e a Hlaw Hall) as (a' & Hserve & Hdone). exists a'.
  pose proof (run_fds _ _ _ Hrun) as Hp1. pose proof (run_fds _ _ _ Hserve) as Hp2.
  assert (Hacc : accepted (replicate (length (pending a)) (Serve (E := E) 0 t e)) = [])
    by (generalize (length (pending a)); intros k; by induction k).
  split_and!; [| done |].
  - unfold adapter_run in *. by rewrite foldl_app, Hrun.
  - rewrite Hacc, Hdone, !app_nil_r in Hp2. by rewrite <- Hp2, <- Hp1.
Qed.

(** ** Concrete runs *)

Definition demo_argv : list string := ["frontend"; "1"; "8001"; "3"; "2@metadata-node-2:7002"]%string.

Definition net0 : network_engine := (default stuck (default None demo_start)).2.

Lemma demo_main : frontend_main demo_init None true demo_argv = Some (Serves fe0 net0 "0.0.0.0:60051"%string).
Proof.
  unfold frontend_main, demo_argv.
  change (u32 (atoi "1")) with 1. change (atoi "8001" `mod` 2 ^ 16) with 8001. change (u32 (atoi "3")) with 3.
  fold demo_start. by rewrite demo_started.
Qed.

Lemma frontend_lifecycle_witness :
  exists p, proc_run twice (MkProcess fe0 [] []) = Some p /\
    NoDup (freed_entries (cleanup_distributed_system (core p) net0)).
Proof.
  destruct (fmap_Some_1 _ _ _ twice_shows) as (p & Hp & _). exists p. split; [exact Hp |].
  pose proof (frontend_lifecycle demo_init None true demo_argv (Serves fe0 net0 "0.0.0.0:60051"%string) I demo_main) as Hm.
  destruct Hm as (_ & _ & _ & _ & Hf). exact (proj1 (Hf twice p Hp)).
Defined.

(** Two connections, the second one finished first. *)
Definition two_conns : list adapter_event :=
  [Accept true 5 true cut_conn; Accept true (-1) false cut_conn; Accept true 6 true cut_conn; Serve 1 no_loss demo_rpc].

Definition adapter_of (evs : list adapter_event) : option adapter :=
  adapter_run (H := rpc_service no_text) evs (MkAdapter w_empty [] []).

Lemma two_conns_run : (fun a => (pending a, closed a)) <$> adapter_of two_conns = Some ([(5, cut_conn)], [6]).
Proof. vm_compute. reflexivity. Qed.

Lemma adapter_accept_loop_witness :
  exists a, adapter_of (two_conns ++ [Serve 0 no_loss demo_rpc]) = Some a /\ pending a = [] /\ closed a ≡ₚ [5; 6].
Proof.
  destruct (fmap_Some_1 _ _ _ two_conns_run) as (a & Ha & [= Hp _]).
  destruct (adapter_accept_loop (H := rpc_service no_text) two_conns w_empty a no_loss demo_rpc
    (rpc_counts_reads no_text) Ha) as (a' & Hr & He & Hc).
  - rewrite <- Hp. apply list.Forall_singleton. split; [done |]. exact (List.Exists_cons_hd _ _ _ (or_intror eq_refl)).
  - rewrite <- Hp in Hr. exists a'. split; [exact Hr |]. split; [exact He | exact Hc].
Defined.
