(* ===== verification/System.v ===== *)
(** * The system end to end

    A frontend ([Frontend]) with storage nodes behind it: each exchange of
    [storage_interface.c] is a connection that a TCP adapter ([TcpAdapter]) serves with
    the RPC server ([RpcServer]) of that node.  What a client writes through the frontend
    it reads back. *)

From stdpp Require Import base gmap strings list numbers.
From Stdlib Require Import Ascii.
From S2P Require Import Prelude CString FusedFs FusedReach FusedRun FusedNames FusedData.
From S2P Require Import Proto RpcServer RpcThm Storage TcpAdapter TcpThm.
From S2P Require Import Paxos PaxosThm Metadata MetadataThm MetadataPath Replica.
From S2P Require Import Frontend FrontendCommit FrontendPath FrontendQuorum.
From S2P Require Import FrontendInv FrontendThm FrontendData FrontendInit FrontendDemo.

#[local] Open Scope Z_scope.

(** ** Storage nodes *)

Section Nodes.
Context (se : Z -> string).

(** The state of a storage node in which file [fid] is absent or a regular file, on a disk
    without faults so far. *)
Record node_ready (fid : string) (w : world) : Prop := {
  nr_reach : quiet_reachable w;
  nr_file : forall i, path_to_inode (g_state w) (String slash fid) = Some i ->
    S_ISDIR (FusedFs.mode (FusedFs.deref (g_state w) i)) = false;
}.

(** The bytes [b] sent on a connection arrive, cut into pieces of which the first holds a
    whole line; memory does not run out. *)
Definition delivers (b : list Z) (x : tcp_conn) : Prop :=
  exists first chunks,
    first_recv x = Some first /\ b = first ++ concat chunks /\ 10 ∈ first /\ (length first <= 8191)%nat /\
    Forall (fun c => c <> []) chunks /\ more_recvs x = Some <$> chunks /\
    forall n, conn_malloc x n = true.

(** [b] was sent to a node in exchange [x] and served by it; the node goes from [w] to
    [w1]. *)
Definition served_write (b : list Z) (w w1 : world) (x : exchange) : Prop :=
  exists conn t e acts,
    quiet (create_env e) /\ quiet (io_env e) /\ delivers b conn /\
    handle_client (H := rpc_service se) conn t e w = Some (acts, w1) /\
    reply x = Some (dec_str (sent_bytes acts)).

(** [b] was sent to a node in state [w] and served by it: its adapter reaches its server,
    and what the adapter sends arrives in some pieces. *)
Definition served_read (b : list Z) (w : world) (x : read_exchange) : Prop :=
  exists conn e acts w2 chunks,
    quiet (io_env e) /\ (forall n, buffer_ok e n = true) /\ delivers b conn /\
    handle_client (H := rpc_service se) conn no_loss e w = Some (acts, w2) /\
    sent_bytes acts = concat chunks /\ Forall (fun c => c <> []) chunks /\ rx_recvs x = Some <$> chunks.

Lemma newline_byte body : 10 ∈ str_bytes body -> str_in nl body.
Proof.
  induction body as [|c body IH]; cbn [str_bytes str_in]; [by intros ?%elem_of_nil |].
  intros [Hc|Hin]%elem_of_cons; [left | right; by apply IH].
  rewrite <- (ascii_N_embedding c). unfold nl. apply (f_equal Z.to_N) in Hc. rewrite N2Z.id in Hc. by rewrite <- Hc.
Qed.

(** A line and data that are delivered are carried in the sense of [TcpThm]. *)
Lemma delivers_carries body data x :
  ~ str_in nl body -> delivers (str_bytes (body +:+ newline) ++ data) x -> carries (body +:+ newline) data x.
Proof.
  intros Hb (first & chunks & Hf & Heq & Hnl & H8 & Hne & Hm & Hma). rewrite str_bytes_app in *.
  assert (Hlong : (length (str_bytes body ++ str_bytes newline) <= length first)%nat).
  { destruct (decide (length (str_bytes body) < length first)%nat) as [|Hs];
      [rewrite length_app; simpl; lia |]. exfalso. apply Hb, newline_byte.
    apply (f_equal (take (length first))) in Heq. rewrite take_app_length in Heq.
    rewrite <- app_assoc, take_app_le in Heq by lia. rewrite <- Heq in Hnl.
    rewrite <- (take_drop (length first) (str_bytes body)). apply elem_of_app. by left. }
  assert (Hfirst : first = (str_bytes body ++ str_bytes newline) ++ drop (length (str_bytes body ++ str_bytes newline)) first).
  { apply (f_equal (take (length (str_bytes body ++ str_bytes newline)))) in Heq.
    rewrite take_app_length, take_app_le in Heq by done. by rewrite Heq at 1; rewrite take_drop. }
  exists (drop (length (str_bytes body ++ str_bytes newline)) first), chunks. rewrite str_bytes_app, <- Hfirst.
  split_and!; try done. apply (f_equal (drop (length (str_bytes body ++ str_bytes newline)))) in Heq.
  by rewrite drop_app_length, drop_app_le in Heq.
Qed.

(** The lines of [Storage]. *)
Lemma line_carries cmd fid off len data x :
  fid_ok fid -> 0 <= off <= UINT64_MAX -> 0 <= len <= UINT64_MAX -> cmd = "WRITE|"%string \/ cmd = "READ|"%string ->
  delivers (str_bytes (range_request cmd fid off len) ++ data) x -> carries (range_request cmd fid off len) data x.
Proof.
  intros Hf Ho Hl Hcmd. rewrite range_request_line by (done || (destruct Hcmd as [->| ->]; simpl; lia)).
  destruct (range_line_split cmd fid off len Hf) as (body & -> & Hb & _).
  - destruct Hcmd as [->| ->]; by intros H'; repeat destruct H' as [?|H'].
  - destruct Hcmd as [->| ->]; by vm_compute.
  - by apply delivers_carries.
Qed.

(** A [send] that took the whole line. *)
Lemma sent_whole n line : Z.of_nat (String.length line) <= n -> sent_line n line = str_bytes line.
Proof. intros Hn. unfold sent_line. apply take_ge. rewrite str_bytes_length. lia. Qed.

(** The node holds [bytes] at [off] of file [fid]: a read of that range returns them. *)
Definition stored_at (fid : string) (off : Z) (bytes : list Z) (w : world) : Prop :=
  let len := Z.of_nat (length bytes) in
  forall e, quiet (io_env e) -> (forall n, buffer_ok e n = true) ->
  (rpc_Get se e (MkGetReq fid off len) w).1 = Some (MkGetResp bytes len 0 EmptyString).

(** One node: what it acknowledged it holds. *)
Lemma node_stores fid off bytes w w1 x id st :
  let len := Z.of_nat (length bytes) in
  fid_ok fid -> node_ready fid w -> bytes <> [] -> 0 <= off -> off + len < 2 ^ 63 -> len < 2 ^ 31 ->
  Z.of_nat (String.length (write_request fid off len)) <= header_sent x ->
  served_write (sent_line (header_sent x) (write_request fid off len) ++ bytes) w w1 x ->
  write_ack x id len st -> stored_at fid off bytes w1.
Proof.
  intros len Hf [Hr Hreg] Hne H0 Hoff Hlen Hwl (conn & t & e & acts & Hq1 & Hq2 & Hcar & Hh & Hrep)
    (_ & _ & _ & _ & Hok) e' Hq' Hb.
  rewrite Hrep in Hok. simpl in Hok. rewrite sent_whole in Hcar by done.
  apply line_carries in Hcar; [| done | unfold UINT64_MAX; lia | unfold len, UINT64_MAX; lia | by left].
  destruct (ok_reply_stored se t e e' fid off bytes w conn acts w1) as (n & -> & Hg); done.
Qed.

(** And what it holds it reports. *)
Lemma node_keeps fid off bytes w1 y id st' v :
  let len := Z.of_nat (length bytes) in
  fid_ok fid -> bytes <> [] -> 0 <= off -> off + len < 2 ^ 63 -> len < 2 ^ 31 ->
  stored_at fid off bytes w1 ->
  Z.of_nat (String.length (read_request fid off len)) <= rx_header y ->
  served_read (sent_line (rx_header y) (read_request fid off len)) w1 y ->
  reports y id len st' v -> v = bytes.
Proof.
  intros len Hf Hne H0 Hoff Hlen Hst Hrl (conn' & e' & acts' & w2 & chunks & Hq' & Hb & Hcar' & Hh' & Hans & Hch & Hrx) Hv.
  rewrite sent_whole in Hcar' by done.
  rewrite <- (app_nil_r (str_bytes _)) in Hcar'.
  apply line_carries in Hcar'; [| done | unfold UINT64_MAX; lia | unfold len, UINT64_MAX; lia | by right].
  pose proof (storage_read_serves se e' fid off bytes w1 conn' _ w2 Hf Hne H0 Hoff Hlen (Hst e' Hq' Hb) Hcar' Hh') as Hbytes.
  revert Hv. unfold reports, read_value. destruct (storage_interface_get_node st' id); [| done].
  cbn [mbind option_bind]. destruct (_ && _); [| done]. rewrite Hans in Hbytes.
  rewrite Hrx. unfold len. rewrite (recv_loop_all chunks [] bytes) by done. simpl. congruence.
Qed.

(** ** Through the frontend *)

(** What was sent between two states. *)
Definition sent_since (st st' : storage_interface) : list (Z * list Z) :=
  drop (length (wire st)) (wire st').

(** The storage nodes while [Write] takes the frontend from [s] to [s'] and [Get] from [s']
    to [s2]: node [k] of the replicas is in state [W k], then [W1 k].  Of a replica that
    acknowledges or reports a value, what the frontend sent to it on this occasion went
    through a connection of its adapter, and the answer is the adapter's.  Request lines
    are not cut short by [send]. *)
Record replicas_serve (env env2 : fe_env) (s s' s2 : frontend) (ids : list Z) (fid : string) (pos len : Z)
    (W W1 : nat -> world) : Prop := {
  rs_ready : forall k, node_ready fid (W k);
  rs_writes : forall k id b, ids !! k = Some id ->
    write_ack (fe_writes env k) id len (g_storage s) ->
    (id, b) ∈ sent_since (g_storage s) (g_storage s') ->
    Z.of_nat (String.length (write_request fid pos len)) <= header_sent (fe_writes env k) /\
    served_write b (W k) (W1 k) (fe_writes env k);
  rs_reads : forall k id v b, ids !! k = Some id ->
    reports (fe_reads env2 k) id len (g_storage s') v ->
    (id, b) ∈ sent_since (g_storage s') (g_storage s2) ->
    Z.of_nat (String.length (read_request fid pos len)) <= rx_header (fe_reads env2 k) /\
    served_read b (W1 k) (fe_reads env2 k);
}.

End Nodes.

(** After a successful write the path resolves to the entry with its replicas unchanged. *)
Lemma write_keeps_replicas env req s resp s' e :
  let p := c_str (normalize_path (write_pathname req)) in
  fe_inv s -> env_ok env -> fe_Write env req s = Some (resp, s') -> write_status resp = 0 ->
  resolve s p = Some e ->
  num_storage_nodes e <> 0 /\ fe_inv s' /\
  exists ids e', replica_ids e = Some ids /\ resolve s' p = Some e' /\ file_id e' = file_id e /\
    replica_ids e' = Some ids /\ num_storage_nodes e' = num_storage_nodes e /\
    quorum_required e <= write_acks env s ids (Proto.write_data req).
Proof.
  intros p Hs Henv Hw Hw0 Hr. apply write_branches in Hw as [Hs' Hw]; try done. fold p in Hw.
  destruct Hw as [(Hbad & _)|(e' & Hr' & Hw)]; [rewrite Hbad in Hw0; discriminate |].
  rewrite Hr in Hr'. injection Hr' as <-.
  case_decide as Hn; [destruct Hw as [Hbad _]; rewrite Hbad in Hw0; discriminate |].
  destruct Hw as (ids & Hids & Hw). split_and!; [done | done |]. exists ids.
  case_decide as Hq; [| destruct Hw as (Hbad & _); rewrite Hbad in Hw0; discriminate].
  destruct Hw as [(_ & _ & Hre)|(Hbad & _)]; [| rewrite Hbad in Hw0; discriminate].
  specialize (Hre p). rewrite decide_True in Hre by done. eexists. split; [done |]. split; [exact Hre |].
  destruct (grown_frame (fe_time env) (write_position (Proto.write_offset req) e)
    (Z.of_nat (length (Proto.write_data req))) e) as (Hfid & _ & Hst & Hnum).
  split; [exact Hfid |]. unfold replica_ids in *. by rewrite Hst, Hnum.
Qed.

(** What a local read sends, and that it stops once a majority has answered. *)
Lemma get_traffic env req s resp s' e ids :
  let len := read_length (get_offset req) (get_size req) e in
  fe_inv s -> resolve s (c_str (normalize_path (get_pathname req))) = Some e ->
  num_storage_nodes e <> 0 -> replica_ids e = Some ids ->
  fe_Get env req s = Some (resp, s') -> get_status resp = 0 ->
  exists n,
    sent_since (g_storage s) (g_storage s') =
      traffic (fun k id => read_sent (fe_reads env k) id (file_id e) (u64 (get_offset req)) len (g_storage s)) 0 (take n ids) /\
    quorum_required e <=
      tally (fun k id => reports (fe_reads env k) id len (g_storage s) (got resp)) 0 (take n ids).
Proof.
  intros len Hs Hr Hn Hids Hrun H0. revert Hrun. unfold fe_Get.
  set (p := c_str _) in *. unfold resolve in Hr. apply bind_Some in Hr as (a & Ha & [= He]).
  destruct (deref_ok _ _ _ Hs Ha) as [_ Hok]. rewrite He in Hok. rewrite Ha, He, decide_False by done.
  fold len. intros (ids' & Hids' & ([v st] & Hrd & Hrun)%bind_Some)%bind_Some.
  rewrite Hids in Hids'. injection Hids' as <-. destruct (replica_ids_len e ids Hok Hids) as [_ Hlen].
  destruct (read_replicas_wire _ _ _ _ _ _ _ _ _ _ _ Hrd) as (n & Hw & Hq).
  { intros w. rewrite lookup_empty. simpl. lia. }
  destruct v as [w|]; injection Hrun as <- <-; [| discriminate H0]. exists n. unfold sent_since. cbn [g_storage got].
  rewrite Hw, drop_app_length. split; [done |]. specialize (Hq w eq_refl). by rewrite lookup_empty in Hq.
Qed.

Lemma write_then_read_back se env env2 req resp s s' e ids resp2 s2 W W1 :
  let p := c_str (normalize_path (write_pathname req)) in
  let bytes := Proto.write_data req in
  let len := Z.of_nat (length bytes) in
  let pos := written_at (Proto.write_offset req) e in
  fe_inv s -> env_ok env -> resolve s p = Some e -> replica_ids e = Some ids -> fid_ok (file_id e) ->
  bytes <> [] -> pos + len < 2 ^ 63 -> len < 2 ^ 31 ->
  replicas_serve se env env2 s s' s2 ids (file_id e) pos len W W1 ->
  fe_Write env req s = Some (resp, s') -> write_status resp = 0 ->
  fe_Get env2 (MkGetReq (write_pathname req) pos len) s' = Some (resp2, s2) -> get_status resp2 = 0 ->
  num_storage_nodes e < 2 * write_acks env s ids bytes /\
  (forall k id, ids !! k = Some id -> id <> 0 -> write_ack (fe_writes env k) id len (g_storage s) ->
     stored_at se (file_id e) pos bytes (W1 k)) /\
  got resp2 = bytes.
Proof.
  intros p bytes len pos Hs Henv Hr Hids Hf Hne Hoff Hlen Hserve Hw Hw0 Hg Hg0.
  destruct (write_keeps_replicas env req s resp s' e Hs Henv Hw Hw0 Hr)
    as (Hn & Hs' & ids' & e' & Hi & Hr' & Hfid & Hids' & Hn' & Hack).
  rewrite Hids in Hi. injection Hi as <-.
  assert (H0 : 0 <= pos).
  { unfold pos, written_at. case_decide; [| apply u64_range].
    apply resolve_spec in Hr as (Hv & _); [| done]. by apply size_u64, (inv_entries _ Hs _ _ Hv). }
  destruct (write_traffic env req s resp s' e ids Hs Henv Hw Hr Hn Hids) as (rb & Hwire & Hrb).
  destruct Hrb as [->|(Hbad & _)]; [| rewrite Hbad in Hw0; discriminate]. rewrite app_nil_r in Hwire. fold pos bytes in Hwire.
  destruct (get_traffic env2 (MkGetReq (write_pathname req) pos len) s' resp2 s2 e' ids Hs' Hr' ltac:(by rewrite Hn') Hids' Hg Hg0) as (n & Hsent & Hrep).
  cbn [get_offset get_size] in *.
  assert (Hrl : read_length pos len e' = len).
  { unfold read_length. assert (0 < len) by (unfold len; destruct bytes; [done | simpl; lia]).
    rewrite !u64_small by lia. by rewrite decide_False by lia. }
  rewrite Hrl, Hfid, u64_small in * by lia. rewrite tally_take in Hrep.
  assert (He' : entry_ok e') by (apply resolve_spec in Hr' as (Hv & _); [| done]; by eapply (inv_entries _ Hs')).
  destruct (replica_ids_len e' ids He' Hids') as [Hl _].
  destruct Hserve as [Hready Hws Hrs].
  assert (Hstored : forall k id, ids !! k = Some id -> id <> 0 -> write_ack (fe_writes env k) id len (g_storage s) ->
    stored_at se (file_id e) pos bytes (W1 k)).
  { intros k id Hk Hid Hp.
    destruct (Hws k id (sent_line (header_sent (fe_writes env k)) (write_request (file_id e) pos len) ++ bytes) Hk Hp)
      as [Hwl Hsw].
    - unfold sent_since. rewrite Hwire, drop_app_length. apply elem_of_traffic. exists k, id.
      split_and!; [done | done |]. cbn [Nat.add]. rewrite write_sent_ack by done. by apply list_elem_of_singleton.
    - by eapply (node_stores se (file_id e) pos bytes (W k) (W1 k)). }
  assert (Hmaj : num_storage_nodes e < 2 * write_acks env s ids bytes) by (by apply majority_quorum).
  split_and!; [done | done |].
  destruct (tally_meet (fun k id => write_ack (fe_writes env k) id len (g_storage s))
    (fun k id => (k < 0 + n)%nat /\ reports (fe_reads env2 k) id len (g_storage s') (got resp2)) 0 ids)
    as (k & id & Hk & Hid & Hp & Hkn & Hq).
  { unfold write_acks in Hmaj. fold len in Hmaj. apply majority_quorum in Hrep. rewrite Hn' in Hrep, Hl. lia. }
  cbn [Nat.add] in *.
  destruct (Hrs k id (got resp2) (sent_line (rx_header (fe_reads env2 k)) (read_request (file_id e) pos len)) Hk Hq)
    as [Hrl' Hsr].
  { rewrite Hsent. apply elem_of_traffic. exists k, id. split_and!; [by rewrite lookup_take_lt | done |].
    cbn [Nat.add]. erewrite read_sent_value by done. by apply list_elem_of_singleton. }
  by eapply (node_keeps se (file_id e) pos bytes (W1 k)); eauto.
Qed.

(** C3: the system keeps what it acknowledged. A client writes bytes through a frontend to
    a file on storage nodes and is answered with success: then more than half of the
    replicas acknowledged and every one that did holds the bytes at the end of the file or
    the requested offset; and if a read of that range right afterwards is answered with
    success, it returns exactly these bytes. What the
    frontend sends to a node that acknowledges or answers goes through a connection of
    the node's TCP adapter and a handler of its RPC server, the request line in one
    piece, and the disks of these nodes have not failed; a minority of the nodes may have
    failed or have missed the write. No other request is served in between, and no other
    proposer's entry arrives. *)
Theorem system_write_then_read se env env2 req resp s s' e ids resp2 s2 W W1 :
  let p := c_str (normalize_path (write_pathname req)) in
  let bytes := Proto.write_data req in
  let len := Z.of_nat (length bytes) in
  let pos := written_at (Proto.write_offset req) e in
  fe_inv s -> env_ok env -> resolve s p = Some e -> replica_ids e = Some ids -> fid_ok (file_id e) ->
  bytes <> [] -> pos + len < 2 ^ 63 -> len < 2 ^ 31 ->
  replicas_serve se env env2 s s' s2 ids (file_id e) pos len W W1 ->
  fe_Write env req s = Some (resp, s') -> write_status resp = 0 ->
  fe_Get env2 (MkGetReq (write_pathname req) pos len) s' = Some (resp2, s2) -> get_status resp2 = 0 ->
  num_storage_nodes e < 2 * write_acks env s ids bytes /\
  (forall k id, ids !! k = Some id -> id <> 0 -> write_ack (fe_writes env k) id len (g_storage s) ->
     stored_at se (file_id e) pos bytes (W1 k)) /\
  got resp2 = bytes.
Proof. apply write_then_read_back. Qed.

(** ** One write and one read *)

(** The write of [FrontendDemo] with real storage nodes: two of the three serve it. *)
Definition sys_line : string := write_request "id-2" 0 3.

Definition w_stored : world := (rpc_Write no_text demo_rpc (MkWriteReq "id-2" demo_bytes 0) w_empty).2.

Definition sys_env : fe_env :=
  MkFeEnv "" 1000 1000 1700000000 true (demo_schedule 196609)
    (fun k => MkExch true 20 [3] (if decide (k = 2)%nat then None else Some (dec_str (write_reply 3))) EmptyString)
    (fun k => MkReadX (fun _ => true) true 20 (if decide (k = 2)%nat then [None] else Some <$> [[104]; [105; 33]]))
    (fun _ => MkDelX true 20 None) false (Some 1) (Some 3) (fun _ _ => None).

Definition fe_stored : frontend := after (fe_Write sys_env write_req fe2).

Lemma stored_eq : fe_Write sys_env write_req fe2 = Some (MkWriteResp 3 0 "", fe_stored).
Proof. unfold fe_stored. apply after_eq. vm_compute. reflexivity. Qed.

Definition back_req : GetRequest := MkGetReq (write_pathname write_req) 0 (Z.of_nat (length demo_bytes)).

Definition fe_read : frontend := after (fe_Get sys_env back_req fe_stored).

Lemma read_back_eq : fe_Get sys_env back_req fe_stored = Some (MkGetResp demo_bytes 3 0 "", fe_read).
Proof. unfold fe_read. apply after_eq. vm_compute. reflexivity. Qed.

Lemma node_served :
  handle_client (H := rpc_service no_text) (one_recv sys_line demo_bytes) no_loss demo_rpc w_empty =
    Some (answer_and_close (write_reply 3), w_stored).
Proof. vm_compute. reflexivity. Qed.

Lemma node_answers :
  handle_client (H := rpc_service no_text) (one_recv (read_request "id-2" 0 3) []) no_loss demo_rpc w_stored =
    Some (answer_and_close demo_bytes, (rpc_Get no_text demo_rpc (MkGetReq "id-2" 0 3) w_stored).2).
Proof. vm_compute. reflexivity. Qed.

Lemma one_recv_delivers line data :
  10 ∈ str_bytes line -> (length (str_bytes line ++ data) <= 8191)%nat ->
  delivers (str_bytes line ++ data) (one_recv line data).
Proof.
  intros Hnl Hl. exists (str_bytes line ++ data), []. split_and!; try done; [by rewrite app_nil_r |].
  apply elem_of_app. by left.
Qed.

(** What is sent to each replica. *)
Lemma sys_sent_write :
  sent_since (g_storage fe2) (g_storage fe_stored) = (fun id => (id, str_bytes sys_line ++ demo_bytes)) <$> demo_ids.
Proof. vm_compute. reflexivity. Qed.

Lemma sys_sent_read :
  sent_since (g_storage fe_stored) (g_storage fe_read) =
    (fun id => (id, str_bytes (read_request "id-2" 0 3))) <$> take 2 demo_ids.
Proof. vm_compute. reflexivity. Qed.

Lemma sys_serves :
  replicas_serve no_text sys_env sys_env fe2 fe_stored fe_read demo_ids "id-2" 0 3 (fun _ => w_empty) (fun _ => w_stored).
Proof.
  split.
  - intros _. split; [apply quiet_init |]. intros i Hi. exfalso. revert Hi. vm_compute. discriminate.
  - intros k id b _ (_ & _ & _ & _ & Hok) Hin. cbn [sys_env fe_writes reply header_sent] in *.
    destruct (decide (k = 2)%nat); [done |]. split; [vm_compute; congruence |].
    rewrite sys_sent_write in Hin. apply list_elem_of_fmap in Hin as (id' & [= _ ->] & _).
    exists (one_recv sys_line demo_bytes), no_loss, demo_rpc, (answer_and_close (write_reply 3)).
    split_and!; [apply demo_quiet | apply demo_quiet | | apply node_served | cbn [reply]; by rewrite sent_answer].
    apply one_recv_delivers; [apply (bool_decide_unpack _); vm_compute; exact I | apply Nat.leb_le; vm_compute; reflexivity].
  - intros k id v b _ Hv Hin. cbn [sys_env fe_reads rx_header] in *.
    destruct (decide (k = 2)%nat).
    { exfalso. revert Hv. unfold reports, read_value. by destruct (storage_interface_get_node _ _). }
    split; [vm_compute; congruence |].
    rewrite sys_sent_read in Hin. apply list_elem_of_fmap in Hin as (id' & [= _ ->] & _).
    exists (one_recv (read_request "id-2" 0 3) []), demo_rpc, (answer_and_close demo_bytes). eexists. exists [[104]; [105; 33]].
    split_and!; [apply demo_quiet | done | | apply node_answers | by rewrite sent_answer | | done].
    + pose proof (one_recv_delivers (read_request "id-2" 0 3) []) as Hd. rewrite app_nil_r in Hd.
      apply Hd; [apply (bool_decide_unpack _); vm_compute; exact I | apply Nat.leb_le; vm_compute; reflexivity].
    + repeat (apply list.Forall_cons; split; [discriminate |]). apply list.Forall_nil_2.
Qed.

Lemma sys_env_ok : env_ok sys_env.
Proof. exact (demo_env_ok "" 196609). Qed.

Lemma entry2_id : file_id entry2 = "id-2"%string /\ written_at 0 entry2 = 0.
Proof. vm_compute. done. Qed.

Lemma sys_fid_ok : fid_ok "id-2".
Proof.
  split; [done | vm_compute; lia | | | by vm_compute |];
    apply (bool_decide_unpack _); vm_compute; exact I.
Qed.

Lemma system_write_then_read_witness :
  3 < 2 * write_acks sys_env fe2 demo_ids demo_bytes /\ stored_at no_text "id-2" 0 demo_bytes w_stored /\
  got (MkGetResp demo_bytes 3 0 "") = demo_bytes.
Proof.
  destruct entry2_id as [Hid Hpos].
  pose proof (system_write_then_read no_text sys_env sys_env write_req (MkWriteResp 3 0 "") fe2 fe_stored
    entry2 demo_ids (MkGetResp demo_bytes 3 0 "") fe_read (fun _ => w_empty) (fun _ => w_stored)) as Hsys.
  cbv zeta in Hsys. change (Proto.write_data write_req) with demo_bytes in Hsys.
  change (Proto.write_offset write_req) with 0 in Hsys. rewrite Hid, Hpos in Hsys.
  fold back_req in Hsys.
  destruct Hsys as (Hmaj & Hst & Hgot).
  - apply demo_inv, fe2_reachable.
  - apply sys_env_ok.
  - apply entry2_resolved.
  - vm_compute. reflexivity.
  - apply sys_fid_ok.
  - discriminate.
  - vm_compute. reflexivity.
  - vm_compute. reflexivity.
  - apply sys_serves.
  - apply stored_eq.
  - reflexivity.
  - apply read_back_eq.
  - reflexivity.
  - split; [exact Hmaj |]. split; [| exact Hgot].
    apply (Hst 0%nat 101); [reflexivity | discriminate | apply (bool_decide_unpack _); vm_compute; exact I].
Defined.
